(* ===== verification/_CoqProject ===== *)
-Q . S2P
Prelude.v
PyStr.v
Argparse.v
Regex.v
Paths.v
Deps.v
Veridepend.v
PyFloat.v
Json.v
Parsy.v
Aggregate.v
DepGraph.v
LineCount.v
Report.v
Suite.v
Automation.v
Experiment.v
Launch.v
VerifTime.v
Trace.v
PerfLog.v
Profile.v
Renaminator.v
Instances.v
Latex.v
Study.v
VerifPlot.v
Bench.v
Atomics.v
HeapPlots.v
Tladfy.v
TladfyGrammar.v
Figures.v
TimeSeries.v
NrPlot.v
BtreePlots.v
Fleet.v
Drivers.v
Snapshots.v
Leakfinder.v
ExportSet.v
DocFigures.v
Mkfs.v
