(* ===== verification/Prelude.v ===== *)
(** * Verification of the VeriBetrFS build and experiment tools

    VeriBetrFS is a file system verified in Dafny.  Its Dafny sources carry
    their own proofs; what decides whether those proofs are run, counted and
    reported correctly is a layer of Python tools, and that layer is what this
    library models and verifies.

    ** The program

    - Building.  [tools/lib_deps.py] reads the include lines of the sources,
      checks that trusted files (.s.dfy) include only trusted files, and computes
      dependency closures; [tools/veridepend.py] turns them into make rules;
      [tools/lib_aggregate.py] and [tools/aggregate-verchk.py] classify the logs
      Dafny leaves and report the worst one; [tools/dep-graph.py] draws the graph
      with the classification of each file.
    - Counting.  [tools/line_count_lib.py] and [tools/line_counter.py] count the
      specification, implementation and proof lines of a file;
      [tools/line_counter_report_lib.py] bills them to the rows of a table.
    - Experiments.  [tools/aws/suite.py] builds suites of variants,
      [tools/aws/automation.py] hands them to workers over ssh, the launch
      scripts, [row-cache-experiment.py] and [verification-time-experiment.py]
      declare suites and commands, [tools/run-veri-config-experiment.py] runs one
      variant, [describe-instances.py] and [scale-workers.py] manage the fleet.
      The one-line scripts of [tools/aws] run one command on every worker;
      [concurrency/node-replication/bench.py] drives another benchmark.
    - Reading results.  [tools/plot/parser.py] parses the log of a run into
      traces, [tools/plot/PlotHelper.py] turns traces into the curves of the
      figures that [tools/plot/perf-compare.py] compares;
      [plot-verification-time.py] reads the logs of verification runs,
      [plot-linear-experiments.py] those of a B-tree benchmark, and the scripts
      of [malloc-exp] the reports of the allocator;
      [tools/dafny-profile.py] and [tools/profile-reader.py] tally quantifier
      instantiations; [tools/automation-study.py] counts opaque definitions and
      dead lemmas; [tools/leakfinder_analyze.py] groups leak traces.
    - Editing and generating.  [tools/renaminator.py] moves sources and rewrites
      includes; [tladfy.py] translates a notation for state machines;
      [tools/dafny-export-set.py] and [concurrency/framework/gen.py] print
      declarations; [tools/capture_timeout.py] and
      [tools/continuous-integration.py] keep snapshots and reports.

    ** The library

    Layer 0, the Python the tools use.
    - [Prelude]: exceptions and the result monad [res], loops over it, sorting
      (class [WeakOrder]), slices, the iteration order of sets (class
      [SetOrder]), shared lemmas on lists, the hint database [py].
    - [PyStr]: strings as lists of characters; str methods, [int], decimal
      numerals, reading by lines.
    - [Argparse]: command lines as argparse reads them, with the class
      [CommandLine] of what a script promises about its options.
    - [Regex]: the backtracking matcher of [re] for the constructs in use, a
      declarative semantics [matches] and their equivalence.
    - [Paths]: posixpath ([join], [normpath], [abspath], [relpath], [dirname])
      and [normPathToRoot] of lib_deps.py.
    - [PyFloat]: binary64 floats, parsing and printing.
    - [Json]: what json prints and reads for the values the tools exchange.
    - [Parsy]: the terms of the parsy package, its documented laws as a class and
      a fuelled instance for one grammar shape.

    Layer 1, the tools; each file translates the functions of its source under
    the names they have there.
    - [Deps] (lib_deps.py): [IncludeReference] is [iref]; [includePaths],
      [childrenForIref], [depsFromDfySource] (a worklist, [explore]),
      [depsFromDfySources], [targetName].  A file system is a map from absolute
      paths to contents.
    - [Veridepend] (veridepend.py and [toposortGroup] of lib_deps.py): the
      toposort package is the class [Toposort] with its documented laws; an
      instance shows they can hold.
    - [Aggregate] (lib_aggregate.py, aggregate-verchk.py).
    - [DepGraph] (dep-graph.py): [Traverser] is a record threaded through [visit].
    - [LineCount] (line_count_lib.py, line_counter.py): dafny, egrep and
      sloccount are parameters.
    - [Report] (line_counter_report_lib.py): dicts and counters are association
      lists in insertion order; the mappers are instances of the class [Mapper].
    - [Suite] (suite.py): values and variables live in a [heap], because a value
      points back to the variable it belongs to.
    - [Automation] (automation.py): the launcher is a state machine whose rounds
      are driven by what [poll] reports.
    - [Drivers] (automation.py, the launch scripts): the same launchers with
      the log, the index and colour of every worker, the commands started and the
      exceptions, and the main of each script.
    - [Experiment] (run-veri-config-experiment.py): an I/O monad over files and
      the trace of commands; [autoconfig].
    - [Launch] (launch-btree.py, launch-experiments.py, launch-ycsb-benchmarks.py,
      row-cache-experiment.py), [VerifTime] (verification-time-experiment.py).
    - [Trace] (traces of parser.py and the readers of PlotHelper.py), [PerfLog]
      (the [Experiment] class of parser.py).
    - [Profile] (dafny-profile.py, profile-reader.py).
    - [Renaminator] (renaminator.py).
    - [Instances] (describe-instances.py, scale-workers.py).
    - [Fleet] (automation.py's [retrieve_running_workers] and log; kill-jobs.py,
      ls-jobs.py, pull-results.py, run-all.py, shell.py).
    - [Latex] (the constants two scripts write for the paper), [Study]
      (automation-study.py: the grep with its two tables), [VerifPlot]
      (plot-verification-time.py: piles of reports with a cache of times).
    - [Figures] (the plot functions of PlotHelper.py, perf-compare.py): a figure
      is the list of its curves.  [HeapPlots] (plot-histogram.py,
      plot-timeseries.py), [BtreePlots] (plot-linear-experiments.py), [NrPlot]
      (node-replication/plot.py, over a class of frames) and [DocFigures]
      (related-system-sizes.py, jonh-linear-perf.py) likewise.  [TimeSeries]
      (TimeSeries.py): a class that uses attributes it never sets, with what
      each method raises.
    - [Bench] (bench.py), [Snapshots] (capture_timeout.py,
      continuous-integration.py, quadratic-test.py): scripts as lists of events.
    - [Tladfy] (tladfy.py): parse trees and the walk that edits them;
      [TladfyGrammar]: the grammar, a term of [Parsy], and the script; [Atomics]
      (gen.py), [ExportSet] (dafny-export-set.py), [Leakfinder]
      (leakfinder_analyze.py), [Mkfs] (scache/mkfs.py).

    How they interact: [Veridepend] and [DepGraph] call [Deps]; [DepGraph] and
    [LineCount] call [Aggregate]; [Report] reads the JSON [LineCount] writes;
    [Launch] and [VerifTime] build on [Suite] and [Automation], and [Launch]
    compares its command lines with the parser of [Experiment]; [VerifTime] lists
    its sources with [Deps]; [Instances], [Fleet], [Report] and [Profile] declare
    their options with [Argparse]; [Fleet] finds the workers in the JSON that
    [Instances] prints for the options [Fleet] sends it; [Drivers] runs the suites
    of [Launch] and [VerifTime] on the workers of [Fleet], from the command line
    on, and refines [Automation]; [PerfLog] fills the traces of [Trace], [Figures]
    draws the runs [PerfLog] reads, and [HeapPlots] shares its allocation rows;
    [Fleet] launches with [Automation]; [Study] reads back the records its own
    first pass prints; [Study] and [VerifPlot] read the sources
    [Deps] finds and write the constants of [Latex]; [Snapshots] copies the
    files [Deps] finds.

    ** What the theorems show

    A theorem that is a property of the program is marked C<n> in its comment.
    - Dependencies: the traversals terminate and find exactly the reachable
      files, each once; everything reachable from a trusted file is trusted; the
      recursive and the worklist traversal agree; the order written for make puts
      every file after what it includes, and the top-level target reaches the
      verification of every dependency.
    - Verdicts: the classification of a log for all counts, and that the report
      of a build is the worst of its parts.
    - Counting: cleaning keeps exactly the counted lines, the three counts of a
      file add up, the very values written for a file are those its report is made
      of, the rows of the table add up to its total, and what makes a table fail.
    - Experiments: a suite is a product with distinct result files; in every
      reachable state of the launcher no worker is lost or shared and tasks are
      assigned once in order, and it ends; the list of running workers, with its
      order and repetitions; a whole launch script starts every task on a worker the
      service lists as running, and its log says so; a run of an experiment executes
      the commands its configuration calls for, in order, and nothing after a
      failure; splicing replaces exactly one line; which arguments are ignored,
      required or refused.
    - Results: a read of a trace is the sample or the interpolation; the parsed
      log is consistent; profiles accumulate; printed rows, histograms and logs
      read back, through the JSON on disk where the code goes through it; a figure holds one curve per run and quantity in a fixed style;
      distributions are the shares of the weights; merged results lose nothing;
      bogus workers are dropped and the quoted points of a distribution are
      exact; the grep of the study sees exactly the code.
    - Editing and generating: the commands of a move rewrite exactly the includes
      spelled as the relative path to the file, and each new include leads to the
      new place; a state machine becomes its declarations and nothing else of the text changes; the
      grammar accepts exactly what its terms describe and its tree spells the
      text read; the walk fails only in a file with a state machine, where a parameter
      list does not parse; generated bounds denote the powers of two.
    - Command lines: what is written out in full is read as it was meant, by
      every parser; a namespace holds values of the declared kinds or the parse
      is refused; scale-workers.py for every command line; dafny-profile.py, whose report is that
      of the options given.
    - Drivers: every benchmark is scheduled once per thread count, twice on a machine of
      four cores; the one-liners reach every
      worker; a snapshot holds every file whose name is unique.

    Several theorems describe what the code does where a comment or a sibling
    tool expects something else; these are listed as findings of the project.

    ** Fuel and bounds

    Recursion that is not structural carries fuel and a theorem that the fuel
    given is enough: [explore] gets one step per line of all files plus one
    ([deps_terminate]); [visit] one level per file plus one; [star_loop] one
    round per remaining character, since a round that consumes nothing ends the
    loop; [bisect_loop] the length of the list; [dec_fuel] one step per binary
    digit; [reorder_fuel] one level per element ([reorder_fuel_perm]);
    [walk_fuel] one level more than the height of the tree ([walk_total]); [peg]
    one level per character plus two ([peg_ends]); [loads] two units per character
    plus two ([loads_dumps]); [sequenced_loop] and the loops of [Drivers] any fuel
    above the rounds the jobs take ([launcher_completes], [sequenced_completes]
    and [monitor_completes] show that there is such a bound).  Integers are unbounded as in Python;
    floats are binary64, and an integer too large for a float raises
    [OverflowError].  Text is ASCII: the non-ASCII members of classes such as the
    digits of [re] are left out.

    ** What is not modelled

    The Dafny sources, the C++ and Rust runtime and the shell scripts; the
    help texts of command-line arguments and most console output; what external
    programs and services do (they are parameters); how long a script sleeps;
    Python's limit on the depth of recursion (a file of blocks nested some hundred
    deep makes tladfy.py raise [RecursionError]); opening a log file in a directory
    that does not exist; a data frame without the columns of the results, which
    pandas makes of an empty data.json;
    matplotlib's and plotnine's drawing, with the titles, axis labels, limits and
    legend boxes of the figures; plot-heap-vs-malloc.py, which does not parse. *)
From stdpp Require Export base tactics list strings gmap sorting.
From Stdlib Require Export Ascii Lia.

(** ** Python exceptions and the result monad

    A Python computation that may raise is a value of [res A].  The
    exceptions the modelled code can raise or catch are the constructors of
    [exn]; classes the program defines itself carry their payload. *)

Inductive exn :=
  | AssertionError
  | IndexError
  | KeyError
  | ValueError
  | TypeError
  | AttributeError
  | StopIteration
  | ZeroDivisionError
  | OverflowError
  | IOError
  | NameError (name : string)
  | SystemExit
  | ParseError
  | UsageError (msg : list ascii)
  | PyException (msg : list ascii)
  | IncludeNotFound (path : list ascii) (referencing : option (list ascii))
  | IncompatibleIncludeTrustedness (i_file s_file : list ascii)
  | OutOfFuel.

Inductive res (A : Type) :=
  | Ok (a : A)
  | Raise (e : exn).
Arguments Ok {_} _.
Arguments Raise {_} _.

#[export] Instance res_ret : MRet res := fun _ a => Ok a.
#[export] Instance res_bind : MBind res := fun _ _ f m =>
  match m with Ok a => f a | Raise e => Raise e end.
#[export] Instance res_fmap : FMap res := fun _ _ f m =>
  match m with Ok a => Ok (f a) | Raise e => Raise e end.

(** [assert b] of Python. *)
Definition py_assert (b : bool) : res unit :=
  if b then Ok tt else Raise AssertionError.

Definition is_Ok {A} (m : res A) : bool := match m with Ok _ => true | Raise _ => false end.

(** A [for] loop whose body updates a state and may raise. *)
Fixpoint for_each {S A} (f : S -> A -> res S) (l : list A) (s : S) : res S :=
  match l with
  | [] => Ok s
  | x :: l' => s' ← f s x; for_each f l' s'
  end.

(** A list comprehension whose element expression may raise. *)
Fixpoint map_res {A B} (f : A -> res B) (l : list A) : res (list B) :=
  match l with
  | [] => Ok []
  | x :: l' => y ← f x; ys ← map_res f l'; Ok (y :: ys)
  end.

Definition of_option {A} (e : exn) (o : option A) : res A :=
  match o with Some a => Ok a | None => Raise e end.

(** Python's [l[i]] for a non-negative constant [i]. *)
Definition nth_res {A} (l : list A) (i : nat) : res A :=
  of_option IndexError (l !! i).

Lemma bind_of_Ok {A B} (a : A) (f : A -> res B) : (Ok a ≫= f) = f a.
Proof. done. Qed.

Lemma bind_Ok {A B} (m : res A) (f : A -> res B) b :
  (m ≫= f) = Ok b <-> exists a, m = Ok a /\ f a = Ok b.
Proof. destruct m; cbn; naive_solver. Qed.

Lemma bind_Raise {A B} (m : res A) (f : A -> res B) e :
  (m ≫= f) = Raise e <-> m = Raise e \/ exists a, m = Ok a /\ f a = Raise e.
Proof. destruct m; cbn; naive_solver. Qed.

Lemma py_assert_Ok b u : py_assert b = Ok u <-> b = true.
Proof. destruct b, u; cbn; naive_solver. Qed.

Lemma forallb_Forall_true {A} (p : A -> bool) l : forallb p l = true -> Forall (fun x => p x = true) l.
Proof. induction l; cbn; [constructor|]. intros [? ?]%andb_true_iff. constructor; auto. Qed.

Lemma map_res_imap {A B C} (f : nat * A -> res B) (g : C -> A) (h : nat -> C -> B) l :
  (forall i x, f (i, g x) = Ok (h i x)) -> map_res f (imap pair (map g l)) = Ok (imap h l).
Proof.
  intros H. cut (forall k, map_res f (imap (fun i => pair (k + i)) (map g l)) = Ok (imap (fun i => h (k + i)) l)).
  { intros H0. exact (H0 0). }
  induction l as [|x l IH]; intros k; [done|]. cbn [map]. rewrite !imap_cons. cbn [map_res]. rewrite H, bind_of_Ok.
  assert (E1 : imap ((fun i => pair (k + i)) ∘ S) (map g l) = imap (fun i => pair (S k + i)) (map g l)).
  { apply imap_ext. intros i y _. unfold compose. f_equal. lia. }
  assert (E2 : imap ((fun i => h (k + i)) ∘ S) l = imap (fun i => h (S k + i)) l).
  { apply imap_ext. intros i y _. unfold compose. f_equal. lia. }
  rewrite E1, E2, IH. done.
Qed.

(** Scripts that read and change a state [S] and may raise; what was done before
    the exception stays done. *)
Definition script_of (S A : Type) : Type := S -> S * res A.
#[export] Instance script_ret {S} : MRet (script_of S) := fun _ a s => (s, Ok a).
#[export] Instance script_bind {S} : MBind (script_of S) := fun _ _ f m s =>
  match m s with
  | (s', Ok a) => f a s'
  | (s', Raise e) => (s', Raise e)
  end.
Definition raise {S A} (e : exn) : script_of S A := fun s => (s, Raise e).
Definition lift {S A} (m : res A) : script_of S A := fun s => (s, m).
Definition modify {S} (f : S -> S) : script_of S unit := fun s => (f s, Ok tt).
Definition get {S} : script_of S S := fun s => (s, Ok s).

(** A [for] loop whose body is a script, and the list of its results. *)
Fixpoint map_script {S A B} (f : A -> script_of S B) (l : list A) : script_of S (list B) :=
  match l with
  | [] => mret []
  | x :: l' => y ← f x; ys ← map_script f l'; mret (y :: ys)
  end.

Lemma script_bind_eq {S A B} (m : script_of S A) (f g : A -> script_of S B) s :
  (forall a s, f a s = g a s) -> (m ≫= f) s = (m ≫= g) s.
Proof. intros H. unfold mbind, script_bind. destruct (m s) as [s' [a|e]]; auto. Qed.

Lemma script_bind_assoc {S A B C} (m : script_of S A) (f : A -> script_of S B) (g : B -> script_of S C) s :
  ((m ≫= f) ≫= g) s = (m ≫= (fun a => f a ≫= g)) s.
Proof. unfold mbind, script_bind. by destruct (m s) as [s' [a|e]]. Qed.

Lemma script_run {S A B} (m : script_of S A) (f : A -> script_of S B) s s' a :
  m s = (s', Ok a) -> (m ≫= f) s = f a s'.
Proof. intros E. unfold mbind, script_bind. by rewrite E. Qed.

Lemma script_stop {S A B} (m : script_of S A) (f : A -> script_of S B) s s' e :
  m s = (s', Raise e) -> (m ≫= f) s = (s', Raise e).
Proof. intros E. unfold mbind, script_bind. by rewrite E. Qed.

(** A closed decidable proposition, by evaluation. *)
Ltac notin := apply (bool_decide_unpack _); vm_compute; exact I.

(** Splits every hypothesis that says a composite computation returned. *)
Ltac res_inv :=
  repeat match goal with
    | H : (_ ≫= _) = Ok _ |- _ => apply bind_Ok in H as (? & ? & ?)
    | H : py_assert _ = Ok _ |- _ => apply py_assert_Ok in H
    | H : Ok _ = Ok _ |- _ => injection H as H; subst
    | H : Raise _ = Ok _ |- _ => discriminate H
    | H : mret _ = Ok _ |- _ => injection H as H; subst
  end.

Lemma for_each_app {S A} (f : S -> A -> res S) l1 l2 s :
  for_each f (l1 ++ l2) s = s' ← for_each f l1 s; for_each f l2 s'.
Proof.
  revert s. induction l1 as [|x l1 IH]; intros s; cbn; [done|].
  destruct (f s x); cbn; auto.
Qed.

(** Loop invariant rule for [for_each]. *)
Lemma for_each_inv {S A} (P : S -> Prop) (f : S -> A -> res S) l s s' :
  (forall s x s', x ∈ l -> P s -> f s x = Ok s' -> P s') ->
  P s -> for_each f l s = Ok s' -> P s'.
Proof.
  revert s. induction l as [|x l IH]; intros s Hf Hs H; cbn in H.
  - by simplify_eq.
  - res_inv. eapply (IH x0); eauto.
    + intros. eapply Hf; eauto. by apply list_elem_of_further.
    + eapply Hf; eauto. by apply list_elem_of_here.
Qed.

(** A loop that returns has run its body on every element. *)
Lemma for_each_elem {S A} (f : S -> A -> res S) l s s' x :
  for_each f l s = Ok s' -> x ∈ l -> exists s1 s2, f s1 x = Ok s2.
Proof.
  revert s. induction l as [|y l IH]; intros s H Hx; [by apply not_elem_of_nil in Hx|].
  cbn in H. apply bind_Ok in H as (s1 & H1 & H). apply elem_of_cons in Hx as [->|Hx]; eauto.
Qed.

Lemma map_res_Forall2 {A B} (f : A -> res B) l l' :
  map_res f l = Ok l' <-> Forall2 (fun x y => f x = Ok y) l l'.
Proof.
  revert l'. induction l as [|x l IH]; intros l'; cbn.
  - split; [intros [= <-]; constructor | inversion 1; done].
  - split.
    + intros H. res_inv. constructor; [done|]. by apply IH.
    + inversion 1; subst. rewrite H2. cbn.
      match goal with H : Forall2 _ l ?ys |- _ => apply IH in H; rewrite H end. done.
Qed.

Lemma map_res_length {A B} (f : A -> res B) l l' :
  map_res f l = Ok l' -> length l' = length l.
Proof. intros H%map_res_Forall2. by apply Forall2_length in H. Qed.

Lemma map_res_pure {A B} (f : A -> B) l :
  map_res (fun x => Ok (f x)) l = Ok (map f l).
Proof. induction l as [|x l IH]; cbn; [done|]. by rewrite IH. Qed.

Lemma map_res_map {A B C} (f : B -> res C) (g : A -> B) l : map_res f (map g l) = map_res (fun x => f (g x)) l.
Proof. induction l as [|x l IH]; cbn; [done|]. by rewrite IH. Qed.

Lemma map_res_ext {A B} (f g : A -> res B) l : (forall x, x ∈ l -> f x = g x) -> map_res f l = map_res g l.
Proof.
  induction l as [|x l IH]; intros H; cbn; [done|]. rewrite (H x) by apply list_elem_of_here.
  rewrite IH; [done|]. intros y Hy. apply H. by apply list_elem_of_further.
Qed.

Lemma map_res_Raise {A B} (f : A -> res B) l e :
  map_res f l = Raise e -> exists x, x ∈ l /\ f x = Raise e.
Proof.
  induction l as [|x l IH]; cbn; [done|].
  rewrite bind_Raise. intros [H|(y & Hy & H)].
  - exists x. split; [apply list_elem_of_here|done].
  - rewrite bind_Raise in H. destruct H as [H|(ys & _ & [=])].
    destruct (IH H) as (z & ? & ?). exists z. split; [by apply list_elem_of_further|done].
Qed.

Lemma map_res_elem {A B} (f : A -> res B) l l' y :
  map_res f l = Ok l' -> y ∈ l' <-> exists x, x ∈ l /\ f x = Ok y.
Proof.
  intros H%map_res_Forall2. split.
  - intros (i & Hi)%list_elem_of_lookup.
    destruct (Forall2_lookup_r _ _ _ _ _ H Hi) as (x & Hx & Hf).
    exists x. split; [by apply list_elem_of_lookup_2 in Hx|done].
  - intros (x & (i & Hi)%list_elem_of_lookup & Hf).
    destruct (Forall2_lookup_l _ _ _ _ _ H Hi) as (y' & Hy & Hf').
    assert (y' = y) as -> by congruence. by apply list_elem_of_lookup_2 in Hy.
Qed.

(** Sums over a list, used by termination measures. *)
Lemma sum_list_cons n l : sum_list (n :: l) = n + sum_list l.
Proof. done. Qed.

Lemma sum_list_app l1 l2 : sum_list (l1 ++ l2) = sum_list l1 + sum_list l2.
Proof. induction l1; cbn in *; lia. Qed.

(** Grouping a list by a key: with every key listed once, the groups are a
    rearrangement of the list. *)
Lemma group_by_Permutation {A B} `{EqDecision B} (k : A -> B) (keys : list B) (l : list A) :
  NoDup keys -> (forall x, x ∈ l -> k x ∈ keys) ->
  flat_map (fun b => List.filter (fun x => bool_decide (k x = b)) l) keys ≡ₚ l.
Proof.
  intros Hnd. revert l. induction Hnd as [|b keys Hb Hnd IH]; intros l Hk.
  - destruct l as [|x l]; [done|]. by destruct (not_elem_of_nil (k x)); apply Hk, list_elem_of_here.
  - cbn. set (other := List.filter (fun x => negb (bool_decide (k x = b))) l).
    transitivity (List.filter (fun x => bool_decide (k x = b)) l ++ other).
    + apply Permutation_app_head. rewrite <- (IH other).
      * clear -Hb. induction keys as [|b' keys IHk]; [done|]. cbn.
        apply not_elem_of_cons in Hb as [Hne Hb]. rewrite IHk by done. apply Permutation_app_tail.
        unfold other. clear -Hne. induction l as [|x l IHl]; [done|]. cbn.
        repeat case_bool_decide; cbn; repeat case_bool_decide; try congruence; by rewrite IHl.
      * intros x Hx. unfold other in Hx. apply list_elem_of_In, filter_In in Hx as [Hx Hn].
        apply list_elem_of_In in Hx. case_bool_decide; [done|].
        specialize (Hk x Hx). by apply elem_of_cons in Hk as [|].
    + unfold other. clear. induction l as [|x l IHl]; [done|]. cbn.
      case_bool_decide; cbn; [by rewrite IHl|]. by rewrite <- Permutation_middle, IHl.
Qed.

Lemma NoDup_flat_map {A B} (g : A -> list B) l :
  (forall x1 x2 y, x1 ∈ l -> x2 ∈ l -> y ∈ g x1 -> y ∈ g x2 -> x1 = x2) ->
  (forall x, x ∈ l -> NoDup (g x)) -> NoDup l -> NoDup (flat_map g l).
Proof.
  intros H1 H2 H3. assert (flat_map g l = l ≫= g) as ->; [|by apply NoDup_bind].
  clear. induction l as [|x l IH]; [done|]. cbn. by rewrite IH.
Qed.

(** ** Filtering by a boolean test *)

Lemma filter_filter {A} (f g : A -> bool) l :
  List.filter g (List.filter f l) = List.filter (fun x => f x && g x) l.
Proof.
  induction l as [|x l IH]; cbn; [done|]. destruct (f x); cbn; [|done].
  destruct (g x); by rewrite IH.
Qed.

Lemma filter_ext_eq {A} (f g : A -> bool) l : (forall x, f x = g x) -> List.filter f l = List.filter g l.
Proof. intros H. induction l as [|x l IH]; cbn; [done|]. by rewrite H, IH. Qed.

Lemma filter_ext_in {A} (f g : A -> bool) l :
  (forall x, x ∈ l -> f x = g x) -> List.filter f l = List.filter g l.
Proof.
  induction l as [|x l IH]; intros H; [done|]. cbn. rewrite (H x) by apply list_elem_of_here.
  rewrite IH; [done|]. intros y Hy. apply H. by apply list_elem_of_further.
Qed.

Lemma filter_split_perm {A} (f : A -> bool) l :
  List.filter (fun x => negb (f x)) l ++ List.filter f l ≡ₚ l.
Proof.
  induction l as [|x l IH]; [done|]. cbn. destruct (f x); cbn; [|by rewrite IH].
  by rewrite <- Permutation_middle, IH.
Qed.

Lemma filter_sublist {A} (f : A -> bool) l : List.filter f l `sublist_of` l.
Proof. induction l as [|x l IH]; cbn; [done|]. destruct (f x); by constructor. Qed.

Lemma map_sublist {A B} (f : A -> B) l1 l2 : l1 `sublist_of` l2 -> map f l1 `sublist_of` map f l2.
Proof. induction 1; cbn; by constructor. Qed.

Lemma filter_length_lt {A} (f : A -> bool) l x :
  x ∈ l -> f x = false -> length (List.filter f l) < length l.
Proof.
  intros Hx Hf. induction l as [|y l IH]; [by apply not_elem_of_nil in Hx|].
  pose proof (List.filter_length_le f l) as Hle. cbn.
  apply elem_of_cons in Hx as [->|Hx]; [rewrite Hf; lia|].
  specialize (IH Hx). destruct (f y); cbn; lia.
Qed.

Lemma filter_Permutation_bool {A} (f : A -> bool) l1 l2 :
  l1 ≡ₚ l2 -> List.filter f l1 ≡ₚ List.filter f l2.
Proof.
  induction 1 as [|x l1 l2 _ IH|x y l|l1 l2 l3 _ IH1 _ IH2]; cbn; [done| | |by rewrite IH1].
  - destruct (f x); [by rewrite IH|done].
  - destruct (f x), (f y); try done. apply Permutation_swap.
Qed.

Lemma map_filter_sublist {A B} (k : A -> B) (f : A -> bool) l :
  map k (List.filter f l) `sublist_of` map k l.
Proof. induction l as [|x l IH]; cbn; [done|]. destruct (f x); by constructor. Qed.

Lemma StronglySorted_filter {A} (R : A -> A -> Prop) f l :
  StronglySorted R l -> StronglySorted R (List.filter f l).
Proof.
  induction 1 as [|x l Hs IH Hx]; cbn; [constructor|]. destruct (f x); [|done]. constructor; [done|].
  apply Forall_forall. intros y Hy%list_elem_of_In. apply filter_In in Hy as [Hy _].
  eapply Forall_forall in Hx; [exact Hx|]. by apply list_elem_of_In.
Qed.

Lemma StronglySorted_weaken {A} (R S : A -> A -> Prop) l :
  (forall a b, R a b -> S a b) -> StronglySorted R l -> StronglySorted S l.
Proof. intros HRS. induction 1 as [|x l _ IH Hx]; constructor; [done|]. by eapply Forall_impl; [|apply HRS]. Qed.

(** ** Sorting

    [list.sort] and [sorted] compare with [<] only and are stable.  What they
    need of the comparison is the class [WeakOrder]. *)

Class WeakOrder {A} (lt : A -> A -> bool) := {
  lt_asym : forall a b, lt a b = true -> lt b a = false;
  not_lt_trans : forall a b c, lt b a = false -> lt c b = false -> lt c a = false
}.

Fixpoint insert_by {A} (lt : A -> A -> bool) (x : A) (l : list A) : list A :=
  match l with
  | [] => [x]
  | y :: l' => if lt y x then y :: insert_by lt x l' else x :: l
  end.
Definition sort_by {A} (lt : A -> A -> bool) (l : list A) : list A := foldr (insert_by lt) [] l.

Lemma insert_by_Permutation {A} (lt : A -> A -> bool) x l : insert_by lt x l ≡ₚ x :: l.
Proof.
  induction l as [|y l IH]; cbn; [done|]. destruct (lt y x); [|done].
  rewrite IH. apply Permutation_swap.
Qed.

Lemma sort_by_Permutation {A} (lt : A -> A -> bool) l : sort_by lt l ≡ₚ l.
Proof. induction l as [|x l IH]; cbn; [done|]. by rewrite insert_by_Permutation, IH. Qed.

Lemma insert_by_sorted {A} (lt : A -> A -> bool) `{!WeakOrder lt} x l :
  StronglySorted (fun a b => lt b a = false) l ->
  StronglySorted (fun a b => lt b a = false) (insert_by lt x l).
Proof.
  induction 1 as [|y l Hs IH Hy]; cbn; [repeat constructor|].
  destruct (lt y x) eqn:E.
  - constructor; [done|]. rewrite insert_by_Permutation. constructor; [|done]. by apply lt_asym.
  - constructor; [by constructor|]. constructor; [done|].
    eapply Forall_impl; [exact Hy|]. intros z Hz. by eapply not_lt_trans.
Qed.

Lemma sort_by_sorted {A} (lt : A -> A -> bool) `{!WeakOrder lt} l :
  StronglySorted (fun a b => lt b a = false) (sort_by lt l).
Proof. induction l as [|x l IH]; cbn; [constructor|]. by apply insert_by_sorted. Qed.

(** Sorting is stable: elements of a class none of which is below another
    keep their order. *)
Lemma sort_by_stable {A} (p : A -> bool) (lt : A -> A -> bool) l :
  (forall a b, p a = true -> p b = true -> lt a b = false) ->
  List.filter p (sort_by lt l) = List.filter p l.
Proof.
  intros Hp. induction l as [|x l IH]; [done|]. cbn [sort_by foldr List.filter]. rewrite <- IH.
  fold (sort_by lt l). generalize (sort_by lt l). clear IH. intros l'. induction l' as [|y l' IH]; [done|].
  cbn [insert_by]. destruct (lt y x) eqn:E; [|done]. cbn [List.filter]. rewrite IH.
  destruct (p x) eqn:Ex, (p y) eqn:Ey; try done. by rewrite Hp in E.
Qed.

(** Sorting elements on which the comparison is a weak order. *)
Lemma sort_by_sorted_on {A} (P : A -> Prop) (lt : A -> A -> bool) l :
  (forall a b, P a -> P b -> lt a b = true -> lt b a = false) ->
  (forall a b c, P a -> P b -> P c -> lt b a = false -> lt c b = false -> lt c a = false) ->
  Forall P l -> StronglySorted (fun a b => lt b a = false) (sort_by lt l).
Proof.
  intros Has Htr. induction 1 as [|x l Hx Hl IH]; cbn; [constructor|].
  assert (Hs : Forall P (sort_by lt l)) by by rewrite sort_by_Permutation.
  revert IH Hs. unfold sort_by. generalize (foldr (insert_by lt) [] l). clear l Hl. intros l IH. induction IH as [|y l' Hs' IH' Hy]; intros Hs; cbn; [repeat constructor|].
  apply Forall_cons in Hs as [Py Pl]. destruct (lt y x) eqn:E.
  - constructor; [by apply IH'|]. rewrite insert_by_Permutation. constructor; [|done]. by apply Has.
  - constructor; [by constructor|]. constructor; [done|]. rewrite Forall_forall in *.
    intros z Hz. apply (Htr x y z); auto.
Qed.

(** Comparing by a key. *)
#[export] Instance key_order {A B} (key : A -> B) (lt : B -> B -> bool) `{!WeakOrder lt} :
  WeakOrder (fun x y => lt (key x) (key y)).
Proof. split; intros *; [apply lt_asym|apply not_lt_trans]. Qed.

#[export] Instance nat_order : WeakOrder Nat.ltb.
Proof. split; intros *; rewrite ?Nat.ltb_lt, ?Nat.ltb_ge; lia. Qed.
#[export] Instance Z_order : WeakOrder Z.ltb.
Proof. split; intros *; rewrite ?Z.ltb_lt, ?Z.ltb_ge; lia. Qed.

(** *** Hints

    [py] closes the goals sorting, filtering and grouping leave behind. *)
Create HintDb py discriminated.
#[export] Hint Resolve sort_by_Permutation sort_by_sorted filter_sublist filter_Permutation_bool
  StronglySorted_filter : py.
#[export] Hint Extern 1 (WeakOrder _) => solve [typeclasses eauto] : py.
#[export] Hint Rewrite @bind_of_Ok : py.

(** ** Slices

    [l[:n]] and [l[n:]]; a negative bound counts from the end. *)

Definition slice_end {A} (l : list A) (n : Z) : nat :=
  Z.to_nat (if (n <? 0)%Z then Z.max 0 (n + Z.of_nat (length l)) else n).
Definition slice_to {A} (l : list A) (n : Z) : list A := take (slice_end l n) l.
Definition slice_from {A} (l : list A) (n : Z) : list A := drop (slice_end l n) l.

Lemma slice_partition {A} (l : list A) n : slice_to l n ++ slice_from l n = l.
Proof. apply take_drop. Qed.

(** ** Sets

    A Python set is a list without duplicates; the order in which it is
    iterated is not specified, which the class leaves open. *)

Class SetOrder := {
  set_order : forall {A : Type}, list A -> list A;
  set_order_law : forall (A : Type) (s : list A), set_order s ≡ₚ s
}.

Lemma elem_of_set_order `{SetOrder} {A} (x : A) (s : list A) : x ∈ set_order s <-> x ∈ s.
Proof. by rewrite (set_order_law A s). Qed.

(** One of the orders, for examples. *)
Definition insertion_order : SetOrder :=
  {| set_order := fun A s => s; set_order_law := fun A s => reflexivity s |}.


(** ** Dictionaries

    A Python dict is an association list in insertion order, each key once;
    setting a key that is present keeps its place. *)

Section dict.
Context {K V : Type} `{EqDecision K}.

Definition dict : Type := list (K * V).

Fixpoint dict_get (d : dict) (k : K) : option V :=
  match d with
  | [] => None
  | (k', v) :: d' => if bool_decide (k' = k) then Some v else dict_get d' k
  end.

Fixpoint dict_set (k : K) (v : V) (d : dict) : dict :=
  match d with
  | [] => [(k, v)]
  | (k', v') :: d' => if bool_decide (k' = k) then (k, v) :: d' else (k', v') :: dict_set k v d'
  end.

(** [d.update(e)]. *)
Definition dict_update (d e : dict) : dict := fold_left (fun d '(k, v) => dict_set k v d) e d.

Definition dict_keys (d : dict) : list K := map fst d.

Lemma dict_get_set d k v k' :
  dict_get (dict_set k v d) k' = if bool_decide (k = k') then Some v else dict_get d k'.
Proof.
  induction d as [|[k1 v1] d IH]; cbn; [done|]. destruct (decide (k1 = k)) as [->|Hne].
  - rewrite (bool_decide_eq_true_2 (k = k)) by done. cbn. by case_bool_decide.
  - rewrite (bool_decide_eq_false_2 (k1 = k)) by done. cbn. rewrite IH.
    repeat case_bool_decide; congruence.
Qed.

Lemma dict_get_keys d k : is_Some (dict_get d k) <-> k ∈ dict_keys d.
Proof.
  induction d as [|[k1 v1] d IH]; cbn.
  - split; [by intros []|by intros ?%not_elem_of_nil].
  - rewrite elem_of_cons, <- IH. case_bool_decide as E; split; intros H; eauto; naive_solver.
Qed.

Lemma dict_set_keys d k v :
  dict_keys (dict_set k v d) = if decide (k ∈ dict_keys d) then dict_keys d else dict_keys d ++ [k].
Proof.
  induction d as [|[k1 v1] d IH]; cbn; [done|]. case_bool_decide as E.
  - subst. destruct (decide (k ∈ k :: map fst d)) as [|H]; [done|]. destruct H. apply list_elem_of_here.
  - cbn. fold (dict_keys (dict_set k v d)). rewrite IH. fold (dict_keys d).
    destruct (decide (k ∈ dict_keys d)) as [H|H], (decide (k ∈ k1 :: dict_keys d)) as [H'|H']; try done.
    + destruct H'. by apply list_elem_of_further.
    + apply elem_of_cons in H' as [->|]; done.
Qed.

(** A new key goes to the end. *)
Lemma dict_set_new d k v : k ∉ dict_keys d -> dict_set k v d = d ++ [(k, v)].
Proof.
  induction d as [|[k1 v1] d IH]; cbn; [done|]. intros [Hk Hd]%not_elem_of_cons.
  rewrite bool_decide_eq_false_2 by done. by rewrite IH.
Qed.

Lemma dict_set_NoDup d k v : NoDup (dict_keys d) -> NoDup (dict_keys (dict_set k v d)).
Proof.
  intros H. rewrite dict_set_keys. destruct (decide _) as [|Hk]; [done|].
  apply NoDup_app. split_and!; [done| |apply NoDup_singleton].
  by intros x Hx ->%list_elem_of_singleton.
Qed.
End dict.
Arguments dict : clear implicits.

(** ** Indices and ranges *)

(** [l[i]] for any integer index. *)
Definition py_index {A} (l : list A) (i : Z) : res A :=
  let j := if (i <? 0)%Z then (i + Z.of_nat (length l))%Z else i in
  if (j <? 0)%Z then Raise IndexError else nth_res l (Z.to_nat j).

(** [range(start, stop, step)] with a positive step. *)
Definition py_range (start stop step : nat) : list nat :=
  map (fun i => start + i * step) (seq 0 ((stop - start + step - 1) / step)).

Lemma py_range_elem start stop step n :
  0 < step -> n ∈ py_range start stop step <-> exists i, n = start + i * step /\ n < stop.
Proof.
  intros Hs. unfold py_range. rewrite list_elem_of_fmap. split.
  - intros (i & -> & Hi%elem_of_seq). exists i. split; [done|].
    destruct (Nat.le_gt_cases stop (start + i * step)) as [Hge|]; [|done].
    assert (stop - start + step - 1 < S i * step) by lia.
    assert ((stop - start + step - 1) / step < S i) by (apply Nat.Div0.div_lt_upper_bound; lia). lia.
  - intros (i & -> & Hlt). exists i. split; [done|]. apply elem_of_seq. split; [lia|].
    apply Nat.lt_le_trans with (S i); [lia|]. apply Nat.div_le_lower_bound; lia.
Qed.

Lemma py_range_NoDup start stop step : 0 < step -> NoDup (py_range start stop step).
Proof.
  intros Hs. unfold py_range. apply NoDup_fmap_2_strong; [|apply NoDup_seq].
  intros i j _ _ E. nia.
Qed.
