(* ===== verification/PyStr.v ===== *)
(** * Python strings

    The [str] operations the modelled scripts use.  A [str] is a list of
    characters with code points below 256; [isspace], [isdigit] and [isalnum]
    follow the Unicode tables on that range.  Every operation is executable. *)
From S2P Require Import Prelude.

Abbreviation str := (list ascii).
Coercion String.list_ascii_of_string : string >-> list.

(** A literal where no coercion applies: [# "text"]. *)
Declare Scope py_scope.
Delimit Scope py_scope with py.
Notation "# s" := (String.list_ascii_of_string s%stdpp)
  (at level 8, s at level 0, only parsing) : py_scope.
#[global] Open Scope py_scope.

(** ** Character classes *)

Definition code (c : ascii) : nat := nat_of_ascii c.
Definition in_range (lo hi : nat) (c : ascii) : bool :=
  (lo <=? code c) && (code c <=? hi).

(** The characters [str.isspace], [str.strip()], [str.split()] and the
    regular expression class [\s] agree on. *)
Definition is_space (c : ascii) : bool :=
  in_range 9 13 c || in_range 28 32 c || (code c =? 133) || (code c =? 160).

(** [\d] and the digits [int] accepts. *)
Definition is_digit (c : ascii) : bool := in_range 48 57 c.

(** [\w]: letters, numerals and the underscore. *)
Definition is_word (c : ascii) : bool :=
  in_range 48 57 c || in_range 65 90 c || in_range 97 122 c || (code c =? 95)
  || (code c =? 170) || in_range 178 179 c || (code c =? 181)
  || in_range 185 186 c || in_range 188 190 c || in_range 192 214 c
  || in_range 216 246 c || in_range 248 255 c.

Definition nl : ascii := "010"%char.
Definition cr : ascii := "013"%char.
Definition qm : ascii := "034"%char.

(** ** Prefixes, suffixes, substrings *)

Fixpoint prefixb (p s : str) : bool :=
  match p, s with
  | [], _ => true
  | _ :: _, [] => false
  | a :: p', b :: s' => bool_decide (a = b) && prefixb p' s'
  end.

Definition startswith (s p : str) : bool := prefixb p s.
Definition endswith (s p : str) : bool := prefixb (rev p) (rev s).

(** [needle in hay]. *)
Fixpoint contains (needle hay : str) : bool :=
  prefixb needle hay ||
  match hay with [] => false | _ :: hay' => contains needle hay' end.

Lemma prefixb_spec p s : prefixb p s = true <-> p `prefix_of` s.
Proof.
  revert s. induction p as [|a p IH]; intros [|b s]; cbn.
  - split; [intros _; apply prefix_nil | done].
  - split; [intros _; apply prefix_nil | done].
  - split; [done | intros ?%prefix_nil_inv; done].
  - rewrite andb_true_iff, bool_decide_eq_true, IH. split.
    + intros [-> ?]. by apply prefix_cons.
    + intros H. split; [by eapply prefix_cons_inv_1 | by eapply prefix_cons_inv_2].
Qed.

Lemma prefixb_app p s : prefixb p (p ++ s) = true.
Proof. apply prefixb_spec. by exists s. Qed.

Lemma prefixb_refl p : prefixb p p = true.
Proof. by apply prefixb_spec. Qed.

Lemma startswith_spec s p : startswith s p = true <-> exists t, s = p ++ t.
Proof. unfold startswith. by rewrite prefixb_spec. Qed.

Lemma startswith_ne s c w : head s <> Some c -> startswith s (c :: w) = false.
Proof.
  destruct s as [|x s]; [done|]. intros H. unfold startswith. cbn [prefixb].
  rewrite bool_decide_eq_false_2; [done|]. intros <-. by apply H.
Qed.

Lemma endswith_spec s p : endswith s p = true <-> exists t, s = t ++ p.
Proof.
  unfold endswith. rewrite prefixb_spec. split.
  - intros [t Ht]. exists (rev t).
    by rewrite <- (rev_involutive s), Ht, rev_app_distr, rev_involutive.
  - intros [t ->]. rewrite rev_app_distr. by exists (rev t).
Qed.

Lemma contains_spec needle hay :
  contains needle hay = true <-> exists a b, hay = a ++ needle ++ b.
Proof.
  induction hay as [|c hay IH]; cbn; rewrite orb_true_iff, prefixb_spec.
  - split.
    + intros [[b ->]|?]; [by exists [], b | done].
    + intros (a & b & ?). left. destruct a; [by exists b | done].
  - rewrite IH. split.
    + intros [[b ->]|(a & b & ->)]; [by exists [], b | by exists (c :: a), b].
    + intros ([|a0 a] & b & Heq); [left; by exists b|].
      right. exists a, b. by simplify_eq/=.
Qed.

(** Two splits at a character: the same one, or the second lies further right. *)
Lemma app_sep (c : ascii) a r a' r' :
  c ∉ a -> a ++ c :: r = a' ++ c :: r' ->
  (a = a' /\ r = r') \/ exists k, a' = a ++ c :: k /\ r = k ++ c :: r'.
Proof.
  revert a'. induction a as [|x a IH]; intros [|y a'] Ha E; cbn in E.
  - injection E as ->. by left.
  - injection E as <- ->. right. by exists a'.
  - injection E as -> _. destruct Ha. apply list_elem_of_here.
  - injection E as <- E. apply not_elem_of_cons in Ha as [_ Ha].
    destruct (IH a' Ha E) as [[-> ->]|(k & -> & ->)]; [by left|]. right. by exists k.
Qed.

Lemma contains_absent (c : ascii) w s : c ∈ w -> c ∉ s -> contains w s = false.
Proof.
  intros Hw Hs. apply not_true_iff_false. intros (a & b & ->)%contains_spec.
  apply Hs. rewrite !elem_of_app. auto.
Qed.

(** ** Replacing and splitting

    [skip] counts the characters of an occurrence that has been consumed. *)

Fixpoint replace_from (old new : str) (skip : nat) (s : str) : str :=
  match s with
  | [] => []
  | c :: s' =>
      match skip with
      | S k => replace_from old new k s'
      | O => if prefixb old s then new ++ replace_from old new (pred (length old)) s'
             else c :: replace_from old new 0 s'
      end
  end.

(** [s.replace(old, new)] for a non-empty [old]. *)
Definition replace (s old new : str) : str := replace_from old new 0 s.

Fixpoint split_from (sep : str) (skip : nat) (cur : str) (s : str) : list str :=
  match s with
  | [] => [rev cur]
  | c :: s' =>
      match skip with
      | S k => split_from sep k cur s'
      | O => if prefixb sep s then rev cur :: split_from sep (pred (length sep)) [] s'
             else split_from sep 0 (c :: cur) s'
      end
  end.

(** [s.split(sep)] for a non-empty separator. *)
Definition split_str (s sep : str) : list str := split_from sep 0 [] s.

(** [s.split(c)] for a one-character separator. *)
Fixpoint split_char (c : ascii) (s : str) : list str :=
  match s with
  | [] => [[]]
  | a :: s' =>
      if bool_decide (a = c) then [] :: split_char c s'
      else match split_char c s' with
           | w :: ws => (a :: w) :: ws
           | [] => [[a]]
           end
  end.

(** [sep.join(ws)]. *)
Fixpoint join (sep : str) (ws : list str) : str :=
  match ws with
  | [] => []
  | [w] => w
  | w :: ws' => w ++ sep ++ join sep ws'
  end.

(** [s.rsplit(c, 1)]: the whole string, or the two sides of the last [c]. *)
Definition rsplit1 (c : ascii) (s : str) : list str :=
  match split_char c s with
  | [] => []
  | [w] => [w]
  | ws => [join [c] (removelast ws); List.last ws []]
  end.

(** [s.partition(c)[0]]. *)
Fixpoint before_char (c : ascii) (s : str) : str :=
  match s with
  | [] => []
  | a :: s' => if bool_decide (a = c) then [] else a :: before_char c s'
  end.

(** ** Whitespace *)

Fixpoint lstrip (s : str) : str :=
  match s with
  | [] => []
  | c :: s' => if is_space c then lstrip s' else s
  end.
Definition rstrip (s : str) : str := rev (lstrip (rev s)).
Definition strip (s : str) : str := rstrip (lstrip s).

(** [s.split()]: the maximal runs of non-space characters. *)
Fixpoint fields_from (cur : str) (s : str) : list str :=
  let flush := match cur with [] => [] | _ => [rev cur] end in
  match s with
  | [] => flush
  | c :: s' => if is_space c then flush ++ fields_from [] s'
               else fields_from (c :: cur) s'
  end.
Definition fields (s : str) : list str := fields_from [] s.

(** ** Reading a text file by lines

    Text mode translates carriage returns; [readlines] keeps the newline. *)

Fixpoint universal_newlines (s : str) : str :=
  match s with
  | [] => []
  | c :: s' =>
      if bool_decide (c = cr) then
        match s' with
        | d :: s'' => if bool_decide (d = nl) then nl :: universal_newlines s''
                      else nl :: universal_newlines s'
        | [] => [nl]
        end
      else c :: universal_newlines s'
  end.

Fixpoint lines_from (cur : str) (s : str) : list str :=
  match s with
  | [] => match cur with [] => [] | _ => [rev cur] end
  | c :: s' => if bool_decide (c = nl) then rev (nl :: cur) :: lines_from [] s'
               else lines_from (c :: cur) s'
  end.
Definition readlines (contents : str) : list str :=
  lines_from [] (universal_newlines contents).

(** ** Numerals *)

Definition digit_val (c : ascii) : Z := Z.of_nat (code c) - 48.

(** Digits with single underscores between them, most significant first. *)
Fixpoint digits_val (acc : Z) (after_digit : bool) (s : str) : option Z :=
  match s with
  | [] => if after_digit then Some acc else None
  | c :: s' =>
      if is_digit c then digits_val (10 * acc + digit_val c)%Z true s'
      else if bool_decide (c = "_"%char) && after_digit then
        match s' with
        | d :: _ => if is_digit d then digits_val acc false s' else None
        | [] => None
        end
      else None
  end.

(** [int(s)]; [ValueError] when [s] is not a numeral. *)
Definition py_int (s : str) : res Z :=
  of_option ValueError
    match strip s with
    | c :: s' =>
        if bool_decide (c = "-"%char) then Z.opp <$> digits_val 0 false s'
        else if bool_decide (c = "+"%char) then digits_val 0 false s'
        else digits_val 0 false (c :: s')
    | [] => None
    end.

Definition digit_char (n : nat) : ascii := ascii_of_nat (48 + n).

Fixpoint dec_fuel (fuel : nat) (n : N) (acc : str) : str :=
  match fuel with
  | O => acc
  | S f =>
      let acc' := digit_char (N.to_nat (n mod 10)) :: acc in
      if (n <? 10)%N then acc' else dec_fuel f (n / 10)%N acc'
  end.

(** Decimal digits of a natural number; a number has at most as many decimal
    digits as binary ones. *)
Definition dec_N (n : N) : str := dec_fuel (S (N.to_nat (N.size n))) n [].

(** [str(z)] and ["%d" % z]. *)
Definition dec_Z (z : Z) : str :=
  if (z <? 0)%Z then "-"%char :: dec_N (Z.to_N (- z)) else dec_N (Z.to_N z).

Definition dec_nat (n : nat) : str := dec_Z (Z.of_nat n).

(** ["%x" % n]. *)
Definition hex_digit (n : nat) : ascii := if n <? 10 then digit_char n else ascii_of_nat (87 + n).
Fixpoint hex_fuel (fuel : nat) (n : N) (acc : str) : str :=
  match fuel with
  | O => acc
  | S f => let acc := hex_digit (N.to_nat (n mod 16)) :: acc in
           if (n <? 16)%N then acc else hex_fuel f (n / 16)%N acc
  end.
Definition hex_N (n : N) : str := hex_fuel (S (N.to_nat (N.size n))) n [].

(** The value of a hexadecimal digit. *)
Definition hex_digit_val (c : ascii) : option Z :=
  if in_range 48 57 c then Some (Z.of_nat (code c) - 48)%Z
  else if in_range 97 102 c then Some (Z.of_nat (code c) - 87)%Z
  else if in_range 65 70 c then Some (Z.of_nat (code c) - 55)%Z else None.

(** [repr] of a string, for the messages. *)
Definition repr_char (quote : ascii) (c : ascii) : str :=
  if bool_decide (c = quote) || bool_decide (c = "\"%char) then ["\"%char; c]
  else if bool_decide (c = "010"%char) then # "\n"
  else if bool_decide (c = "013"%char) then # "\r"
  else if bool_decide (c = "009"%char) then # "\t"
  else if (code c <? 32) || (code c =? 127) then
    # "\x" ++ [hex_digit (code c / 16); hex_digit (code c mod 16)]
  else [c].
Definition repr_str (s : str) : str :=
  let quote := if bool_decide ("'"%char ∈ s) && negb (bool_decide ("034"%char ∈ s)) then "034"%char else "'"%char in
  [quote] ++ flat_map (repr_char quote) s ++ [quote].
Definition repr_list (l : list str) : str := "[" ++ join ", " (map repr_str l) ++ "]".

(** ["%<w>s"] and ["%-<w>s"]. *)
Definition pad_left (w : nat) (s : str) : str := repeat " "%char (w - length s) ++ s.
Definition pad_right (w : nat) (s : str) : str := s ++ repeat " "%char (w - length s).

(** Lexicographic order on code points, as [<] on [str]. *)
Fixpoint str_ltb (a b : str) : bool :=
  match a, b with
  | _, [] => false
  | [], _ :: _ => true
  | x :: a', y :: b' =>
      (code x <? code y) || (bool_decide (x = y) && str_ltb a' b')
  end.
Definition str_leb (a b : str) : bool := negb (str_ltb b a).

(** A set of strings, in the order of first insertion: [s.add(x)]. *)
Definition str_add (s : list str) (x : str) : list str := if bool_decide (x ∈ s) then s else s ++ [x].

#[global] Arguments startswith : simpl never.
#[global] Arguments endswith : simpl never.
#[global] Arguments contains : simpl never.
#[global] Arguments replace : simpl never.
#[global] Arguments split_str : simpl never.
#[global] Arguments strip : simpl never.
#[global] Arguments dec_Z : simpl never.
#[global] Arguments dec_N : simpl never.

(** ** Decimal numerals *)

Lemma digit_char_ok n : n < 10 -> is_digit (digit_char n) = true /\ digit_val (digit_char n) = Z.of_nat n.
Proof. intros H. do 10 (destruct n as [|n]; [by vm_compute|]). lia. Qed.

Lemma dec_fuel_app f n acc :
  exists ds, dec_fuel f n acc = ds ++ acc /\ Forall (fun c => is_digit c = true) ds.
Proof.
  revert n acc. induction f as [|f IH]; intros n acc; cbn; [by exists []|].
  assert (Hd : is_digit (digit_char (N.to_nat (n mod 10))) = true).
  { apply digit_char_ok. pose proof (N.mod_lt n 10). lia. }
  destruct (n <? 10)%N.
  - eexists [_]. split; [done|]. by constructor.
  - destruct (IH (n / 10)%N (digit_char (N.to_nat (n mod 10)) :: acc)) as (ds & -> & Hds).
    exists (ds ++ [digit_char (N.to_nat (n mod 10))]). rewrite <- app_assoc. split; [done|].
    apply Forall_app. split; [done|by constructor].
Qed.

(** The digits of a number end with its remainder by ten. *)
Lemma dec_N_last n :
  exists ds, dec_N n = ds ++ [digit_char (N.to_nat (n mod 10))] /\
    Forall (fun c => is_digit c = true) ds.
Proof.
  unfold dec_N. cbn [dec_fuel]. destruct (n <? 10)%N; [by exists []|].
  apply dec_fuel_app.
Qed.

Lemma dec_N_digits n : Forall (fun c => is_digit c = true) (dec_N n) /\ dec_N n <> [].
Proof.
  destruct (dec_N_last n) as (ds & -> & Hds). split; [|by destruct ds].
  apply Forall_app. split; [done|]. constructor; [|constructor].
  apply digit_char_ok. pose proof (N.mod_lt n 10). lia.
Qed.

(** The value of a string of digits. *)
Fixpoint digits_value (acc : Z) (ds : str) : Z :=
  match ds with [] => acc | c :: ds' => digits_value (10 * acc + digit_val c) ds' end.

Lemma digits_val_digits acc b ds :
  Forall (fun c => is_digit c = true) ds -> (b = true \/ ds <> []) ->
  digits_val acc b ds = Some (digits_value acc ds).
Proof.
  intros H. revert acc b. induction H as [|c ds Hc Hds IH]; intros acc b Hb; cbn.
  - by destruct Hb as [->|].
  - rewrite Hc. apply IH. by left.
Qed.

Lemma digits_value_app acc a b : digits_value acc (a ++ b) = digits_value (digits_value acc a) b.
Proof. revert acc. induction a as [|c a IH]; intros acc; cbn; auto. Qed.

Lemma dec_fuel_value f n acc :
  (n < 2 ^ N.of_nat f)%N -> 0 < f ->
  exists ds, dec_fuel f n acc = ds ++ acc /\ Forall (fun c => is_digit c = true) ds /\
    digits_value 0 ds = Z.of_N n.
Proof.
  revert n acc. induction f as [|f IH]; intros n acc Hf Hpos; [lia|]. cbn [dec_fuel].
  assert (Hm : (n mod 10 < 10)%N) by (by apply N.mod_lt).
  destruct (digit_char_ok (N.to_nat (n mod 10))) as [Hd Hv]; [lia|].
  destruct (N.ltb_spec n 10) as [Hlt|Hge].
  - eexists [_]. split; [done|]. split; [by constructor|]. cbn. rewrite Hv.
    rewrite N.mod_small by done. lia.
  - rewrite Nat2N.inj_succ, N.pow_succ_r' in Hf.
    assert (Hf0 : 0 < f) by (destruct f; [cbn in Hf; lia|lia]).
    destruct (IH (n / 10)%N (digit_char (N.to_nat (n mod 10)) :: acc)) as (ds & -> & Hds & Hval); [|done|].
    { apply N.Div0.div_lt_upper_bound. lia. }
    eexists (ds ++ [_]). rewrite <- app_assoc. split; [done|]. split.
    + apply Forall_app. split; [done|by constructor].
    + rewrite digits_value_app, Hval. cbn [digits_value]. rewrite Hv.
      pose proof (N.div_mod n 10). lia.
Qed.

Lemma dec_N_value n : digits_value 0 (dec_N n) = Z.of_N n.
Proof.
  unfold dec_N. destruct (dec_fuel_value (S (N.to_nat (N.size n))) n []) as (ds & -> & _ & H); [|lia|].
  - rewrite Nat2N.inj_succ, N2Nat.id, N.pow_succ_r'. pose proof (N.size_gt n). lia.
  - by rewrite app_nil_r.
Qed.

Lemma lstrip_nonspace c s : is_space c = false -> lstrip (c :: s) = c :: s.
Proof. cbn. by intros ->. Qed.

Lemma digit_not_space c : is_digit c = true -> is_space c = false.
Proof.
  unfold is_digit, is_space, in_range. intros [H1%Nat.leb_le H2%Nat.leb_le]%andb_true_iff.
  destruct (Nat.leb_spec 9 (code c)), (Nat.leb_spec (code c) 13), (Nat.leb_spec 28 (code c)),
    (Nat.leb_spec (code c) 32), (Nat.eqb_spec (code c) 133), (Nat.eqb_spec (code c) 160); cbn; lia || done.
Qed.

Lemma strip_digits ds : Forall (fun c => is_digit c = true) ds -> strip ds = ds.
Proof.
  intros H. assert (Hl : forall l, Forall (fun c => is_digit c = true) l -> lstrip l = l).
  { intros l Hd. destruct Hd; [done|]. by apply lstrip_nonspace, digit_not_space. }
  unfold strip, rstrip. rewrite (Hl ds) by done. rewrite Hl by (by apply Forall_rev).
  apply rev_involutive.
Qed.

(** [int] of a string of digits, and the round trip through [str]. *)
Lemma py_int_digits ds :
  Forall (fun c => is_digit c = true) ds -> ds <> [] -> py_int ds = Ok (digits_value 0 ds).
Proof.
  intros H Hne. unfold py_int. rewrite strip_digits by done.
  destruct H as [|c ds Hc Hds]; [done|].
  rewrite !bool_decide_eq_false_2 by (by intros ->). cbn [of_option].
  rewrite digits_val_digits by (by auto || constructor). done.
Qed.

Lemma py_int_dec_N n : py_int (dec_N n) = Ok (Z.of_N n).
Proof.
  destruct (dec_N_digits n) as [H1 H2]. rewrite py_int_digits by done. by rewrite dec_N_value.
Qed.

Lemma strip_ends c s d : is_space c = false -> is_space d = false -> strip (c :: s ++ [d]) = c :: s ++ [d].
Proof.
  intros Hc Hd. unfold strip. rewrite lstrip_nonspace by done. unfold rstrip.
  rewrite app_comm_cons, rev_app_distr. cbn [rev app]. rewrite lstrip_nonspace by done.
  change (d :: rev s ++ [c]) with ([d] ++ rev (c :: s)). by rewrite rev_app_distr, rev_involutive.
Qed.

Lemma py_int_dec_Z z : py_int (dec_Z z) = Ok z.
Proof.
  unfold dec_Z. destruct (Z.ltb_spec z 0) as [Hz|Hz]; [|rewrite py_int_dec_N; f_equal; lia].
  destruct (dec_N_digits (Z.to_N (- z))) as [Hd Hne]. pose proof (py_int_dec_N (Z.to_N (- z))) as Hv.
  unfold py_int in *. rewrite (strip_digits _ Hd) in Hv.
  assert (strip ("-"%char :: dec_N (Z.to_N (- z))) = "-"%char :: dec_N (Z.to_N (- z))) as ->.
  { destruct (exists_last Hne) as (l & d & E). rewrite E in *. apply strip_ends; [done|].
    apply Forall_app in Hd as [_ Hd]. inversion Hd; subst. by apply digit_not_space. }
  rewrite bool_decide_eq_true_2 by done.
  destruct (dec_N _) as [|c r] eqn:E; [done|]. inversion Hd as [|? ? Hc]; subst.
  rewrite !bool_decide_eq_false_2 in Hv by (by intros ->).
  destruct (digits_val 0 false (c :: r)) as [v|]; [|done]. cbn in Hv |- *. injection Hv as ->. f_equal. lia.
Qed.

(** ** Replacing *)

Lemma replace_from_skip old new k a s :
  length a = k -> replace_from old new k (a ++ s) = replace_from old new 0 s.
Proof. revert a. induction k as [|k IH]; intros [|c a]; intros; simplify_eq/=; auto. Qed.

(** A string without the needle is unchanged. *)
Lemma replace_absent s old new : contains old s = false -> replace s old new = s.
Proof.
  unfold replace. induction s as [|c s IH]; intros H; [done|].
  unfold contains in H; fold contains in H. apply orb_false_iff in H as [H1 H2].
  cbn [replace_from]. rewrite H1. f_equal. by apply IH.
Qed.

(** The first occurrence is replaced and the scan goes on behind it. *)
Lemma replace_first a old b new :
  old <> [] -> contains old (a ++ removelast old) = false ->
  replace (a ++ old ++ b) old new = a ++ new ++ replace b old new.
Proof.
  intros Hne. unfold replace. induction a as [|c a IH]; intros H.
  - destruct old as [|o old]; [done|]. cbn [app replace_from].
    change (o :: old ++ b) with ((o :: old) ++ b). rewrite prefixb_app. cbn [length pred].
    by rewrite replace_from_skip.
  - cbn [app] in *. unfold contains in H; fold contains in H.
    apply orb_false_iff in H as [H1 H2]. cbn [replace_from].
    destruct (prefixb old (c :: a ++ old ++ b)) eqn:E; [|by rewrite IH].
    exfalso. apply prefixb_spec in E as [k Hk].
    assert (Hpre : prefixb old (c :: a ++ removelast old) = true); [|congruence].
    apply prefixb_spec. pose proof (app_removelast_last " "%char Hne) as Hold.
    assert (Hk' : old ++ k = (c :: a ++ removelast old) ++ [List.last old " "%char] ++ b).
    { rewrite <- Hk. cbn [app]. f_equal. rewrite Hold at 1. by rewrite <- !app_assoc. }
    destruct (app_eq_inv _ _ _ _ Hk') as [(k' & E1 & _)|(k' & E1 & _)]; [|by exists k'].
    apply (f_equal length) in E1 as E2. apply (f_equal length) in Hold.
    rewrite !length_app in *. cbn in E2, Hold. rewrite length_app in E2.
    destruct k'; [|cbn in E2; lia]. rewrite app_nil_r in E1. by rewrite <- E1.
Qed.

(** The leading spaces of a string and the rest. *)
Lemma lstrip_split s :
  exists w, s = w ++ lstrip s /\ Forall (fun c => is_space c = true) w /\
    match lstrip s with [] => True | c :: _ => is_space c = false end.
Proof.
  induction s as [|c s (w & E & Hw & Hs)]; [by exists []|]. cbn.
  destruct (is_space c) eqn:Hc.
  - exists (c :: w). cbn. by rewrite <- E; split_and!; [|constructor|].
  - exists []. by rewrite Hc.
Qed.

Lemma lstrip_nil s : lstrip s = [] <-> forallb is_space s = true.
Proof. induction s as [|c s IH]; cbn; [done|]. by destruct (is_space c). Qed.

(** ** The order on strings *)

Lemma str_ltb_irrefl a : str_ltb a a = false.
Proof.
  induction a as [|x a IH]; [done|]. cbn [str_ltb]. by rewrite IH, Nat.ltb_irrefl, andb_false_r.
Qed.

Lemma str_ltb_cons x a y b :
  str_ltb (x :: a) (y :: b) = true <-> code x < code y \/ x = y /\ str_ltb a b = true.
Proof. cbn [str_ltb]. by rewrite orb_true_iff, Nat.ltb_lt, andb_true_iff, bool_decide_eq_true. Qed.

Lemma str_ltb_trans a b c : str_ltb a b = true -> str_ltb b c = true -> str_ltb a c = true.
Proof.
  revert b c. induction a as [|x a IH]; intros [|y b] [|z c] H1 H2; try done.
  apply str_ltb_cons in H1, H2. apply str_ltb_cons.
  destruct H1 as [H1|[-> H1]], H2 as [H2|[-> H2]]; [left; lia|left; lia|left; lia|right].
  split; [done|]. by eapply IH.
Qed.

Lemma code_inj x y : code x = code y -> x = y.
Proof. unfold code. intros H. by rewrite <- (ascii_nat_embedding x), <- (ascii_nat_embedding y), H. Qed.

Lemma str_ltb_total a b : str_ltb a b = true \/ a = b \/ str_ltb b a = true.
Proof.
  revert b. induction a as [|x a IH]; intros [|y b]; [auto|by left|by right; right|].
  rewrite !str_ltb_cons. destruct (Nat.lt_trichotomy (code x) (code y)) as [|[E|]]; [auto| |auto].
  apply code_inj in E as ->. destruct (IH b) as [|[->|]]; auto.
Qed.

Lemma str_ltb_asym a b : str_ltb a b = true -> str_ltb b a = false.
Proof.
  intros H. destruct (str_ltb b a) eqn:E; [|done].
  pose proof (str_ltb_trans _ _ _ H E) as Haa. by rewrite str_ltb_irrefl in Haa.
Qed.

(** [b <= a] and [c <= b] give [c <= a], on the negations. *)
Lemma str_ltb_le_trans a b c : str_ltb a b = false -> str_ltb b c = false -> str_ltb a c = false.
Proof.
  intros H1 H2. destruct (str_ltb a c) eqn:E; [|done].
  destruct (str_ltb_total b a) as [Hba|[->|Hab]]; [|congruence|congruence].
  pose proof (str_ltb_trans _ _ _ Hba E). congruence.
Qed.

#[export] Instance str_order : WeakOrder str_ltb.
Proof. split; intros *; [apply str_ltb_asym|intros H1 H2; by eapply str_ltb_le_trans]. Qed.

(** ** Texts made of lines, texts made of two parts *)

Lemma universal_newlines_id s : cr ∉ s -> universal_newlines s = s.
Proof.
  induction s as [|c s IH]; intros H; [done|]. apply not_elem_of_cons in H as [Hc Hs]. cbn.
  rewrite bool_decide_eq_false_2 by congruence. by rewrite IH.
Qed.

Lemma lines_from_line cur l s :
  nl ∉ l -> lines_from cur (l ++ nl :: s) = (rev cur ++ l ++ [nl]) :: lines_from [] s.
Proof.
  revert cur. induction l as [|c l IH]; intros cur H; cbn.
  - by rewrite bool_decide_eq_true_2.
  - apply not_elem_of_cons in H as [Hc Hl]. rewrite bool_decide_eq_false_2 by congruence.
    rewrite IH by done. cbn. by rewrite <- app_assoc.
Qed.

(** A text that ends every line with a newline is read back line by line. *)
Definition unlines (ls : list str) : str := concat (map (fun l => l ++ [nl]) ls).

Lemma readlines_unlines ls :
  Forall (fun l => nl ∉ l /\ cr ∉ l) ls -> readlines (unlines ls) = map (fun l => l ++ [nl]) ls.
Proof.
  intros H. unfold readlines. rewrite universal_newlines_id.
  - induction H as [|l ls [Hl _] _ IH]; [done|]. unfold unlines in *. cbn [map concat].
    rewrite <- app_assoc. cbn [app]. rewrite lines_from_line by done. by rewrite IH.
  - induction H as [|l ls [_ Hc] _ IH]; [apply not_elem_of_nil|]. unfold unlines in *. cbn [map concat].
    rewrite !elem_of_app, list_elem_of_singleton. by intros [[|]|].
Qed.

Lemma split_from_skip sep cur a s k :
  length a = k -> split_from sep k cur (a ++ s) = split_from sep 0 cur s.
Proof.
  revert k. induction a as [|c a IH]; intros [|k] H; try discriminate H; [done|]. cbn. apply IH. cbn in H. lia.
Qed.

Lemma split_from_plain x sep cur a :
  x ∉ a -> split_from (x :: sep) 0 cur a = [rev cur ++ a].
Proof.
  revert cur. induction a as [|c a IH]; intros cur H; cbn [split_from]; [by rewrite app_nil_r|].
  apply not_elem_of_cons in H as [Hc Ha]. cbn [prefixb]. rewrite bool_decide_eq_false_2 by done. cbn [andb].
  rewrite IH by done. cbn. by rewrite <- app_assoc.
Qed.

(** The two parts around a separator that does not begin inside them. *)
Lemma split_str_pair x sep a b :
  x ∉ a -> x ∉ b -> split_str (a ++ (x :: sep) ++ b) (x :: sep) = [a; b].
Proof.
  intros Ha Hb. unfold split_str.
  assert (H : forall cur, split_from (x :: sep) 0 cur (a ++ (x :: sep) ++ b) = [rev cur ++ a; b]).
  { induction a as [|c a IH]; intros cur.
    - cbn [app split_from]. change (x :: sep ++ b) with ((x :: sep) ++ b).
      rewrite prefixb_app. cbn [length pred]. rewrite split_from_skip by done.
      rewrite split_from_plain by done. cbn. by rewrite app_nil_r.
    - apply not_elem_of_cons in Ha as [Hc Ha]. cbn [app split_from prefixb].
      rewrite bool_decide_eq_false_2 by done. cbn [andb]. rewrite (IH Ha). cbn. by rewrite <- app_assoc. }
  apply H.
Qed.
