(* ===== verification/Argparse.v ===== *)
(** * Command lines (the argparse module)

    The scripts declare their options with argparse.  A parser is the list of
    its arguments; [parse_args] reads a command line the way the module does in
    Python 3.11, for the declarations the scripts use:
    every word is classified first (an option, its abbreviation or the form
    [--option=value]; a value; the separator [--]), then the words are consumed
    from left to right.  What the module prints before it exits with status 2 is
    the payload of [UsageError]; printing the help ends with [SystemExit].

    [parse_rendered] states what a command line means, whatever the parser;
    the class [CommandLine] is what a script promises about its own options. *)
From S2P Require Import Prelude PyStr.

(** ** Arguments *)

(** Values of the attributes of a namespace. *)
Inductive aval :=
  | VNone
  | VBool (b : bool)
  | VInt (z : Z)
  | VStr (s : str)
  | VList (l : list aval).

Inductive action := Store | StoreTrue | Append | Help.

Record argument := Argument {
  a_flags : list str;               (* none: a positional *)
  a_dest : str;
  a_action : action;
  a_int : bool;                     (* type=int *)
  a_default : aval;
  a_required : bool;
  a_choices : option (list str)
}.
Definition parser := list argument.

#[export] Instance action_eq_dec : EqDecision action.
Proof. solve_decision. Defined.

(** The attribute of an option: its flag without leading dashes, with
    underscores. *)
Fixpoint lstrip_dashes (s : str) : str :=
  match s with
  | c :: s' => if bool_decide (c = "-"%char) then lstrip_dashes s' else s
  | [] => []
  end.
Definition flag_dest (flag : str) : str := replace (lstrip_dashes flag) "-" "_".

(** The forms of [add_argument] in use. *)
Definition positional (name : str) : argument := Argument [] name Store false VNone true None.
Definition store_true (flag : str) : argument := Argument [flag] (flag_dest flag) StoreTrue false (VBool false) false None.
Definition option_text (flag : str) (default : aval) : argument := Argument [flag] (flag_dest flag) Store false default false None.
Definition option_int (flag : str) (default : aval) : argument := Argument [flag] (flag_dest flag) Store true default false None.
Definition option_append (flag : str) : argument := Argument [flag] (flag_dest flag) Append false VNone false None.
Definition option_choice (flag : str) (default : aval) (required : bool) (choices : list str) : argument :=
  Argument [flag] (flag_dest flag) Store false default required (Some choices).
Definition option_required (flag : str) : argument := Argument [flag] (flag_dest flag) Store false VNone true None.

(** [ArgumentParser(parents=...)]: the help comes first, then the arguments of
    the parents. *)
Definition help_argument : argument := Argument [ # "-h"; # "--help"] "help" Help false VNone false None.
Definition argument_parser (parents : list parser) : parser := help_argument :: concat parents.

(** Only the help has no attribute before it is asked for. *)
Definition add_default (ns : gmap str aval) (a : argument) : gmap str aval :=
  match a_action a with Help => ns | _ => <[a_dest a := a_default a]> ns end.
Definition defaults (p : parser) : gmap str aval := fold_left add_default p ∅.

Definition argument_name (a : argument) : str :=
  match a_flags a with [] => a_dest a | fs => join "/" fs end.
Definition argument_error {A} (a : argument) (msg : str) : res A :=
  Raise (UsageError ("argument " ++ argument_name a ++ ": " ++ msg)).

(** ** Classifying the words *)

Definition option_strings (p : parser) : list (str * argument) := flat_map (fun a => map (fun f => (f, a)) (a_flags a)) p.
Definition find_option (p : parser) (s : str) : option (str * argument) :=
  List.find (fun fa => bool_decide (fst fa = s)) (option_strings p).

(** [s.split('=', 1)], when there is a sign. *)
Fixpoint split_equals (s : str) : option (str * str) :=
  match s with
  | [] => None
  | c :: s' =>
      if bool_decide (c = "="%char) then Some ([], s')
      else '(a, b) ← split_equals s'; Some (c :: a, b)
  end.

(** [^-\d+$|^-\d*\.\d+$]; the end may come before a last newline. *)
Definition chomp (s : str) : str :=
  match rev s with c :: r => if bool_decide (c = nl) then rev r else s | [] => s end.
Definition digits1 (s : str) : bool := (0 <? length s) && forallb is_digit s.
Definition negative_number (s : str) : bool :=
  match s with
  | c :: s' =>
      bool_decide (c = "-"%char) &&
      let s' := chomp s' in
      digits1 s' ||
      match split_char "." s' with
      | [a; b] => forallb is_digit a && digits1 b
      | _ => false
      end
  | [] => false
  end.

(** An option: the flag it was taken for, its argument, and the text after the
    sign if there is one.  [Unknown] looks like an option and is none. *)
Inductive arg_word :=
  | Value (s : str)
  | Separator
  | Flag (flag : str) (a : argument) (explicit : option str)
  | Unknown (s : str).

(** [_get_option_tuples]: two dashes may be abbreviated, one dash is followed
    by its value. *)
Definition option_tuples (p : parser) (s : str) : list (str * argument * option str) :=
  match s with
  | d :: c :: rest =>
      if bool_decide (c = "-"%char) then
        let '(prefix, explicit) :=
          match split_equals s with Some (a, b) => (a, Some b) | None => (s, None) end in
        omap (fun fa => if startswith (fst fa) prefix then Some (fa, explicit) else None) (option_strings p)
      else
        omap (fun fa => if bool_decide (fst fa = [d; c]) then Some (fa, Some rest)
                        else if startswith (fst fa) s then Some (fa, None) else None) (option_strings p)
  | _ => []
  end.

(** [_parse_optional]. *)
Definition parse_optional (p : parser) (s : str) : res arg_word :=
  match s with
  | [] => Ok (Value s)
  | c :: s' =>
      if negb (bool_decide (c = "-"%char)) then Ok (Value s)
      else match find_option p s with
      | Some (f, a) => Ok (Flag f a None)
      | None =>
          if bool_decide (s' = []) then Ok (Value s)
          else match ('(o, v) ← split_equals s; '(f, a) ← find_option p o; Some (Flag f a (Some v))) with
          | Some w => Ok w
          | None =>
              match option_tuples p s with
              | [(f, a, explicit)] => Ok (Flag f a explicit)
              | [] => Ok (if negative_number s || bool_decide (" "%char ∈ s) then Value s else Unknown s)
              | ts => Raise (UsageError ("ambiguous option: " ++ s ++ " could match " ++
                                         join ", " (map (fun t => fst (fst t)) ts)))
              end
          end
      end
  end.

(** After the separator every word is a value. *)
Fixpoint classify (p : parser) (args : list str) : res (list arg_word) :=
  match args with
  | [] => Ok []
  | s :: args' =>
      if bool_decide (s = # "--") then Ok (Separator :: map Value args')
      else w ← parse_optional p s; ws ← classify p args'; Ok (w :: ws)
  end.

(** ** Consuming the words *)

Record arg_state := ArgState {
  namespace : gmap str aval;
  seen : list str;                  (* attributes of the arguments met *)
  positionals : list argument;      (* still to come *)
  extras : list str
}.
Definition unrecognized (s : str) (st : arg_state) : arg_state :=
  ArgState (namespace st) (seen st) (positionals st) (extras st ++ [s]).

(** [_get_value] and [_check_value]. *)
Definition convert (a : argument) (s : str) : res aval :=
  v ← (if a_int a then match py_int s with
                       | Ok z => Ok (VInt z)
                       | Raise _ => argument_error a ("invalid int value: " ++ repr_str s)
                       end
       else Ok (VStr s));
  match a_choices a with
  | Some cs => if bool_decide (s ∈ cs) then Ok v
               else argument_error a ("invalid choice: " ++ repr_str s ++ " (choose from " ++ join ", " (map repr_str cs) ++ ")")
  | None => Ok v
  end.

(** [_get_values] for an argument that takes one value: a word that reads as
    the separator is dropped, and leaves the empty list. *)
Definition get_values (a : argument) (s : str) : res aval :=
  if bool_decide (s = # "--") then Ok (VList []) else convert a s.

(** What the action does to the namespace. *)
Definition perform_action (a : argument) (v : aval) (ns : gmap str aval) : res (gmap str aval) :=
  match a_action a with
  | Store => Ok (<[a_dest a := v]> ns)
  | StoreTrue => Ok (<[a_dest a := VBool true]> ns)
  | Append => Ok (<[a_dest a := VList (match ns !! a_dest a with Some (VList l) => l | _ => [] end ++ [v])]> ns)
  | Help => Raise SystemExit
  end.
Definition with_namespace (a : argument) (ns : gmap str aval) (st : arg_state) : arg_state :=
  ArgState ns (seen st ++ [a_dest a]) (positionals st) (extras st).

(** [take_action], with a value and without. *)
Definition take_value (a : argument) (s : str) (st : arg_state) : res arg_state :=
  v ← get_values a s;
  ns ← perform_action a v (namespace st);
  Ok (with_namespace a ns st).
Definition take_flag (a : argument) (st : arg_state) : res arg_state :=
  ns ← perform_action a VNone (namespace st);
  Ok (with_namespace a ns st).
Definition takes_value (a : argument) : bool :=
  match a_action a with Store | Append => true | _ => false end.

(** [-h] may be repeated in one word; no other option has one dash. *)
Definition only_helps (explicit : str) : bool := (0 <? length explicit) && forallb (fun c => bool_decide (c = "h"%char)) explicit.

Definition next_positional (s : str) (st : arg_state) : res arg_state :=
  match positionals st with
  | a :: ps => take_value a s (ArgState (namespace st) (seen st) ps (extras st))
  | [] => Ok (unrecognized s st)
  end.

(** The words from left to right.  A positional takes the separator next to it
    along: [taken] says that the word before was taken as one. *)
Fixpoint consume (taken : bool) (ws : list arg_word) (st : arg_state) : res arg_state :=
  match ws with
  | [] => Ok st
  | Value s :: ws' => st' ← next_positional s st; consume (0 <? length (positionals st)) ws' st'
  | Separator :: ws' =>
      if taken then consume false ws' st
      else match positionals st, ws' with
      | a :: ps, Value s :: ws'' =>
          v ← convert a s;
          ns ← perform_action a v (namespace st);
          consume false ws'' (with_namespace a ns (ArgState (namespace st) (seen st) ps (extras st)))
      | _, _ => consume false ws' (unrecognized "--" st)
      end
  | Unknown s :: ws' => consume false ws' (unrecognized s st)
  | Flag f a (Some v) :: ws' =>
      if takes_value a then st' ← take_value a v st; consume false ws' st'
      else if startswith f "--" || negb (only_helps v) then argument_error a ("ignored explicit argument " ++ repr_str v)
      else st' ← take_flag a st; consume false ws' st'
  | Flag f a None :: ws' =>
      if takes_value a then
        match ws' with
        | Value s :: ws'' => st' ← take_value a s st; consume false ws'' st'
        | _ => argument_error a "expected one argument"
        end
      else st' ← take_flag a st; consume false ws' st'
  end.

(** [parse_args]. *)
Definition missing (p : parser) (st : arg_state) : list argument :=
  List.filter (fun a => a_required a && negb (bool_decide (a_dest a ∈ seen st))) p.
Definition finish (p : parser) (st : arg_state) : res (gmap str aval) :=
  match missing p st with
  | [] =>
      match extras st with
      | [] => Ok (namespace st)
      | es => Raise (UsageError ("unrecognized arguments: " ++ join " " es))
      end
  | ms => Raise (UsageError ("the following arguments are required: " ++ join ", " (map argument_name ms)))
  end.
Definition initial_state (p : parser) : arg_state :=
  ArgState (defaults p) [] (List.filter (fun a => bool_decide (a_flags a = [])) p) [].
Definition parse_args (p : parser) (args : list str) : res (gmap str aval) :=
  ws ← classify p args;
  st ← consume false ws (initial_state p);
  finish p st.

(** ** What a command line means

    A command line written in full: every option under its own name, with its
    value in the next word or after a sign, and values for the positionals. *)
Inductive token :=
  | GiveFlag (f : str) (a : argument)
  | GiveNext (f : str) (a : argument) (v : str)
  | GiveEquals (f : str) (a : argument) (v : str)
  | GivePositional (v : str).

Definition spell (i : token) : list str :=
  match i with
  | GiveFlag f _ => [f]
  | GiveNext f _ v => [f; v]
  | GiveEquals f _ v => [f ++ "=" ++ v]
  | GivePositional v => [v]
  end.
Definition token_words (i : token) : list arg_word :=
  match i with
  | GiveFlag f a => [Flag f a None]
  | GiveNext f a v => [Flag f a None; Value v]
  | GiveEquals f a v => [Flag f a (Some v)]
  | GivePositional v => [Value v]
  end.
Definition meaning (st : arg_state) (i : token) : res arg_state :=
  match i with
  | GiveFlag _ a => take_flag a st
  | GiveNext _ a v | GiveEquals _ a v => take_value a v st
  | GivePositional v => next_positional v st
  end.

(** A word that is taken for a value where it stands alone. *)
Definition plain (p : parser) (v : str) : Prop := v <> # "--" /\ parse_optional p v = Ok (Value v).

(** Flags start with a dash, are longer and hold no sign. *)
Definition flag_ok (f : str) : bool :=
  match f with
  | d :: c :: r => bool_decide (d = "-"%char) && negb (bool_decide (f = # "--")) && negb (bool_decide ("="%char ∈ f))
  | _ => false
  end.
Definition parser_ok (p : parser) : bool := forallb (fun fa => flag_ok (fst fa)) (option_strings p).

Definition token_ok (p : parser) (i : token) : Prop :=
  match i with
  | GiveFlag f a => find_option p f = Some (f, a) /\ takes_value a = false
  | GiveNext f a v => find_option p f = Some (f, a) /\ takes_value a = true /\ plain p v
  | GiveEquals f a v => find_option p f = Some (f, a) /\ takes_value a = true
  | GivePositional v => plain p v
  end.

Lemma find_option_flag p f g a : find_option p f = Some (g, a) -> g = f /\ (g, a) ∈ option_strings p.
Proof.
  unfold find_option. intros [Hin Hb]%find_some. apply bool_decide_eq_true in Hb. cbn in Hb.
  split; [done|]. by apply list_elem_of_In.
Qed.

Lemma find_option_ok p f g a : parser_ok p = true -> find_option p f = Some (g, a) -> g = f /\ flag_ok f = true.
Proof.
  intros Hp [-> Hin]%find_option_flag. split; [done|].
  apply forallb_Forall_true in Hp. rewrite Forall_forall in Hp. exact (Hp _ Hin).
Qed.

Lemma flag_ok_spec f :
  flag_ok f = true -> exists c r, f = "-"%char :: c :: r /\ f <> # "--" /\ "="%char ∉ f.
Proof.
  destruct f as [|d [|c r]]; cbn [flag_ok]; [done..|].
  rewrite !andb_true_iff, !negb_true_iff, bool_decide_eq_true, !bool_decide_eq_false. intros [[-> H2] H3]. by exists c, r.
Qed.

Lemma split_equals_app f v : "="%char ∉ f -> split_equals (f ++ "=" ++ v) = Some (f, v).
Proof.
  induction f as [|c f IH]; intros H; [done|]. apply not_elem_of_cons in H as [Hc Hf].
  change ((c :: f) ++ "=" ++ v) with (c :: (f ++ "=" ++ v)). cbn [split_equals].
  by rewrite bool_decide_eq_false_2, IH by congruence.
Qed.

Lemma parse_flag p f a : parser_ok p = true -> find_option p f = Some (f, a) -> parse_optional p f = Ok (Flag f a None).
Proof.
  intros Hp Hf. destruct (find_option_ok p f f a Hp Hf) as (_ & (c & r & E & _)%flag_ok_spec).
  unfold parse_optional. rewrite E in *. by rewrite Hf.
Qed.

Lemma parse_equals p f a v :
  parser_ok p = true -> find_option p f = Some (f, a) -> parse_optional p (f ++ "=" ++ v) = Ok (Flag f a (Some v)).
Proof.
  intros Hp Hf. destruct (find_option_ok p f f a Hp Hf) as (_ & (c & r & E & _ & He)%flag_ok_spec).
  assert (Hn : find_option p (f ++ "=" ++ v) = None).
  { destruct (find_option p (f ++ "=" ++ v)) as [[g b]|] eqn:Eg; [|done]. exfalso.
    destruct (find_option_ok p _ g b Hp Eg) as (_ & (_ & _ & _ & _ & Hno)%flag_ok_spec).
    apply Hno, elem_of_app. right. apply list_elem_of_here. }
  unfold parse_optional. rewrite E in *. cbn [app]. cbn [app] in Hn. rewrite Hn.
  assert (Hs := split_equals_app _ v He). cbn [app] in Hs. rewrite Hs. cbn [mbind option_bind]. by rewrite Hf.
Qed.

Lemma classify_cons p s w args :
  s <> # "--" -> parse_optional p s = Ok w -> classify p (s :: args) = ws ← classify p args; Ok (w :: ws).
Proof. intros Hs Hw. cbn [classify]. by rewrite bool_decide_eq_false_2, Hw by done. Qed.

Lemma classify_tokens p tokens :
  parser_ok p = true -> Forall (token_ok p) tokens ->
  classify p (flat_map spell tokens) = Ok (flat_map token_words tokens).
Proof.
  intros Hp. induction 1 as [|i tokens Hi _ IH]; [done|]. cbn [flat_map].
  destruct i as [f a|f a v|f a v|v]; cbn [spell token_words app token_ok] in *.
  1-3: destruct Hi as [Hf Hi]; destruct (find_option_ok p f f a Hp Hf) as (_ & (c & r & E & Hn & He)%flag_ok_spec).
  - by rewrite (classify_cons p f _ _ Hn (parse_flag p f a Hp Hf)), IH.
  - destruct Hi as (_ & Hv & Hw). rewrite (classify_cons p f _ _ Hn (parse_flag p f a Hp Hf)).
    by rewrite (classify_cons p v _ _ Hv Hw), IH.
  - assert (f ++ "=" ++ v <> # "--").
    { intros Hc. apply He. rewrite E in Hc. destruct r; [|done]. injection Hc as -> Hv. done. }
    by rewrite (classify_cons p _ _ _ H (parse_equals p f a v Hp Hf)), IH.
  - destruct Hi as [Hv Hw]. by rewrite (classify_cons p v _ _ Hv Hw), IH.
Qed.

Lemma consume_tokens p tokens b st :
  Forall (token_ok p) tokens -> consume b (flat_map token_words tokens) st = for_each meaning tokens st.
Proof.
  intros Hi. revert b st. induction Hi as [|i tokens Hi _ IH]; intros b st; [done|]. cbn [flat_map for_each].
  destruct i as [f a|f a v|f a v|v]; cbn [token_ok token_words app consume meaning] in *.
  - destruct Hi as [_ ->]. destruct (take_flag a st); cbn; auto.
  - destruct Hi as (_ & -> & _). destruct (take_value a v st); cbn; auto.
  - destruct Hi as (_ & ->). destruct (take_value a v st); cbn; auto.
  - destruct (next_positional v st); cbn; auto.
Qed.

(** A command line written in full is read as its tokens say, from left to
    right, whatever the parser; then what is missing or left over is refused. *)
Theorem parse_rendered p tokens :
  parser_ok p = true -> Forall (token_ok p) tokens ->
  parse_args p (flat_map spell tokens) = st ← for_each meaning tokens (initial_state p); finish p st.
Proof.
  intros Hp Hi. unfold parse_args. by rewrite (classify_tokens p tokens Hp Hi), bind_of_Ok, (consume_tokens p tokens).
Qed.

Lemma plain_text p c s : c <> "-"%char -> plain p (c :: s).
Proof. intros Hc. split; [by intros [=]|]. unfold parse_optional. by rewrite bool_decide_eq_false_2. Qed.

Lemma plain_empty p : plain p [].
Proof. done. Qed.

(** A negative number is a value for every parser whose flags all start with
    two dashes or a dash and no digit. *)
Definition no_digit_flags (p : parser) : bool :=
  forallb (fun fa => match fst fa with _ :: c :: _ => negb (is_digit c) | _ => true end) (option_strings p).

Lemma chomp_digits ds : Forall (fun c => is_digit c = true) ds -> chomp ds = ds.
Proof.
  intros H. unfold chomp. destruct (rev ds) as [|c r] eqn:E; [done|].
  rewrite bool_decide_eq_false_2; [done|]. intros ->.
  rewrite Forall_forall in H. assert (Hin : nl ∈ ds) by (apply list_elem_of_In, in_rev; rewrite E; by left).
  by specialize (H nl Hin).
Qed.

Lemma plain_negative p n :
  no_digit_flags p = true -> plain p ("-"%char :: dec_N n).
Proof.
  intros Hp. destruct (dec_N_digits n) as [Hd Hne]. destruct (dec_N n) as [|c r] eqn:E; [done|].
  assert (Hc : is_digit c = true) by (by inversion Hd). apply forallb_Forall_true in Hp. rewrite Forall_forall in Hp.
  assert (Hno : forall f a, (f, a) ∈ option_strings p -> forall t, f <> "-"%char :: c :: t).
  { intros f a Hin t ->. specialize (Hp _ Hin). cbn in Hp. by rewrite Hc in Hp. }
  assert (Heq : forall l : str, Forall (fun c => is_digit c = true) l -> split_equals ("-"%char :: l) = None).
  { intros l Hl. cbn [split_equals]. rewrite bool_decide_eq_false_2 by done.
    enough (split_equals l = None) as -> by done. induction Hl as [|d l Hd' _ IH]; [done|]. cbn.
    rewrite bool_decide_eq_false_2 by (by intros ->). by rewrite IH. }
  split; [by intros [= -> _]|]. unfold parse_optional. cbn [negb]. rewrite bool_decide_eq_true_2 by done. cbn [negb].
  destruct (find_option p _) as [[g b]|] eqn:Ef.
  { apply find_option_flag in Ef as [-> Hin]. by destruct (Hno _ _ Hin r). }
  rewrite bool_decide_eq_false_2 by done. rewrite (Heq _ Hd). cbn [mbind option_bind].
  replace (option_tuples p ("-"%char :: c :: r)) with (@nil (str * argument * option str)).
  - unfold negative_number. rewrite chomp_digits by done. rewrite bool_decide_eq_true_2 by done.
    unfold digits1. rewrite (proj2 (forallb_forall _ _)); [done|]. intros x Hx. rewrite Forall_forall in Hd. by apply Hd, list_elem_of_In.
  - unfold option_tuples. rewrite bool_decide_eq_false_2 by (by intros ->).
    induction (option_strings p) as [|[f a] l IH]; [done|]. cbn [omap list_omap].
    rewrite bool_decide_eq_false_2 by (eapply (Hno f a); apply list_elem_of_here). cbn [fst].
    destruct (startswith f _) eqn:Es.
    { apply startswith_spec in Es as (t & Es). destruct (Hno f a (list_elem_of_here _ _) (r ++ t)). exact Es. }
    apply IH; intros; [apply Hp; by apply list_elem_of_further|]. eapply Hno. by apply list_elem_of_further.
Qed.

Lemma plain_dec_Z p z : no_digit_flags p = true -> plain p (dec_Z z).
Proof.
  intros Hp. unfold dec_Z. destruct (z <? 0)%Z; [by apply plain_negative|].
  destruct (dec_N_digits (Z.to_N z)) as [Hd Hne]. destruct (dec_N _) as [|c r]; [done|].
  apply plain_text. inversion Hd as [|? ? Hc]; subst. by intros ->.
Qed.

(** ** What a namespace holds *)

(** The values an argument can be given, and those it can have. *)
Definition converted (a : argument) (v : aval) : Prop :=
  v = VList [] \/
  if a_int a then exists z, v = VInt z
  else exists s, v = VStr s /\ match a_choices a with Some cs => s ∈ cs | None => True end.
Definition given (a : argument) (v : aval) : Prop :=
  match a_action a with
  | Store => converted a v
  | StoreTrue => v = VBool true
  | Append => exists l, v = VList l /\ Forall (converted a) l
  | Help => False
  end.

(** No two arguments share an attribute; a list that is appended to starts with
    nothing, an integer option has no choices, and a positional is stored. *)
Definition parser_typed (p : parser) : bool :=
  bool_decide (NoDup (map a_dest p)) &&
  forallb (fun a => match a_action a, a_default a with Append, VNone => true | Append, _ => false | _, _ => true end &&
                    match a_choices a with Some _ => negb (a_int a) | None => true end &&
                    match a_flags a with [] => bool_decide (a_action a = Store) | _ => true end) p.

Definition attribute_ok (st : arg_state) (a : argument) : Prop :=
  exists v, namespace st !! a_dest a = Some v /\
    (given a v \/ (v = a_default a /\ a_dest a ∉ seen st)).
Definition state_ok (p : parser) (st : arg_state) : Prop :=
  (forall a, a ∈ p -> a_action a <> Help -> attribute_ok st a) /\ (forall a, a ∈ positionals st -> a ∈ p).

Definition word_ok (p : parser) (w : arg_word) : Prop :=
  match w with Flag _ a _ => a ∈ p | _ => True end.

(** A namespace as [parse_args] leaves it. *)
Definition namespace_typed (p : parser) (ns : gmap str aval) : Prop :=
  forall a, a ∈ p -> a_action a <> Help ->
    exists v, ns !! a_dest a = Some v /\ (given a v \/ (v = a_default a /\ a_required a = false)).

(** A parse gives a result with a property, or prints the help or an error and
    exits. *)
Definition ends {A} (P : A -> Prop) (m : res A) : Prop :=
  match m with Ok x => P x | Raise e => e = SystemExit \/ exists msg, e = UsageError msg end.

Lemma ends_bind {A B} (P : A -> Prop) (Q : B -> Prop) (m : res A) (f : A -> res B) :
  ends P m -> (forall x, P x -> ends Q (f x)) -> ends Q (m ≫= f).
Proof. destruct m; cbn; auto. Qed.

Lemma ends_weaken {A} (P Q : A -> Prop) (m : res A) : ends P m -> (forall x, P x -> Q x) -> ends Q m.
Proof. destruct m; cbn; auto. Qed.

Lemma ends_error {A} (P : A -> Prop) a msg : ends P (argument_error a msg).
Proof. right. by eexists. Qed.

Section typed.
Context (p : parser) (Hp : parser_typed p = true).

Lemma dest_inj a b : a ∈ p -> b ∈ p -> a_dest a = a_dest b -> a = b.
Proof.
  intros Ha Hb E. apply andb_true_iff in Hp as [Hn _]. apply bool_decide_eq_true in Hn.
  apply list_elem_of_lookup in Ha as (i & Hi), Hb as (j & Hj).
  assert (i = j) as ->.
  { apply (NoDup_lookup (map a_dest p) i j (a_dest a)); [done| |rewrite E];
      rewrite list_lookup_fmap; [by rewrite Hi|by rewrite Hj]. }
  congruence.
Qed.

Lemma option_in f a : (f, a) ∈ option_strings p -> a ∈ p.
Proof.
  intros H. apply list_elem_of_In, in_flat_map in H as (b & Hb & H). apply in_map_iff in H as (g & [= -> ->] & _).
  by apply list_elem_of_In.
Qed.

Lemma argument_typed a : a ∈ p ->
  (a_action a = Append -> a_default a = VNone) /\ (a_choices a <> None -> a_int a = false) /\
  (a_flags a = [] -> a_action a = Store).
Proof.
  intros Ha. apply andb_true_iff in Hp as [_ Hf]. apply forallb_Forall_true in Hf. rewrite Forall_forall in Hf.
  specialize (Hf a Ha). rewrite !andb_true_iff in Hf. destruct Hf as [[H1 H2] H3]. split_and!.
  - intros E. rewrite E in H1. by destruct (a_default a).
  - intros E. destruct (a_choices a); [|done]. by apply negb_true_iff in H2.
  - intros E. rewrite E in H3. by apply bool_decide_eq_true in H3.
Qed.

Lemma convert_ok a s : a ∈ p -> ends (converted a) (convert a s).
Proof.
  intros Ha. destruct (argument_typed a Ha) as (_ & Hc & _). unfold convert, converted.
  destruct (a_choices a) as [cs|] eqn:Ec.
  - rewrite Hc by done. rewrite bind_of_Ok. case_bool_decide; [|apply ends_error]. right. by exists s.
  - destruct (a_int a); [destruct (py_int s) as [z|]|]; cbn; [right; by exists z|right; by eexists|right; by exists s].
Qed.

Lemma get_values_ok a s : a ∈ p -> ends (converted a) (get_values a s).
Proof. intros Ha. unfold get_values. case_bool_decide; [by left|by apply convert_ok]. Qed.

Lemma given_ok a v st :
  a ∈ p -> given a v -> state_ok p st -> state_ok p (with_namespace a (<[a_dest a := v]> (namespace st)) st).
Proof.
  intros Ha Hv [H1 H2]. split; [|exact H2]. intros b Hb Hnh. unfold attribute_ok. cbn [namespace seen with_namespace].
  destruct (decide (a_dest b = a_dest a)) as [E|Hne].
  - apply (dest_inj b a Hb Ha) in E as ->. rewrite lookup_insert_eq. eauto.
  - rewrite lookup_insert_ne by done. destruct (H1 b Hb Hnh) as (w & Hw & [Hg|[Hd Hs]]); exists w; [by auto|].
    split; [done|]. right. split; [done|]. rewrite elem_of_app, list_elem_of_singleton. naive_solver.
Qed.

Lemma perform_ok a v st :
  a ∈ p -> (takes_value a = true -> converted a v) -> state_ok p st ->
  ends (fun ns => state_ok p (with_namespace a ns st)) (perform_action a v (namespace st)).
Proof.
  intros Ha Hv Hst. unfold perform_action, takes_value in *. destruct (a_action a) eqn:E; cbn [ends].
  - apply given_ok; [done|unfold given; rewrite E; by apply Hv|done].
  - apply given_ok; [done|unfold given; by rewrite E|done].
  - apply given_ok; [done| |done]. unfold given. rewrite E. eexists. split; [done|]. apply Forall_app_2; [|by constructor; [apply Hv|constructor]].
    destruct (proj1 Hst a Ha) as (w & -> & Hw); [by rewrite E|]. unfold given in Hw. rewrite E in Hw.
    destruct Hw as [(l & -> & Hl)|[-> _]]; [done|]. by rewrite (proj1 (argument_typed a Ha)) by done.
  - by left.
Qed.

(** Positionals still to come are stored. *)
Definition pending_ok (st : arg_state) : Prop :=
  state_ok p st /\ forall a, a ∈ positionals st -> takes_value a = true.

Lemma pending_with a ns st : pending_ok st -> state_ok p (with_namespace a ns st) -> pending_ok (with_namespace a ns st).
Proof. intros [_ H] Hs. by split. Qed.

Lemma perform_pending a v st :
  a ∈ p -> (takes_value a = true -> converted a v) -> pending_ok st ->
  ends pending_ok (ns ← perform_action a v (namespace st); Ok (with_namespace a ns st)).
Proof.
  intros Ha Hv Hst. eapply ends_bind; [apply (perform_ok a v st Ha Hv), Hst|].
  intros ns. by apply pending_with.
Qed.

Lemma value_pending a s st : a ∈ p -> takes_value a = true -> pending_ok st -> ends pending_ok (take_value a s st).
Proof.
  intros Ha Ht Hst. apply (ends_bind (converted a)); [by apply get_values_ok|]. intros v Hv. by apply perform_pending.
Qed.

Lemma flag_pending a st : a ∈ p -> takes_value a = false -> pending_ok st -> ends pending_ok (take_flag a st).
Proof. intros Ha Ht Hst. apply perform_pending; [done|by rewrite Ht|done]. Qed.

Lemma positional_pending a ps st :
  positionals st = a :: ps -> pending_ok st ->
  a ∈ p /\ takes_value a = true /\ pending_ok (ArgState (namespace st) (seen st) ps (extras st)).
Proof.
  intros E [[H1 H2] H3]. rewrite E in H2, H3. split; [apply H2, list_elem_of_here|].
  split; [apply H3, list_elem_of_here|]. split; [split|].
  - exact H1.
  - intros b Hb. by apply H2, list_elem_of_further.
  - intros b Hb. by apply H3, list_elem_of_further.
Qed.

Lemma next_positional_pending s st : pending_ok st -> ends pending_ok (next_positional s st).
Proof.
  intros Hst. unfold next_positional. destruct (positionals st) as [|a ps] eqn:E; [by destruct Hst|].
  destruct (positional_pending a ps st E Hst) as (Ha & Ht & Hst'). by apply value_pending.
Qed.

Lemma consume_ok n ws b st :
  length ws <= n -> Forall (word_ok p) ws -> pending_ok st -> ends pending_ok (consume b ws st).
Proof.
  revert ws b st. induction n as [|n IH]; intros ws b st Hn Hws Hst; (destruct ws as [|w ws]; [done|]); [cbn in Hn; lia|].
  inversion Hws as [|? ? Hw Hws']; subst. cbn in Hn.
  assert (IH1 : forall b st, pending_ok st -> ends pending_ok (consume b ws st)) by (intros; apply IH; [lia|done..]).
  assert (IH2 : forall w' ws' b st, ws = w' :: ws' -> pending_ok st -> ends pending_ok (consume b ws' st)).
  { intros w' ws' b' st' -> H. inversion Hws'; subst. cbn in Hn. apply IH; [lia|done..]. }
  destruct w as [s| |f a [v|]|s]; cbn [consume].
  - eapply ends_bind; [by apply next_positional_pending|auto].
  - destruct b; [by apply IH1|]. assert (Hu : ends pending_ok (consume false ws (unrecognized "--" st))) by by apply IH1.
    destruct (positionals st) as [|a ps] eqn:E; [exact Hu|]. destruct ws as [|[s| | |] ws']; try exact Hu.
    destruct (positional_pending a ps st E Hst) as (Ha & Ht & Hst').
    apply (ends_bind (converted a)); [by apply convert_ok|]. intros v Hv.
    set (st' := ArgState _ _ _ _) in *. change (namespace st) with (namespace st').
    eapply (ends_bind (fun ns => pending_ok (with_namespace a ns st'))).
    + eapply ends_weaken; [apply (perform_ok a v st' Ha); [done|apply Hst']|]. intros ns. by apply pending_with.
    + intros ns. by eapply IH2.
  - destruct (takes_value a) eqn:Ht; [eapply ends_bind; [by apply value_pending|auto]|].
    destruct (_ || _); [apply ends_error|]. eapply ends_bind; [by apply flag_pending|auto].
  - destruct (takes_value a) eqn:Ht; [|eapply ends_bind; [by apply flag_pending|auto]].
    destruct ws as [|[s| | |] ws']; try apply ends_error.
    eapply ends_bind; [by apply value_pending|]. intros st'. by eapply IH2.
  - by apply IH1.
Qed.

(** ** The classification *)

Lemma option_tuples_in s f a e : (f, a, e) ∈ option_tuples p s -> a ∈ p.
Proof.
  unfold option_tuples. destruct s as [|d [|c r]]; [by intros ?%not_elem_of_nil..|].
  destruct (bool_decide _); [destruct (match split_equals _ with Some _ => _ | None => _ end) as [prefix explicit]|];
    intros ([g b] & Hin & H)%list_elem_of_omap; cbn in H; repeat case_match; simplify_eq; by eapply option_in.
Qed.

Lemma find_option_in s f a : find_option p s = Some (f, a) -> a ∈ p.
Proof. intros [_ H]%find_option_flag. by eapply option_in. Qed.

Lemma parse_optional_ok s : ends (word_ok p) (parse_optional p s).
Proof.
  unfold parse_optional. destruct s as [|c s']; [done|]. destruct (negb _); [done|].
  destruct (find_option p (c :: s')) as [[f a]|] eqn:E; [by eapply find_option_in|].
  destruct (bool_decide _); [done|].
  destruct (_ ≫= _) as [w|] eqn:Ew.
  - apply bind_Some in Ew as ([o v] & _ & Ew). apply bind_Some in Ew as ([g b] & Eo & [= <-]). by eapply find_option_in.
  - destruct (option_tuples p (c :: s')) as [|[[f a] e] [|t ts]] eqn:Et; cbn [ends].
    + by destruct (_ || _).
    + apply (option_tuples_in (c :: s') f a e). rewrite Et. apply list_elem_of_here.
    + right. by eexists.
Qed.

Lemma classify_ok args : ends (Forall (word_ok p)) (classify p args).
Proof.
  induction args as [|s args IH]; [by constructor|]. cbn [classify]. case_bool_decide.
  - constructor; [done|]. by apply Forall_map, Forall_true.
  - eapply ends_bind; [apply parse_optional_ok|]. intros w Hw. eapply ends_bind; [exact IH|]. intros ws Hws. by constructor.
Qed.

(** ** The whole parse *)

Lemma add_default_kept l ns a :
  (forall b, b ∈ l -> b ∈ p) -> a ∈ p -> a_action a <> Help -> a ∈ l \/ ns !! a_dest a = Some (a_default a) ->
  fold_left add_default l ns !! a_dest a = Some (a_default a).
Proof.
  intros Hl Ha Hh. revert ns. induction l as [|b l IH]; intros ns H; cbn [fold_left].
  - destruct H as [H|H]; [|done]. by apply not_elem_of_nil in H.
  - apply IH; [intros; by apply Hl, list_elem_of_further|]. rewrite elem_of_cons in H.
    unfold add_default. destruct (decide (a_dest b = a_dest a)) as [E|Hne].
    + apply dest_inj in E as ->; [|apply Hl, list_elem_of_here|done]. right.
      destruct (a_action a); [by rewrite lookup_insert_eq..|done].
    + destruct H as [[->|H]|H]; [done|by left|]. right. by destruct (a_action b); rewrite ?lookup_insert_ne.
Qed.

Lemma defaults_lookup a : a ∈ p -> a_action a <> Help -> defaults p !! a_dest a = Some (a_default a).
Proof. intros Ha Hh. apply add_default_kept; auto. Qed.

Lemma initial_pending : pending_ok (initial_state p).
Proof.
  assert (Hpos : forall a, a ∈ positionals (initial_state p) -> a ∈ p /\ a_flags a = []).
  { intros a Ha%list_elem_of_In. cbn in Ha. apply filter_In in Ha as [Ha Hb%bool_decide_eq_true].
    split; [by apply list_elem_of_In|done]. }
  split; [split|].
  - intros a Ha Hh. exists (a_default a). split; [by apply defaults_lookup|]. right. split; [done|]. apply not_elem_of_nil.
  - intros a Ha. by apply Hpos.
  - intros a [Ha Hf]%Hpos. unfold takes_value. by rewrite (proj2 (proj2 (argument_typed a Ha)) Hf).
Qed.

(** Every command line is accepted or refused in an orderly way, and a namespace
    holds for every argument a value it can be given or, if it may be left out,
    its default. *)
Theorem parse_args_typed args :
  ends (namespace_typed p) (parse_args p args).
Proof.
  unfold parse_args. eapply ends_bind; [apply classify_ok|]. intros ws Hws.
  eapply ends_bind; [by apply (consume_ok (length ws)), initial_pending|]. intros st [[Hst _] _].
  unfold finish. destruct (missing p st) as [|m ms] eqn:Em; [|right; by eexists].
  destruct (extras st); [|right; by eexists]. intros a Ha Hh.
  destruct (Hst a Ha Hh) as (v & Hv & Hg). exists v. split; [done|]. destruct Hg as [Hg|[-> Hs]]; [by left|]. right. split; [done|].
  destruct (a_required a) eqn:Er; [|done]. exfalso.
  assert (Hin : In a (missing p st)).
  { unfold missing. apply filter_In. split; [by apply list_elem_of_In|]. by rewrite Er, bool_decide_eq_false_2. }
  by rewrite Em in Hin.
Qed.
End typed.

(** ** Attributes *)

(** [args.name], with the type its reader expects.  The one value of another
    type a namespace can hold is the empty list, which [--name=--] gives; it is
    refused here, where the script would stop at its first use of it. *)
Definition attribute (ns : gmap str aval) (name : str) : res aval := of_option AttributeError (ns !! name).
Definition attr_bool (ns : gmap str aval) (name : str) : res bool :=
  v ← attribute ns name; match v with VBool b => Ok b | _ => Raise TypeError end.
Definition attr_text (ns : gmap str aval) (name : str) : res str :=
  v ← attribute ns name; match v with VStr s => Ok s | _ => Raise TypeError end.
Definition attr_int (ns : gmap str aval) (name : str) : res Z :=
  v ← attribute ns name; match v with VInt z => Ok z | _ => Raise TypeError end.
Definition attr_opt_int (ns : gmap str aval) (name : str) : res (option Z) :=
  v ← attribute ns name; match v with VInt z => Ok (Some z) | VNone => Ok None | _ => Raise TypeError end.

(** The mark of [--name=--]. *)
Definition separator_given (ns : gmap str aval) : Prop :=
  exists name l, ns !! name = Some (VList l) /\ (l = [] \/ VList [] ∈ l).

(** A reader of an attribute gets a value or meets the mark. *)
Definition reads {A : Type} (ns : gmap str aval) (m : res A) : Prop :=
  match m with Ok _ => True | Raise e => e = TypeError /\ separator_given ns end.

Lemma reads_bind {A B : Type} ns (m : res A) (f : A -> res B) :
  reads ns m -> (forall x, m = Ok x -> reads ns (f x)) -> reads ns (m ≫= f).
Proof. destruct m; cbn; auto. Qed.

Lemma reads_text p ns a :
  namespace_typed p ns -> a ∈ p -> a_action a = Store -> a_int a = false ->
  a_required a = true \/ (exists s, a_default a = VStr s) -> reads ns (attr_text ns (a_dest a)).
Proof.
  intros Hns Ha Hs Hi Hd. destruct (Hns a Ha) as (v & Hv & Hg); [by rewrite Hs|]. unfold attr_text, attribute. rewrite Hv.
  unfold given, converted in Hg. rewrite Hs, Hi in Hg. destruct Hg as [[->|(s & -> & _)]|[-> Hr]]; [|done|].
  - split; [done|]. exists (a_dest a), []. auto.
  - destruct Hd as [Hd|(s & ->)]; [congruence|done].
Qed.

Lemma reads_attr p ns a :
  namespace_typed p ns -> a ∈ p -> a_action a <> Help ->
  exists v, attribute ns (a_dest a) = Ok v /\ ns !! a_dest a = Some v /\ (given a v \/ (v = a_default a /\ a_required a = false)).
Proof. intros Hns Ha Hh. destruct (Hns a Ha Hh) as (v & Hv & Hg). exists v. unfold attribute. by rewrite Hv. Qed.

Lemma reads_int p ns a z :
  namespace_typed p ns -> a ∈ p -> a_action a = Store -> a_int a = true -> a_default a = VInt z -> reads ns (attr_int ns (a_dest a)).
Proof.
  intros Hns Ha Hs Hi Hd. destruct (Hns a Ha) as (v & Hv & Hg); [by rewrite Hs|]. unfold attr_int, attribute. rewrite Hv.
  unfold given, converted in Hg. rewrite Hs, Hi, Hd in Hg. destruct Hg as [[->|(s & ->)]|[-> Hr]]; [|done|done].
  split; [done|]. exists (a_dest a), []. auto.
Qed.

(** What a script promises about its options: the record it reads from the
    namespace is the record its command line was written for. *)
Class CommandLine (A : Type) := {
  cl_parser : parser;
  cl_of : gmap str aval -> res A;
  cl_tokens : A -> list token;
  cl_ok : A -> Prop;
  cl_read a : cl_ok a -> (parse_args cl_parser (flat_map spell (cl_tokens a)) ≫= cl_of) = Ok a
}.
Definition command_line `{CommandLine A} (args : list str) : res A := ns ← parse_args cl_parser args; cl_of ns.
Definition words_of `{CommandLine A} (a : A) : list str := flat_map spell (cl_tokens a).

Lemma command_line_words `{CommandLine A} (a : A) : cl_ok a -> command_line (words_of a) = Ok a.
Proof. exact (cl_read a). Qed.

(** An option that is given only when it is wanted. *)
Definition given_if (b : bool) (i : token) : list token := if b then [i] else [].

(** Giving a text, an integer or a flag sets the attribute. *)
Lemma take_text a s st :
  a_action a = Store -> a_int a = false -> a_choices a = None -> s <> # "--" ->
  take_value a s st = Ok (with_namespace a (<[a_dest a := VStr s]> (namespace st)) st).
Proof.
  intros Ha Hi Hc Hs. unfold take_value, get_values, convert, perform_action.
  by rewrite bool_decide_eq_false_2, Hi, bind_of_Ok, Hc, Ha by done.
Qed.

Lemma dec_Z_not_separator z : dec_Z z <> # "--".
Proof.
  intros E. pose proof (py_int_dec_Z z) as H. rewrite E in H. vm_compute in H. discriminate H.
Qed.

Lemma take_int a z st :
  a_action a = Store -> a_int a = true -> a_choices a = None ->
  take_value a (dec_Z z) st = Ok (with_namespace a (<[a_dest a := VInt z]> (namespace st)) st).
Proof.
  intros Ha Hi Hc. unfold take_value, get_values, convert, perform_action.
  rewrite bool_decide_eq_false_2 by apply dec_Z_not_separator. by rewrite Hi, py_int_dec_Z, bind_of_Ok, Hc, Ha.
Qed.

Lemma take_true a st :
  a_action a = StoreTrue -> take_flag a st = Ok (with_namespace a (<[a_dest a := VBool true]> (namespace st)) st).
Proof. intros Ha. unfold take_flag, perform_action. by rewrite Ha. Qed.
