(* ===== verification/Regex.v ===== *)
(** * Regular expressions

    The backtracking semantics of Python's [re] for the constructs the
    scripts use.  [run r st] lists, in the order the engine tries them, every
    way [r] can match at the position [st]; the engine's answer is the head of
    the list.  [matches] is the declarative reading, and [run_matches] states
    that the list holds exactly the declarative matches. *)
From S2P Require Import Prelude PyStr.

(** A position: the characters already consumed (last one first), those that
    remain, and the groups captured so far (latest first). *)
Record mstate := MSt { seen : str; rest : str; caps : list (nat * str) }.

Inductive re :=
  | Eps
  | Cls (p : ascii -> bool)
  | Seq (r1 r2 : re)
  | Alt (r1 r2 : re)
  | Star (r : re)
  | Grp (n : nat) (r : re)
  | Bol          (* ^ *)
  | BolM         (* ^ under re.MULTILINE *)
  | Eol          (* $ *)
  | Wb           (* \b *)
  | NLook (r : re). (* (?!r) *)

(** ** Derived forms *)

Definition Chr (c : ascii) : re := Cls (fun a => bool_decide (a = c)).
Fixpoint Lit (w : str) : re :=
  match w with [] => Eps | c :: w' => Seq (Chr c) (Lit w') end.
Definition Dot : re := Cls (fun a => negb (bool_decide (a = nl))).
Definition Plus (r : re) : re := Seq r (Star r).
Definition Opt (r : re) : re := Alt r Eps.
Fixpoint seqs (rs : list re) : re :=
  match rs with [] => Eps | [r] => r | r :: rs' => Seq r (seqs rs') end.
Definition Digit : re := Cls is_digit.
Definition Space : re := Cls is_space.
Definition NonSpace : re := Cls (fun a => negb (is_space a)).
Definition Word : re := Cls is_word.
Definition NoneOf (cs : str) : re := Cls (fun a => bool_decide (a ∉ cs)).
Definition OneOf (cs : str) : re := Cls (fun a => bool_decide (a ∈ cs)).

(** ** The matcher *)

Definition text_between (st st' : mstate) : str :=
  take (length (rest st) - length (rest st')) (rest st).

Definition capture (n : nat) (st st' : mstate) : mstate :=
  MSt (seen st') (rest st') ((n, text_between st st') :: caps st').

Definition at_word_boundary (st : mstate) : bool :=
  let w o := match o with Some c => is_word c | None => false end in
  xorb (w (head (seen st))) (w (head (rest st))).

(** Greedy iteration: a further round first, then stopping.  A round has to
    consume something, so [length (rest st)] rounds are enough. *)
Fixpoint star_loop (f : mstate -> list mstate) (fuel : nat) (st : mstate) : list mstate :=
  match fuel with
  | O => [st]
  | S n =>
      flat_map (fun st' => if length (rest st') <? length (rest st)
                           then star_loop f n st' else []) (f st) ++ [st]
  end.

Fixpoint run (r : re) (st : mstate) : list mstate :=
  match r with
  | Eps => [st]
  | Cls p =>
      match rest st with
      | c :: s => if p c then [MSt (c :: seen st) s (caps st)] else []
      | [] => []
      end
  | Seq r1 r2 => flat_map (run r2) (run r1 st)
  | Alt r1 r2 => run r1 st ++ run r2 st
  | Star r1 => star_loop (run r1) (length (rest st)) st
  | Grp n r1 => map (capture n st) (run r1 st)
  | Bol => match seen st with [] => [st] | _ => [] end
  | BolM => match seen st with
            | [] => [st]
            | c :: _ => if bool_decide (c = nl) then [st] else []
            end
  | Eol => match rest st with
           | [] => [st]
           | [c] => if bool_decide (c = nl) then [st] else []
           | _ => []
           end
  | Wb => if at_word_boundary st then [st] else []
  | NLook r1 => match run r1 st with [] => [st] | _ => [] end
  end.

(** ** Entry points *)

Record match_obj := Match { m_before : str; m_text : str; m_state : mstate }.

Definition group (n : nat) (m : match_obj) : option str :=
  snd <$> List.find (fun p => fst p =? n) (caps (m_state m)).

Definition match_at (r : re) (before s : str) : option match_obj :=
  let st := MSt before s [] in
  match run r st with
  | m :: _ => Some (Match before (text_between st m) m)
  | [] => None
  end.

Fixpoint search_from (r : re) (before s : str) : option match_obj :=
  match match_at r before s with
  | Some m => Some m
  | None => match s with
            | [] => None
            | c :: s' => search_from r (c :: before) s'
            end
  end.

(** [re.search] and [re.match]. *)
Definition search (r : re) (s : str) : option match_obj := search_from r [] s.
Definition rematch (r : re) (s : str) : option match_obj := match_at r [] s.
Definition searchb (r : re) (s : str) : bool :=
  match search r s with Some _ => true | None => false end.

(** [re.sub(r, repl, s)] and [re.split] of a pattern that is one capturing
    group, for patterns that do not match the empty string.  [skip] counts the
    characters of a match still to be passed over. *)
Fixpoint sub_from (r : re) (repl : str) (skip : nat) (before s : str) : str :=
  match s with
  | [] => []
  | c :: s' =>
      match skip with
      | S k => sub_from r repl k (c :: before) s'
      | O => match match_at r before s with
             | Some m => repl ++ sub_from r repl (pred (length (m_text m))) (c :: before) s'
             | None => c :: sub_from r repl 0 (c :: before) s'
             end
      end
  end.
Definition sub (r : re) (repl s : str) : str := sub_from r repl 0 [] s.

Fixpoint resplit_from (r : re) (skip : nat) (before cur s : str) : list str :=
  match s with
  | [] => [rev cur]
  | c :: s' =>
      match skip with
      | S k => resplit_from r k (c :: before) cur s'
      | O => match match_at r before s with
             | Some m => rev cur :: m_text m ::
                         resplit_from r (pred (length (m_text m))) (c :: before) [] s'
             | None => resplit_from r 0 (c :: before) (c :: cur) s'
             end
      end
  end.
Definition resplit (r : re) (s : str) : list str := resplit_from r 0 [] [] s.

(** ** Declarative semantics *)

Inductive matches : re -> mstate -> mstate -> Prop :=
  | M_Eps st : matches Eps st st
  | M_Cls (p : ascii -> bool) c s sn cs :
      p c = true -> matches (Cls p) (MSt sn (c :: s) cs) (MSt (c :: sn) s cs)
  | M_Seq r1 r2 st st1 st2 :
      matches r1 st st1 -> matches r2 st1 st2 -> matches (Seq r1 r2) st st2
  | M_AltL r1 r2 st st' : matches r1 st st' -> matches (Alt r1 r2) st st'
  | M_AltR r1 r2 st st' : matches r2 st st' -> matches (Alt r1 r2) st st'
  | M_StarStop r st : matches (Star r) st st
  | M_StarMore r st st1 st2 :
      matches r st st1 -> length (rest st1) < length (rest st) ->
      matches (Star r) st1 st2 -> matches (Star r) st st2
  | M_Grp n r st st' : matches r st st' -> matches (Grp n r) st (capture n st st')
  | M_Bol s cs : matches Bol (MSt [] s cs) (MSt [] s cs)
  | M_BolM_start s cs : matches BolM (MSt [] s cs) (MSt [] s cs)
  | M_BolM_line sn s cs :
      matches BolM (MSt (nl :: sn) s cs) (MSt (nl :: sn) s cs)
  | M_Eol_end sn cs : matches Eol (MSt sn [] cs) (MSt sn [] cs)
  | M_Eol_nl sn cs : matches Eol (MSt sn [nl] cs) (MSt sn [nl] cs)
  | M_Wb st : at_word_boundary st = true -> matches Wb st st
  | M_NLook r st : run r st = [] -> matches (NLook r) st st.
Create HintDb regex.
#[export] Hint Constructors matches : regex.

#[local] Arguments Nat.ltb : simpl never.
#[local] Arguments text_between : simpl never.
#[local] Arguments bool_decide : simpl never.

(** Normalises membership in the lists the matcher builds. *)
Ltac run_in H :=
  repeat first
    [ rewrite elem_of_nil in H; destruct H
    | apply list_elem_of_singleton in H; subst
    | apply list_elem_of_In, in_flat_map in H as (? & ?%list_elem_of_In & H%list_elem_of_In)
    | apply list_elem_of_In, in_map_iff in H as (? & <- & H%list_elem_of_In) ].

Lemma star_loop_sound (f : mstate -> list mstate) r n st st' :
  (forall a b, b ∈ f a -> matches r a b) ->
  st' ∈ star_loop f n st -> matches (Star r) st st'.
Proof.
  intros Hf. revert st. induction n as [|n IH]; intros st; cbn.
  - intros H. run_in H. constructor.
  - intros [H|H]%elem_of_app; run_in H; [|constructor].
    destruct (Nat.ltb_spec (length (rest x)) (length (rest st))); [|run_in H].
    econstructor; eauto.
Qed.

Lemma star_loop_complete (f : mstate -> list mstate) r st st' :
  (forall a b, matches r a b -> b ∈ f a) ->
  matches (Star r) st st' ->
  forall n, length (rest st) <= n -> st' ∈ star_loop f n st.
Proof.
  intros Hf H. remember (Star r) as sr eqn:E. revert E.
  induction H; intros [=]; subst; intros m Hm.
  - destruct m; cbn; [|apply elem_of_app; right]; apply list_elem_of_here.
  - destruct m as [|m]; cbn; [lia|]. apply elem_of_app. left.
    apply list_elem_of_In, in_flat_map. exists st1.
    split; [by apply list_elem_of_In, Hf|].
    rewrite (proj2 (Nat.ltb_lt _ _)) by done.
    apply list_elem_of_In. apply IHmatches2; [done|lia].
Qed.

Lemma run_sound r st st' : st' ∈ run r st -> matches r st st'.
Proof.
  revert st st'. induction r; intros [sn s cs] st' H; cbn in H;
    try (run_in H; eauto with regex; fail).
  - destruct s as [|c s]; [run_in H|]. destruct (p c) eqn:E; run_in H. by constructor.
  - apply elem_of_app in H as [H|H]; eauto with regex.
  - eapply star_loop_sound; eauto.
  - destruct sn; run_in H. constructor.
  - destruct sn as [|c sn]; [|case_bool_decide]; run_in H; constructor.
  - destruct s as [|c [|]]; [|case_bool_decide|]; run_in H; constructor.
  - destruct (at_word_boundary _) eqn:E; run_in H. by constructor.
  - destruct (run r _) eqn:E; run_in H. by constructor.
Qed.

Lemma run_complete r st st' : matches r st st' -> st' ∈ run r st.
Proof.
  revert st st'. induction r; intros st st' H; try (inversion H; subst; cbn;
    rewrite ?bool_decide_eq_true_2 by done; rewrite ?H1; apply list_elem_of_here).
  - inversion H; subst; cbn. apply list_elem_of_In, in_flat_map. exists st1.
    rewrite <- !list_elem_of_In. auto.
  - cbn. apply elem_of_app. inversion H; subst; auto.
  - cbn. eapply star_loop_complete; eauto.
  - inversion H; subst; cbn. apply list_elem_of_In, in_map_iff. eexists.
    rewrite <- list_elem_of_In. auto.
  - inversion H; subst; cbn. rewrite H0. apply list_elem_of_here.
Qed.

(** The matcher enumerates exactly the declarative matches. *)
Lemma run_matches r st st' : st' ∈ run r st <-> matches r st st'.
Proof. split; [apply run_sound | apply run_complete]. Qed.

(** ** Facts about matches *)

(** A match consumes a prefix of what remains. *)
Lemma matches_consumes r st st' :
  matches r st st' ->
  exists w, rest st = w ++ rest st' /\ seen st' = rev w ++ seen st.
Proof.
  induction 1; cbn; try (by exists []); eauto.
  - by exists [c].
  - destruct IHmatches1 as (w1 & R1 & S1), IHmatches2 as (w2 & R2 & S2).
    exists (w1 ++ w2). by rewrite rev_app_distr, <- !app_assoc, R1, R2, S2, S1.
  - destruct IHmatches1 as (w1 & R1 & S1), IHmatches2 as (w2 & R2 & S2).
    exists (w1 ++ w2). by rewrite rev_app_distr, <- !app_assoc, R1, R2, S2, S1.
Qed.

Lemma text_between_app sn sn' w s cs cs' :
  text_between (MSt sn (w ++ s) cs) (MSt sn' s cs') = w.
Proof.
  unfold text_between; cbn. rewrite length_app, Nat.add_sub. by rewrite take_app_length.
Qed.

(** [re.match] fails exactly when no match starts at the position. *)
Lemma match_at_None r before s :
  match_at r before s = None <-> forall st', ~ matches r (MSt before s []) st'.
Proof.
  unfold match_at. destruct (run r (MSt before s [])) as [|m ms] eqn:E.
  - split; [|done]. intros _ st' H%run_matches. rewrite E in H. by apply not_elem_of_nil in H.
  - split; [done|]. intros H. exfalso. apply (H m), run_matches. rewrite E. apply list_elem_of_here.
Qed.

Lemma match_at_Some r before s m :
  match_at r before s = Some m ->
  m_before m = before /\ matches r (MSt before s []) (m_state m) /\
  s = m_text m ++ rest (m_state m).
Proof.
  unfold match_at. destruct (run r (MSt before s [])) as [|st ms] eqn:E; intros [= <-]; cbn.
  assert (H : matches r (MSt before s []) st) by (apply run_matches; rewrite E; apply list_elem_of_here).
  split; [done|]. split; [done|].
  destruct (matches_consumes _ _ _ H) as (w & Hw & _); cbn in Hw. subst s.
  destruct st as [sn' s' cs']; cbn [rest]. by rewrite text_between_app.
Qed.

(** [re.search] fails exactly when no position has a match; otherwise it
    reports the leftmost position that has one. *)
Lemma search_from_None r before s :
  search_from r before s = None <->
  forall a b, s = a ++ b -> match_at r (rev a ++ before) b = None.
Proof.
  revert before. induction s as [|c s IH]; intros before; cbn.
  - split.
    + intros H a b E. symmetry in E. apply app_nil in E as [-> ->]. cbn.
      destruct (match_at r before []); done.
    + intros H. specialize (H [] [] eq_refl). cbn in H. by rewrite H.
  - destruct (match_at r before (c :: s)) eqn:E.
    + split; [done|]. intros H. specialize (H [] (c :: s) eq_refl). cbn in H. congruence.
    + rewrite IH. split.
      * intros H [|c' a] b Heq; cbn in Heq; [by simplify_eq/=|].
        injection Heq as -> ->. cbn. rewrite <- app_assoc. cbn. by apply H.
      * intros H a b ->. specialize (H (c :: a) b eq_refl). cbn in H.
        by rewrite <- app_assoc in H.
Qed.

Lemma search_from_Some r before s m :
  search_from r before s = Some m ->
  exists a b, s = a ++ b /\ match_at r (rev a ++ before) b = Some m /\
    forall a1 a2, a = a1 ++ a2 -> a2 <> [] ->
      match_at r (rev a1 ++ before) (a2 ++ b) = None.
Proof.
  revert before. induction s as [|c s IH]; intros before H; cbn in H.
  - destruct (match_at r before []) eqn:E; simplify_eq. exists [], []. cbn.
    split_and!; [done..|]. intros a1 a2 E2 Hne. symmetry in E2.
    apply app_nil in E2 as [_ ->]. done.
  - destruct (match_at r before (c :: s)) eqn:E.
    + simplify_eq. exists [], (c :: s). split_and!; [done..|].
      intros a1 a2 E2 Hne. symmetry in E2. apply app_nil in E2 as [_ ->]. done.
    + destruct (IH _ H) as (a & b & -> & Hm & Hleft).
      exists (c :: a), b. cbn. rewrite <- app_assoc. cbn. split_and!; [done..|].
      intros [|c1 a1] a2 E2 Hne; cbn in E2.
      * subst a2. cbn. exact E.
      * injection E2 as <- ->. cbn. rewrite <- app_assoc. cbn. by apply Hleft.
Qed.

(** ** Evaluating the matcher on known text *)

Lemma run_Cls p sn c s cs :
  run (Cls p) (MSt sn (c :: s) cs) = if p c then [MSt (c :: sn) s cs] else [].
Proof. done. Qed.

Lemma run_Lit w sn s cs :
  run (Lit w) (MSt sn s cs) =
  if prefixb w s then [MSt (rev w ++ sn) (drop (length w) s) cs] else [].
Proof.
  revert sn s. induction w as [|a w IH]; intros sn s; cbn; [done|].
  destruct s as [|b s]; cbn; [done|].
  destruct (decide (b = a)) as [->|].
  - rewrite !bool_decide_eq_true_2 by done. cbn. rewrite IH, app_nil_r.
    destruct (prefixb w s); [|done]. by rewrite <- app_assoc.
  - rewrite !bool_decide_eq_false_2 by congruence. done.
Qed.

Lemma run_Lit_app w sn s cs :
  run (Lit w) (MSt sn (w ++ s) cs) = [MSt (rev w ++ sn) s cs].
Proof. rewrite run_Lit, prefixb_app. by rewrite drop_app_length. Qed.

(** The states a greedy class iteration visits: the longest run first. *)
Fixpoint spans (sn w s : str) (cs : list (nat * str)) : list mstate :=
  match w with
  | [] => [MSt sn s cs]
  | c :: w' => spans (c :: sn) w' s cs ++ [MSt sn (c :: w' ++ s) cs]
  end.

Definition stops (p : ascii -> bool) (s : str) : Prop :=
  match s with [] => True | c :: _ => p c = false end.

Lemma run_Star_Cls_fuel p sn w s cs n :
  Forall (fun c => p c = true) w -> stops p s -> length (w ++ s) <= n ->
  star_loop (run (Cls p)) n (MSt sn (w ++ s) cs) = spans sn w s cs.
Proof.
  intros Hw Hs. revert sn n. induction Hw as [|c w Hc Hw IH]; intros sn n Hn.
  - destruct n as [|n]; cbn; [done|].
    destruct s as [|c s]; cbn; [done|]. cbn in Hs. by rewrite Hs.
  - destruct n as [|n]; [cbn in Hn; lia|]. cbn in Hn |- *. rewrite Hc. cbn.
    rewrite (proj2 (Nat.ltb_lt _ _)) by lia.
    rewrite IH by lia. by rewrite app_nil_r.
Qed.

Lemma run_Star_Cls p sn w s cs :
  Forall (fun c => p c = true) w -> stops p s ->
  run (Star (Cls p)) (MSt sn (w ++ s) cs) = spans sn w s cs.
Proof. intros. by apply run_Star_Cls_fuel. Qed.

(** The same for any pattern that reads one character of a class, whatever it
    captures. *)
Lemma star_loop_class f (p : ascii -> bool) w s :
  (forall sn c s cs, p c = true -> exists cs' l, f (MSt sn (c :: s) cs) = MSt (c :: sn) s cs' :: l) ->
  (forall sn cs, f (MSt sn s cs) = []) ->
  forall n sn cs, Forall (fun c => p c = true) w -> length (w ++ s) <= n ->
    exists cs' l, star_loop f n (MSt sn (w ++ s) cs) = MSt (rev w ++ sn) s cs' :: l.
Proof.
  intros Hf Hs. induction w as [|c w IH]; intros n sn cs Hw Hn.
  - exists cs, []. destruct n as [|n]; cbn; [done|]. by rewrite Hs.
  - apply Forall_cons_1 in Hw as [Hc Hw]. destruct n as [|n]; [cbn in Hn; lia|]. cbn [app] in Hn |- *. cbn [star_loop].
    destruct (Hf sn c (w ++ s) cs Hc) as (cs1 & l & ->). cbn [flat_map rest].
    rewrite (proj2 (Nat.ltb_lt _ _)) by (cbn; lia).
    destruct (IH n (c :: sn) cs1 Hw ltac:(cbn in Hn; lia)) as (cs2 & l2 & ->). cbn [rev app].
    do 2 eexists. rewrite <- (app_assoc (rev w)). reflexivity.
Qed.

(** ** First matches

    The engine's answer is the head of the list; these lemmas follow the
    leftmost, greediest branch. *)

Lemma spans_head sn w s cs : exists l, spans sn w s cs = MSt (rev w ++ sn) s cs :: l.
Proof.
  revert sn. induction w as [|c w IH]; intros sn; cbn; [by exists []|].
  destruct (IH (c :: sn)) as (l & ->). rewrite <- app_assoc. by eexists.
Qed.

Lemma run_Plus_Cls_first (p : ascii -> bool) sn w s cs :
  Forall (fun c => p c = true) w -> w <> [] -> stops p s ->
  exists l, run (Plus (Cls p)) (MSt sn (w ++ s) cs) = MSt (rev w ++ sn) s cs :: l.
Proof.
  intros [|c w' Hc Hw] Hne Hs; [done|].
  change (run (Plus (Cls p)) ?st) with (flat_map (run (Star (Cls p))) (run (Cls p) st)).
  cbn [app]. rewrite run_Cls, Hc. cbn [flat_map]. rewrite app_nil_r.
  rewrite run_Star_Cls by done. destruct (spans_head (c :: sn) w' s cs) as (l & ->).
  cbn [rev]. rewrite <- app_assoc. by eexists.
Qed.

Lemma run_Seq_first r1 r2 st st1 l1 st2 l2 :
  run r1 st = st1 :: l1 -> run r2 st1 = st2 :: l2 ->
  exists l, run (Seq r1 r2) st = st2 :: l.
Proof. intros H1 H2. cbn. rewrite H1. cbn. rewrite H2. by eexists. Qed.

Lemma run_Lit_first w sn s cs r2 st2 l2 :
  run r2 (MSt (rev w ++ sn) s cs) = st2 :: l2 ->
  exists l, run (Seq (Lit w) r2) (MSt sn (w ++ s) cs) = st2 :: l.
Proof. intros H. eapply run_Seq_first; [apply run_Lit_app|exact H]. Qed.

Lemma run_Grp_first n r st st1 l :
  run r st = st1 :: l -> exists l', run (Grp n r) st = capture n st st1 :: l'.
Proof. intros H. cbn. rewrite H. by eexists. Qed.

Lemma run_Opt_first r st st1 l : run r st = st1 :: l -> exists l', run (Opt r) st = st1 :: l'.
Proof. intros H. unfold Opt. cbn. rewrite H. by eexists. Qed.

Lemma run_Opt_none r st : run r st = [] -> run (Opt r) st = [st].
Proof. intros H. unfold Opt. cbn. by rewrite H. Qed.

(** The longest prefix of a span after which the rest of the pattern matches. *)
Lemma spans_app sn w1 w2 s cs :
  exists l, spans sn (w1 ++ w2) s cs = spans (rev w1 ++ sn) w2 s cs ++ l.
Proof.
  revert sn. induction w1 as [|c w1 IH]; intros sn; cbn; [exists []; symmetry; apply app_nil_r|].
  destruct (IH (c :: sn)) as (l & ->). rewrite <- !app_assoc. cbn. by eexists.
Qed.

Lemma run_Star_then_first (p : ascii -> bool) r2 sn w1 w2 s cs st2 l2 :
  Forall (fun c => p c = true) (w1 ++ w2) -> stops p s ->
  flat_map (run r2) (spans (rev w1 ++ sn) w2 s cs) = st2 :: l2 ->
  exists l, run (Seq (Star (Cls p)) r2) (MSt sn ((w1 ++ w2) ++ s) cs) = st2 :: l.
Proof.
  intros Hw Hs H. change (run (Seq (Star (Cls p)) r2) ?st) with (flat_map (run r2) (run (Star (Cls p)) st)).
  rewrite run_Star_Cls by done. destruct (spans_app sn w1 w2 s cs) as (l & ->).
  rewrite flat_map_app, H. by eexists.
Qed.

Lemma capture_app n sn w s cs sn' cs' :
  capture n (MSt sn (w ++ s) cs) (MSt sn' s cs') = MSt sn' s ((n, w) :: cs').
Proof. unfold capture. by rewrite text_between_app. Qed.

(** A literal that has a character the text lacks is not found in it. *)
Lemma search_Lit_None w c s : c ∈ w -> c ∉ s -> search (Lit w) s = None.
Proof.
  intros Hw Hs. unfold search. apply search_from_None. intros a b ->.
  unfold match_at. rewrite run_Lit. destruct (prefixb w b) eqn:E; [|done].
  apply prefixb_spec in E as [k ->]. destruct Hs. apply elem_of_app. right. apply elem_of_app. auto.
Qed.

Lemma search_from_hit r before s st l :
  run r (MSt before s []) = st :: l ->
  search_from r before s = Some (Match before (text_between (MSt before s []) st) st).
Proof. intros H. destruct s; cbn; unfold match_at; by rewrite H. Qed.

Lemma search_hit r s st l :
  run r (MSt [] s []) = st :: l -> search r s = Some (Match [] (text_between (MSt [] s []) st) st).
Proof. intros H. unfold search. destruct s; cbn; unfold match_at; by rewrite H. Qed.

Lemma digit_neq c d : is_digit c = true -> is_digit d = false -> c <> d.
Proof. congruence. Qed.

(** ** Patterns anchored at the start of the string *)

Lemma searchb_Bol r s :
  searchb (Seq Bol r) s = match run r (MSt [] s []) with [] => false | _ => true end.
Proof.
  assert (Hrun : forall st, run (Seq Bol r) st = match seen st with [] => run r st | _ => [] end).
  { intros [[|c sn] s' cs]; cbn; [by rewrite app_nil_r|done]. }
  assert (Hlate : forall before s', before <> [] -> search_from (Seq Bol r) before s' = None).
  { intros before s' Hne. apply search_from_None. intros a b ->. unfold match_at. rewrite Hrun.
    cbn [seen]. destruct (rev a ++ before) eqn:E; [|done]. by apply app_nil in E as [_ ->]. }
  unfold searchb, search. destruct s as [|c s]; cbn [search_from]; unfold match_at; rewrite Hrun; cbn [seen];
    destruct (run r _); try done. by rewrite Hlate.
Qed.

Lemma in_spans st sn w s cs :
  st ∈ spans sn w s cs -> exists w1 w2, w = w1 ++ w2 /\ st = MSt (rev w1 ++ sn) (w2 ++ s) cs.
Proof.
  revert sn. induction w as [|c w IH]; intros sn; cbn.
  - intros ->%list_elem_of_singleton. by exists [], [].
  - intros [H| ->%list_elem_of_singleton]%elem_of_app; [|by exists [], (c :: w)].
    apply IH in H as (w1 & w2 & -> & ->). exists (c :: w1), w2. cbn. by rewrite <- app_assoc.
Qed.

Lemma flat_map_nil {A B} (f : A -> list B) l : (forall x, x ∈ l -> f x = []) -> flat_map f l = [].
Proof.
  induction l as [|x l IH]; intros H; cbn; [done|].
  rewrite (H x) by apply list_elem_of_here. apply IH. intros y Hy. by apply H, list_elem_of_further.
Qed.

(** [^\s*word] finds the word at the start of the line, after the spaces. *)
Lemma searchb_indented c w s :
  is_space c = false ->
  searchb (seqs [Bol; Star Space; Lit (c :: w)]) s = startswith (lstrip s) (c :: w).
Proof.
  intros Hc. change (seqs [Bol; Star Space; Lit (c :: w)]) with (Seq Bol (Seq (Star Space) (Lit (c :: w)))).
  rewrite searchb_Bol. destruct (lstrip_split s) as (ws & E & Hws & Hstop).
  change (run (Seq (Star Space) (Lit (c :: w))) ?st) with (flat_map (run (Lit (c :: w))) (run (Star Space) st)).
  rewrite E at 1. unfold Space. rewrite run_Star_Cls by done. clear E.
  generalize (@nil ascii) as sn. induction Hws as [|a ws Ha Hws IH]; intros sn; cbn [spans].
  - cbn [flat_map]. rewrite run_Lit, app_nil_r. unfold startswith. by destruct (prefixb _ _).
  - rewrite flat_map_app. cbn [flat_map]. rewrite run_Lit.
    assert (prefixb (c :: w) (a :: ws ++ lstrip s) = false) as ->.
    { cbn. destruct (bool_decide_reflect (c = a)); [congruence|done]. }
    rewrite !app_nil_r. apply IH.
Qed.

Lemma searchb_indented_word w s :
  match w with [] => false | c :: _ => negb (is_space c) end = true ->
  searchb (seqs [Bol; Star Space; Lit w]) s = startswith (lstrip s) w.
Proof. destruct w as [|c w]; [done|]. intros H%negb_true_iff. by apply searchb_indented. Qed.

(** [^\s*$] finds the lines of spaces. *)
Lemma searchb_blank s :
  searchb (seqs [Bol; Star Space; Eol]) s = forallb is_space s.
Proof.
  change (seqs [Bol; Star Space; Eol]) with (Seq Bol (Seq (Star Space) Eol)).
  rewrite searchb_Bol. destruct (lstrip_split s) as (ws & E & Hws & Hstop).
  change (run (Seq (Star Space) Eol) ?st) with (flat_map (run Eol) (run (Star Space) st)).
  rewrite E at 1. unfold Space. rewrite run_Star_Cls by done.
  destruct (lstrip s) as [|c s'] eqn:El.
  - rewrite (proj1 (lstrip_nil s) El). destruct (spans_head [] ws [] []) as (l & ->). done.
  - rewrite flat_map_nil.
    + symmetry. apply not_true_iff_false. intros H%lstrip_nil. congruence.
    + intros st (w1 & w2 & _ & ->)%in_spans. cbn.
      destruct w2 as [|a w2]; cbn.
      * destruct s' as [|b s']; [|done]. rewrite bool_decide_eq_false_2; [done|]. by intros ->.
      * by destruct w2.
Qed.

(** ** What the groups of a match hold *)

Fixpoint groupless (r : re) : bool :=
  match r with
  | Grp _ _ => false
  | Seq a b | Alt a b => groupless a && groupless b
  | Star a => groupless a
  | _ => true
  end.

(** Whether every match consumes something. *)
Fixpoint consuming (r : re) : bool :=
  match r with
  | Cls _ => true
  | Seq a b => consuming a || consuming b
  | Alt a b => consuming a && consuming b
  | Grp _ a => consuming a
  | _ => false
  end.

Lemma matches_consuming r st st' :
  matches r st st' -> consuming r = true -> length (rest st') < length (rest st).
Proof.
  intros H Hc. induction H; try discriminate Hc; cbn [consuming] in Hc; cbn [capture rest] in *;
    rewrite ?orb_true_iff, ?andb_true_iff in Hc; [cbn; lia| |naive_solver..].
  apply matches_consumes in H as (w1 & E1 & _). apply matches_consumes in H0 as (w2 & E2 & _).
  apply (f_equal length) in E1, E2. rewrite length_app in E1, E2.
  destruct Hc as [Hc|Hc]; [specialize (IHmatches1 Hc)|specialize (IHmatches2 Hc)]; lia.
Qed.

Lemma groupless_Lit w : groupless (Lit w) = true.
Proof. by induction w. Qed.

Lemma matches_groupless r st st' : matches r st st' -> groupless r = true -> caps st' = caps st.
Proof.
  induction 1; cbn; try done; rewrite ?andb_true_iff; try naive_solver.
  - intros [? ?]. rewrite IHmatches2, IHmatches1; done.
  - intros ?. rewrite IHmatches2, IHmatches1; done.
Qed.

Lemma matches_Star_Cls p st st' :
  matches (Star (Cls p)) st st' ->
  exists w, Forall (fun c => p c = true) w /\ rest st = w ++ rest st'.
Proof.
  intros H. remember (Star (Cls p)) as r eqn:Er. induction H; try discriminate Er.
  - by exists [].
  - injection Er as ->. destruct IHmatches2 as (w & Hw & Hr); [done|].
    inversion H; subst. cbn in *. exists (c :: w). split; [by constructor|]. by rewrite Hr.
Qed.

Lemma matches_Plus_Cls p st st' :
  matches (Plus (Cls p)) st st' ->
  exists w, w <> [] /\ Forall (fun c => p c = true) w /\ rest st = w ++ rest st'.
Proof.
  inversion 1; subst.
  match goal with H : matches (Cls p) _ _ |- _ => inversion H; subst end.
  match goal with H : matches (Star _) _ _ |- _ => apply matches_Star_Cls in H as (w & Hw & Hr) end.
  cbn in *. exists (c :: w). split_and!; [done|by constructor|by rewrite Hr].
Qed.

(** The text of a group of digits. *)
Lemma matches_Grp_digits n st st' :
  matches (Grp n (Plus Digit)) st st' ->
  exists ds, ds <> [] /\ Forall (fun c => is_digit c = true) ds /\ caps st' = (n, ds) :: caps st.
Proof.
  inversion 1; subst.
  match goal with H : matches (Plus Digit) _ _ |- _ =>
    pose proof (matches_groupless _ _ _ H eq_refl) as Hc; apply matches_Plus_Cls in H as (w & Hw & Hd & Hr) end.
  exists w. split_and!; [done|done|]. cbn. rewrite Hc. f_equal. f_equal.
  destruct st as [sn rs cs], st'0 as [sn' rs' cs']. cbn in *. subst rs. apply text_between_app.
Qed.

Lemma search_matches r s m :
  search r s = Some m -> exists st, matches r st (m_state m) /\ caps st = [].
Proof.
  intros (a & b & _ & H & _)%search_from_Some. unfold match_at in H.
  destruct (run r _) as [|st l] eqn:E; [done|]. injection H as <-. cbn.
  eexists. split; [apply run_sound; rewrite E; apply list_elem_of_here|done].
Qed.

Lemma matches_Lit w st st' : matches (Lit w) st st' -> rest st = w ++ rest st'.
Proof.
  revert st. induction w as [|c w IH]; intros st H; cbn in H; inversion H; subst; [done|].
  match goal with H : matches (Chr c) _ _ |- _ => inversion H as [|? ? ? ? ? Hp| | | | | | | | | | | | |]; subst end.
  apply bool_decide_eq_true in Hp as ->. cbn. f_equal. by apply (IH (MSt (c :: sn) s cs)).
Qed.

Lemma matches_Grp n r st st' : matches (Grp n r) st st' -> exists w cs, caps st' = (n, w) :: cs.
Proof. inversion 1; subst. cbn. eauto. Qed.

Lemma matches_Bol st st' : matches Bol st st' -> seen st = [].
Proof. by inversion 1. Qed.

(** ** Substitution *)

Lemma sub_from_pass r repl k a before s :
  length a = k -> sub_from r repl k before (a ++ s) = sub_from r repl 0 (rev a ++ before) s.
Proof.
  revert k before. induction a as [|c a IH]; intros [|k] before H; try discriminate H; [done|].
  cbn. rewrite IH by (cbn in H; lia). by rewrite <- app_assoc.
Qed.

(** Characters at which nothing matches are copied. *)
Lemma sub_from_copy r repl a before s :
  (forall a1 a2, a = a1 ++ a2 -> a2 <> [] -> match_at r (rev a1 ++ before) (a2 ++ s) = None) ->
  sub_from r repl 0 before (a ++ s) = a ++ sub_from r repl 0 (rev a ++ before) s.
Proof.
  revert before. induction a as [|c a IH]; intros before H; [done|]. cbn.
  pose proof (H [] (c :: a) eq_refl) as H0. cbn in H0. rewrite H0 by done. f_equal. rewrite IH.
  - by rewrite <- app_assoc.
  - intros a1 a2 -> Hne. specialize (H (c :: a1) a2 eq_refl Hne). cbn in H. by rewrite <- app_assoc in H.
Qed.

(** A match that consumes something is replaced and passed over. *)
Lemma sub_from_replace r repl before w s m :
  match_at r before (w ++ s) = Some m -> m_text m = w -> w <> [] ->
  sub_from r repl 0 before (w ++ s) = repl ++ sub_from r repl 0 (rev w ++ before) s.
Proof.
  intros Hm Ht Hne. destruct w as [|c w]; [done|]. cbn. cbn in Hm. rewrite Hm, Ht. cbn.
  f_equal. rewrite sub_from_pass by done. by rewrite <- app_assoc.
Qed.

Lemma sub_id r repl s :
  (forall a b, s = a ++ b -> match_at r (rev a) b = None) -> sub r repl s = s.
Proof.
  intros H. unfold sub. rewrite <- (app_nil_r s) at 1. rewrite sub_from_copy.
  - cbn. by rewrite app_nil_r.
  - intros a1 a2 -> _. rewrite !app_nil_r. by apply H.
Qed.

(** One occurrence of a match, and no other before or after it. *)
Lemma sub_once r repl a w s m :
  (forall a1 a2, a = a1 ++ a2 -> a2 <> [] -> match_at r (rev a1) (a2 ++ w ++ s) = None) ->
  match_at r (rev a) (w ++ s) = Some m -> m_text m = w -> w <> [] ->
  (forall s1 s2, s = s1 ++ s2 -> match_at r (rev (a ++ w ++ s1)) s2 = None) ->
  sub r repl (a ++ w ++ s) = a ++ repl ++ s.
Proof.
  intros Ha Hm Ht Hne Hs. unfold sub. rewrite sub_from_copy.
  2:{ intros a1 a2 E Hn. rewrite app_nil_r. by apply Ha. }
  rewrite app_nil_r. erewrite sub_from_replace by done. do 2 f_equal.
  rewrite <- (app_nil_r s) at 1. rewrite sub_from_copy.
  - cbn. by rewrite app_nil_r.
  - intros s1 s2 E _. rewrite app_nil_r. specialize (Hs s1 s2 E).
    by rewrite !rev_app_distr, <- app_assoc in Hs.
Qed.

Lemma match_at_Lit_None w r before s :
  startswith s w = false -> match_at (Seq (Lit w) r) before s = None.
Proof.
  intros H. unfold match_at. cbn [run]. rewrite run_Lit. unfold startswith in H. by rewrite H.
Qed.

(** A pattern that begins with a literal the text lacks replaces nothing. *)
Lemma sub_Lit_absent w r repl s : contains w s = false -> sub (Seq (Lit w) r) repl s = s.
Proof.
  intros H. apply sub_id. intros a b ->. apply match_at_Lit_None.
  apply not_true_iff_false. intros [k ->]%startswith_spec.
  rewrite (proj2 (contains_spec w _)) in H; [done|]. by exists a, k.
Qed.

Lemma match_at_head r before w s st l :
  run r (MSt before (w ++ s) []) = st :: l -> rest st = s ->
  exists m, match_at r before (w ++ s) = Some m /\ m_text m = w.
Proof.
  intros H Hr. unfold match_at. rewrite H. eexists. split; [done|]. cbn.
  destruct st as [sn s' cs]. cbn in Hr. subst s'. apply text_between_app.
Qed.

(** ** Searching past a prefix *)

Lemma search_from_skip r a before s :
  (forall a1 a2, a = a1 ++ a2 -> a2 <> [] -> match_at r (rev a1 ++ before) (a2 ++ s) = None) ->
  search_from r before (a ++ s) = search_from r (rev a ++ before) s.
Proof.
  revert before. induction a as [|c a IH]; intros before H; [done|]. cbn.
  pose proof (H [] (c :: a) eq_refl) as H0. cbn in H0. rewrite H0 by done. rewrite IH.
  - by rewrite <- app_assoc.
  - intros a1 a2 -> Hne. specialize (H (c :: a1) a2 eq_refl Hne). cbn in H. by rewrite <- app_assoc in H.
Qed.

(** A pattern that begins with a character is looked for at that character. *)
Lemma search_Lit_after c w r a s :
  c ∉ a -> search (Seq (Lit (c :: w)) r) (a ++ s) = search_from (Seq (Lit (c :: w)) r) (rev a) s.
Proof.
  intros Ha. unfold search. rewrite search_from_skip; [by rewrite app_nil_r|].
  intros a1 a2 -> Hne. destruct a2 as [|x a2]; [done|]. apply match_at_Lit_None, startswith_ne. cbn.
  intros [= ->]. apply Ha, elem_of_app. right. apply list_elem_of_here.
Qed.

Lemma search_Lit_absent w r s : contains w s = false -> search (Seq (Lit w) r) s = None.
Proof.
  intros H. unfold search. apply search_from_None. intros a b ->. apply match_at_Lit_None.
  apply not_true_iff_false. intros [k ->]%startswith_spec.
  rewrite (proj2 (contains_spec w _)) in H; [done|]. by exists a, k.
Qed.
