(* ===== verification/Paths.v ===== *)
(** * Paths

    The [posixpath] functions the scripts call, and the root-relative names of
    [tools/lib_deps.py]. *)
From S2P Require Import Prelude PyStr.

Definition slash : ascii := "/"%char.

(** ** posixpath *)

Definition isabs (p : str) : bool := startswith p "/".

(** [os.path.join(a, b)]. *)
Definition path_join (a b : str) : str :=
  if startswith b "/" then b
  else if bool_decide (a = []) || endswith a "/" then a ++ b
  else a ++ "/" ++ b.

(** One step of the loop of [posixpath.normpath]; [new] is reversed. *)
Definition norm_step (absolute : bool) (new : list str) (comp : str) : list str :=
  if bool_decide (comp = []) || bool_decide (comp = # ".") then new
  else if negb (bool_decide (comp = # ".."))
          || (negb absolute && bool_decide (new = []))
          || bool_decide (head new = Some # "..")
  then comp :: new
  else tail new.

Definition norm_comps (absolute : bool) (comps : list str) : list str :=
  rev (fold_left (norm_step absolute) comps []).

Definition initial_slashes (p : str) : nat :=
  if startswith p "/" then
    if startswith p "//" && negb (startswith p "///") then 2 else 1
  else 0.

Definition normpath (p : str) : str :=
  match p with
  | [] => "."
  | _ =>
      let n := initial_slashes p in
      let path := repeat slash n ++ join [slash] (norm_comps (0 <? n) (split_char slash p)) in
      match path with [] => "." | _ => path end
  end.

(** [os.path.abspath]; the process's working directory is an argument. *)
Definition abspath (cwd p : str) : str :=
  normpath (if isabs p then p else path_join cwd p).

(** [p[:i]] and [p[i:]] for [i = p.rfind('/') + 1]. *)
Definition basename (p : str) : str := List.last (split_char slash p) [].
Definition dir_head (p : str) : str := take (length p - length (basename p)) p.

Fixpoint rstrip_slashes_rev (r : str) : str :=
  match r with
  | c :: r' => if bool_decide (c = slash) then rstrip_slashes_rev r' else r
  | [] => []
  end.

Definition dirname (p : str) : str :=
  let h := dir_head p in
  if forallb (fun c => bool_decide (c = slash)) h then h
  else rev (rstrip_slashes_rev (rev h)).

(** [os.path.relpath(path, start)]. *)
Definition components (p : str) : list str :=
  List.filter (fun w => negb (bool_decide (w = []))) (split_char slash p).
Fixpoint common_prefix (a b : list str) : nat :=
  match a, b with
  | x :: a', y :: b' => if bool_decide (x = y) then S (common_prefix a' b') else 0
  | _, _ => 0
  end.
Definition rel_list (start_list path_list : list str) : list str :=
  let i := common_prefix start_list path_list in
  repeat (# "..") (length start_list - i) ++ drop i path_list.
Definition relpath (cwd path start : str) : res str :=
  if bool_decide (path = []) then Raise ValueError
  else Ok match rel_list (components (abspath cwd start)) (components (abspath cwd path)) with
          | [] => # "."
          | w :: ws => fold_left path_join ws w
          end.

(** [open(name).read()]: the files are known by their absolute path. *)
Definition py_open (cwd : str) (fs : gmap str str) (name : str) : res str :=
  of_option IOError (fs !! abspath cwd name).

(** ** Root-relative names *)

(** [normPathToRoot] of [lib_deps.py]. *)
Definition normPathToRoot (ROOT_PATH cwd path : str) : res str :=
  let rootAbsPath := abspath cwd ROOT_PATH in
  let absPath := abspath cwd path in
  _ ← py_assert (startswith absPath rootAbsPath);
  Ok (drop (length rootAbsPath + 1) absPath).

(** ** Lemmas *)

Lemma split_char_nonempty c s : split_char c s <> [].
Proof. destruct s as [|a s]; cbn; [done|]. case_bool_decide; [done|]. by destruct (split_char c s). Qed.

Lemma join_cons sep w ws : ws <> [] -> join sep (w :: ws) = w ++ sep ++ join sep ws.
Proof. by destruct ws. Qed.

Lemma join_split_char c s : join [c] (split_char c s) = s.
Proof.
  induction s as [|a s IH]; [done|]. cbn. pose proof (split_char_nonempty c s).
  case_bool_decide as E; [subst|]; destruct (split_char c s) as [|w ws]; try done.
  - rewrite join_cons by done. cbn in *. by rewrite IH.
  - destruct ws; cbn in *; by rewrite IH.
Qed.

Lemma split_char_word c w : c ∉ w -> split_char c w = [w].
Proof.
  induction w as [|a w IH]; intros H; [done|]. cbn. apply not_elem_of_cons in H as [? ?].
  rewrite bool_decide_eq_false_2 by congruence. by rewrite IH.
Qed.

Lemma split_char_word_app c w s :
  c ∉ w -> split_char c (w ++ c :: s) = w :: split_char c s.
Proof.
  induction w as [|a w IH]; intros H; cbn.
  - by rewrite bool_decide_eq_true_2.
  - apply not_elem_of_cons in H as [? ?].
    rewrite bool_decide_eq_false_2 by congruence. by rewrite IH.
Qed.

(** Words without the separator survive joining and splitting. *)
Lemma split_char_join c ws :
  ws <> [] -> Forall (fun w => c ∉ w) ws -> split_char c (join [c] ws) = ws.
Proof.
  intros Hne H. induction H as [|w ws Hw Hws IH]; [done|]. destruct ws as [|w' ws].
  - cbn. by apply split_char_word.
  - rewrite join_cons by done. cbn [app]. rewrite split_char_word_app by done. by rewrite IH.
Qed.

Lemma split_char_words c s : Forall (fun w => c ∉ w) (split_char c s).
Proof.
  induction s as [|a s IH]; cbn; [repeat constructor; apply not_elem_of_nil|].
  case_bool_decide; [constructor; [apply not_elem_of_nil|done]|].
  pose proof (split_char_nonempty c s).
  destruct (split_char c s) as [|w ws]; inversion IH; subst; [done|].
  constructor; [|done]. apply not_elem_of_cons. split; congruence.
Qed.

(** ** Normalised absolute paths *)

(** A component that [normpath] keeps. *)
Definition plain_comp (w : str) : Prop :=
  w <> [] /\ w <> # "." /\ w <> # ".."
  /\ slash ∉ w.

#[local] Arguments bool_decide : simpl never.

Lemma norm_step_plain b new w :
  plain_comp w -> norm_step b new w = w :: new.
Proof.
  intros (? & ? & ? & _). unfold norm_step.
  by rewrite !bool_decide_eq_false_2 by done.
Qed.

Lemma norm_step_keeps new w :
  slash ∉ w -> Forall plain_comp new -> Forall plain_comp (norm_step true new w).
Proof.
  intros Hw H. unfold norm_step.
  destruct (bool_decide_reflect (w = [])); [done|].
  destruct (bool_decide_reflect (w = # ".")); [done|].
  destruct (bool_decide_reflect (w = # "..")) as [->|]; cbn.
  - destruct H as [|x l (? & ? & ? & ?) Hl]; [constructor|].
    rewrite bool_decide_eq_false_2; [done|]. intros E. apply Some_inj in E. done.
  - by constructor.
Qed.

Lemma norm_fold_keeps ws new :
  Forall (fun w => slash ∉ w) ws -> Forall plain_comp new ->
  Forall plain_comp (fold_left (norm_step true) ws new).
Proof.
  intros Hws. revert new. induction Hws; intros new H'; cbn; [done|].
  by apply IHHws, norm_step_keeps.
Qed.

Lemma norm_comps_plain ws :
  Forall (fun w => slash ∉ w) ws -> Forall plain_comp (norm_comps true ws).
Proof. intros H. apply Forall_rev, norm_fold_keeps; [done|constructor]. Qed.

Lemma norm_comps_id ws : Forall plain_comp ws -> norm_comps true ws = ws.
Proof.
  unfold norm_comps. intros H.
  enough (E : forall new, fold_left (norm_step true) ws new = rev ws ++ new).
  { by rewrite E, app_nil_r, rev_involutive. }
  induction H as [|w ws Hw Hws IH]; intros new; cbn; [done|].
  by rewrite norm_step_plain, IH, <- app_assoc.
Qed.

(** The absolute path with the given components. *)
Definition abs_of (ws : list str) : str := slash :: join [slash] ws.

Definition normal_path (p : str) : Prop :=
  exists ws, p = abs_of ws /\ Forall plain_comp ws.

Lemma plain_no_slash ws : Forall plain_comp ws -> Forall (fun w => slash ∉ w) ws.
Proof. intros H. eapply Forall_impl; [exact H|]. by intros w (_ & _ & _ & ?). Qed.

Lemma join_plain_head ws c s :
  Forall plain_comp ws -> join [slash] ws = c :: s -> c <> slash.
Proof.
  intros [|w ws' (Hne & _ & _ & Hs) _]; [done|].
  destruct w as [|a w]; [done|]. destruct ws'; intros [= <- _] ->;
    apply Hs, list_elem_of_here.
Qed.

Lemma split_char_sep c s : split_char c (c :: s) = [] :: split_char c s.
Proof. cbn. by rewrite bool_decide_eq_true_2. Qed.

Lemma normpath_rooted s :
  initial_slashes (slash :: s) = 1 ->
  normpath (slash :: s) = abs_of (norm_comps true (split_char slash s)).
Proof.
  intros H. unfold normpath. rewrite H, split_char_sep. reflexivity.
Qed.

Lemma norm_comps_split_plain ws :
  Forall plain_comp ws -> norm_comps true (split_char slash (join [slash] ws)) = ws.
Proof.
  intros H. destruct ws as [|w ws]; [done|].
  rewrite split_char_join by (done || by apply plain_no_slash). by apply norm_comps_id.
Qed.

Lemma initial_slashes_normal ws : Forall plain_comp ws -> initial_slashes (abs_of ws) = 1.
Proof.
  intros H. unfold initial_slashes, startswith, abs_of.
  destruct (join [slash] ws) as [|c s] eqn:E; [done|].
  cbn. rewrite bool_decide_eq_true_2 by done. cbn.
  rewrite (bool_decide_eq_false_2 ("/"%char = c)); [done|].
  intros <-. by apply (join_plain_head _ _ _ H E).
Qed.

(** [normpath] leaves a normalised absolute path alone, and yields one from
    every path that starts with exactly one slash. *)
Lemma normpath_normal p : normal_path p -> normpath p = p.
Proof.
  intros (ws & -> & H). unfold abs_of.
  rewrite normpath_rooted by (by apply initial_slashes_normal).
  by rewrite norm_comps_split_plain.
Qed.

Lemma normpath_is_normal p : initial_slashes p = 1 -> normal_path (normpath p).
Proof.
  intros H. destruct p as [|c s]; [done|].
  assert (c = slash) as ->.
  { unfold initial_slashes, startswith in H. cbn in H.
    destruct (bool_decide_reflect ("/"%char = c)); [done|]. done. }
  rewrite normpath_rooted by done. eexists. split; [done|].
  apply norm_comps_plain, split_char_words.
Qed.

Lemma normal_path_isabs p : normal_path p -> isabs p = true.
Proof. intros (ws & -> & _). unfold isabs, startswith. cbn. by rewrite bool_decide_eq_true_2. Qed.

(** [abspath] is idempotent on what it returns. *)
Lemma abspath_normal cwd p : normal_path p -> abspath cwd p = p.
Proof.
  intros H. unfold abspath. rewrite normal_path_isabs by done. by apply normpath_normal.
Qed.

(** [abspath] yields a normalised path from every path that does not start
    with exactly two slashes (a root POSIX keeps apart). *)
Lemma abspath_is_normal cwd p :
  normal_path cwd -> initial_slashes p <> 2 -> normal_path (abspath cwd p).
Proof.
  intros Hc Hp. unfold abspath. destruct (isabs p) eqn:Ha.
  - apply normpath_is_normal. unfold initial_slashes, isabs in *. rewrite Ha in *.
    by destruct (startswith p "//" && negb (startswith p "///")).
  - apply normpath_is_normal. destruct Hc as (ws & -> & Hws).
    unfold path_join, isabs in *. rewrite Ha.
    pose proof (initial_slashes_normal ws Hws) as H1.
    destruct ws as [|w ws].
    + change (initial_slashes (slash :: p) = 1).
      unfold initial_slashes, startswith in *. cbn in Ha |- *.
      rewrite (bool_decide_eq_true_2 ("/"%char = slash)) by done. cbn.
      destruct p as [|c p]; [done|]. cbn in Ha |- *.
      rewrite (bool_decide_eq_false_2 ("/"%char = c)); [done|].
      intros <-. by rewrite bool_decide_eq_true_2 in Ha.
    + assert (Hne : exists c s, abs_of (w :: ws) = slash :: c :: s /\ c <> slash).
      { inversion Hws as [|? ? (Hw & _ & _ & Hs) Hws']; subst. destruct w as [|c w]; [done|].
        assert (Hc : c <> slash) by (intros ->; apply Hs, list_elem_of_here).
        destruct ws as [|w' ws]; unfold abs_of; cbn; eauto. }
      destruct Hne as (c & s & -> & Hc).
      assert (forall t, initial_slashes (slash :: c :: s ++ t) = 1) as Hinit.
      { intros t. unfold initial_slashes, startswith. cbn.
        rewrite (bool_decide_eq_true_2 ("/"%char = slash)) by done. cbn.
        rewrite (bool_decide_eq_false_2 ("/"%char = c)); [done|]. by intros <-. }
      destruct (bool_decide _ || endswith _ _); apply Hinit.
Qed.

Lemma normPathToRoot_normal ROOT cwd p :
  normal_path ROOT -> normal_path p ->
  normPathToRoot ROOT cwd p =
  if startswith p ROOT then Ok (drop (length ROOT + 1) p) else Raise AssertionError.
Proof.
  intros HR Hp. unfold normPathToRoot. rewrite !abspath_normal by done.
  by destruct (startswith p ROOT).
Qed.

Lemma normPathToRoot_prefix ROOT cwd c rel :
  normal_path ROOT -> normal_path (ROOT ++ c :: rel) ->
  normPathToRoot ROOT cwd (ROOT ++ c :: rel) = Ok rel.
Proof.
  intros HR Hp. rewrite normPathToRoot_normal by done.
  unfold startswith. rewrite prefixb_app. f_equal.
  rewrite drop_app_ge by lia. by replace (length ROOT + 1 - length ROOT) with 1 by lia.
Qed.

Lemma split_char_app c a b : split_char c (a ++ c :: b) = split_char c a ++ split_char c b.
Proof.
  induction a as [|x a IH]; cbn.
  - by rewrite bool_decide_eq_true_2.
  - rewrite IH. case_bool_decide; [done|].
    pose proof (split_char_nonempty c a). by destruct (split_char c a).
Qed.

(** [rsplit] with one split: the two sides of the last separator, or the
    whole string when there is none. *)
Lemma rsplit1_spec c s :
  (c ∉ s /\ rsplit1 c s = [s]) \/
  exists dir base, s = dir ++ c :: base /\ c ∉ base /\ rsplit1 c s = [dir; base].
Proof.
  pose proof (split_char_nonempty c s) as Hne. pose proof (split_char_words c s) as Hw.
  pose proof (join_split_char c s) as Hj. unfold rsplit1.
  destruct (split_char c s) as [|w ws]; [done|].
  destruct ws as [|w' ws'].
  - left. cbn in Hj. subst w. by apply Forall_cons in Hw as [? _].
  - right. set (l := w :: w' :: ws') in *.
    exists (join [c] (removelast l)), (List.last l []).
    assert (Hl : l <> []) by done.
    pose proof (app_removelast_last [] Hl) as E.
    split_and!; [| |done].
    + rewrite <- Hj at 1. rewrite E at 1. clear -Hl. subst l. cbn [removelast].
      generalize (List.last (w :: w' :: ws') []) as b. intros b. clear Hl.
      revert w w'. induction ws' as [|x ws' IH]; intros w w'; [done|].
      change (removelast (w' :: x :: ws')) with (w' :: removelast (x :: ws')).
      cbn [app]. rewrite (join_cons _ w) by done. rewrite (join_cons _ w _) by done.
      rewrite <- !app_assoc. do 2 f_equal. apply (IH w' x).
    + rewrite E in Hw. apply Forall_app in Hw as [_ Hw]. by apply Forall_cons in Hw as [? _].
Qed.

(** A normalised path has no empty component. *)
Lemma normal_no_double_slash a b : ~ normal_path (a ++ slash :: slash :: b).
Proof.
  intros (ws & E & H). unfold abs_of in E. destruct ws as [|w ws].
  { destruct a as [|? [|]]; discriminate E. }
  apply (f_equal (split_char slash)) in E.
  rewrite split_char_app, split_char_sep, split_char_sep in E.
  rewrite split_char_join in E by (done || by apply plain_no_slash).
  pose proof (split_char_nonempty slash a) as Hne.
  destruct (split_char slash a) as [|x l]; [done|]. injection E as _ E.
  assert (Hin : [] ∈ w :: ws) by (rewrite <- E; apply elem_of_app; right; apply list_elem_of_here).
  eapply Forall_forall in H; [|exact Hin]. by destruct H.
Qed.

Lemma path_join_normal a b :
  normal_path a -> normal_path (a ++ slash :: b) -> path_join a b = a ++ slash :: b.
Proof.
  intros (wa & Ea & _) H. unfold path_join.
  destruct (startswith b "/") eqn:Hb.
  { unfold startswith in Hb. apply prefixb_spec in Hb as (y & ->).
    by apply normal_no_double_slash in H. }
  rewrite bool_decide_eq_false_2 by (by rewrite Ea).
  destruct (endswith a "/") eqn:He; [|done].
  unfold endswith in He. apply prefixb_spec in He as (y & Hy).
  apply (f_equal (@rev _)) in Hy. rewrite rev_involutive, rev_app_distr in Hy.
  rewrite Hy in H. exfalso. apply (normal_no_double_slash (rev y) b). by rewrite <- app_assoc in H.
Qed.

(** Root-relative names: a normalised path below the root is named by what
    follows the root and the slash, and the name determines the path again.
    But the test is one of string prefixes: a path in a SIBLING of the root
    whose name extends the root's ([/r/vbX/...] next to [/r/vb]) passes it
    as well, and gets the name of a file inside the root. *)
Theorem normPathToRoot_names ROOT cwd rel :
  normal_path ROOT -> normal_path (ROOT ++ slash :: rel) ->
  normPathToRoot ROOT cwd (ROOT ++ slash :: rel) = Ok rel /\
  abspath cwd (path_join ROOT rel) = ROOT ++ slash :: rel /\
  (forall c, normal_path (ROOT ++ c :: rel) ->
     normPathToRoot ROOT cwd (ROOT ++ c :: rel) = Ok rel) /\
  (forall p, normal_path p -> startswith p ROOT = false ->
     normPathToRoot ROOT cwd p = Raise AssertionError).
Proof.
  intros HR Hp. split_and!.
  - by apply normPathToRoot_prefix.
  - rewrite path_join_normal by done. by apply abspath_normal.
  - intros c Hc. by apply normPathToRoot_prefix.
  - intros p Hn Hs. by rewrite normPathToRoot_normal, Hs.
Qed.

Lemma normPathToRoot_names_witness :
  normal_path "/r/vb" /\ normal_path ("/r/vb" ++ slash :: "lib/A.s.dfy") /\
  normPathToRoot "/r/vb" "/r" "/r/vb/lib/A.s.dfy" = Ok (# "lib/A.s.dfy") /\
  normPathToRoot "/r/vb" "/r" "/r/vbXlib/A.s.dfy" = Ok (# "lib/A.s.dfy").
Proof.
  assert (H1 : normal_path "/r/vb") by (apply (normpath_is_normal "/r/vb"); reflexivity).
  assert (H2 : normal_path "/r/vb/lib/A.s.dfy")
    by (apply (normpath_is_normal "/r/vb/lib/A.s.dfy"); reflexivity).
  assert (H3 : normal_path "/r/vbXlib/A.s.dfy")
    by (apply (normpath_is_normal "/r/vbXlib/A.s.dfy"); reflexivity).
  split; [exact H1|]. split; [exact H2|].
  destruct (normPathToRoot_names "/r/vb" "/r" "lib/A.s.dfy" H1 H2) as (H4 & _ & H5 & _).
  split; [exact H4|]. exact (H5 "X"%char H3).
Defined.

(** ** Relative paths *)

Lemma components_normal ws : Forall plain_comp ws -> components (abs_of ws) = ws.
Proof.
  intros H. unfold components, abs_of. rewrite split_char_sep.
  destruct ws as [|w ws]; [done|].
  rewrite split_char_join by (done || by apply plain_no_slash).
  assert (Hf : forall l, Forall plain_comp l -> List.filter (fun w => negb (bool_decide (w = []))) l = l).
  { induction 1 as [|x l (Hx & _) _ IH]; [done|]. cbn.
    rewrite bool_decide_eq_false_2 by done. cbn. by rewrite IH. }
  change (List.filter (fun w => negb (bool_decide (w = []))) (w :: ws) = w :: ws). by apply Hf.
Qed.

Lemma common_prefix_spec a b :
  exists c a' b', a = c ++ a' /\ b = c ++ b' /\ length c = common_prefix a b.
Proof.
  revert b. induction a as [|x a IH]; intros b; [by exists [], [], b|].
  destruct b as [|y b]; cbn; [by exists [], (x :: a), []|].
  case_bool_decide as E; [subst y|by exists [], (x :: a), (y :: b)].
  destruct (IH b) as (c & a' & b' & -> & Hb & Hl). exists (x :: c), a', b'. subst b. cbn. by rewrite <- Hl.
Qed.

(** A component of a relative path: no separator, not empty. *)
Definition rel_comp (w : str) : Prop := w <> [] /\ slash ∉ w.

Lemma join_words_path ws w :
  Forall rel_comp (w :: ws) -> fold_left path_join ws w = join [slash] (w :: ws).
Proof.
  enough (E : forall l acc, Forall rel_comp l -> acc <> [] -> endswith acc "/" = false ->
    fold_left path_join l acc = join [slash] (acc :: l)).
  { intros H. inversion H as [|? ? [Hne Hs] Hws]; subst. apply E; [done..|].
    destruct (endswith w "/") eqn:Ee; [|done]. apply endswith_spec in Ee as [u ->].
    destruct Hs. apply elem_of_app. right. apply list_elem_of_here. }
  induction l as [|x l IH]; intros acc Hl Hacc He; [done|].
  inversion Hl as [|? ? [Hne Hs] Hl']; subst. cbn [fold_left].
  assert (path_join acc x = acc ++ "/" ++ x) as ->.
  { unfold path_join. rewrite He, bool_decide_eq_false_2 by done.
    destruct (startswith x "/") eqn:Es; [|done]. apply startswith_spec in Es as [u ->].
    destruct Hs. apply list_elem_of_here. }
  rewrite IH; [|done|by destruct acc|].
  - rewrite (join_cons _ acc) by done. destruct l; cbn; [done|]. by rewrite <- app_assoc.
  - destruct (endswith (acc ++ "/" ++ x) "/") eqn:Ee; [|done]. apply endswith_spec in Ee as [u Hu].
    destruct (exists_last Hne) as (x' & c & ->). rewrite !app_assoc in Hu.
    apply app_inj_tail in Hu as [_ ->]. destruct Hs. apply elem_of_app. right. apply list_elem_of_here.
Qed.

Lemma norm_fold_plain ws new :
  Forall plain_comp ws -> fold_left (norm_step true) ws new = rev ws ++ new.
Proof.
  intros H. revert new. induction H as [|w ws Hw Hws IH]; intros new; cbn; [done|].
  by rewrite norm_step_plain, IH, <- app_assoc.
Qed.

Lemma norm_fold_dotdot k new :
  Forall plain_comp new -> fold_left (norm_step true) (repeat (# "..") k) new = drop k new.
Proof.
  revert new. induction k as [|k IH]; intros new H; [done|]. cbn [repeat fold_left].
  assert (norm_step true new (# "..") = tail new) as ->.
  { unfold norm_step. rewrite !(bool_decide_eq_false_2 (# ".." = _)) by done.
    rewrite (bool_decide_eq_true_2 (# ".." = # "..")) by done. cbn [orb negb andb].
    rewrite bool_decide_eq_false_2; [done|]. destruct H as [|w l (_ & _ & Hw & _)]; [done|].
    cbn. intros [= ->]. by apply Hw. }
  rewrite IH; [by destruct new; [destruct k|]|]. by destruct H.
Qed.

Lemma plain_rel w : plain_comp w -> rel_comp w.
Proof. intros (? & _ & _ & ?). by split. Qed.

Lemma rel_list_comps ws ps : Forall plain_comp ps -> Forall rel_comp (rel_list ws ps).
Proof.
  intros H. unfold rel_list. apply Forall_app. split.
  - apply Forall_forall. intros w Hw. apply list_elem_of_In, repeat_spec in Hw as ->. split; [done|].
    apply (bool_decide_unpack _). vm_compute. exact I.
  - apply Forall_drop. eapply Forall_impl; [exact H|apply plain_rel].
Qed.

(** Following the relative components from the start leads to the path. *)
Lemma norm_rel_list ws ps :
  Forall plain_comp ws -> Forall plain_comp ps -> norm_comps true (ws ++ rel_list ws ps) = ps.
Proof.
  intros Hw Hp. unfold norm_comps, rel_list.
  destruct (common_prefix_spec ws ps) as (c & a & b & -> & -> & <-).
  rewrite length_app, drop_app_length. replace (length c + length a - length c) with (length a) by lia.
  apply Forall_app in Hw as [Hc Ha]. apply Forall_app in Hp as [_ Hb].
  rewrite !fold_left_app, (norm_fold_plain c), (norm_fold_plain a), app_nil_r by done.
  rewrite norm_fold_dotdot by (apply Forall_app; split; by apply Forall_rev).
  rewrite drop_app_length' by (by rewrite length_rev).
  rewrite norm_fold_plain by done. by rewrite rev_app_distr, !rev_involutive.
Qed.

(** A normalised path other than the root does not end with a separator. *)
Lemma abs_of_no_slash_end w ws : Forall plain_comp (w :: ws) -> endswith (abs_of (w :: ws)) "/" = false.
Proof.
  intros Hws. destruct (endswith _ _) eqn:Ee; [|done]. apply endswith_spec in Ee as [u Hu]. exfalso.
  assert (Hspl := split_char_app slash u []). change (slash :: []) with (# "/") in Hspl.
  rewrite <- Hu in Hspl. unfold abs_of in Hspl. rewrite split_char_sep in Hspl.
  rewrite split_char_join in Hspl by (done || by apply plain_no_slash).
  assert (Hl : List.last ([] :: w :: ws) (# "x") = []) by (rewrite Hspl; cbn [split_char]; apply last_last).
  assert (Hpl : plain_comp (List.last (w :: ws) (# "x"))).
  { rewrite Forall_forall in Hws. apply Hws, list_elem_of_In.
    destruct (exists_last (l := w :: ws)) as (l' & y & ->); [done|].
    rewrite last_last. apply in_app_iff. right. by left. }
  change (plain_comp (List.last ([] :: w :: ws) (# "x"))) in Hpl. rewrite Hl in Hpl. by destruct Hpl.
Qed.

(** The path and the start may be any absolute ones; the result, joined to the
    start, names the path. *)
Lemma relpath_join cwd path start r :
  normal_path (abspath cwd path) -> normal_path (abspath cwd start) ->
  relpath cwd path start = Ok r ->
  normpath (path_join (abspath cwd start) r) = abspath cwd path.
Proof.
  intros (ps & Ep & Hps) (ws & Ew & Hws). unfold relpath. case_bool_decide; [done|].
  rewrite Ep, Ew, !components_normal by done. intros Hr.
  set (rl := match rel_list ws ps with [] => [ # "."] | l => l end).
  assert (Hrl : Forall rel_comp rl /\ rl <> [] /\ norm_comps true (ws ++ rl) = ps).
  { pose proof (norm_rel_list ws ps Hws Hps) as Hn. pose proof (rel_list_comps ws ps Hps) as Hc.
    unfold rl. destruct (rel_list ws ps) as [|w l]; [|done]. split_and!; [|done|].
    - constructor; [|constructor]. split; [done|]. apply (bool_decide_unpack _). vm_compute. exact I.
    - rewrite app_nil_r in Hn. unfold norm_comps in *. by rewrite fold_left_app. }
  destruct Hrl as (Hc & Hne & Hn).
  assert (Er : match rel_list ws ps with [] => # "." | w :: l => fold_left path_join l w end = join [slash] rl).
  { unfold rl in *. destruct (rel_list ws ps) as [|w l]; [done|]. by apply join_words_path. }
  rewrite Er in Hr. injection Hr as <-. clear Er. clearbody rl. set (R := join [slash] rl).
  assert (HR : exists x R', R = x :: R' /\ x <> slash).
  { unfold R. destruct rl as [|[|x w] l]; [done|by inversion Hc as [|? ? [? _]]|].
    inversion Hc as [|? ? [_ Hs] _]; subst. exists x. destruct l; cbn; eexists; (split; [done|]);
      intros ->; apply Hs, list_elem_of_here. }
  destruct HR as (x & R' & ER & Hx).
  assert (Hx' : bool_decide ("/"%char = x) = false) by (apply bool_decide_eq_false_2; intros <-; done).
  assert (Hsp : split_char slash R = rl).
  { apply split_char_join; [done|]. eapply Forall_impl; [exact Hc|]. by intros w [_ ?]. }
  assert (Hst : startswith R "/" = false).
  { rewrite ER. unfold startswith. cbn. by rewrite Hx'. }
  unfold path_join. rewrite Hst. destruct ws as [|w ws].
  - change (abs_of []) with [slash]. cbn [orb]. change (bool_decide _ || _) with true. cbv iota. cbn [app].
    rewrite normpath_rooted; [rewrite Hsp; cbn [app] in Hn; by rewrite Hn|].
    unfold initial_slashes, startswith. rewrite ER. cbn. by rewrite Hx'.
  - rewrite (abs_of_no_slash_end w ws Hws).
    rewrite bool_decide_eq_false_2 by done. cbn [orb].
    change (abs_of (w :: ws) ++ "/" ++ R) with (slash :: (join [slash] (w :: ws) ++ slash :: R)).
    rewrite normpath_rooted.
    + rewrite split_char_app, Hsp, split_char_join by (done || by apply plain_no_slash). by rewrite Hn.
    + pose proof (initial_slashes_normal (w :: ws) Hws) as Hi. unfold abs_of in Hi.
      pose proof (join_plain_head (w :: ws)) as Hh.
      destruct (join [slash] (w :: ws)) as [|y l] eqn:Ej.
      { destruct ws, w; try done; by inversion Hws as [|? ? [? _]]. }
      specialize (Hh y l Hws eq_refl). unfold initial_slashes, startswith. cbn.
      rewrite (bool_decide_eq_false_2 ("/"%char = y)); [done|]. by intros <-.
Qed.
