(* ===== verification/Deps.v ===== *)
(** * Include dependencies (tools/lib_deps.py)

    The include graph of the Dafny sources: resolving an [include] line,
    checking trustedness, and the depth-first closure of a set of roots. *)
From S2P Require Import Prelude PyStr Regex Paths.

(** ** Include references

    The attributes of [IncludeReference].  [origin] is [None] for a command
    line root; [absPath] is the object's identity. *)
Inductive iref := IRef {
  origin : option iref;
  line_num : nat;
  raw_reference : str;
  absPath : str;
  normPath : str
}.

(** [__eq__] compares [_tuple()], the absolute path alone. *)
Definition iref_eqb (a b : iref) : bool := bool_decide (absPath a = absPath b).

(** [x in l] for a list or a set of references. *)
Definition iref_in (x : iref) (l : list iref) : bool := existsb (iref_eqb x) l.

(** [l.remove(x)]: the first equal element. *)
Fixpoint iref_remove (x : iref) (l : list iref) : res (list iref) :=
  match l with
  | [] => Raise ValueError
  | y :: l' => if iref_eqb y x then Ok l' else l'' ← iref_remove x l'; Ok (y :: l'')
  end.

(** [s.add(x)] and [s.union(xs)]: an element already present is kept.  A set
    is the list of its elements in the order they were added. *)
Definition iref_add (x : iref) (s : list iref) : list iref :=
  if iref_in x s then s else s ++ [x].
Definition iref_union (s xs : list iref) : list iref := fold_left (fun s x => iref_add x s) xs s.

Definition dirOf (r : iref) : str := dirname (absPath r).
Definition isTrusted (r : iref) : bool := endswith (raw_reference r) ".s.dfy".
Definition declaresTrustedness (r : iref) : bool :=
  endswith (raw_reference r) ".s.dfy" || endswith (raw_reference r) ".i.dfy".
Definition validPath (r : iref) : bool := true.
Definition compatiblePath (r : iref) : res bool :=
  if isTrusted r then Ok true
  else match origin r with
       | Some o => Ok (negb (isTrusted o))
       | None => Raise AttributeError
       end.
Definition describeOrigin (r : iref) : str :=
  match origin r with None => "cmdline" | Some o => normPath o end.
Definition iref_repr (r : iref) : str :=
  normPath r ++ " (via " ++ describeOrigin r ++ ":" ++ dec_Z (Z.of_nat (line_num r)) ++ ")".

(** The pattern of an include line: the text between the first quote, right
    after the keyword at the start of the line, and the last one. *)
Definition dquote : ascii := "034"%char.
Definition include_re : re :=
  seqs [Bol; Lit "include "; Chr dquote; Grp 1 (Star Dot); Chr dquote].

Definition fileFromIncludeLine (line : str) : option str :=
  if negb (startswith line "//") then m ← search include_re line; group 1 m
  else None.

(** The key that [__eq__], [__hash__] and the Python 2 comparison use, and
    [rootPath]. *)
Definition iref_tuple (r : iref) : str := absPath r.
Definition rootPath (r : iref) : str := normPath r.

(** [__hash__], for any hash of tuples, and [__cmp__], whose [cmp] Python 3 no
    longer has. *)
Definition iref_hash (hash : str -> Z) (r : iref) : Z := hash (iref_tuple r).
Definition iref_cmp (a : iref) (other : option iref) : res bool :=
  match other with None => Ok false | Some _ => Raise (NameError "cmp") end.

(** The messages of the two exceptions; [%s] of no origin is [None]. *)
Definition include_not_found_msg (path : str) (referencing : option str) : str :=
  "Cannot find file '" ++ path ++ "' referenced from '" ++ default (# "None") referencing ++ "'".
Definition incompatible_msg (i_file s_file : str) : str :=
  ".s file includes .i file: '" ++ s_file ++ "' includes '" ++ i_file ++ "'".
Definition exn_msg (e : exn) : option str :=
  match e with
  | IncludeNotFound path referencing => Some (include_not_found_msg path referencing)
  | IncompatibleIncludeTrustedness i s => Some (incompatible_msg i s)
  | _ => None
  end.

(** The root: the parent of the script's directory; a root given by the makefile
    must be the same directory. *)
Definition root_of (cwd file : str) : str := abspath cwd (path_join (dirname (abspath cwd file)) "..").
Definition check_root (cwd file : str) (from_make : option str) : res str :=
  match from_make with
  | None => Ok (root_of cwd file)
  | Some r => _ ← py_assert (bool_decide (abspath cwd r = root_of cwd file)); Ok (root_of cwd file)
  end.

Example roots :
  (check_root "/home/b" "./tools/lib_deps.py" (Some (# ".")), check_root "/home/b" "tools/lib_deps.py" (Some (# "tools"))) =
  (Ok (# "/home/b"), Raise AssertionError).
Proof. vm_compute. reflexivity. Qed.

(** [targetName]. *)
Definition targetName (r : iref) (suffix : str) : str :=
  "build/" ++ replace (normPath r) ".dfy" suffix.

Section deps.
(** The working directory, the repository root, and the files that can be
    opened, by absolute path. *)
Context (cwd ROOT_PATH : str) (fs : gmap str str).

(** [IncludeReference(origin, line_num, raw_reference)]. *)
Definition mk_iref (o : option iref) (n : nat) (raw : str) : res iref :=
  let dir := match o with None => abspath cwd "." | Some p => dirOf p end in
  let abs := abspath cwd (path_join dir raw) in
  norm ← normPathToRoot ROOT_PATH cwd abs;
  Ok (IRef o n raw abs norm).

Fixpoint include_lines (n : nat) (lines : list str) : list (nat * str) :=
  match lines with
  | [] => []
  | l :: ls => match fileFromIncludeLine l with
               | Some p => (n, p) :: include_lines (S n) ls
               | None => include_lines (S n) ls
               end
  end.

Definition includePaths (r : iref) : res (list iref) :=
  contents ← of_option (IncludeNotFound (absPath r) (iref_repr <$> origin r)) (fs !! absPath r);
  map_res (fun '(n, p) => mk_iref (Some r) n p) (include_lines 1 (readlines contents)).

(** The checks of the loop body of [childrenForIref].  The two exception
    classes named by the first two checks are not defined anywhere in the
    program, so raising them is a [NameError]. *)
Definition check_child (parent child : iref) : res unit :=
  _ ← (if negb (validPath child) then Raise (NameError "InvalidDafnyIncludePath") else Ok tt);
  _ ← (if negb (declaresTrustedness child) then Raise (NameError "UndeclaredTrustedness") else Ok tt);
  compat ← compatiblePath child;
  if negb compat then Raise (IncompatibleIncludeTrustedness (normPath child) (normPath parent))
  else Ok tt.

Definition childrenForIref (r : iref) : res (list iref) :=
  subs ← includePaths r;
  map_res (fun c => _ ← check_child r c; Ok c) subs.

(** The loop of [depsFromDfySource].  [needExplore] is a stack whose top is
    the head; [extend] pushes the children so that the last is on top. *)
Fixpoint explore (fuel : nat) (needExplore visited : list iref) : res (list iref) :=
  match needExplore with
  | [] => Ok visited
  | r :: rest =>
      match fuel with
      | O => Raise OutOfFuel
      | S f =>
          if iref_in r visited then explore f rest visited
          else children ← childrenForIref r;
               explore f (rev children ++ rest) (visited ++ [r])
      end
  end.

(** Every file is expanded at most once, so the stack is popped at most once
    per line of the files that exist, plus once for the root. *)
Definition total_lines : nat :=
  sum_list (map (fun '(_, c) => length (readlines c)) (map_to_list fs)).

Definition depsFromDfySource (initialRef : iref) : res (list iref) :=
  visited ← explore (S total_lines) [initialRef] [];
  iref_remove initialRef visited.

Fixpoint deps_from (i : nat) (roots : list str) (irefs : list iref) : res (list iref) :=
  match roots with
  | [] => Ok irefs
  | root :: roots' =>
      r ← mk_iref None i root;
      targets ← depsFromDfySource r;
      deps_from (S i) roots' (iref_union (iref_add r irefs) targets)
  end.

Definition depsFromDfySources (roots : list str) : res (list iref) := deps_from 0 roots [].

(** ** The include graph on absolute paths *)

(** [p] has an include line that resolves to [q]. *)
Definition includes (p q : str) : Prop :=
  exists contents n raw, fs !! p = Some contents /\
    (n, raw) ∈ include_lines 1 (readlines contents) /\
    q = abspath cwd (path_join (dirname p) raw).

(** ** The children of a reference *)

Definition paths (l : list iref) : list str := map absPath l.

Lemma include_lines_length n lines : length (include_lines n lines) <= length lines.
Proof.
  revert n. induction lines as [|l ls IH]; intros n; cbn; [done|].
  specialize (IH (S n)). destruct (fileFromIncludeLine l); cbn; lia.
Qed.

Lemma mk_iref_Ok o n raw r :
  mk_iref o n raw = Ok r ->
  origin r = o /\ line_num r = n /\ raw_reference r = raw /\
  absPath r = abspath cwd (path_join (match o with None => abspath cwd "." | Some p => dirOf p end) raw) /\
  normPathToRoot ROOT_PATH cwd (absPath r) = Ok (normPath r).
Proof. unfold mk_iref. intros H. res_inv. by split_and!. Qed.

#[local] Arguments check_child : simpl never.
#[local] Arguments childrenForIref : simpl never.

Lemma check_child_Ok p c :
  check_child p c = Ok tt ->
  declaresTrustedness c = true /\ compatiblePath c = Ok true.
Proof.
  unfold check_child. intros H. res_inv.
  destruct (declaresTrustedness c); [|discriminate]. by destruct x1.
Qed.

Lemma childrenForIref_Ok r cs :
  childrenForIref r = Ok cs ->
  exists contents, fs !! absPath r = Some contents /\
    length cs <= length (readlines contents) /\
    (forall q, q ∈ paths cs <-> includes (absPath r) q) /\
    (forall c, c ∈ cs -> origin c = Some r /\ (isTrusted r = true -> isTrusted c = true)).
Proof.
  unfold childrenForIref, includePaths. intros H. res_inv.
  destruct (fs !! absPath r) as [contents|] eqn:Hfs; [|done]. cbn in *. simplify_eq.
  exists x0. split; [done|].
  assert (Hel : forall c, c ∈ cs <-> c ∈ x /\ check_child r c = Ok tt).
  { intros c. rewrite (map_res_elem _ _ _ _ H0). split.
    - intros (c' & ? & E). by apply bind_Ok in E as ([] & ? & [= <-]).
    - intros [? E]. exists c. by rewrite E. }
  assert (Hcs : cs = x).
  { apply map_res_Forall2 in H0. clear -H0.
    induction H0 as [|a b l k E ? IH]; [done|]. res_inv. by f_equal. }
  subst x. split_and!.
  - rewrite (map_res_length _ _ _ H1). etrans; [apply include_lines_length|done].
  - intros q. unfold paths. rewrite list_elem_of_fmap. split.
    + intros (c & -> & Hc). apply (map_res_elem _ _ _ _ H1) in Hc as ([n raw] & Hin & Hmk).
      apply mk_iref_Ok in Hmk as (_ & _ & _ & -> & _). by exists x0, n, raw.
    + intros (c0 & n & raw & E & Hin & ->). simplify_eq.
      assert (exists c, c ∈ cs /\ mk_iref (Some r) n raw = Ok c) as (c & Hc & Hmk).
      { apply map_res_Forall2 in H1. apply list_elem_of_lookup in Hin as (i & Hi).
        destruct (Forall2_lookup_l _ _ _ _ _ H1 Hi) as (c & ? & ?).
        exists c. split; [by eapply list_elem_of_lookup_2|done]. }
      exists c. split; [|done]. by apply mk_iref_Ok in Hmk as (_ & _ & _ & -> & _).
  - intros c Hc. pose proof (proj1 (Hel c) Hc) as [_ Hck].
    apply (map_res_elem _ _ _ _ H1) in Hc as ([n raw] & _ & Hmk).
    apply mk_iref_Ok in Hmk as (Ho & _). split; [done|].
    apply check_child_Ok in Hck as [_ Hcompat]. unfold compatiblePath in Hcompat.
    intros Htr. destruct (isTrusted c); [done|]. rewrite Ho, Htr in Hcompat. done.
Qed.

Lemma mk_iref_not_fuel o n raw : mk_iref o n raw <> Raise OutOfFuel.
Proof.
  unfold mk_iref, normPathToRoot, py_assert. by destruct (startswith _ _).
Qed.

Lemma childrenForIref_not_fuel r : childrenForIref r <> Raise OutOfFuel.
Proof.
  unfold childrenForIref, includePaths. rewrite !bind_Raise. intros [[H|(c & _ & H)]|(cs & _ & H)].
  - by destruct (fs !! absPath r).
  - apply map_res_Raise in H as ([n raw] & _ & H). by apply mk_iref_not_fuel in H.
  - apply map_res_Raise in H as (c & _ & H). apply bind_Raise in H as [H|(u & _ & [=])].
    unfold check_child, compatiblePath in H.
    destruct (declaresTrustedness c), (isTrusted c), (origin c) as [o|]; cbn in H; try done.
    by destruct (isTrusted o).
Qed.

(** ** Termination of the traversal *)

Definition unvisited_lines (visited : list iref) : nat :=
  sum_list (map (fun '(p, c) => if bool_decide (p ∈ paths visited) then 0 else length (readlines c))
                (map_to_list fs)).

Lemma iref_in_spec x l : iref_in x l = true <-> absPath x ∈ paths l.
Proof.
  unfold iref_in, iref_eqb, paths. rewrite existsb_exists, list_elem_of_fmap. split.
  - intros (y & ?%list_elem_of_In & ?%bool_decide_eq_true). eauto.
  - intros (y & ? & ?%list_elem_of_In). exists y. by rewrite bool_decide_eq_true.
Qed.

Lemma paths_snoc l r : paths (l ++ [r]) = paths l ++ [absPath r].
Proof. apply map_app. Qed.

Lemma elem_of_paths_app q l1 l2 : q ∈ paths (l1 ++ l2) <-> q ∈ paths l1 \/ q ∈ paths l2.
Proof. unfold paths. by rewrite map_app, elem_of_app. Qed.

Lemma elem_of_paths_rev q l : q ∈ paths (rev l) <-> q ∈ paths l.
Proof. unfold paths. by rewrite map_rev, list_elem_of_In, <- in_rev, <- list_elem_of_In. Qed.

Lemma elem_of_paths_cons q r l : q ∈ paths (r :: l) <-> q = absPath r \/ q ∈ paths l.
Proof. apply elem_of_cons. Qed.

Lemma unvisited_lines_visit visited r contents :
  fs !! absPath r = Some contents -> absPath r ∉ paths visited ->
  unvisited_lines visited = length (readlines contents) + unvisited_lines (visited ++ [r]).
Proof.
  intros Hfs Hnin. unfold unvisited_lines.
  assert (Hel : (absPath r, contents) ∈ map_to_list fs) by (by apply elem_of_map_to_list).
  pose proof (NoDup_fst_map_to_list fs) as Hnd.
  induction (map_to_list fs) as [|[p c] l IH]; [by apply elem_of_nil in Hel|].
  apply NoDup_cons in Hnd as [Hp Hnd]. cbn [map].
  rewrite !paths_snoc in *. rewrite !sum_list_cons.
  apply elem_of_cons in Hel as [E|Hel].
  - injection E as E1 E2. subst p c.
    rewrite (bool_decide_eq_false_2 (absPath r ∈ paths visited)) by done.
    rewrite (bool_decide_eq_true_2 (absPath r ∈ paths visited ++ [absPath r])) by (apply elem_of_app; right; apply list_elem_of_here).
    rewrite Nat.add_0_l. f_equal. f_equal. apply map_ext_in. intros [p' c'] Hin%list_elem_of_In.
    assert (p' <> absPath r) by (intros ->; apply Hp, list_elem_of_fmap; by exists (absPath r, c')).
    erewrite bool_decide_ext; [done|]. rewrite elem_of_app, list_elem_of_singleton. naive_solver.
  - rewrite IH by done. assert (p <> absPath r).
    { intros ->. apply Hp, list_elem_of_fmap. by exists (absPath r, contents). }
    assert (bool_decide (p ∈ paths visited ++ [absPath r]) = bool_decide (p ∈ paths visited)) as ->.
    { apply bool_decide_ext. rewrite elem_of_app, list_elem_of_singleton. naive_solver. }
    lia.
Qed.

Lemma explore_enough_fuel fuel stack visited :
  length stack + unvisited_lines visited <= fuel ->
  explore fuel stack visited <> Raise OutOfFuel.
Proof.
  revert stack visited. induction fuel as [|fuel IH]; intros [|r stack] visited Hm; cbn;
    [done|cbn in Hm; lia|done|]. cbn in Hm.
  destruct (iref_in r visited) eqn:Hin; [apply IH; lia|].
  rewrite bind_Raise. intros [H|(cs & Hcs & H)]; [by apply childrenForIref_not_fuel in H|].
  apply childrenForIref_Ok in Hcs as (contents & Hfs & Hlen & _).
  revert H. apply IH. rewrite length_app, length_rev.
  rewrite (unvisited_lines_visit visited r contents) in Hm; [lia|done|].
  intros Hv. apply iref_in_spec in Hv. congruence.
Qed.

Lemma unvisited_lines_nil : unvisited_lines [] = total_lines.
Proof. by unfold unvisited_lines, total_lines. Qed.

(** ** What the traversal visits *)

(** Anything true of the stack and kept from parents to children is true of
    everything visited. *)
Lemma explore_inv (Q : iref -> Prop) fuel stack visited out :
  (forall r cs c, Q r -> childrenForIref r = Ok cs -> c ∈ cs -> Q c) ->
  Forall Q stack -> Forall Q visited ->
  explore fuel stack visited = Ok out -> Forall Q out.
Proof.
  intros HQ. revert stack visited.
  induction fuel as [|fuel IH]; intros [|r stack] visited Hs Hv H; cbn in H; simplify_eq; try done.
  apply Forall_cons in Hs as [Hr Hs].
  destruct (iref_in r visited); [by apply (IH stack visited)|].
  apply bind_Ok in H as (cs & Hcs & H). eapply IH; [| |exact H].
  - apply Forall_app. split; [|done]. apply Forall_rev, Forall_forall. eauto.
  - apply Forall_app. by split; [|constructor].
Qed.

Lemma explore_prefix fuel stack visited out :
  explore fuel stack visited = Ok out -> exists l, out = visited ++ l.
Proof.
  revert stack visited. induction fuel as [|fuel IH]; intros [|r stack] visited H; cbn in H;
    simplify_eq; try (exists []; by rewrite app_nil_r).
  destruct (iref_in r visited); [eauto|].
  apply bind_Ok in H as (cs & Hcs & H). apply IH in H as (l & ->). exists (r :: l). by rewrite <- app_assoc.
Qed.

Lemma explore_NoDup fuel stack visited out :
  NoDup (paths visited) -> explore fuel stack visited = Ok out -> NoDup (paths out).
Proof.
  revert stack visited. induction fuel as [|fuel IH]; intros [|r stack] visited Hn H; cbn in H;
    simplify_eq; try done.
  destruct (iref_in r visited) eqn:Hin; [eauto|].
  apply bind_Ok in H as (cs & Hcs & H). eapply IH; [|exact H]. rewrite paths_snoc. apply NoDup_app. split_and!; [done| |apply NoDup_singleton].
  intros x Hx ->%list_elem_of_singleton. apply iref_in_spec in Hx. congruence.
Qed.

(** The visited set ends up containing the stack and closed under inclusion. *)
Lemma explore_closed fuel stack visited out :
  (forall v q, v ∈ paths visited -> includes v q -> q ∈ paths visited \/ q ∈ paths stack) ->
  explore fuel stack visited = Ok out ->
  (forall q, q ∈ paths stack -> q ∈ paths out) /\
  (forall v q, v ∈ paths out -> includes v q -> q ∈ paths out).
Proof.
  revert stack visited. induction fuel as [|fuel IH]; intros [|r stack] visited Hinv H; cbn in H;
    simplify_eq.
  1,2: split; [by intros q ?%not_elem_of_nil|]; intros v q Hv Hq;
    by destruct (Hinv v q Hv Hq) as [|?%not_elem_of_nil].
  destruct (iref_in r visited) eqn:Hin.
  - apply iref_in_spec in Hin. destruct (explore_prefix _ _ _ _ H) as (l & El).
    destruct (IH stack visited) as [H1 H2]; [|done|].
    + intros v q Hv Hq. specialize (Hinv v q Hv Hq). rewrite elem_of_paths_cons in Hinv.
      naive_solver.
    + split; [|done]. intros q. rewrite elem_of_paths_cons. intros [->|]; [|auto].
      subst out. apply elem_of_paths_app. by left.
  - apply bind_Ok in H as (cs & Hcs & H).
    apply childrenForIref_Ok in Hcs as (contents & Hfs & _ & Hch & _).
    destruct (explore_prefix _ _ _ _ H) as (l & El).
    destruct (IH (rev cs ++ stack) (visited ++ [r])) as [H2 H3]; [|done|].
    + intros v q Hv Hq. rewrite !elem_of_paths_app, elem_of_paths_rev, !elem_of_paths_cons in *.
      destruct Hv as [Hv|[->|[]%not_elem_of_nil]]; [|rewrite <- Hch in Hq; auto].
      specialize (Hinv v q Hv Hq). rewrite elem_of_paths_cons in Hinv. naive_solver.
    + split; [|done]. intros q. rewrite elem_of_paths_cons. intros [->|Hq].
      * subst out. rewrite !elem_of_paths_app, elem_of_paths_cons. auto.
      * apply H2, elem_of_paths_app. auto.
Qed.

(** Equal references have equal hashes, so sets of references hold one per
    absolute path. *)
Lemma iref_hash_eq hash a b : iref_eqb a b = true -> iref_hash hash a = iref_hash hash b.
Proof. intros H%bool_decide_eq_true. unfold iref_hash, iref_tuple. by rewrite H. Qed.

Lemma iref_eqb_refl r : iref_eqb r r = true.
Proof. unfold iref_eqb. by apply bool_decide_eq_true. Qed.

(** The root is visited first, and removing it leaves the dependencies. *)
Lemma depsFromDfySource_Ok r deps :
  depsFromDfySource r = Ok deps -> explore (S total_lines) [r] [] = Ok (r :: deps).
Proof.
  unfold depsFromDfySource. intros (out & Hout & Hrem)%bind_Ok. rewrite Hout. f_equal.
  cbn in Hout. apply bind_Ok in Hout as (cs & _ & Hout).
  apply explore_prefix in Hout as (l & ->). cbn in Hrem. rewrite iref_eqb_refl in Hrem.
  by simplify_eq/=.
Qed.

Lemma includes_reachable fuel r out :
  explore fuel [r] [] = Ok out -> Forall (fun x => rtc includes (absPath r) (absPath x)) out.
Proof.
  intros H. eapply (explore_inv (fun x => rtc includes (absPath r) (absPath x))); [| | |exact H].
  - intros x cs c Hx Hcs Hc. apply childrenForIref_Ok in Hcs as (? & _ & _ & Hch & _).
    eapply rtc_r; [exact Hx|]. apply Hch. by apply list_elem_of_fmap_2.
  - repeat constructor.
  - constructor.
Qed.

(** C1. The trusted closure: every file that a trusted ([.s.dfy]) root depends
    on, directly or not, is trusted too; a specification never rests on an
    implementation file. *)
Theorem deps_trusted_closure r deps :
  depsFromDfySource r = Ok deps -> isTrusted r = true ->
  Forall (fun d => isTrusted d = true) deps.
Proof.
  intros H%depsFromDfySource_Ok Hr.
  assert (Hall : Forall (fun d => isTrusted d = true) (r :: deps)).
  { eapply (explore_inv (fun d => isTrusted d = true)); [| | |exact H].
    - intros x cs c Hx Hcs Hc. apply childrenForIref_Ok in Hcs as (? & _ & _ & _ & Htr).
      by apply (Htr c Hc).
    - by constructor.
    - constructor. }
  by inversion Hall.
Qed.

Lemma reachable_paths r deps :
  depsFromDfySource r = Ok deps ->
  forall q, q ∈ paths deps <-> q <> absPath r /\ rtc includes (absPath r) q.
Proof.
  intros H%depsFromDfySource_Ok q. split.
  - intros Hq. split.
    + intros ->. apply explore_NoDup in H; [|constructor]. by inversion H.
    + apply includes_reachable in H. apply list_elem_of_fmap in Hq as (d & -> & Hd).
      apply Forall_cons in H as [_ H]. by eapply Forall_forall in H.
  - intros [Hne Hrtc]. apply explore_closed in H as [Hstack Hclosed]; [|by intros v ? ?%not_elem_of_nil].
    assert (Hin : q ∈ paths (r :: deps)).
    { clear Hne. revert q Hrtc. apply (rtc_ind_r (fun q => q ∈ paths (r :: deps))).
      - apply list_elem_of_here.
      - intros y z _ Hyz Hy. by eapply Hclosed. }
    by apply elem_of_paths_cons in Hin as [|].
Qed.

Lemma visited_NoDup r deps : depsFromDfySource r = Ok deps -> NoDup (paths (r :: deps)).
Proof. intros H%depsFromDfySource_Ok. eapply explore_NoDup; [|exact H]. constructor. Qed.

(** C2. The traversal computes exactly the proper descendants of the root in
    the include graph, each once: a file is a dependency when it is not the
    root and a chain of include lines leads to it. *)
Theorem deps_are_reachable r deps :
  depsFromDfySource r = Ok deps ->
  NoDup (paths deps) /\
  forall q, q ∈ paths deps <-> q <> absPath r /\ rtc includes (absPath r) q.
Proof.
  intros H. split; [|by apply reachable_paths].
  apply visited_NoDup in H. by inversion H.
Qed.

Lemma explore_more_fuel fuel fuel' stack visited :
  fuel <= fuel' -> explore fuel stack visited <> Raise OutOfFuel ->
  explore fuel' stack visited = explore fuel stack visited.
Proof.
  revert fuel' stack visited. induction fuel as [|fuel IH]; intros fuel' [|r stack] visited Hle Hne;
    destruct fuel' as [|fuel']; cbn in *; try done; try lia.
  destruct (iref_in r visited); [apply IH; [lia|done]|].
  destruct (childrenForIref r) as [cs|e]; cbn in *; [|done]. apply IH; [lia|done].
Qed.

(** C22. The traversal terminates on every file system, cyclic includes and
    all: the fuel it is given is never exhausted, and more fuel does not
    change its result. *)
Theorem deps_terminate r :
  depsFromDfySource r <> Raise OutOfFuel /\
  forall fuel, S total_lines <= fuel ->
    explore fuel [r] [] = explore (S total_lines) [r] [].
Proof.
  assert (Hfuel : explore (S total_lines) [r] [] <> Raise OutOfFuel).
  { apply explore_enough_fuel. rewrite unvisited_lines_nil. cbn. lia. }
  split.
  - unfold depsFromDfySource. rewrite bind_Raise. intros [H|(out & Hout & H)]; [done|].
    cbn in Hout. apply bind_Ok in Hout as (cs & _ & Hout).
    apply explore_prefix in Hout as (l & ->). cbn in H. by rewrite iref_eqb_refl in H.
  - intros fuel Hle. by apply explore_more_fuel.
Qed.

(** ** Several roots *)

Lemma iref_add_paths q x s : q ∈ paths (iref_add x s) <-> q ∈ paths s \/ q = absPath x.
Proof.
  unfold iref_add. destruct (iref_in x s) eqn:E.
  - apply iref_in_spec in E. split; [auto|]. by intros [| ->].
  - rewrite elem_of_paths_app, elem_of_paths_cons. split; [|naive_solver].
    intros [|[|H%not_elem_of_nil]]; auto. done.
Qed.

Lemma iref_add_NoDup x s : NoDup (paths s) -> NoDup (paths (iref_add x s)).
Proof.
  intros H. unfold iref_add. destruct (iref_in x s) eqn:E; [done|]. rewrite paths_snoc.
  apply NoDup_app. split_and!; [done| |apply NoDup_singleton].
  intros y Hy ->%list_elem_of_singleton. apply iref_in_spec in Hy. congruence.
Qed.

Lemma iref_union_paths q s xs : q ∈ paths (iref_union s xs) <-> q ∈ paths s \/ q ∈ paths xs.
Proof.
  revert s. induction xs as [|x xs IH]; intros s; unfold iref_union in *; cbn.
  - split; [auto|]. by intros [|?%not_elem_of_nil].
  - rewrite IH, iref_add_paths, elem_of_cons. tauto.
Qed.

Lemma iref_union_NoDup s xs : NoDup (paths s) -> NoDup (paths (iref_union s xs)).
Proof.
  revert s. induction xs as [|x xs IH]; intros s H; unfold iref_union in *; cbn; [done|].
  by apply IH, iref_add_NoDup.
Qed.

(** The absolute path of a root named on the command line. *)
Definition root_path (root : str) : str := abspath cwd (path_join (abspath cwd ".") root).

Lemma deps_from_spec i roots irefs out :
  deps_from i roots irefs = Ok out ->
  (NoDup (paths irefs) -> NoDup (paths out)) /\
  forall q, q ∈ paths out <->
    q ∈ paths irefs \/ exists root, root ∈ roots /\ rtc includes (root_path root) q.
Proof.
  revert i irefs. induction roots as [|root roots IH]; intros i irefs H; cbn in H.
  - simplify_eq. split; [done|]. intros q. split; [auto|]. by intros [|(? & ?%not_elem_of_nil & _)].
  - apply bind_Ok in H as (r & Hr & H). apply bind_Ok in H as (targets & Ht & H).
    apply IH in H as [Hnd Hq]. split.
    { intros. by apply Hnd, iref_union_NoDup, iref_add_NoDup. }
    intros q. rewrite Hq, iref_union_paths, iref_add_paths, (reachable_paths r targets Ht q).
    apply mk_iref_Ok in Hr as (_ & _ & _ & Habs & _). fold (root_path root) in Habs.
    setoid_rewrite elem_of_cons. rewrite Habs. split.
    + intros [[[?| ->]|[_ ?]]|(x & ? & ?)]; eauto 6 using rtc_refl.
    + intros [?|(x & [->|?] & ?)]; eauto 6.
      destruct (decide (q = root_path root)); auto 6.
Qed.

(** ** Names are functions of paths *)

(** The root-relative name a reference carries is the one of its path. *)
Definition iref_wf (r : iref) : Prop :=
  normPathToRoot ROOT_PATH cwd (absPath r) = Ok (normPath r).

Lemma mk_iref_wf o n raw r : mk_iref o n raw = Ok r -> iref_wf r.
Proof. by intros (_ & _ & _ & _ & ?)%mk_iref_Ok. Qed.

Lemma includePaths_wf r subs c : includePaths r = Ok subs -> c ∈ subs -> iref_wf c.
Proof.
  unfold includePaths. intros (contents & _ & Hm)%bind_Ok Hc.
  apply (map_res_elem _ _ _ _ Hm) in Hc as ([n raw] & _ & Hmk). by eapply mk_iref_wf.
Qed.

Lemma childrenForIref_subs r cs : childrenForIref r = Ok cs -> includePaths r = Ok cs.
Proof.
  unfold childrenForIref. intros (subs & Hs & Hm)%bind_Ok. rewrite Hs. f_equal.
  apply map_res_Forall2 in Hm. clear Hs.
  induction Hm as [|a b l k E ? IH]; [done|].
  apply bind_Ok in E as (? & _ & [= ->]). by f_equal.
Qed.

Lemma depsFromDfySource_wf r deps :
  iref_wf r -> depsFromDfySource r = Ok deps -> Forall iref_wf deps.
Proof.
  intros Hr H%depsFromDfySource_Ok.
  assert (Hall : Forall iref_wf (r :: deps)); [|by inversion Hall].
  eapply (explore_inv iref_wf); [| | |exact H]; [|by constructor|constructor].
  intros x cs c _ Hcs%childrenForIref_subs Hc. by eapply includePaths_wf.
Qed.

Lemma iref_union_elem x s xs : x ∈ iref_union s xs -> x ∈ s \/ x ∈ xs.
Proof.
  revert s. induction xs as [|y xs IH]; intros s; unfold iref_union in *; cbn; [auto|].
  intros [H|H]%IH; [|right; by apply list_elem_of_further].
  unfold iref_add in H. destruct (iref_in y s); [auto|].
  apply elem_of_app in H as [|H%list_elem_of_singleton]; [auto|].
  subst. right. apply list_elem_of_here.
Qed.

Lemma deps_from_wf i roots irefs out :
  Forall iref_wf irefs -> deps_from i roots irefs = Ok out -> Forall iref_wf out.
Proof.
  revert i irefs. induction roots as [|root roots IH]; intros i irefs Hwf H; cbn in H.
  - by simplify_eq.
  - apply bind_Ok in H as (r & Hr & (targets & Ht & H)%bind_Ok).
    eapply IH; [|exact H]. apply Forall_forall. intros x Hx.
    apply iref_union_elem in Hx as [Hx|Hx].
    + change (iref_add r irefs) with (iref_union irefs [r]) in Hx.
      apply iref_union_elem in Hx as [Hx| ->%list_elem_of_singleton].
      * by eapply Forall_forall in Hwf.
      * by eapply mk_iref_wf.
    + apply depsFromDfySource_wf in Ht; [|by eapply mk_iref_wf]. by eapply Forall_forall in Ht.
Qed.

Lemma depsFromDfySources_reach roots irefs :
  depsFromDfySources roots = Ok irefs ->
  NoDup (paths irefs) /\ Forall iref_wf irefs /\
  forall q, q ∈ paths irefs <-> exists root, root ∈ roots /\ rtc includes (root_path root) q.
Proof.
  intros H. pose proof (deps_from_spec _ _ _ _ H) as [Hnd Hq].
  split; [apply Hnd; constructor|]. split; [by eapply deps_from_wf|].
  intros q. rewrite Hq. split; [|auto]. by intros [?%not_elem_of_nil|].
Qed.

(** The set of dependencies of several roots: no absolute path occurs
    twice, and the members are the roots and everything reachable from them. *)
Theorem deps_of_roots roots irefs :
  depsFromDfySources roots = Ok irefs ->
  NoDup (paths irefs) /\
  forall q, q ∈ paths irefs <-> exists root, root ∈ roots /\ rtc includes (root_path root) q.
Proof. intros H. by apply depsFromDfySources_reach in H as (? & _ & ?). Qed.

(** ** Rejected includes *)

(** The first check an included file fails decides the exception. *)
Definition child_error (parent child : iref) : option exn :=
  if negb (declaresTrustedness child) then Some (NameError "UndeclaredTrustedness")
  else if negb (isTrusted child) && isTrusted parent
       then Some (IncompatibleIncludeTrustedness (normPath child) (normPath parent))
       else None.

Lemma check_child_error r c :
  origin c = Some r ->
  check_child r c = match child_error r c with Some e => Raise e | None => Ok tt end.
Proof.
  intros Ho. unfold check_child, child_error, compatiblePath. rewrite Ho.
  by destruct (declaresTrustedness c), (isTrusted c), (isTrusted r).
Qed.

Lemma map_res_checks r subs :
  Forall (fun c => origin c = Some r) subs ->
  map_res (fun c => _ ← check_child r c; Ok c) subs =
  match omap (child_error r) subs with e :: _ => Raise e | [] => Ok subs end.
Proof.
  induction 1 as [|c cs Ho _ IH]; [done|]. cbn. rewrite check_child_error by done.
  destruct (child_error r c); cbn; [done|]. rewrite IH. by destruct (omap _ cs).
Qed.

(** Every branch of reading the includes of a file: a file that does not
    exist is reported with its includer; otherwise the include lines are
    resolved, and the first included file that declares no trustedness, or is
    untrusted under a trusted parent, stops the traversal with its exception;
    if there is none the included files are returned in line order. *)
Theorem children_branches r :
  (fs !! absPath r = None ->
     childrenForIref r = Raise (IncludeNotFound (absPath r) (iref_repr <$> origin r))) /\
  (forall subs, includePaths r = Ok subs ->
     childrenForIref r =
       match omap (child_error r) subs with e :: _ => Raise e | [] => Ok subs end).
Proof.
  unfold childrenForIref. split.
  - unfold includePaths. by intros ->.
  - intros subs H. rewrite H. cbn. apply map_res_checks, Forall_forall. intros c Hc.
    unfold includePaths in H. apply bind_Ok in H as (contents & _ & H).
    apply (map_res_elem _ _ _ _ H) in Hc as ([n raw] & _ & Hmk). by apply mk_iref_Ok in Hmk as [? _].
Qed.
End deps.

(** ** Examples *)

Definition include_line (p : str) : str := "include " ++ [dquote] ++ p ++ [dquote; nl].

(** A trusted pair, and an implementation file in an include cycle. *)
Definition demo_fs : gmap str str := list_to_map
  [ (# "/r/S.s.dfy", include_line "lib/T.s.dfy" ++ "// include" ++ [nl]);
    (# "/r/lib/T.s.dfy", # "module T { }");
    (# "/r/A.i.dfy",
       include_line "lib/B.i.dfy" ++ include_line "S.s.dfy" ++ include_line "lib/../lib/B.i.dfy");
    (# "/r/lib/B.i.dfy", include_line "../A.i.dfy");
    (# "/r/Bad.s.dfy", include_line "lib/T.s.dfy" ++ include_line "A.i.dfy");
    (# "/r/Plain.i.dfy", include_line "lib/B.dfy") ].

Definition demo_root (name : str) : iref :=
  IRef None 0 name ("/r/" ++ name) name.

Lemma deps_trusted_closure_witness :
  exists deps, depsFromDfySource "/r" "/r" demo_fs (demo_root "S.s.dfy") = Ok deps /\
    isTrusted (demo_root "S.s.dfy") = true /\ deps <> [] /\
    Forall (fun d => isTrusted d = true) deps.
Proof.
  eexists. split; [vm_compute; reflexivity|]. split; [reflexivity|]. split; [done|].
  eapply (deps_trusted_closure "/r" "/r" demo_fs (demo_root "S.s.dfy"));
    vm_compute; reflexivity.
Defined.

Lemma deps_are_reachable_witness :
  exists deps, depsFromDfySource "/r" "/r" demo_fs (demo_root "A.i.dfy") = Ok deps /\
    NoDup (paths deps) /\
    forall q, q ∈ paths deps <-> q <> absPath (demo_root "A.i.dfy") /\
      rtc (includes "/r" demo_fs) (absPath (demo_root "A.i.dfy")) q.
Proof.
  eexists. split; [vm_compute; reflexivity|].
  eapply (deps_are_reachable "/r" "/r" demo_fs (demo_root "A.i.dfy")).
  vm_compute; reflexivity.
Defined.

Lemma deps_of_roots_witness :
  exists irefs, depsFromDfySources "/r" "/r" demo_fs ["A.i.dfy" : str; "S.s.dfy" : str] = Ok irefs /\
    NoDup (paths irefs) /\
    forall q, q ∈ paths irefs <-> exists root, root ∈ ["A.i.dfy" : str; "S.s.dfy" : str] /\
      rtc (includes "/r" demo_fs) (root_path "/r" root) q.
Proof.
  eexists. split; [vm_compute; reflexivity|].
  eapply (deps_of_roots "/r" "/r" demo_fs). vm_compute; reflexivity.
Defined.

Example deps_demo :
  (paths <$> depsFromDfySource "/r" "/r" demo_fs (demo_root "A.i.dfy")) =
    Ok ["/r/lib/B.i.dfy" : str; "/r/S.s.dfy" : str; "/r/lib/T.s.dfy" : str] /\
  depsFromDfySource "/r" "/r" demo_fs (demo_root "Bad.s.dfy") =
    Raise (IncompatibleIncludeTrustedness "A.i.dfy" "Bad.s.dfy") /\
  depsFromDfySource "/r" "/r" demo_fs (demo_root "Plain.i.dfy") =
    Raise (NameError "UndeclaredTrustedness") /\
  depsFromDfySource "/r" "/r" demo_fs (demo_root "None.i.dfy") =
    Raise (IncludeNotFound "/r/None.i.dfy" None).
Proof. vm_compute. split_and!; reflexivity. Qed.
