(* ===== verification/Veridepend.v ===== *)
(** * Makefile dependencies (tools/veridepend.py, toposortGroup of tools/lib_deps.py)

    The include closure of the roots, in topological order, turned into the
    rules of [build/deps].  The third-party [toposort] function is the class
    [Toposort]: an operation with the laws its documentation states. *)
From S2P Require Import Prelude PyStr Regex Paths Deps.

(** ** The toposort package *)

(** A dependency graph: each key with the set of items it depends on. *)
Abbreviation graph := (list (iref * list iref)).

(** The index of the first group that holds a path. *)
Fixpoint level (p : str) (groups : list (list iref)) : option nat :=
  match groups with
  | [] => None
  | g :: gs => if bool_decide (p ∈ paths g) then Some 0 else S <$> level p gs
  end.

Definition before_level (groups : list (list iref)) (p q : str) : bool :=
  match level p groups, level q groups with
  | Some i, Some j => i <? j
  | _, _ => false
  end.

(** What the package documents: the groups hold every item of the graph
    exactly once, and an item comes in a later group than the other items it
    depends on. *)
Record topo_groups (g : graph) (groups : list (list iref)) : Prop := {
  topo_members : forall p, p ∈ paths (concat groups) <->
    exists k ds, (k, ds) ∈ g /\ (p = absPath k \/ p ∈ paths ds);
  topo_items : forall x, x ∈ concat groups -> exists k ds, (k, ds) ∈ g /\ (x = k \/ x ∈ ds);
  topo_once : NoDup (paths (concat groups));
  topo_later : forall k ds d, (k, ds) ∈ g -> d ∈ ds -> absPath d <> absPath k ->
    before_level groups (absPath d) (absPath k) = true
}.

Class Toposort := {
  toposort : graph -> res (list (list iref));
  toposort_law : forall g groups, toposort g = Ok groups -> topo_groups g groups
}.

(** [__lt__] of references, and [list.sort()]. *)
Definition iref_ltb (x y : iref) : bool := str_ltb (absPath x) (absPath y).
Definition iref_sort (l : list iref) : list iref := sort_by iref_ltb l.

Section veridepend.
Context (cwd ROOT_PATH : str) (fs : gmap str str) {TS : Toposort}.

(** [graph[iRef] = set(includePaths(iRef))] for each candidate. *)
Definition include_graph (candidateIrefs : list iref) : res graph :=
  map_res (fun r => ds ← includePaths cwd ROOT_PATH fs r; Ok (r, iref_union [] ds)) candidateIrefs.

Definition toposortGroup (candidateIrefs : list iref) : res (list iref) :=
  g ← include_graph candidateIrefs;
  groups ← toposort g;
  Ok (concat (map (fun group => iref_sort (List.filter (fun x => iref_in x candidateIrefs) group)) groups)).

(** ** Veridepend *)

Definition depFilename : str := "build/deps".

(** The suffix pairs of the first inner loop of [generateDepsForIref]. *)
Definition dep_types : list (str * str) :=
  [ (".dummydep" : str, ".dummydep" : str); (".synchk" : str, ".dummydep" : str);
    (".verchk" : str, ".dummydep" : str); (".cs" : str, ".dummydep" : str);
    (".lc" : str, ".dummydep" : str); (".cpp" : str, ".cpp" : str);
    (".verified" : str, ".verified" : str); (".syntax" : str, ".syntax" : str);
    (".okay" : str, ".okay" : str); (".lcreport" : str, ".lcreport" : str);
    (".o" : str, ".o" : str); (".cpp" : str, ".o" : str) ].

(** The rules from this file to its type parents. *)
Definition parent_types : list (str * str) :=
  [ (".verified" : str, ".verchk" : str); (".syntax" : str, ".synchk" : str);
    (".lcreport" : str, ".lc" : str) ].

Definition rule (target prereq : str) : str := target ++ ": " ++ prereq.

Definition child_rules (r dep : iref) : list str :=
  map (fun '(fromType, toType) => rule (targetName r fromType) (targetName dep toType))
      (dep_types ++ parent_types).

Definition generateDepsForIref (r : iref) : res (list str) :=
  deps ← childrenForIref cwd ROOT_PATH fs r;
  Ok ([] :: ("# deps from " ++ iref_repr r) :: flat_map (child_rules r) deps
      ++ [rule depFilename (normPath r)]).

Definition gatherDeps (targetIrefs : list iref) : res (list str) :=
  order ← toposortGroup targetIrefs;
  lines ← map_res generateDepsForIref order;
  Ok (concat lines).

(** The contents written to [build/deps]. *)
Definition writeDepsFile (outputLines : list str) : str := flat_map (fun line => line ++ [nl]) outputLines.

(** The constructor, up to the contents of the file. *)
Definition veridepend (dafnyRoots : list str) : res str :=
  targetIrefs ← depsFromDfySources cwd ROOT_PATH fs dafnyRoots;
  output ← gatherDeps targetIrefs;
  Ok (writeDepsFile output).

(** ** Sorting and selecting keep the members *)

Lemma iref_sort_Permutation l : iref_sort l ≡ₚ l.
Proof. unfold iref_sort. auto with py. Qed.

Definition select (candidates group : list iref) : list iref :=
  iref_sort (List.filter (fun x => iref_in x candidates) group).

Lemma select_elem c g x : x ∈ select c g <-> x ∈ g /\ absPath x ∈ paths c.
Proof.
  unfold select. rewrite iref_sort_Permutation, list_elem_of_In, filter_In, <- list_elem_of_In.
  by rewrite iref_in_spec.
Qed.

Lemma elem_of_paths q l : q ∈ paths l <-> exists x, q = absPath x /\ x ∈ l.
Proof. apply list_elem_of_fmap. Qed.

Lemma select_paths c g q : q ∈ paths (select c g) <-> q ∈ paths g /\ q ∈ paths c.
Proof.
  rewrite (elem_of_paths q (select c g)), (elem_of_paths q g). setoid_rewrite select_elem.
  naive_solver.
Qed.

Lemma paths_concat_select c groups q :
  q ∈ paths (concat (map (select c) groups)) <-> q ∈ paths (concat groups) /\ q ∈ paths c.
Proof.
  induction groups as [|g gs IH]; cbn.
  - split; [by intros ?%not_elem_of_nil|by intros [?%not_elem_of_nil _]].
  - rewrite !elem_of_paths_app, IH, select_paths. tauto.
Qed.

Lemma paths_Permutation l1 l2 : l1 ≡ₚ l2 -> paths l1 ≡ₚ paths l2.
Proof. apply Permutation_map. Qed.

Lemma NoDup_paths_select c g : NoDup (paths g) -> NoDup (paths (select c g)).
Proof.
  intros Hnd. unfold select. rewrite (paths_Permutation _ _ (iref_sort_Permutation _)).
  induction g as [|x g IH]; cbn; [constructor|].
  apply NoDup_cons in Hnd as [Hx Hnd]. destruct (iref_in x c); [|auto].
  cbn. apply NoDup_cons. split; [|auto]. intros (y & E & Hy)%list_elem_of_fmap.
  apply Hx. rewrite E. apply list_elem_of_fmap. exists y. split; [done|].
  apply list_elem_of_In, filter_In in Hy as [? _]. by apply list_elem_of_In.
Qed.

Lemma NoDup_concat_select c groups :
  NoDup (paths (concat groups)) -> NoDup (paths (concat (map (select c) groups))).
Proof.
  induction groups as [|g gs IH]; cbn; [done|]. unfold paths. rewrite !map_app.
  intros (H1 & H2 & H3)%NoDup_app. apply NoDup_app. split_and!.
  - by apply NoDup_paths_select.
  - intros q [Hq _]%select_paths Hq'. apply paths_concat_select in Hq' as [Hq' _]. by eapply H2.
  - by apply IH.
Qed.

(** ** The order of the files *)

Definition precedes (l : list str) (q p : str) : Prop :=
  exists l1 l2 l3, l = l1 ++ q :: l2 ++ p :: l3.

Lemma level_split p groups i :
  level p groups = Some i ->
  exists A g C, groups = A ++ g :: C /\ length A = i /\ p ∈ paths g.
Proof.
  revert i. induction groups as [|g gs IH]; intros i H; cbn in H; [done|].
  case_bool_decide as E; [by simplify_eq; exists [], g, gs|].
  destruct (level p gs) as [j|]; [|done]. cbn in H. simplify_eq.
  destruct (IH j eq_refl) as (A & g' & C & -> & <- & Hp). by exists (g :: A), g', C.
Qed.

Lemma before_level_split groups q p :
  before_level groups q p = true ->
  exists A g1 B g2 C, groups = A ++ g1 :: B ++ g2 :: C /\ q ∈ paths g1 /\ p ∈ paths g2.
Proof.
  unfold before_level. intros H.
  destruct (level q groups) as [i|] eqn:Hi; [|done].
  destruct (level p groups) as [j|] eqn:Hj; [|done]. apply Nat.ltb_lt in H.
  apply level_split in Hi as (A & g1 & R & -> & <- & Hq).
  apply level_split in Hj as (A' & g2 & C & E & <- & Hp).
  destruct (app_eq_inv _ _ _ _ E) as [(k & -> & E')|(k & -> & E')].
  - rewrite length_app in H. lia.
  - destruct k as [|g1' B]; cbn in *; [rewrite length_app in H; cbn in H; lia|].
    injection E' as <- ->. by exists A, g1, B, g2, C.
Qed.

Lemma elem_split (x : str) l : x ∈ l -> exists a b, l = a ++ x :: b.
Proof. intros H. by apply list_elem_of_split in H as (a & b & ->); exists a, b. Qed.

Lemma precedes_app a l1 b l2 c q p :
  q ∈ l1 -> p ∈ l2 -> precedes (a ++ l1 ++ b ++ l2 ++ c) q p.
Proof.
  intros (a1 & b1 & ->)%elem_split (a2 & b2 & ->)%elem_split.
  exists (a ++ a1), (b1 ++ b ++ a2), (b2 ++ c).
  repeat (rewrite <- app_assoc; cbn). done.
Qed.

Lemma paths_app l1 l2 : paths (l1 ++ l2) = paths l1 ++ paths l2.
Proof. apply map_app. Qed.

Lemma paths_select_app c A B :
  paths (concat (map (select c) (A ++ B))) =
  paths (concat (map (select c) A)) ++ paths (concat (map (select c) B)).
Proof. by rewrite map_app, concat_app, paths_app. Qed.

Lemma paths_select_cons c g B :
  paths (concat (map (select c) (g :: B))) =
  paths (select c g) ++ paths (concat (map (select c) B)).
Proof. apply paths_app. Qed.

Lemma precedes_groups (c : list iref) A g1 B g2 C q p :
  q ∈ paths g1 -> p ∈ paths g2 -> q ∈ paths c -> p ∈ paths c ->
  precedes (paths (concat (map (select c) (A ++ g1 :: B ++ g2 :: C)))) q p.
Proof.
  intros Hq Hp Hqc Hpc.
  rewrite paths_select_app, paths_select_cons, paths_select_app, paths_select_cons.
  apply precedes_app; by apply select_paths.
Qed.

(** The graph has an edge for each include. *)
Lemma includePaths_edge r subs :
  includePaths cwd ROOT_PATH fs r = Ok subs ->
  forall q, q ∈ paths subs <-> includes cwd fs (absPath r) q.
Proof.
  unfold includePaths. intros (contents & Hc & Hm)%bind_Ok q.
  destruct (fs !! absPath r) as [c|] eqn:Hfs; [|done]. cbn in Hc. simplify_eq.
  rewrite elem_of_paths. split.
  - intros (x & -> & Hx). apply (map_res_elem _ _ _ _ Hm) in Hx as ([n raw] & Hin & Hmk).
    apply mk_iref_Ok in Hmk as (_ & _ & _ & -> & _). by exists contents, n, raw.
  - intros (c0 & n & raw & E & Hin & ->). simplify_eq.
    apply map_res_Forall2 in Hm. apply list_elem_of_lookup in Hin as (i & Hi).
    destruct (Forall2_lookup_l _ _ _ _ _ Hm Hi) as (x & Hx & Hmk).
    exists x. split; [|by eapply list_elem_of_lookup_2].
    by apply mk_iref_Ok in Hmk as (_ & _ & _ & -> & _).
Qed.

Lemma include_graph_elem c g :
  include_graph c = Ok g ->
  forall k ds, (k, ds) ∈ g <-> k ∈ c /\ exists subs, includePaths cwd ROOT_PATH fs k = Ok subs /\ ds = iref_union [] subs.
Proof.
  intros Hg k ds. unfold include_graph in Hg. rewrite (map_res_elem _ _ _ _ Hg). split.
  - intros (r & Hr & (subs & Hs & E)%bind_Ok). injection E as -> <-. eauto.
  - intros [Hk (subs & Hs & ->)]. exists k. by rewrite Hs.
Qed.

Lemma include_graph_key c g k :
  include_graph c = Ok g -> k ∈ c ->
  exists subs, includePaths cwd ROOT_PATH fs k = Ok subs /\ (k, iref_union [] subs) ∈ g.
Proof.
  intros Hg Hk. unfold include_graph in Hg. pose proof Hg as Hg'.
  apply map_res_Forall2 in Hg'. apply list_elem_of_lookup in Hk as (i & Hi).
  destruct (Forall2_lookup_l _ _ _ _ _ Hg' Hi) as ([k' ds] & Hx & (subs & Hs & E)%bind_Ok).
  injection E as -> <-. exists subs. split; [done|]. by eapply list_elem_of_lookup_2.
Qed.

Lemma toposortGroup_members c out :
  toposortGroup c = Ok out -> forall q, q ∈ paths out <-> q ∈ paths c.
Proof.
  unfold toposortGroup. intros (g & Hg & (groups & Hgs & E)%bind_Ok)%bind_Ok q.
  injection E as <-. change (fun group => _) with (select c). rewrite paths_concat_select.
  split; [by intros [_ ?]|]. intros Hq. split; [|done].
  apply (topo_members _ _ (toposort_law _ _ Hgs)).
  apply elem_of_paths in Hq as (k & -> & Hk).
  destruct (include_graph_key _ _ _ Hg Hk) as (subs & _ & Hin). eauto 6.
Qed.

(** C5. The order of the files: exactly the candidates, each once, and every
    file after the other candidates it includes. *)
Theorem toposortGroup_sorted c out :
  toposortGroup c = Ok out ->
  NoDup (paths out) /\ (forall q, q ∈ paths out <-> q ∈ paths c) /\
  forall p q, p ∈ paths c -> q ∈ paths c -> p <> q -> includes cwd fs p q ->
    precedes (paths out) q p.
Proof.
  intros Hout. split; [|split; [by apply toposortGroup_members|]];
    unfold toposortGroup in Hout; apply bind_Ok in Hout as (g & Hg & (groups & Hgs & E)%bind_Ok);
    injection E as <-; change (fun group => _) with (select c);
    pose proof (toposort_law _ _ Hgs) as Hlaw.
  - apply NoDup_concat_select, (topo_once _ _ Hlaw).
  - intros p q Hp Hq Hne Hinc. pose proof Hp as Hp'.
    apply elem_of_paths in Hp' as (k & -> & Hk).
    destruct (include_graph_key _ _ _ Hg Hk) as (subs & Hs & Hin).
    apply (includePaths_edge _ _ Hs) in Hinc.
    assert (Hd : q ∈ paths (iref_union [] subs)) by (apply iref_union_paths; auto).
    apply elem_of_paths in Hd as (d & -> & Hd).
    pose proof (topo_later _ _ Hlaw _ _ _ Hin Hd (not_eq_sym Hne)) as Hlev.
    apply before_level_split in Hlev as (A & g1 & B & g2 & C & -> & ? & ?).
    by apply precedes_groups.
Qed.

(** ** The rules reach every dependency *)

(** The build target of a root-relative name. *)
Definition target_of (norm suffix : str) : str := "build/" ++ replace norm ".dfy" suffix.

(** [target] has [prereq] among its prerequisites in the rules [out]. *)
Definition make_rule (out : list str) (target prereq : str) : Prop := rule target prereq ∈ out.

Lemma toposortGroup_wf c out :
  Forall (iref_wf cwd ROOT_PATH) c -> toposortGroup c = Ok out ->
  Forall (iref_wf cwd ROOT_PATH) out.
Proof.
  intros Hc Hout. unfold toposortGroup in Hout.
  apply bind_Ok in Hout as (g & Hg & (groups & Hgs & E)%bind_Ok). injection E as <-.
  change (fun group => _) with (select c). apply Forall_forall. intros x Hx.
  apply list_elem_of_In, in_concat in Hx as (l & Hl & Hx).
  apply in_map_iff in Hl as (grp & <- & Hgrp). apply list_elem_of_In, select_elem in Hx as [Hx _].
  assert (Hxc : x ∈ concat groups).
  { apply list_elem_of_In, in_concat. exists grp. split; [done|]. by apply list_elem_of_In. }
  destruct (topo_items _ _ (toposort_law _ _ Hgs) x Hxc) as (k & ds & Hin & Hkd).
  apply (include_graph_elem _ _ Hg) in Hin as (Hk & subs & Hs & ->).
  destruct Hkd as [->|Hd]; [by eapply Forall_forall in Hc|].
  apply iref_union_elem in Hd as [?%not_elem_of_nil|Hd]; [done|]. by eapply includePaths_wf.
Qed.

Lemma rule_in_child_rules r dep s s' :
  (s, s') ∈ dep_types ++ parent_types -> rule (targetName r s) (targetName dep s') ∈ child_rules r dep.
Proof. intros H. apply list_elem_of_fmap. by exists (s, s'). Qed.

Lemma gatherDeps_edge c out p q np nq s s' :
  Forall (iref_wf cwd ROOT_PATH) c -> gatherDeps c = Ok out ->
  p ∈ paths c -> includes cwd fs p q ->
  normPathToRoot ROOT_PATH cwd p = Ok np -> normPathToRoot ROOT_PATH cwd q = Ok nq ->
  (s, s') ∈ dep_types ++ parent_types ->
  make_rule out (target_of np s) (target_of nq s').
Proof.
  intros Hwf Hout Hp Hinc Hnp Hnq Hs. unfold gatherDeps in Hout.
  apply bind_Ok in Hout as (order & Hord & (lines & Hl & E)%bind_Ok). injection E as <-.
  pose proof (toposortGroup_wf _ _ Hwf Hord) as Hwf'.
  apply (toposortGroup_members _ _ Hord), elem_of_paths in Hp as (r & -> & Hr).
  eapply Forall_forall in Hwf'; [|exact Hr]. unfold iref_wf in Hwf'.
  rewrite Hnp in Hwf'. injection Hwf' as ->.
  apply map_res_Forall2 in Hl. apply list_elem_of_lookup in Hr as (i & Hi).
  destruct (Forall2_lookup_l _ _ _ _ _ Hl Hi) as (ls & Hls & Hgen).
  apply list_elem_of_In, in_concat. exists ls. split.
  { apply list_elem_of_In. by eapply list_elem_of_lookup_2. }
  unfold generateDepsForIref in Hgen. apply bind_Ok in Hgen as (cs & Hcs & E). injection E as <-.
  pose proof Hcs as Hsub%childrenForIref_subs.
  apply (includePaths_edge _ _ Hsub), elem_of_paths in Hinc as (d & -> & Hd).
  pose proof (includePaths_wf _ _ _ _ _ _ Hsub Hd) as Hdwf. unfold iref_wf in Hdwf.
  rewrite Hnq in Hdwf. injection Hdwf as ->.
  right. right. apply in_app_iff. left. apply in_flat_map. exists d.
  split; [by apply list_elem_of_In|]. apply list_elem_of_In. by apply rule_in_child_rules.
Qed.

(** The rules of the edges of the closure, by name. *)
Lemma closure_edge root irefs out p q :
  depsFromDfySources cwd ROOT_PATH fs [root] = Ok irefs -> gatherDeps irefs = Ok out ->
  rtc (includes cwd fs) (root_path cwd root) p -> includes cwd fs p q ->
  exists np nq, normPathToRoot ROOT_PATH cwd p = Ok np /\ normPathToRoot ROOT_PATH cwd q = Ok nq /\
    forall s s', (s, s') ∈ dep_types ++ parent_types -> make_rule out (target_of np s) (target_of nq s').
Proof.
  intros Hdeps Hout Hp Hpq. apply depsFromDfySources_reach in Hdeps as (_ & Hwf & Hin).
  assert (Hmem : forall z, rtc (includes cwd fs) (root_path cwd root) z -> z ∈ paths irefs).
  { intros z Hz. apply Hin. exists root. split; [apply list_elem_of_here|done]. }
  assert (Hname : forall z, z ∈ paths irefs -> exists nz, normPathToRoot ROOT_PATH cwd z = Ok nz).
  { intros z (r & -> & Hr)%elem_of_paths. exists (normPath r). by eapply Forall_forall in Hwf. }
  destruct (Hname p (Hmem p Hp)) as (np & Hnp).
  destruct (Hname q) as (nq & Hnq); [apply Hmem; by eapply rtc_r|].
  exists np, nq. split; [done|]. split; [done|]. intros s s' Hs. eauto using gatherDeps_edge.
Qed.

Lemma tc_last {A} (R : relation A) x z : tc R x z -> exists y, rtc R x y /\ R y z.
Proof.
  revert z. apply (tc_ind_r (fun z => exists y, rtc R x y /\ R y z)).
  - intros y Hy. by exists x.
  - intros y z Hxy Hyz _. exists y. split; [by apply tc_rtc|done].
Qed.

Lemma verified_chain root irefs out nroot p :
  depsFromDfySources cwd ROOT_PATH fs [root] = Ok irefs -> gatherDeps irefs = Ok out ->
  normPathToRoot ROOT_PATH cwd (root_path cwd root) = Ok nroot ->
  rtc (includes cwd fs) (root_path cwd root) p ->
  exists np, normPathToRoot ROOT_PATH cwd p = Ok np /\
    rtc (make_rule out) (target_of nroot ".verified") (target_of np ".verified").
Proof.
  intros Hdeps Hout Hnroot. revert p.
  apply (rtc_ind_r (fun p => exists np, normPathToRoot ROOT_PATH cwd p = Ok np /\
    rtc (make_rule out) (target_of nroot ".verified") (target_of np ".verified"))).
  - eauto using rtc_refl.
  - intros y z Hy Hyz (ny & Hny & IH).
    destruct (closure_edge _ _ _ _ _ Hdeps Hout Hy Hyz) as (ny' & nz & Hny' & Hnz & Hrule).
    assert (ny' = ny) as -> by congruence.
    exists nz. split; [done|]. eapply rtc_r; [exact IH|]. apply Hrule.
    apply list_elem_of_In. cbn. tauto.
Qed.

(** C4. Verifying a file verifies its whole include closure: in the rules of
    the generated [build/deps], the [.verified] target of a root leads, through
    the [.verified] targets of the files between, to the [.verchk] target of
    every file that a chain of includes reaches. *)
Theorem verified_reaches_every_dependency root irefs out q nroot :
  depsFromDfySources cwd ROOT_PATH fs [root] = Ok irefs ->
  gatherDeps irefs = Ok out ->
  normPathToRoot ROOT_PATH cwd (root_path cwd root) = Ok nroot ->
  tc (includes cwd fs) (root_path cwd root) q ->
  exists nq, normPathToRoot ROOT_PATH cwd q = Ok nq /\
    tc (make_rule out) (target_of nroot ".verified") (target_of nq ".verchk").
Proof.
  intros Hdeps Hout Hnroot (p & Hp & Hpq)%tc_last.
  destruct (verified_chain _ _ _ _ _ Hdeps Hout Hnroot Hp) as (np & Hnp & Hchain).
  destruct (closure_edge _ _ _ _ _ Hdeps Hout Hp Hpq) as (np' & nq & Hnp' & Hnq & Hrule).
  assert (np' = np) as -> by congruence.
  exists nq. split; [done|]. eapply tc_rtc_l; [exact Hchain|]. apply tc_once, Hrule.
  apply list_elem_of_In. cbn. tauto.
Qed.
End veridepend.

(** ** A concrete [toposort]

    Repeatedly emits the items whose dependencies have all been emitted, and
    validates the result against the documented laws; a graph with a cycle has
    no valid result. *)
Definition graph_items (g : graph) : list iref :=
  fold_left (fun s '(k, ds) => iref_union (iref_add k s) ds) g [].

Definition ready (g : graph) (emitted : list iref) (x : iref) : bool :=
  negb (iref_in x emitted) &&
  forallb (fun '(k, ds) => negb (iref_eqb k x) ||
             forallb (fun d => iref_eqb d x || iref_in d emitted) ds) g.

Fixpoint topo_rounds (fuel : nat) (g : graph) (items emitted : list iref) : list (list iref) :=
  match fuel with
  | O => []
  | S f => match List.filter (ready g emitted) items with
           | [] => []
           | group => group :: topo_rounds f g items (emitted ++ group)
           end
  end.

Definition topo_candidate (g : graph) : list (list iref) :=
  topo_rounds (length (graph_items g)) g (graph_items g) [].

Definition topo_valid (g : graph) (groups : list (list iref)) : bool :=
  forallb (fun '(k, ds) => bool_decide (absPath k ∈ paths (concat groups)) &&
             forallb (fun d => bool_decide (absPath d ∈ paths (concat groups)) &&
                        (bool_decide (absPath d = absPath k) ||
                         before_level groups (absPath d) (absPath k))) ds) g
  && bool_decide (NoDup (paths (concat groups))).

Lemma graph_items_sound g x : x ∈ graph_items g -> exists k ds, (k, ds) ∈ g /\ (x = k \/ x ∈ ds).
Proof.
  unfold graph_items.
  enough (H : forall s, x ∈ fold_left (fun s '(k, ds) => iref_union (iref_add k s) ds) g s ->
    x ∈ s \/ exists k ds, (k, ds) ∈ g /\ (x = k \/ x ∈ ds)).
  { intros [H'%not_elem_of_nil|]%H; done. }
  induction g as [|[k ds] g IH]; intros s Hx; cbn in Hx; [auto|].
  apply IH in Hx as [Hx|(k' & ds' & ? & ?)].
  - apply iref_union_elem in Hx as [Hx|Hx].
    + change (iref_add k s) with (iref_union s [k]) in Hx.
      apply iref_union_elem in Hx as [|Hx%list_elem_of_singleton]; [auto|].
      right. exists k, ds. split; [apply list_elem_of_here|auto].
    + right. exists k, ds. split; [apply list_elem_of_here|auto].
  - right. exists k', ds'. split; [by apply list_elem_of_further|done].
Qed.

Lemma topo_rounds_items f g items emitted x :
  x ∈ concat (topo_rounds f g items emitted) -> x ∈ items.
Proof.
  revert emitted. induction f as [|f IH]; intros emitted H; cbn in H; [by apply not_elem_of_nil in H|].
  destruct (List.filter (ready g emitted) items) as [|y l] eqn:E; [by apply not_elem_of_nil in H|].
  cbn [concat] in H. apply elem_of_app in H as [H|H]; [|eauto].
  rewrite <- E in H. apply list_elem_of_In, filter_In in H as [H _]. by apply list_elem_of_In.
Qed.

Lemma topo_valid_groups g :
  topo_valid g (topo_candidate g) = true -> topo_groups g (topo_candidate g).
Proof.
  unfold topo_valid. intros [Hall Hnd%bool_decide_eq_true]%andb_true_iff.
  assert (Hitems : forall x, x ∈ concat (topo_candidate g) -> exists k ds, (k, ds) ∈ g /\ (x = k \/ x ∈ ds)).
  { intros x Hx. by eapply graph_items_sound, topo_rounds_items. }
  assert (Hg : forall k ds, (k, ds) ∈ g -> absPath k ∈ paths (concat (topo_candidate g)) /\
    forall d, d ∈ ds -> absPath d ∈ paths (concat (topo_candidate g)) /\
      (absPath d = absPath k \/ before_level (topo_candidate g) (absPath d) (absPath k) = true)).
  { intros k ds Hkd%list_elem_of_In. pose proof (proj1 (forallb_forall _ _) Hall _ Hkd) as H. cbn in H.
    apply andb_true_iff in H as [H1%bool_decide_eq_true H2]. split; [done|].
    intros d Hd%list_elem_of_In. pose proof (proj1 (forallb_forall _ _) H2 _ Hd) as H. cbn in H.
    apply andb_true_iff in H as [H3%bool_decide_eq_true H4]. split; [done|].
    apply orb_true_iff in H4 as [H4%bool_decide_eq_true|H4]; auto. }
  constructor; [|done|done|].
  - intros p. split.
    + intros (x & -> & Hx)%elem_of_paths. destruct (Hitems x Hx) as (k & ds & Hin & [->|Hd]).
      * eauto.
      * exists k, ds. split; [done|]. right. apply elem_of_paths. eauto.
    + intros (k & ds & Hin & [->|(d & -> & Hd)%elem_of_paths]); destruct (Hg k ds Hin) as [? Hds]; [done|].
      by apply Hds.
  - intros k ds d Hin Hd Hne. destruct (Hg k ds Hin) as [_ Hds]. destruct (Hds d Hd) as [_ [|]]; done.
Qed.

#[export, refine] Instance kahn_toposort : Toposort := {|
  toposort g := if topo_valid g (topo_candidate g) then Ok (topo_candidate g)
                else Raise (PyException "CircularDependencyError")
|}.
Proof.
  intros g groups H. destruct (topo_valid g (topo_candidate g)) eqn:E; [|done].
  injection H as <-. by apply topo_valid_groups.
Defined.

(** ** Examples *)

(** Three files: the root includes two, one of which includes the other. *)
Definition topo_fs : gmap str str := list_to_map
  [ (# "/r/A.i.dfy", include_line "lib/B.i.dfy" ++ include_line "S.s.dfy");
    (# "/r/S.s.dfy", # "module S { }");
    (# "/r/lib/B.i.dfy", include_line "../S.s.dfy") ].

Definition topo_root : iref := demo_root "A.i.dfy".

Lemma toposortGroup_sorted_witness :
  exists c out, depsFromDfySources "/r" "/r" topo_fs ["A.i.dfy" : str] = Ok c /\
    toposortGroup "/r" "/r" topo_fs c = Ok out /\
    paths out = ["/r/S.s.dfy" : str; "/r/lib/B.i.dfy" : str; "/r/A.i.dfy" : str] /\
    NoDup (paths out) /\ (forall q, q ∈ paths out <-> q ∈ paths c) /\
    forall p q, p ∈ paths c -> q ∈ paths c -> p <> q -> includes "/r" topo_fs p q ->
      precedes (paths out) q p.
Proof.
  eexists _, _. split; [vm_compute; reflexivity|]. split; [vm_compute; reflexivity|].
  split; [reflexivity|]. eapply (toposortGroup_sorted "/r" "/r" topo_fs). vm_compute; reflexivity.
Defined.

Lemma topo_edge : includes "/r" topo_fs "/r/A.i.dfy" "/r/S.s.dfy".
Proof.
  eexists _, 2, "S.s.dfy". split; [vm_compute; reflexivity|]. split; [|vm_compute; reflexivity].
  vm_compute. right. left.
Qed.

Lemma verified_reaches_every_dependency_witness :
  exists irefs out, depsFromDfySources "/r" "/r" topo_fs ["A.i.dfy" : str] = Ok irefs /\
    gatherDeps "/r" "/r" topo_fs irefs = Ok out /\
    exists nq, normPathToRoot "/r" "/r" "/r/S.s.dfy" = Ok nq /\
      tc (make_rule out) (target_of "A.i.dfy" ".verified") (target_of nq ".verchk").
Proof.
  eexists _, _. split; [vm_compute; reflexivity|]. split; [vm_compute; reflexivity|].
  eapply (verified_reaches_every_dependency "/r" "/r" topo_fs "A.i.dfy");
    [vm_compute; reflexivity|vm_compute; reflexivity|vm_compute; reflexivity|].
  apply tc_once. exact topo_edge.
Defined.
