(* ===== verification/PyFloat.v ===== *)
(** * Python floats

    A [float] is an IEEE 754 binary64 number.  The operations are those of the
    Standard Library's [SpecFloat], an executable specification; conversion
    from and to decimal text is correctly rounded, as CPython's is. *)
From S2P Require Import Prelude PyStr.
From Stdlib Require Export SpecFloat.
From Stdlib Require Import ZArith.

Abbreviation float := spec_float.

Definition fprec : Z := 53.
Definition femax : Z := 1024.

Definition float_of_Z (z : Z) : float := binary_normalize fprec femax z 0 false.
Definition fadd (x y : float) : float := SFadd fprec femax x y.
Definition fsub (x y : float) : float := SFsub fprec femax x y.
Definition fmul (x y : float) : float := SFmul fprec femax x y.
Definition fltb (x y : float) : bool := SFltb x y.
Definition fleb (x y : float) : bool := SFleb x y.
Definition feqb (x y : float) : bool := SFeqb x y.
Definition fopp (x : float) : float := SFopp x.
Definition fzero (x : float) : bool :=
  match x with S754_zero _ => true | _ => false end.

(** [x / y]. *)
Definition fdiv (x y : float) : res float :=
  if fzero y then Raise ZeroDivisionError else Ok (SFdiv fprec femax x y).

Lemma fdiv_Ok x y : fzero y = false -> fdiv x y = Ok (SFdiv fprec femax x y).
Proof. intros H. unfold fdiv. by rewrite H. Qed.

(** True division of integers below 2^53. *)
Definition int_div (a b : Z) : res float := fdiv (float_of_Z a) (float_of_Z b).

(** The float nearest to [m * 10 ^ e]. *)
Definition float_of_dec (m : Z) (e : Z) : float :=
  match m with
  | Z0 => S754_zero false
  | Zpos p =>
      if (0 <=? e)%Z then float_of_Z (m * 10 ^ e)
      else match (10 ^ (- e))%Z with
           | Zpos q => SFdiv fprec femax (S754_finite false p 0) (S754_finite false q 0)
           | _ => S754_nan
           end
  | Zneg _ => S754_nan
  end.

(** ** Parsing *)

(** Underscores are allowed between digits only, and ignored. *)
Fixpoint drop_underscores (after_digit : bool) (s : str) : option str :=
  match s with
  | [] => Some []
  | c :: s' =>
      if bool_decide (c = "_"%char) then
        match s' with
        | d :: _ => if after_digit && is_digit d then drop_underscores false s' else None
        | [] => None
        end
      else cons c <$> drop_underscores (is_digit c) s'
  end.

Fixpoint take_digits (s : str) : str * str :=
  match s with
  | [] => ([], [])
  | c :: s' => if is_digit c then let '(d, r) := take_digits s' in (c :: d, r) else ([], s)
  end.

Definition digits_Z (s : str) : Z := fold_left (fun a c => 10 * a + digit_val c)%Z s 0%Z.

Definition to_lower (c : ascii) : ascii :=
  if in_range 65 90 c then ascii_of_nat (code c + 32) else c.

(** The exponent part: nothing, or [e] with a signed numeral. *)
Definition parse_exponent (s : str) : option Z :=
  match s with
  | [] => Some 0%Z
  | c :: s' =>
      if bool_decide (to_lower c = "e"%char) then
        let '(sg, ds) := match s' with
                         | d :: r => if bool_decide (d = "-"%char) then ((-1)%Z, r)
                                     else if bool_decide (d = "+"%char) then (1%Z, r) else (1%Z, s')
                         | [] => (1%Z, [])
                         end in
        match ds with
        | [] => None
        | _ => if forallb is_digit ds then Some (sg * digits_Z ds)%Z else None
        end
      else None
  end.

Definition parse_unsigned (s : str) : option float :=
  let low := map to_lower s in
  if bool_decide (low = # "inf") || bool_decide (low = # "infinity")
  then Some (S754_infinity false)
  else if bool_decide (low = # "nan") then Some S754_nan
  else
    let '(ip, r) := take_digits s in
    let '(fp, r') := match r with
                     | c :: r1 => if bool_decide (c = "."%char) then take_digits r1 else ([], r)
                     | [] => ([], [])
                     end in
    match ip ++ fp with
    | [] => None
    | ds => e ← parse_exponent r'; Some (float_of_dec (digits_Z ds) (e - Z.of_nat (length fp)))
    end.

(** [float(s)]; [ValueError] when [s] is not a numeral. *)
Definition py_float (s : str) : res float :=
  of_option ValueError
    (t ← drop_underscores false (strip s);
     match t with
     | [] => None
     | c :: r =>
         if bool_decide (c = "-"%char) then fopp <$> parse_unsigned r
         else if bool_decide (c = "+"%char) then parse_unsigned r
         else parse_unsigned t
     end).

(** ** Printing *)

(** The integer nearest to [m * 2^e * 10^d], ties to even. *)
Definition scaled_round (m : positive) (e d : Z) : Z :=
  let num := (Zpos m * (if 0 <=? e then 2 ^ e else 1) * (if 0 <=? d then 10 ^ d else 1))%Z in
  let den := ((if 0 <=? e then 1 else 2 ^ (- e)) * (if 0 <=? d then 1 else 10 ^ (- d)))%Z in
  let q := (num / den)%Z in
  let r := (num mod den)%Z in
  if (2 * r <? den)%Z then q else if (den <? 2 * r)%Z then (q + 1)%Z
  else if Z.even q then q else (q + 1)%Z.

(** ["%.<d>f" % x]. *)
Definition fmt_fixed (d : nat) (x : float) : str :=
  let body m e :=
    let n := scaled_round m e (Z.of_nat d) in
    let p := (10 ^ Z.of_nat d)%Z in
    let frac := dec_Z (n mod p) in
    dec_Z (n / p) ++ (if d =? 0 then [] else "." ++ repeat "0"%char (d - length frac) ++ frac) in
  let zero := "0" ++ (if d =? 0 then [] else "." ++ repeat "0"%char d) in
  match x with
  | S754_nan => "nan"
  | S754_infinity s => if s then "-inf" else "inf"
  | S754_zero s => if s then "-" ++ zero else zero
  | S754_finite s m e => if s then "-" ++ body m e else body m e
  end.

(** [int(x)] of a finite float: truncation towards zero.  CPython raises
    [OverflowError], a subclass of none of the classes the program catches, on
    an infinity, and [ValueError] on a NaN. *)
Definition float_trunc (x : float) : res Z :=
  match x with
  | S754_zero _ => Ok 0%Z
  | S754_finite s m e =>
      let a := (if 0 <=? e then Zpos m * 2 ^ e else Zpos m / 2 ^ (- e))%Z in
      Ok (if s then (- a)%Z else a)
  | S754_infinity _ => Raise (PyException "OverflowError")
  | S754_nan => Raise ValueError
  end.

(** Shortest decimal that reads back as the number: [nd] significant digits,
    the first of weight [10 ^ k]. *)
Definition magnitude (m : positive) (e : Z) : Z :=
  (* floor of the decimal logarithm, from the binary one, corrected below *)
  ((Z.log2 (Zpos m) + e) * 30103 / 100000)%Z.

Definition dec_exponent (m : positive) (e : Z) : Z :=
  let k := magnitude m e in
  let ge j := (* 10^j <= m 2^e *)
    if (0 <=? j)%Z then (10 ^ j * (if 0 <=? e then 1 else 2 ^ (- e)) <=? Zpos m * (if 0 <=? e then 2 ^ e else 1))%Z
    else ((if 0 <=? e then 1 else 2 ^ (- e)) <=? Zpos m * (if 0 <=? e then 2 ^ e else 1) * 10 ^ (- j))%Z in
  if ge (k + 1)%Z then (k + 1)%Z else if ge k then k else (k - 1)%Z.

Fixpoint shortest (fuel : nat) (nd : Z) (m : positive) (e k : Z) : Z * Z :=
  let d := scaled_round m e (nd - 1 - k) in
  match fuel with
  | O => (d, k - nd + 1)%Z
  | S f => if feqb (float_of_dec d (k - nd + 1)) (S754_finite false m e) then (d, k - nd + 1)%Z
           else shortest f (nd + 1) m e k
  end.

(** Trailing zeros of the digit string go to the exponent. *)
Fixpoint trim_zeros (fuel : nat) (d e : Z) : Z * Z :=
  match fuel with
  | O => (d, e)
  | S f => if (d mod 10 =? 0)%Z && negb (d =? 0)%Z then trim_zeros f (d / 10)%Z (e + 1)%Z else (d, e)
  end.

Definition repr_digits (ds : str) (e : Z) : str :=
  let n := Z.of_nat (length ds) in
  let pt := (n + e)%Z in
  if (-4 <? pt)%Z && (pt <=? 16)%Z then
    if (pt <=? 0)%Z then "0." ++ repeat "0"%char (Z.to_nat (- pt)) ++ ds
    else if (n <=? pt)%Z then ds ++ repeat "0"%char (Z.to_nat (pt - n)) ++ ".0"
    else take (Z.to_nat pt) ds ++ "." ++ drop (Z.to_nat pt) ds
  else
    let ex := (pt - 1)%Z in
    let exs := dec_Z (Z.abs ex) in
    let mant := match ds with c :: (_ :: _) as r => c :: "." ++ tail ds | _ => ds end in
    mant ++ "e" ++ (if (ex <? 0)%Z then "-" else "+") ++ repeat "0"%char (2 - length exs) ++ exs.

(** [str(x)]. *)
Definition float_repr (x : float) : str :=
  let body m e :=
    let '(d, ex) := shortest 16 1 m e (dec_exponent m e) in
    let '(d', ex') := trim_zeros 20 d ex in
    repr_digits (dec_Z d') ex' in
  match x with
  | S754_nan => "nan"
  | S754_infinity s => if s then "-inf" else "inf"
  | S754_zero s => if s then "-0.0" else "0.0"
  | S754_finite s m e => if s then "-" ++ body m e else body m e
  end.

Example float_text :
  map (fun s => match py_float (String.list_ascii_of_string s) with
                | Ok x => String.string_of_list_ascii (float_repr x) | Raise _ => "error"%string end)
      ["0.1"; "12.50"; "1e22"; "1234567890123456789"; "0.00001"; " 3 "; "1.2.3"; "."; "1_0.5"; "-0.3"; "5e-324"]%string
  = ["0.1"; "12.5"; "1e+22"; "1.2345678901234568e+18"; "1e-05"; "3.0"; "error"; "error"; "10.5"; "-0.3"; "5e-324"]%string.
Proof. vm_compute. reflexivity. Qed.

(** ** The order of floats

    On numbers, NaN apart, [<] is a weak order: it compares ranks. *)

Definition is_nan (x : float) : bool := match x with S754_nan => true | _ => false end.

Definition float_rank (x : float) : Z * Z * Z :=
  match x with
  | S754_zero _ => (0, 0, 0)
  | S754_infinity s => (if s then -2 else 2, 0, 0)
  | S754_finite s m e => if s then (-1, - e, - Z.pos m) else (1, e, Z.pos m)
  | S754_nan => (0, 0, 0)
  end%Z.

Definition rank_ltb (a b : Z * Z * Z) : bool :=
  let '(a1, a2, a3) := a in
  let '(b1, b2, b3) := b in
  ((a1 <? b1) || (a1 =? b1) && ((a2 <? b2) || (a2 =? b2) && (a3 <? b3)))%Z.

#[export] Instance rank_order : WeakOrder rank_ltb.
Proof.
  split; [intros [[a1 a2] a3] [[b1 b2] b3]|intros [[a1 a2] a3] [[b1 b2] b3] [[c1 c2] c3]]; cbn; lia.
Qed.

Lemma fltb_rank x y : is_nan x = false -> is_nan y = false -> fltb x y = rank_ltb (float_rank x) (float_rank y).
Proof.
  intros Hx Hy. unfold fltb, SFltb, SFcompare.
  destruct x as [sx|sx| |sx mx ex], y as [sy|sy| |sy my ey]; try discriminate;
    try (destruct sx); try (destruct sy); try reflexivity; cbn [float_rank rank_ltb];
    fold (Pos.compare mx my);
    destruct (Z.compare_spec ex ey), (Pos.compare_spec mx my); cbn [CompOpp]; lia.
Qed.

(** Two floats that the program's comparisons tell apart. *)
Lemma fltb_asym x y : is_nan x = false -> is_nan y = false -> fltb x y = true -> fltb y x = false.
Proof. intros Hx Hy. rewrite !fltb_rank by done. apply lt_asym. Qed.

Lemma fltb_irrefl x : fltb x x = false.
Proof.
  destruct (is_nan x) eqn:E; [by destruct x|]. rewrite fltb_rank by done.
  destruct (rank_ltb _ _) eqn:E'; [|done]. pose proof (lt_asym _ _ E'). congruence.
Qed.

Lemma not_fltb_trans x y z :
  is_nan x = false -> is_nan y = false -> is_nan z = false ->
  fltb y x = false -> fltb z y = false -> fltb z x = false.
Proof. intros Hx Hy Hz. rewrite !fltb_rank by done. apply not_lt_trans. Qed.

Lemma fleb_fltb x y : is_nan x = false -> is_nan y = false -> fleb x y = negb (fltb y x).
Proof.
  intros Hx Hy. unfold fleb, fltb, SFleb, SFltb, SFcompare.
  destruct x as [sx|sx| |sx mx ex], y as [sy|sy| |sy my ey]; try discriminate;
    try (destruct sx); try (destruct sy); try reflexivity;
    rewrite (Z.compare_antisym ex ey); destruct (ex ?= ey)%Z; try reflexivity;
    fold (Pos.compare mx my) (Pos.compare my mx); rewrite (Pos.compare_antisym mx my); by destruct (mx ?= my)%positive.
Qed.

Lemma fltb_opp x y : is_nan x = false -> is_nan y = false -> fltb (fopp x) (fopp y) = fltb y x.
Proof.
  intros Hx Hy. rewrite !fltb_rank by first [by destruct x | by destruct y].
  destruct x as [sx|sx| |sx mx ex], y as [sy|sy| |sy my ey]; try discriminate;
    try (destruct sx); try (destruct sy); try reflexivity;
    cbn [fopp SFopp negb float_rank rank_ltb]; lia.
Qed.

Lemma sort_floats_sorted l :
  Forall (fun x => is_nan x = false) l -> StronglySorted (fun a b => fltb b a = false) (sort_by fltb l).
Proof.
  apply sort_by_sorted_on; [apply fltb_asym|]. intros a b c ???. by apply not_fltb_trans.
Qed.

(** ** Small integers

    An integer below 2^53 is a float as it is: nothing is rounded. *)

Lemma digits_iter p k : digits2_pos (Pos.iter xO p k) = (digits2_pos p + k)%positive.
Proof.
  induction k as [|k IH] using Pos.peano_ind; cbn.
  - lia.
  - rewrite Pos.iter_succ. cbn. rewrite IH. lia.
Qed.

Lemma digits_bound p n : (Zpos p < 2 ^ n)%Z -> (Zpos (digits2_pos p) <= n)%Z.
Proof.
  assert (Hsmall : forall n, (n <= 0)%Z -> (2 ^ n <= 1)%Z).
  { intros k Hk. destruct (Z.eq_dec k 0) as [->|]; [done|]. rewrite Z.pow_neg_r; lia. }
  revert n. induction p as [p IH|p IH|]; intros n H; cbn [digits2_pos].
  - destruct (Z.le_gt_cases n 0) as [Hn|Hn]; [apply Hsmall in Hn; lia|].
    specialize (IH (n - 1)%Z). replace n with (Z.succ (n - 1)) in H by lia. rewrite Z.pow_succ_r in H by lia. lia.
  - destruct (Z.le_gt_cases n 0) as [Hn|Hn]; [apply Hsmall in Hn; lia|].
    specialize (IH (n - 1)%Z). replace n with (Z.succ (n - 1)) in H by lia. rewrite Z.pow_succ_r in H by lia. lia.
  - destruct (Z.le_gt_cases n 0) as [Hn|Hn]; [apply Hsmall in Hn; lia|lia].
Qed.

Lemma round_exact m e :
  Zpos (digits2_pos m) = fprec -> (emin fprec femax <= e <= femax - fprec)%Z ->
  binary_round_aux fprec femax false (Zpos m) e loc_Exact = S754_finite false m e.
Proof.
  intros Hd He. unfold binary_round_aux.
  assert (Hs : shr_fexp fprec femax (Zpos m) e loc_Exact = (Build_shr_record (Zpos m) false false, e)).
  { unfold shr_fexp, fexp. cbn [Zdigits2 shr_record_of_loc]. rewrite Hd.
    replace (Z.max (fprec + e - fprec) (emin fprec femax) - e)%Z with 0%Z by lia. reflexivity. }
  rewrite Hs. cbn [shr_m loc_of_shr_record round_nearest_even]. rewrite Hs. cbn [shr_m].
  by rewrite (proj2 (Z.leb_le e (femax - fprec))) by lia.
Qed.

Lemma iter_xO p k : Zpos (Pos.iter xO p k) = (Zpos p * 2 ^ Zpos k)%Z.
Proof.
  induction k as [|k IH] using Pos.peano_ind; [cbn; lia|].
  rewrite Pos.iter_succ, Pos2Z.inj_xO, IH, Pos2Z.inj_succ, Z.pow_succ_r by lia. lia.
Qed.

Lemma float_of_small_int p : (Zpos p < 2 ^ fprec)%Z ->
  exists m e, float_of_Z (Zpos p) = S754_finite false m e /\ (-52 <= e <= 0)%Z /\ Zpos m = (Zpos p * 2 ^ (- e))%Z.
Proof.
  intros Hp. apply digits_bound in Hp.
  unfold float_of_Z, binary_normalize, binary_round, fexp. rewrite Z.add_0_r.
  assert (Hm : (Z.max (Z.pos (digits2_pos p) - fprec) (emin fprec femax) = Z.pos (digits2_pos p) - fprec)%Z)
    by (change (emin fprec femax) with (-1074)%Z; unfold fprec in *; lia).
  rewrite Hm. unfold shl_align. rewrite Z.sub_0_r.
  destruct (Z.pos (digits2_pos p) - fprec)%Z as [|k|k] eqn:E; [| lia|].
  - eexists p, 0%Z. split; [apply round_exact; [lia|by vm_compute]|]. cbn. lia.
  - eexists _, (Zneg k). split; [apply round_exact|].
    + rewrite digits_iter. lia.
    + change (emin fprec femax) with (-1074)%Z. unfold fprec, femax in *. lia.
    + split; [unfold fprec in *; lia|]. apply iter_xO.
Qed.

Lemma float_of_small_nonzero z :
  (0 < z < 2 ^ fprec)%Z -> fzero (float_of_Z z) = false /\ is_nan (float_of_Z z) = false.
Proof.
  intros [Hp Hz]. destruct z as [|p|p]; try lia.
  by destruct (float_of_small_int p Hz) as (m & e & -> & _).
Qed.

(** ** Rounding keeps what is not zero *)

Lemma shr_1_pos m r s : (2 <= m)%Z -> shr_m (shr_1 (Build_shr_record m r s)) = (m / 2)%Z.
Proof.
  intros Hm. destruct m as [|[p|p|]|p]; try lia; cbn [shr_1 shr_m].
  - rewrite Pos2Z.inj_xI. apply (Z.div_unique _ _ _ 1); lia.
  - rewrite Pos2Z.inj_xO. rewrite Z.mul_comm, Z.div_mul; lia.
Qed.

Lemma iter_pos_comm {A} (f : A -> A) n x :
  @SpecFloat.iter_pos A f n (f x) = f (@SpecFloat.iter_pos A f n x).
Proof. revert x. induction n as [n IH|n IH|]; intros x; cbn [SpecFloat.iter_pos]; by rewrite ?IH. Qed.

Lemma iter_pos_succ {A} (f : A -> A) n x :
  @SpecFloat.iter_pos A f (Pos.succ n) x = @SpecFloat.iter_pos A f n (f x).
Proof.
  revert x. induction n as [n IH|n IH|]; intros x; [|done|done].
  change (Pos.succ n~1) with (Pos.succ n)~0%positive. cbn [SpecFloat.iter_pos].
  rewrite !IH. f_equal. by rewrite (iter_pos_comm f n (f x)).
Qed.

(** Shifting right by fewer bits than there are leaves something. *)
Lemma shr_keeps p mrs e :
  (2 ^ Zpos p <= shr_m mrs)%Z -> (0 < shr_m (fst (shr mrs e (Zpos p))))%Z.
Proof.
  cbn [shr fst]. revert mrs. induction p as [|p IH] using Pos.peano_ind; intros [m r s] H; cbn [shr_m] in H.
  - cbn [SpecFloat.iter_pos]. change (2 ^ 1)%Z with 2%Z in H. rewrite shr_1_pos by done.
    assert (1 <= m / 2)%Z; [|lia]. apply Z.div_le_lower_bound; lia.
  - rewrite iter_pos_succ. apply IH. rewrite Pos2Z.inj_succ, Z.pow_succ_r in H by lia.
    assert (0 < 2 ^ Zpos p)%Z by (apply Z.pow_pos_nonneg; lia).
    rewrite shr_1_pos by lia. apply Z.div_le_lower_bound; lia.
Qed.

Lemma digits_lower p : (2 ^ (Zpos (digits2_pos p) - 1) <= Zpos p)%Z.
Proof.
  induction p as [p IH|p IH|]; cbn [digits2_pos]; [| |done];
    rewrite Pos2Z.inj_succ; replace (Z.succ (Z.pos (digits2_pos p)) - 1)%Z with (Z.succ (Z.pos (digits2_pos p) - 1)) by lia;
    rewrite Z.pow_succ_r by lia; lia.
Qed.

Lemma shr_fexp_pos m e :
  (0 < m)%Z -> (emin fprec femax <= e)%Z ->
  (0 < shr_m (fst (shr_fexp fprec femax m e loc_Exact)))%Z /\
  (emin fprec femax <= snd (shr_fexp fprec femax m e loc_Exact))%Z.
Proof.
  intros Hm He. unfold shr_fexp, fexp. destruct m as [|p|p]; try lia. cbn [Zdigits2 shr_record_of_loc].
  set (n := (Z.max (Z.pos (digits2_pos p) + e - fprec) (emin fprec femax) - e)%Z).
  assert (Hn : (n <= Z.max (Z.pos (digits2_pos p) - fprec) 0)%Z) by lia.
  destruct n as [|k|k]; cbn [shr]; [cbn; lia| |cbn; lia]. split; [|cbn [snd]; lia].
  change (@SpecFloat.iter_pos shr_record shr_1 k ?r, (e + Z.pos k)%Z) with (shr r e (Zpos k)). apply shr_keeps. cbn [shr_m].
  etransitivity; [|apply digits_lower]. apply Z.pow_le_mono_r; unfold fprec in *; lia.
Qed.

Lemma round_nonzero m e :
  (0 < m)%Z -> (emin fprec femax <= e)%Z -> fzero (binary_round_aux fprec femax false m e loc_Exact) = false.
Proof.
  intros Hm He. unfold binary_round_aux.
  destruct (shr_fexp_pos m e Hm He) as [H1 H1e].
  destruct (shr_fexp fprec femax m e loc_Exact) as [mrs1 e1]. cbn [fst snd] in *.
  set (m2 := round_nearest_even (shr_m mrs1) (loc_of_shr_record mrs1)).
  assert (Hm2 : (0 < m2)%Z).
  { unfold m2, round_nearest_even. destruct (loc_of_shr_record mrs1) as [|[]]; try destruct (Z.even _); lia. }
  destruct (shr_fexp_pos m2 e1 Hm2 H1e) as [H2 _].
  destruct (shr_fexp fprec femax m2 e1 loc_Exact) as [mrs2 e2]. cbn [fst] in H2.
  destruct (shr_m mrs2); [lia| |lia]. by destruct (e2 <=? femax - fprec)%Z.
Qed.

Lemma shl_align_value m e ez : (ez <= e)%Z -> (Zpos (fst (shl_align m e ez)) = Zpos m * 2 ^ (e - ez))%Z.
Proof.
  intros H. unfold shl_align. destruct (ez - e)%Z as [|k|k] eqn:E; [|lia|].
  - replace (e - ez)%Z with 0%Z by lia. cbn. lia.
  - cbn [fst]. rewrite iter_xO. f_equal. f_equal. lia.
Qed.

Lemma shl_align_below m e ez : (e <= ez)%Z -> shl_align m e ez = (m, e).
Proof. intros H. unfold shl_align. by destruct (ez - e)%Z eqn:E; [|done|lia]. Qed.

(** The difference of two integers that differ is not zero. *)
Lemma fsub_small_nonzero a b :
  (0 < b < a)%Z -> (a < 2 ^ fprec)%Z -> fzero (fsub (float_of_Z a) (float_of_Z b)) = false.
Proof.
  intros [Hb Hab] Ha. destruct a as [|a|a], b as [|b|b]; try lia.
  destruct (float_of_small_int a Ha) as (ma & ea & -> & Hea & Hma).
  destruct (float_of_small_int b ltac:(lia)) as (mb & eb & -> & Heb & Hmb).
  unfold fsub. cbn [SFsub cond_Zopp]. set (ez := Z.min ea eb).
  rewrite !shl_align_value by lia. rewrite Hma, Hmb, <- !Z.mul_assoc, <- !Z.pow_add_r by lia.
  replace (- ea + (ea - ez))%Z with (- ez)%Z by lia. replace (- eb + (eb - ez))%Z with (- ez)%Z by lia.
  rewrite <- Z.mul_sub_distr_r. assert (Hp : (0 < 2 ^ (- ez))%Z) by (apply Z.pow_pos_nonneg; lia).
  destruct ((Z.pos a - Z.pos b) * 2 ^ (- ez))%Z as [|p|p] eqn:E; [nia| |nia].
  cbn [binary_normalize]. unfold binary_round.
  destruct (Z.le_gt_cases ez (fexp fprec femax (Z.pos (digits2_pos p) + ez))) as [Hle|Hgt].
  - rewrite shl_align_below by done. apply round_nonzero; [lia|]. change (emin fprec femax) with (-1074)%Z. lia.
  - unfold shl_align. set (f := fexp fprec femax (Z.pos (digits2_pos p) + ez)) in *.
    assert (Hf : (emin fprec femax <= f)%Z) by (unfold f, fexp; lia).
    destruct (f - ez)%Z as [|k|k] eqn:Ek; [lia|lia|]. by apply round_nonzero.
Qed.
