(* ===== verification/Json.v ===== *)
(** * JSON (the json module, as the tools use it)

    Three tools write files or output that another reads back: the counts of
    line_counter.py, the records of automation-study.py and the listing of
    describe-instances.py.  [dumps] prints a value on one line or indented,
    [loads] reads one; [loads_dumps] is the round trip.  Text is made of
    characters up to code 255. *)
From S2P Require Import Prelude PyStr PyFloat.
From Stdlib Require Import ZArith.

Inductive json :=
  | JNull
  | JBool (b : bool)
  | JInt (z : Z)
  | JFloat (x : float)
  | JStr (s : str)
  | JArr (l : list json)
  | JObj (d : list (str * json)).   (* a dict, in insertion order *)

Lemma json_nested_ind (P : json -> Prop) :
  P JNull -> (forall b, P (JBool b)) -> (forall z, P (JInt z)) -> (forall x, P (JFloat x)) -> (forall s, P (JStr s)) ->
  (forall l, Forall P l -> P (JArr l)) -> (forall d, Forall (fun kv => P (snd kv)) d -> P (JObj d)) ->
  forall v, P v.
Proof.
  intros Hn Hb Hz Hx Hs Hl Hd. fix IH 1. intros [|b|z|x|s|l|d];
    [exact Hn|apply Hb|apply Hz|apply Hx|apply Hs|apply Hl|apply Hd].
  - induction l as [|v l IHl]; constructor; [apply IH|exact IHl].
  - induction d as [|[k v] d IHd]; constructor; [apply IH|exact IHd].
Qed.

(** ** Printing *)

Definition json_char (c : ascii) : str :=
  if bool_decide (c = qm) then "\" ++ [qm]
  else if bool_decide (c = "\"%char) then "\\"
  else if bool_decide (c = nl) then "\n"
  else if bool_decide (c = cr) then "\r"
  else if bool_decide (c = "009"%char) then "\t"
  else if bool_decide (c = "008"%char) then "\b"
  else if bool_decide (c = "012"%char) then "\f"
  else if in_range 32 126 c then [c]
  else let h := hex_N (N.of_nat (code c)) in "\u" ++ repeat "0"%char (4 - length h) ++ h.
Definition json_string (s : str) : str := [qm] ++ flat_map json_char s ++ [qm].

Definition json_float (x : float) : str :=
  match x with
  | S754_nan => "NaN"
  | S754_infinity s => if s then "-Infinity" else "Infinity"
  | _ => float_repr x
  end.

Section dumps.
(** [indent], if any. *)
Context (indent : option nat).

(** A line break at a depth, and what separates items there. *)
Definition json_break (depth : nat) : str :=
  match indent with None => [] | Some k => nl :: repeat " "%char (k * depth) end.
Definition json_sep (depth : nat) : str :=
  match indent with None => ", " | Some _ => "," ++ json_break depth end.

Fixpoint dumps_at (depth : nat) (v : json) : str :=
  match v with
  | JNull => "null"
  | JBool b => if b then "true" else "false"
  | JInt z => dec_Z z
  | JFloat x => json_float x
  | JStr s => json_string s
  | JArr [] => "[]"
  | JArr l =>
      "[" ++ json_break (S depth) ++ join (json_sep (S depth)) (map (dumps_at (S depth)) l) ++ json_break depth ++ "]"
  | JObj [] => "{}"
  | JObj d =>
      "{" ++ json_break (S depth) ++
      join (json_sep (S depth)) (map (fun '(k, v) => json_string k ++ ": " ++ dumps_at (S depth) v) d) ++
      json_break depth ++ "}"
  end.
Definition dumps (v : json) : str := dumps_at 0 v.
End dumps.

(** [sort_keys=True]. *)
Fixpoint sort_keys (v : json) : json :=
  match v with
  | JArr l => JArr (map sort_keys l)
  | JObj d => JObj (sort_by (fun a b => str_ltb (fst a) (fst b)) (map (fun '(k, v) => (k, sort_keys v)) d))
  | _ => v
  end.

(** ** Reading *)

Definition is_json_space (c : ascii) : bool :=
  bool_decide (c = " "%char) || bool_decide (c = nl) || bool_decide (c = cr) || bool_decide (c = "009"%char).
Fixpoint skip_ws (s : str) : str :=
  match s with c :: s' => if is_json_space c then skip_ws s' else s | [] => [] end.

(** The character of [\uXXXX]. *)
Definition hex4 (a b c d : ascii) : option ascii :=
  x ← hex_digit_val a; y ← hex_digit_val b; z ← hex_digit_val c; w ← hex_digit_val d;
  let n := (((x * 16 + y) * 16 + z) * 16 + w)%Z in
  if (n <? 256)%Z then Some (ascii_of_nat (Z.to_nat n)) else None.

Definition escape_char (c : ascii) : option ascii :=
  if bool_decide (c = qm) then Some qm else if bool_decide (c = "\"%char) then Some "\"%char
  else if bool_decide (c = "/"%char) then Some "/"%char else if bool_decide (c = "b"%char) then Some "008"%char
  else if bool_decide (c = "f"%char) then Some "012"%char else if bool_decide (c = "n"%char) then Some nl
  else if bool_decide (c = "r"%char) then Some cr else if bool_decide (c = "t"%char) then Some "009"%char
  else None.

(** The rest of a string, after its opening quote: its text and what follows. *)
Fixpoint scan_string (s : str) : res (str * str) :=
  match s with
  | [] => Raise ValueError
  | c :: s' =>
      if bool_decide (c = qm) then Ok ([], s')
      else if bool_decide (c = "\"%char) then
        match s' with
        | e :: s'' =>
            if bool_decide (e = "u"%char) then
              match s'' with
              | a :: b :: c :: d :: r =>
                  x ← of_option ValueError (hex4 a b c d); '(t, r) ← scan_string r; Ok (x :: t, r)
              | _ => Raise ValueError
              end
            else x ← of_option ValueError (escape_char e); '(t, r) ← scan_string s''; Ok (x :: t, r)
        | [] => Raise ValueError
        end
      else if code c <? 32 then Raise ValueError
      else '(t, r) ← scan_string s'; Ok (c :: t, r)
  end.

(** The parts of a number: a sign and digits without a leading zero, a fraction,
    an exponent. *)
Definition scan_sign (s : str) : str * str :=
  match s with c :: r => if bool_decide (c = "-"%char) then ([c], r) else ([], s) | [] => ([], s) end.
Definition scan_int (s : str) : option (str * str) :=
  match s with
  | c :: r => if bool_decide (c = "0"%char) then Some ([c], r) else if is_digit c then Some (take_digits s) else None
  | [] => None
  end.
Definition scan_frac (s : str) : str * str :=
  match s with
  | c :: r => if bool_decide (c = "."%char) then
                match take_digits r with (d :: ds, r') => (c :: d :: ds, r') | ([], _) => ([], s) end
              else ([], s)
  | [] => ([], s)
  end.
Definition is_sign (c : ascii) : bool := bool_decide (c = "-"%char) || bool_decide (c = "+"%char).
Definition scan_exp (s : str) : str * str :=
  match s with
  | c :: r =>
      if bool_decide (c = "e"%char) || bool_decide (c = "E"%char) then
        let '(sg, r1) := match r with d :: r1 => if is_sign d then ([d], r1) else ([], r) | [] => ([], r) end in
        match take_digits r1 with (d :: ds, r') => (c :: sg ++ d :: ds, r') | ([], _) => ([], s) end
      else ([], s)
  | [] => ([], s)
  end.
Definition scan_number (s : str) : option (json * str) :=
  let '(sg, r) := scan_sign s in
  '(ip, r) ← scan_int r;
  let '(fp, r) := scan_frac r in
  let '(ep, r) := scan_exp r in
  match fp, ep with
  | [], [] => match py_int (sg ++ ip) with Ok z => Some (JInt z, r) | Raise _ => None end
  | _, _ => match py_float (sg ++ ip ++ fp ++ ep) with Ok x => Some (JFloat x, r) | Raise _ => None end
  end.

(** The words of JSON, and Python's for floats that are no numbers. *)
Definition words : list (str * json) :=
  [ ( # "null", JNull); ( # "true", JBool true); ( # "false", JBool false); ( # "NaN", JFloat S754_nan);
    ( # "Infinity", JFloat (S754_infinity false)); ( # "-Infinity", JFloat (S754_infinity true))].
Fixpoint scan_word (ws : list (str * json)) (s : str) : option (json * str) :=
  match ws with
  | [] => None
  | (w, v) :: ws' => if startswith s w then Some (v, drop (length w) s) else scan_word ws' s
  end.

Definition scan_atom (s : str) : res (json * str) :=
  of_option ValueError (match scan_word words s with Some r => Some r | None => scan_number s end).

(** A value at the start of the text; the items of an array and the members of
    an object after the opening bracket.  Members with one key: the last counts. *)
Fixpoint parse_value (fuel : nat) (s : str) : res (json * str) :=
  match fuel with
  | O => Raise OutOfFuel
  | S f =>
      match s with
      | [] => Raise ValueError
      | c :: s' =>
          if bool_decide (c = qm) then '(t, r) ← scan_string s'; Ok (JStr t, r)
          else if bool_decide (c = "["%char) then
            match skip_ws s' with
            | c' :: r => if bool_decide (c' = "]"%char) then Ok (JArr [], r)
                         else '(l, r) ← parse_items f (c' :: r); Ok (JArr l, r)
            | [] => Raise ValueError
            end
          else if bool_decide (c = "{"%char) then
            match skip_ws s' with
            | c' :: r => if bool_decide (c' = "}"%char) then Ok (JObj [], r)
                         else '(d, r) ← parse_members f (c' :: r); Ok (JObj (dict_update [] d), r)
            | [] => Raise ValueError
            end
          else scan_atom s
      end
  end
with parse_items (fuel : nat) (s : str) : res (list json * str) :=
  match fuel with
  | O => Raise OutOfFuel
  | S f =>
      '(v, r) ← parse_value f s;
      match skip_ws r with
      | c :: r =>
          if bool_decide (c = ","%char) then '(l, r) ← parse_items f (skip_ws r); Ok (v :: l, r)
          else if bool_decide (c = "]"%char) then Ok ([v], r) else Raise ValueError
      | [] => Raise ValueError
      end
  end
with parse_members (fuel : nat) (s : str) : res (list (str * json) * str) :=
  match fuel with
  | O => Raise OutOfFuel
  | S f =>
      match s with
      | c :: s' =>
          if bool_decide (c = qm) then
            '(k, r) ← scan_string s';
            match skip_ws r with
            | c :: r =>
                if bool_decide (c = ":"%char) then
                  '(v, r) ← parse_value f (skip_ws r);
                  match skip_ws r with
                  | c :: r =>
                      if bool_decide (c = ","%char) then '(d, r) ← parse_members f (skip_ws r); Ok ((k, v) :: d, r)
                      else if bool_decide (c = "}"%char) then Ok ([(k, v)], r) else Raise ValueError
                  | [] => Raise ValueError
                  end
                else Raise ValueError
            | [] => Raise ValueError
            end
          else Raise ValueError
      | [] => Raise ValueError
      end
  end.

(** [json.loads]: nothing but space may follow the value. *)
Definition loads (s : str) : res json :=
  '(v, r) ← parse_value (S (S (2 * length s))) (skip_ws s);
  match skip_ws r with [] => Ok v | _ => Raise ValueError end.

(** [d[k]]. *)
Definition json_get (k : str) (v : json) : res json :=
  match v with JObj d => of_option KeyError (dict_get d k) | _ => Raise TypeError end.

(** ** What is printed is read back *)

(** What may follow a value: the text scanned as a number ends before it. *)
Definition number_char (c : ascii) : bool :=
  is_digit c || bool_decide (c ∈ [("."%char); ("e"%char); ("E"%char); ("-"%char); ("+"%char)]).
Definition delim (s : str) : Prop := match s with c :: _ => number_char c = false | [] => True end.

Lemma take_digits_app t s ds r : take_digits t = (ds, r) -> delim s -> take_digits (t ++ s) = (ds, r ++ s).
Proof.
  intros H Hs. revert ds r H. induction t as [|c t IH]; intros ds r H; cbn in H |- *.
  - injection H as <- <-. destruct s as [|c s]; [done|]. cbn in Hs |- *. apply orb_false_iff in Hs as [-> _]. done.
  - destruct (is_digit c); [|by injection H as <- <-].
    destruct (take_digits t) as [d1 r1]. injection H as <- <-. by rewrite (IH d1 r1).
Qed.

Lemma scan_int_app t s ip r : scan_int t = Some (ip, r) -> delim s -> scan_int (t ++ s) = Some (ip, r ++ s).
Proof.
  intros H Hs. destruct t as [|c t]; [done|]. cbn in H |- *. case_bool_decide; [by injection H as <- <-|].
  destruct (is_digit c) eqn:E; [|done]. injection H as H. f_equal.
  pose proof (take_digits_app (c :: t) s ip r) as Ha. cbn in Ha. rewrite E in Ha. by apply Ha.
Qed.

Lemma delim_head c s : delim (c :: s) -> number_char c = false.
Proof. done. Qed.

Lemma scan_frac_app t s fp r : scan_frac t = (fp, r) -> delim s -> scan_frac (t ++ s) = (fp, r ++ s).
Proof.
  intros H Hs. destruct t as [|c t].
  - cbn in H. injection H as <- <-. destruct s as [|c s]; [done|]. cbn. case_bool_decide as E; [|done].
    apply delim_head in Hs. by rewrite E in Hs.
  - cbn in H |- *. case_bool_decide; [|by injection H as <- <-].
    destruct (take_digits t) as [ds r1] eqn:E. rewrite (take_digits_app _ _ _ _ E Hs).
    destruct ds; by injection H as <- <-.
Qed.

Lemma scan_exp_app t s ep r : scan_exp t = (ep, r) -> delim s -> scan_exp (t ++ s) = (ep, r ++ s).
Proof.
  intros H Hs. destruct t as [|c t].
  - cbn in H. injection H as <- <-. destruct s as [|c s]; [done|]. cbn. apply delim_head in Hs.
    destruct (bool_decide_reflect (c = "e"%char)) as [E|_]; [by rewrite E in Hs|].
    destruct (bool_decide_reflect (c = "E"%char)) as [E|_]; [by rewrite E in Hs|]. done.
  - cbn in H |- *. destruct (bool_decide (c = "e"%char) || bool_decide (c = "E"%char)); [|by injection H as <- <-].
    destruct t as [|d t].
    + cbn in H. injection H as <- <-. cbn. destruct s as [|d s]; [done|]. apply delim_head in Hs.
      assert (Hd : is_sign d = false /\ is_digit d = false).
      { unfold number_char in Hs. apply orb_false_iff in Hs as [H1 H2]. split; [|done]. apply bool_decide_eq_false in H2.
        unfold is_sign. rewrite !bool_decide_eq_false_2; [done|intros ->; apply H2; notin..]. }
      destruct Hd as [-> Hd]. cbn. by rewrite Hd.
    + cbn [app]. destruct (is_sign d).
      * destruct (take_digits t) as [ds r1] eqn:E. rewrite (take_digits_app _ _ _ _ E Hs). destruct ds; by injection H as <- <-.
      * destruct (take_digits (d :: t)) as [ds r1] eqn:E. change (d :: t ++ s) with ((d :: t) ++ s).
        rewrite (take_digits_app _ _ _ _ E Hs). destruct ds; by injection H as <- <-.
Qed.

Lemma scan_number_app t s v : scan_number t = Some (v, []) -> delim s -> scan_number (t ++ s) = Some (v, s).
Proof.
  unfold scan_number. intros H Hs.
  assert (Hsign : t <> [] -> scan_sign (t ++ s) = (fst (scan_sign t), snd (scan_sign t) ++ s)).
  { destruct t as [|c t]; [done|]. intros _. cbn. by case_bool_decide. }
  destruct t as [|c t]; [done|]. rewrite Hsign by done. destruct (scan_sign (c :: t)) as [sg r]. cbn [fst snd].
  apply bind_Some in H as ([ip r1] & E1 & H). rewrite (scan_int_app _ _ _ _ E1 Hs). cbn [mbind option_bind].
  destruct (scan_frac r1) as [fp r2] eqn:E2. rewrite (scan_frac_app _ _ _ _ E2 Hs).
  destruct (scan_exp r2) as [ep r3] eqn:E3. rewrite (scan_exp_app _ _ _ _ E3 Hs).
  destruct fp, ep; (destruct (py_int _) as [z|] || destruct (py_float _) as [x|]); try done;
    injection H as <- ->; done.
Qed.

(** *** Integers *)

Lemma dec_fuel_head f n acc :
  (n < 2 ^ N.of_nat f)%N -> (0 < n)%N -> exists c ds, dec_fuel f n acc = c :: ds /\ is_digit c = true /\ c <> "0"%char.
Proof.
  revert n acc. induction f as [|f IH]; intros n acc Hf Hn; [cbn in Hf; lia|]. cbn [dec_fuel].
  destruct (N.ltb_spec n 10) as [Hlt|Hge].
  - rewrite N.mod_small by done. destruct (digit_char_ok (N.to_nat n)) as [Hd Hv]; [lia|].
    eexists _, _. split; [done|]. split; [done|]. intros E. apply (f_equal digit_val) in E. rewrite Hv in E. change (digit_val "0") with 0%Z in E. lia.
  - apply IH.
    + rewrite Nat2N.inj_succ, N.pow_succ_r' in Hf. apply N.Div0.div_lt_upper_bound. lia.
    + apply N.div_str_pos. lia.
Qed.

Lemma take_digits_all ds : Forall (fun c => is_digit c = true) ds -> take_digits ds = (ds, []).
Proof. induction 1 as [|c ds Hc Hds IH]; [done|]. cbn. by rewrite Hc, IH. Qed.

Lemma scan_int_dec_N n : scan_int (dec_N n) = Some (dec_N n, []).
Proof.
  destruct (N.eq_dec n 0) as [->|Hn]; [done|].
  destruct (dec_N_digits n) as [Hd _]. unfold dec_N in *.
  destruct (dec_fuel_head (S (N.to_nat (N.size n))) n []) as (c & ds & E & Hc & Hc0); [|lia|].
  { rewrite Nat2N.inj_succ, N2Nat.id, N.pow_succ_r'. pose proof (N.size_gt n). lia. }
  rewrite E in *. unfold scan_int. rewrite (bool_decide_eq_false_2 _ Hc0), Hc. f_equal. by apply take_digits_all.
Qed.

Lemma py_int_minus ds : Forall (fun c => is_digit c = true) ds -> ds <> [] ->
  py_int ("-"%char :: ds) = Ok (- digits_value 0 ds)%Z.
Proof.
  intros Hd Hne. unfold py_int.
  assert (Hs : strip ("-"%char :: ds) = "-"%char :: ds).
  { unfold strip, rstrip. rewrite lstrip_nonspace by done. cbn [rev].
    assert (Hr : Forall (fun c => is_digit c = true) (rev ds)) by (by apply Forall_rev).
    destruct (rev ds) as [|c l] eqn:E; [apply (f_equal (@rev ascii)) in E; rewrite rev_involutive in E; by subst|].
    apply Forall_cons_1 in Hr as [Hc _]. cbn [app]. rewrite lstrip_nonspace by (by apply digit_not_space).
    change (c :: l ++ ["-"%char]) with ((c :: l) ++ ["-"%char]). rewrite <- E, rev_app_distr. cbn. by rewrite rev_involutive. }
  rewrite Hs. change (bool_decide ("-"%char = "-"%char)) with true. cbn iota.
  by rewrite digits_val_digits by (try done; by right).
Qed.

Lemma scan_number_int z : scan_number (dec_Z z) = Some (JInt z, []).
Proof.
  unfold dec_Z. destruct (Z.ltb_spec z 0) as [Hz|Hz].
  - unfold scan_number. cbn [scan_sign]. change (bool_decide ("-"%char = "-"%char)) with true. cbn iota.
    rewrite scan_int_dec_N. cbn [mbind option_bind scan_frac scan_exp].
    destruct (dec_N_digits (Z.to_N (- z))) as [Hd Hne]. cbn [app]. rewrite py_int_minus, dec_N_value by done. do 3 f_equal. lia.
  - unfold scan_number. destruct (dec_N_digits (Z.to_N z)) as [Hd Hne].
    assert (Hs : scan_sign (dec_N (Z.to_N z)) = ([], dec_N (Z.to_N z))).
    { destruct (dec_N (Z.to_N z)) as [|c ds]; [done|]. apply Forall_cons_1 in Hd as [Hc _]. cbn.
      by rewrite bool_decide_eq_false_2 by (by intros ->). }
    rewrite Hs, scan_int_dec_N. cbn [mbind option_bind scan_frac scan_exp app]. rewrite py_int_dec_N. do 3 f_equal. lia.
Qed.

(** *** Strings *)

(** How a character is printed: escaped by its code, escaped by a letter, or as
    it is. *)
Definition reads_char (c : ascii) : bool :=
  match json_char c with
  | [x; u; a; b; d; e] => bool_decide (x = "\"%char) && bool_decide (u = "u"%char) && bool_decide (hex4 a b d e = Some c)
  | [x; e] => bool_decide (x = "\"%char) && negb (bool_decide (e = "u"%char)) && bool_decide (escape_char e = Some c)
  | [x] => bool_decide (x = c) && negb (bool_decide (c = qm)) && negb (bool_decide (c = "\"%char)) && negb (code c <? 32)
  | _ => false
  end.

Lemma reads_all_chars c : reads_char c = true.
Proof. destruct c as [[] [] [] [] [] [] [] []]; by vm_compute. Qed.

Lemma scan_string_char c s :
  scan_string (json_char c ++ s) = '(t, r) ← scan_string s; Ok (c :: t, r).
Proof.
  pose proof (reads_all_chars c) as H. unfold reads_char in H.
  destruct (json_char c) as [|x [|e [|a [|b [|d [|g [|]]]]]]]; try discriminate H.
  - rewrite !andb_true_iff in H. destruct H as [[[->%bool_decide_eq_true H1%negb_true_iff] H2%negb_true_iff] H3%negb_true_iff].
    cbn [app scan_string]. by rewrite H1, H2, H3.
  - rewrite !andb_true_iff in H. destruct H as [[->%bool_decide_eq_true H1%negb_true_iff] H2%bool_decide_eq_true].
    cbn [app scan_string]. change (bool_decide ("\"%char = qm)) with false. change (bool_decide ("\"%char = "\"%char)) with true.
    cbn iota. by rewrite H1, H2.
  - rewrite !andb_true_iff in H. destruct H as [[->%bool_decide_eq_true ->%bool_decide_eq_true] H2%bool_decide_eq_true].
    cbn [app scan_string]. change (bool_decide ("\"%char = qm)) with false. change (bool_decide ("\"%char = "\"%char)) with true.
    change (bool_decide ("u"%char = "u"%char)) with true. cbn iota. by rewrite H2.
Qed.

Lemma scan_string_json t s : scan_string (flat_map json_char t ++ qm :: s) = Ok (t, s).
Proof.
  induction t as [|c t IH]; [done|]. cbn [flat_map]. by rewrite <- app_assoc, scan_string_char, IH.
Qed.

(** *** Values *)

(** A float whose text reads back, as the shortest text of a float does. *)
Definition float_reads_back (x : float) : Prop :=
  match x with
  | S754_nan | S754_infinity _ => True
  | _ => scan_number (float_repr x) = Some (JFloat x, [])
  end.

(** Keys occur once, and floats read back. *)
Inductive json_wf : json -> Prop :=
  | W_Null : json_wf JNull
  | W_Bool b : json_wf (JBool b)
  | W_Int z : json_wf (JInt z)
  | W_Float x : float_reads_back x -> json_wf (JFloat x)
  | W_Str s : json_wf (JStr s)
  | W_Arr l : Forall json_wf l -> json_wf (JArr l)
  | W_Obj d : NoDup (dict_keys d) -> Forall (fun kv => json_wf (snd kv)) d -> json_wf (JObj d).

(** The start of a number. *)
Lemma scan_number_head t v r :
  scan_number t = Some (v, r) ->
  exists c t', t = c :: t' /\ (is_digit c = true \/ c = "-"%char /\ exists d t2, t' = d :: t2 /\ is_digit d = true).
Proof.
  unfold scan_number. destruct t as [|c t]; [done|]. cbn [scan_sign]. intros H.
  assert (Hd : forall u ip r, scan_int u = Some (ip, r) -> exists d u', u = d :: u' /\ is_digit d = true).
  { intros [|d u] ip r0; [done|]. cbn. intros Hs. exists d, u. split; [done|].
    case_bool_decide as E; [by subst|]. by destruct (is_digit d). }
  exists c, t. split; [done|]. case_bool_decide as E.
  - right. split; [done|]. apply bind_Some in H as ([ip r1] & (d & u & -> & Hd')%Hd & _). eauto.
  - left. apply bind_Some in H as ([ip r1] & (d & u & [= -> ->] & Hd')%Hd & _). done.
Qed.

Lemma startswith_cons c s d w : startswith (c :: s) (d :: w) = bool_decide (d = c) && startswith s w.
Proof. done. Qed.

Lemma number_no_word t v r s : scan_number t = Some (v, r) -> scan_word words (t ++ s) = None.
Proof.
  intros (c & t' & -> & Hc)%scan_number_head. unfold words. cbn [scan_word].
  assert (Hw : forall w, match w with d :: _ => is_digit d = false /\ d <> "-"%char | [] => False end ->
            startswith ((c :: t') ++ s) w = false).
  { intros [|d w]; [done|]. intros [Hd Hm]. cbn [app]. rewrite startswith_cons, bool_decide_eq_false_2; [done|]. intros ->.
    destruct Hc as [Hc|[-> _]]; [congruence|done]. }
  rewrite (Hw (# "null")), (Hw (# "true")), (Hw (# "false")), (Hw (# "NaN")), (Hw (# "Infinity")) by done. cbn [app].
  change (# "-Infinity") with ("-"%char :: "I"%char :: # "nfinity"). rewrite startswith_cons.
  destruct Hc as [Hc|[-> (d & t2 & -> & Hd)]].
  - rewrite bool_decide_eq_false_2; [done|]. by intros <-.
  - cbn [app]. rewrite startswith_cons, (bool_decide_eq_false_2 ("I"%char = d)); [by rewrite andb_false_r|]. by intros <-.
Qed.

Lemma scan_atom_number t v s : scan_number t = Some (v, []) -> delim s -> scan_atom (t ++ s) = Ok (v, s).
Proof. intros H Hs. unfold scan_atom. rewrite (number_no_word t v [] s H). by rewrite (scan_number_app t s v H Hs). Qed.

Definition opens (c : ascii) : bool :=
  bool_decide (c = qm) || bool_decide (c = "["%char) || bool_decide (c = "{"%char).

(** A value that is neither a string nor a collection is scanned whole. *)
Lemma parse_atom f c s : opens c = false -> parse_value (S f) (c :: s) = scan_atom (c :: s).
Proof. unfold opens. intros [[H1 H2]%orb_false_iff H3]%orb_false_iff. cbn. by rewrite H1, H2, H3. Qed.

Lemma number_starts c : is_digit c = true \/ c = "-"%char -> opens c = false /\ is_json_space c = false /\ c <> "]"%char.
Proof.
  intros [H| ->]; [|done]. unfold opens, is_json_space.
  rewrite !bool_decide_eq_false_2 by (by intros ->). by split_and!; [..|intros ->].
Qed.

Lemma parse_number f t v s :
  scan_number t = Some (v, []) -> delim s -> parse_value (S f) (t ++ s) = Ok (v, s).
Proof.
  intros H Hs. pose proof (scan_atom_number t v s H Hs) as E.
  apply scan_number_head in H as (c & t' & -> & Hc). cbn [app] in *. rewrite parse_atom; [exact E|].
  apply number_starts. destruct Hc as [?|[? _]]; auto.
Qed.

(** The first character of a printed value. *)
Lemma dumps_head ind depth v :
  json_wf v -> exists c t, dumps_at ind depth v = c :: t /\ is_json_space c = false /\ c <> "]"%char.
Proof.
  assert (Hnum : forall t v, scan_number t = Some (v, []) -> exists c t', t = c :: t' /\ is_json_space c = false /\ c <> "]"%char).
  { intros t v' (c & t' & -> & Hc)%scan_number_head. exists c, t'. split; [done|]. apply number_starts. destruct Hc as [?|[? _]]; auto. }
  intros H. destruct H as [|[]|z|x Hx|t|[|w l] Hl|[|[k w] d] Hk Hd]; try (eexists _, _; split; [reflexivity|by split]).
  - apply (Hnum _ _ (scan_number_int z)).
  - destruct x as [[]|[]| |s m e]; try (eexists _, _; split; [reflexivity|by split]). apply (Hnum _ _ Hx).
Qed.

Lemma skip_ws_head c s : is_json_space c = false -> skip_ws (c :: s) = c :: s.
Proof. intros H. cbn. by rewrite H. Qed.

Lemma skip_ws_spaces w s : forallb is_json_space w = true -> skip_ws (w ++ s) = skip_ws s.
Proof. induction w as [|c w IH]; [done|]. cbn. intros [-> H]%andb_true_iff. auto. Qed.

Lemma break_spaces ind depth : forallb is_json_space (json_break ind depth) = true.
Proof. destruct ind as [k|]; [|done]. cbn. induction (k * depth); [done|]. done. Qed.

Lemma sep_shape ind depth : exists w, json_sep ind depth = ","%char :: w /\ forallb is_json_space w = true.
Proof.
  destruct ind as [k|]; [|by exists (# " ")]. exists (json_break (Some k) depth). split; [done|]. apply break_spaces.
Qed.

Lemma delim_spaces w s : forallb is_json_space w = true -> delim s -> delim (w ++ s).
Proof.
  destruct w as [|c w]; [done|]. cbn. intros [H _]%andb_true_iff _.
  destruct c as [[] [] [] [] [] [] [] []]; by vm_compute in H |- *.
Qed.

Lemma dict_update_new (d : list (str * json)) : NoDup (dict_keys d) -> dict_update [] d = d.
Proof.
  assert (H : forall e, NoDup (dict_keys (e ++ d)) -> dict_update e d = e ++ d).
  { induction d as [|[k v] d IH]; intros e He; cbn; [by rewrite app_nil_r|].
    rewrite dict_set_new.
    - etransitivity; [apply (IH (e ++ [(k, v)]))|]; by rewrite <- app_assoc.
    - unfold dict_keys in *. rewrite map_app in He. apply NoDup_app in He as (_ & He & _). intros Hk.
      apply (He k Hk). apply list_elem_of_here. }
  intros Hd. by apply (H []).
Qed.

(** A value printed in either layout reads back, whatever delimiter follows, with
    two units of fuel per character. *)
Section read_back.
Context (ind : option nat).

Definition value_reads (v : json) : Prop :=
  forall depth fuel s, delim s -> 2 * length (dumps_at ind depth v ++ s) < fuel ->
    parse_value fuel (dumps_at ind depth v ++ s) = Ok (v, s).

Lemma parse_items_S f s :
  parse_items (S f) s =
  '(v, r) ← parse_value f s;
  match skip_ws r with
  | c :: r =>
      if bool_decide (c = ","%char) then '(l, r) ← parse_items f (skip_ws r); Ok (v :: l, r)
      else if bool_decide (c = "]"%char) then Ok ([v], r) else Raise ValueError
  | [] => Raise ValueError
  end.
Proof. done. Qed.

Lemma skip_to_value depth v s w :
  json_wf v -> forallb is_json_space w = true -> skip_ws (w ++ dumps_at ind depth v ++ s) = dumps_at ind depth v ++ s.
Proof.
  intros Hv Hw. rewrite skip_ws_spaces by done. destruct (dumps_head ind depth v Hv) as (c & t & -> & Hc & _). by apply skip_ws_head.
Qed.

Lemma items_read depth v l fuel tl s :
  Forall json_wf (v :: l) -> Forall value_reads (v :: l) -> delim tl -> skip_ws tl = "]"%char :: s ->
  let text := join (json_sep ind depth) (map (dumps_at ind depth) (v :: l)) in
  2 * length (text ++ tl) + 1 < fuel ->
  parse_items fuel (text ++ tl) = Ok (v :: l, s).
Proof.
  intros Hwf Hr Hd Htl. revert v fuel Hwf Hr. induction l as [|w l IH]; intros v fuel Hwf Hr text Hf.
  - subst text. cbn [map join] in *. destruct fuel as [|f]; [lia|]. rewrite parse_items_S.
    apply Forall_cons_1 in Hr as [Hv _]. rewrite Hv; [|done|lia]. by rewrite bind_of_Ok, Htl.
  - apply Forall_cons_1 in Hr as [Hv Hr]. apply Forall_cons_1 in Hwf as [Hwv Hwf].
    subst text. destruct (sep_shape ind depth) as (sp & Esep & Hsp).
    set (rest := join (json_sep ind depth) (map (dumps_at ind depth) (w :: l))) in *.
    assert (Ej : join (json_sep ind depth) (map (dumps_at ind depth) (v :: w :: l)) ++ tl =
              dumps_at ind depth v ++ ","%char :: sp ++ rest ++ tl).
    { change (join (json_sep ind depth) (map (dumps_at ind depth) (v :: w :: l))) with
        (dumps_at ind depth v ++ json_sep ind depth ++ rest). by rewrite Esep, <- !app_assoc. }
    rewrite Ej in *. destruct fuel as [|f]; [lia|]. rewrite parse_items_S. rewrite Hv; [|done|lia].
    rewrite bind_of_Ok, skip_ws_head by done. change (bool_decide (","%char = ","%char)) with true. cbn iota.
    assert (Eskip : skip_ws (sp ++ rest ++ tl) = rest ++ tl).
    { apply Forall_cons_1 in Hwf as [Hww _]. unfold rest. cbn [map join].
      destruct (map (dumps_at ind depth) l); rewrite <- ?app_assoc; by apply skip_to_value. }
    rewrite Eskip. unfold rest. rewrite IH; [done|done|done|].
    fold rest. rewrite !length_app in Hf. cbn [length] in Hf. rewrite !length_app in *. lia.
Qed.

Lemma parse_members_S f k s1 :
  parse_members (S f) (json_string k ++ ": " ++ s1) =
  '(v, r) ← parse_value f (skip_ws (" "%char :: s1));
  match skip_ws r with
  | c :: r =>
      if bool_decide (c = ","%char) then '(d, r) ← parse_members f (skip_ws r); Ok ((k, v) :: d, r)
      else if bool_decide (c = "}"%char) then Ok ([(k, v)], r) else Raise ValueError
  | [] => Raise ValueError
  end.
Proof.
  assert (E : json_string k ++ ": " ++ s1 = qm :: flat_map json_char k ++ qm :: ":"%char :: " "%char :: s1).
  { unfold json_string. cbn [app]. by rewrite <- app_assoc. }
  rewrite E. cbn [parse_members].
  change (bool_decide (qm = qm)) with true. cbn iota. rewrite scan_string_json, bind_of_Ok. reflexivity.
Qed.

Definition member_text (depth : nat) (kv : str * json) : str := json_string (fst kv) ++ ": " ++ dumps_at ind depth (snd kv).

Lemma member_head depth kv : exists t, member_text depth kv = qm :: t.
Proof. destruct kv. by eexists. Qed.

Lemma members_read depth kv d fuel tl s :
  Forall (fun kv => json_wf (snd kv)) (kv :: d) -> Forall (fun kv => value_reads (snd kv)) (kv :: d) ->
  delim tl -> skip_ws tl = "}"%char :: s ->
  let text := join (json_sep ind depth) (map (member_text depth) (kv :: d)) in
  2 * length (text ++ tl) + 1 < fuel ->
  parse_members fuel (text ++ tl) = Ok (kv :: d, s).
Proof.
  intros Hwf Hr Hd Htl. revert kv fuel Hwf Hr. induction d as [|kw d IH]; intros [k v] fuel Hwf Hr text Hf.
  - subst text. cbn [map join] in *. unfold member_text in *. cbn [fst snd] in *. destruct fuel as [|f]; [lia|].
    rewrite <- !app_assoc in *. rewrite parse_members_S.
    apply Forall_cons_1 in Hr as [Hv _]. apply Forall_cons_1 in Hwf as [Hwv _]. cbn [fst snd] in *.
    rewrite (skip_to_value depth v tl [" "%char] Hwv eq_refl : skip_ws (" "%char :: dumps_at ind depth v ++ tl) = _).
    rewrite Hv; [by rewrite bind_of_Ok, Htl|done|]. rewrite !length_app in *. lia.
  - apply Forall_cons_1 in Hr as [Hv Hr]. apply Forall_cons_1 in Hwf as [Hwv Hwf]. cbn [fst snd] in *.
    subst text. destruct (sep_shape ind depth) as (sp & Esep & Hsp).
    set (rest := join (json_sep ind depth) (map (member_text depth) (kw :: d))) in *.
    assert (Ej : join (json_sep ind depth) (map (member_text depth) ((k, v) :: kw :: d)) ++ tl =
              json_string k ++ ": " ++ dumps_at ind depth v ++ ","%char :: sp ++ rest ++ tl).
    { change (join (json_sep ind depth) (map (member_text depth) ((k, v) :: kw :: d))) with
        (member_text depth (k, v) ++ json_sep ind depth ++ rest). unfold member_text. cbn [fst snd].
      by rewrite Esep, <- !app_assoc. }
    rewrite Ej in *. destruct fuel as [|f]; [lia|]. rewrite parse_members_S.
    rewrite (skip_to_value depth v _ [" "%char] Hwv eq_refl : skip_ws (" "%char :: dumps_at ind depth v ++ _) = _).
    rewrite Hv; [|done|rewrite !length_app in *; lia].
    rewrite bind_of_Ok, skip_ws_head by done. change (bool_decide (","%char = ","%char)) with true. cbn iota.
    assert (Eskip : skip_ws (sp ++ rest ++ tl) = rest ++ tl).
    { rewrite skip_ws_spaces by done. unfold rest. cbn [map join]. destruct (member_head depth kw) as [t ->].
      by destruct (map (member_text depth) d). }
    rewrite Eskip. unfold rest. rewrite IH; [done|done|done|].
    fold rest. rewrite !length_app in Hf. cbn [length] in Hf. rewrite !length_app in *. lia.
Qed.

Lemma parse_array f s :
  parse_value (S f) ("[" ++ s) =
  match skip_ws s with
  | c :: r => if bool_decide (c = "]"%char) then Ok (JArr [], r)
              else '(l, r) ← parse_items f (c :: r); Ok (JArr l, r)
  | [] => Raise ValueError
  end.
Proof. done. Qed.

Lemma parse_object f s :
  parse_value (S f) ("{" ++ s) =
  match skip_ws s with
  | c :: r => if bool_decide (c = "}"%char) then Ok (JObj [], r)
              else '(d, r) ← parse_members f (c :: r); Ok (JObj (dict_update [] d), r)
  | [] => Raise ValueError
  end.
Proof. done. Qed.

Lemma parse_text f t s : parse_value (S f) (json_string t ++ s) = Ok (JStr t, s).
Proof.
  assert (E : json_string t ++ s = qm :: flat_map json_char t ++ qm :: s).
  { unfold json_string. cbn [app]. by rewrite <- app_assoc. }
  rewrite E. cbn [parse_value]. change (bool_decide (qm = qm)) with true. cbn iota. by rewrite scan_string_json.
Qed.

Lemma all_values_read v : json_wf v -> value_reads v.
Proof.
  induction v as [|b|z|x|t|l IH|d IH] using json_nested_ind; intros Hwf depth fuel s Hs Hf;
    (destruct fuel as [|f]; [lia|]); cbn [dumps_at] in *.
  - done.
  - by destruct b.
  - apply parse_number; [apply scan_number_int|done].
  - inversion Hwf as [| | |y Hy| | |]; subst. destruct x as [sg|[]| |sg m e]; try reflexivity; by apply parse_number.
  - by rewrite parse_text.
  - inversion Hwf as [| | | | |l' Hl|]; subst. destruct l as [|v l]; [done|].
    assert (Hr : Forall value_reads (v :: l)).
    { rewrite Forall_forall in IH, Hl |- *. auto. }
    rewrite <- !app_assoc in *. rewrite parse_array.
    set (text := join (json_sep ind (S depth)) (map (dumps_at ind (S depth)) (v :: l))) in *.
    assert (Eskip : exists c r, skip_ws (json_break ind (S depth) ++ text ++ json_break ind depth ++ "]" ++ s) = c :: r /\
              c <> "]"%char /\ c :: r = text ++ json_break ind depth ++ "]" ++ s).
    { rewrite skip_ws_spaces by apply break_spaces. apply Forall_cons_1 in Hl as [Hv _].
      destruct (dumps_head ind (S depth) v Hv) as (c & t & Ed & Hc & Hb). unfold text. cbn [map join].
      destruct (map (dumps_at ind (S depth)) l); rewrite Ed; cbn [app]; rewrite skip_ws_head by done; eauto 6. }
    destruct Eskip as (c & r & -> & Hc & Er). rewrite (bool_decide_eq_false_2 _ Hc), Er. unfold text.
    rewrite (items_read (S depth) v l f _ s Hl Hr); [done|apply delim_spaces; [apply break_spaces|done]
      |by rewrite skip_ws_spaces by apply break_spaces|].
    fold text. rewrite !length_app in *. change (length "[") with 1 in Hf. lia.
  - inversion Hwf as [| | | | | |d' Hk Hd]; subst. destruct d as [|kv d]; [done|].
    assert (Hr : Forall (fun kv => value_reads (snd kv)) (kv :: d)).
    { rewrite Forall_forall in IH, Hd |- *. auto. }
    rewrite <- !app_assoc in *. rewrite parse_object.
    assert (Em : map (fun '(k, v) => json_string k ++ ": " ++ dumps_at ind (S depth) v) (kv :: d) =
              map (member_text (S depth)) (kv :: d)) by (apply map_ext; by intros []).
    rewrite Em in *. set (text := join (json_sep ind (S depth)) (map (member_text (S depth)) (kv :: d))) in *.
    assert (Eskip : exists r, skip_ws (json_break ind (S depth) ++ text ++ json_break ind depth ++ "}" ++ s) = qm :: r /\
              qm :: r = text ++ json_break ind depth ++ "}" ++ s).
    { rewrite skip_ws_spaces by apply break_spaces. unfold text. cbn [map join]. destruct (member_head (S depth) kv) as [t ->].
      destruct (map (member_text (S depth)) d); cbn [app]; rewrite skip_ws_head by done; eauto. }
    destruct Eskip as (r & -> & Er). change (bool_decide (qm = "}"%char)) with false. cbn iota. rewrite Er. unfold text.
    rewrite (members_read (S depth) kv d f _ s Hd Hr); [|apply delim_spaces; [apply break_spaces|done]
      |by rewrite skip_ws_spaces by apply break_spaces|].
    + rewrite bind_of_Ok. by rewrite dict_update_new.
    + fold text. rewrite !length_app in *. change (length "{") with 1 in Hf. lia.
Qed.
End read_back.

(** Reading what was printed gives the value back: null, booleans, integers
    of any size, texts of any characters, arrays and objects with distinct keys,
    on one line or indented, and floats whose own text reads back; the newline
    that [print] or [write] adds does not matter. *)
Theorem loads_dumps indent v tail :
  json_wf v -> forallb is_json_space tail = true -> loads (dumps indent v ++ tail) = Ok v.
Proof.
  intros Hv Ht. unfold loads, dumps.
  destruct (dumps_head indent 0 v Hv) as (c & t & E & Hc & _). rewrite E. cbn [app]. rewrite skip_ws_head by done.
  change (c :: t ++ tail) with ((c :: t) ++ tail). rewrite <- E.
  rewrite (all_values_read indent v Hv); [|rewrite <- (app_nil_r tail); by apply delim_spaces|lia].
  rewrite bind_of_Ok. rewrite <- (app_nil_r tail), skip_ws_spaces by done. done.
Qed.

(** Sorting the keys keeps a value printable. *)
Lemma sort_keys_wf v : json_wf v -> json_wf (sort_keys v).
Proof.
  induction v as [|b|z|x|t|l IH|d IH] using json_nested_ind; intros H; inversion H as [| | | | |l' Hl|d' Hk Hd]; subst; try done.
  - constructor. rewrite Forall_forall in *. intros w (u & -> & Hu)%list_elem_of_fmap. auto.
  - cbn [sort_keys]. set (d' := map (fun '(k, v) => (k, sort_keys v)) d). pose proof (sort_by_Permutation (fun a b => str_ltb (fst a) (fst b)) d') as Hp.
    assert (Hkeys : dict_keys d' = dict_keys d).
    { unfold d', dict_keys. rewrite map_map. apply map_ext. by intros []. }
    constructor.
    + unfold dict_keys in *. rewrite Hp. by rewrite Hkeys.
    + rewrite Hp. rewrite Forall_forall in *. intros [k u] ([k' u'] & [= -> ->] & Hu)%list_elem_of_fmap. cbn.
      apply (IH (k', u') Hu), (Hd (k', u') Hu).
Qed.

Definition demo_json : json :=
  JArr [JObj [( # "Name", JStr ("a" ++ [qm; nl; "001"%char])); ( # "n", JInt (-12)); ( # "t", JFloat (float_of_dec 125 (-1)))];
        JNull; JObj []; JArr []].

Lemma loads_dumps_witness :
  dumps None demo_json = # "[{" ++ json_string "Name" ++ ": " ++ json_string ("a" ++ [qm; nl; "001"%char]) ++ ", " ++
    json_string "n" ++ ": -12, " ++ json_string "t" ++ ": 12.5}, null, {}, []]" /\
  loads (dumps (Some 4) demo_json ++ [nl]) = Ok demo_json.
Proof.
  split; [vm_compute; reflexivity|]. apply loads_dumps; [|reflexivity].
  constructor. repeat constructor; try (vm_compute; reflexivity); apply (bool_decide_unpack _); vm_compute; exact I.
Defined.
