(* ===== verification/Parsy.v ===== *)
(** * Parser combinators (the parsy package)

    tladfy.py builds its parsers with the combinators of the parsy package and
    its grammar is a term made of them.  Such a term is a [gram] here; [peg] is
    the behaviour the documentation of the package gives each combinator, and
    the package itself is the class [Parsy], which promises that behaviour for
    grammars whose recursion consumes something.  [reference_parsy] shows that
    the promise can be kept. *)
From S2P Require Import Prelude PyStr Regex.

(** ** Values and grammars

    Parsers give texts, lists, nothing ([optional]), the triples of [mark] and
    the pairs of [tag]. *)

Inductive value :=
  | VNone
  | VStr (s : str)
  | VPos (p : nat * nat)
  | VList (vs : list value)
  | VMarked (start : nat * nat) (v : value) (stop : nat * nat)
  | VTagged (name : str) (v : value).

(** [GRef x] is a parser made by [@generate], whose body is looked up when it
    runs; [N] names those. *)
Inductive gram (N : Set) :=
  | GRegex (r : re)
  | GString (s : str)
  | GSeq (gs : list (gram N))
  | GThen (g1 g2 : gram N)          (* g1 >> g2 *)
  | GAlt (g1 g2 : gram N)           (* g1 | g2 *)
  | GAtLeast (n : nat) (g : gram N) (* g.at_least(n); g.many() for n = 0 *)
  | GOptional (g : gram N)
  | GMark (g : gram N)
  | GTag (name : str) (g : gram N)
  | GRef (x : N).
Arguments GRegex {N} r.
Arguments GString {N} s.
Arguments GSeq {N} gs.
Arguments GThen {N} g1 g2.
Arguments GAlt {N} g1 g2.
Arguments GAtLeast {N} n g.
Arguments GOptional {N} g.
Arguments GMark {N} g.
Arguments GTag {N} name g.
Arguments GRef {N} x.
Notation GMany := (GAtLeast 0).

Lemma gram_nested_ind {N : Set} (P : gram N -> Prop) :
  (forall r, P (GRegex r)) -> (forall s, P (GString s)) ->
  (forall gs, Forall P gs -> P (GSeq gs)) ->
  (forall g1 g2, P g1 -> P g2 -> P (GThen g1 g2)) -> (forall g1 g2, P g1 -> P g2 -> P (GAlt g1 g2)) ->
  (forall n g, P g -> P (GAtLeast n g)) -> (forall g, P g -> P (GOptional g)) ->
  (forall g, P g -> P (GMark g)) -> (forall name g, P g -> P (GTag name g)) -> (forall x, P (GRef x)) ->
  forall g, P g.
Proof.
  intros Hre Hst Hseq Hthen Halt Hal Hopt Hmark Htag Href. fix IH 1.
  intros [r|s|gs|g1 g2|g1 g2|n g|g|g|name g|x];
    [apply Hre|apply Hst|apply Hseq|apply Hthen|apply Halt|apply Hal|apply Hopt|apply Hmark|apply Htag|apply Href]; try apply IH.
  induction gs as [|g gs IHgs]; constructor; [apply IH|exact IHgs].
Qed.

(** Indexing a value, as in [x[0][1][1]]: lists, pairs and triples. *)
Definition item (v : value) (i : nat) : res value :=
  match v with
  | VList vs => nth_res vs i
  | VMarked s v e => nth_res [VPos s; v; VPos e] i
  | VTagged n v => nth_res [VStr n; v] i
  | _ => Raise TypeError
  end.
Definition the_str (v : value) : res str := match v with VStr s => Ok s | _ => Raise TypeError end.

(** The text of a value, in order. *)
Fixpoint vtext (v : value) : str :=
  match v with
  | VNone | VPos _ => []
  | VStr s => s
  | VList vs => concat (map vtext vs)
  | VMarked _ v _ | VTagged _ v => vtext v
  end.

(** ** Running a parser *)

(** The text read, last character first, and the text ahead. *)
Record stream := At { past : str; ahead : str }.

(** Line and column, from 0, as [mark] gives them. *)
Fixpoint line_of (past : str) : nat :=
  match past with [] => 0 | c :: past' => if bool_decide (c = nl) then S (line_of past') else line_of past' end.
Fixpoint column_of (past : str) : nat :=
  match past with [] => 0 | c :: past' => if bool_decide (c = nl) then 0 else S (column_of past') end.
Definition line_info (st : stream) : nat * nat := (line_of (past st), column_of (past st)).

Inductive outcome :=
  | Succeeds (v : value) (st : stream)
  | Fails
  | Diverges.   (* the fuel is used up, or a loop goes round on nothing *)

Definition on_value (f : value -> value) (o : outcome) : outcome :=
  match o with Succeeds v st => Succeeds (f v) st | _ => o end.

Section run.
Context {N : Set} (body : N -> gram N).

(** A loop: as many rounds as succeed, and at least [n]. *)
Fixpoint at_least (p : stream -> outcome) (n fuel : nat) (vs : list value) (st : stream) : outcome :=
  match fuel with
  | O => Diverges
  | S fuel' =>
      match p st with
      | Succeeds v st' =>
          if length (ahead st') <? length (ahead st) then at_least p n fuel' (vs ++ [v]) st' else Diverges
      | Fails => if n <=? length vs then Succeeds (VList vs) st else Fails
      | Diverges => Diverges
      end
  end.

(** A sequence, given how each of its parsers runs. *)
Definition peg_seq (p : gram N -> stream -> outcome) : list (gram N) -> list value -> stream -> outcome :=
  fix go gs vs st :=
    match gs with
    | [] => Succeeds (VList vs) st
    | g :: gs' => match p g st with Succeeds v st' => go gs' (vs ++ [v]) st' | o => o end
    end.

Fixpoint peg_in (rec : gram N -> stream -> outcome) (g : gram N) (st : stream) : outcome :=
  match g with
  | GRegex r =>
      match run r (MSt (past st) (ahead st) []) with
      | m :: _ => Succeeds (VStr (text_between (MSt (past st) (ahead st) []) m)) (At (seen m) (rest m))
      | [] => Fails
      end
  | GString s =>
      if startswith (ahead st) s then Succeeds (VStr s) (At (rev s ++ past st) (drop (length s) (ahead st))) else Fails
  | GSeq gs => peg_seq (peg_in rec) gs [] st
  | GThen g1 g2 => match peg_in rec g1 st with Succeeds _ st' => peg_in rec g2 st' | o => o end
  | GAlt g1 g2 => match peg_in rec g1 st with Fails => peg_in rec g2 st | o => o end
  | GAtLeast n g1 => at_least (peg_in rec g1) n (S (length (ahead st))) [] st
  | GOptional g1 => match peg_in rec g1 st with Fails => Succeeds VNone st | o => o end
  | GMark g1 =>
      match peg_in rec g1 st with
      | Succeeds v st' => Succeeds (VMarked (line_info st) v (line_info st')) st'
      | o => o
      end
  | GTag name g1 => on_value (VTagged name) (peg_in rec g1 st)
  | GRef x => rec (body x) st
  end.

(** One unit of fuel per nested [@generate] parser. *)
Fixpoint peg (fuel : nat) (g : gram N) (st : stream) : outcome :=
  match fuel with O => Diverges | S f => peg_in (peg f) g st end.
End run.

(** [parser.parse(s)]: the whole text has to be read. *)
Definition answer (o : outcome) : res value :=
  match o with
  | Succeeds v (At _ []) => Ok v
  | Diverges => Raise OutOfFuel
  | _ => Raise ParseError
  end.

(** ** What a parser gives

    [gives g st v st']: reading from [st], [g] may give [v] and stop at [st'].
    Which of several readings is taken is a matter of [peg]. *)

Section gives.
Context {N : Set} (body : N -> gram N).

Inductive gives : gram N -> stream -> value -> stream -> Prop :=
  | G_Regex r st m :
      m ∈ run r (MSt (past st) (ahead st) []) ->
      gives (GRegex r) st (VStr (text_between (MSt (past st) (ahead st) []) m)) (At (seen m) (rest m))
  | G_String s st t : ahead st = s ++ t -> gives (GString s) st (VStr s) (At (rev s ++ past st) t)
  | G_Seq gs st vs st' : gives_all gs st vs st' -> gives (GSeq gs) st (VList vs) st'
  | G_Then g1 g2 st v1 st1 v st' : gives g1 st v1 st1 -> gives g2 st1 v st' -> gives (GThen g1 g2) st v st'
  | G_AltL g1 g2 st v st' : gives g1 st v st' -> gives (GAlt g1 g2) st v st'
  | G_AltR g1 g2 st v st' : gives g2 st v st' -> gives (GAlt g1 g2) st v st'
  | G_AtLeast n g st vs st' :
      n <= length vs -> gives_all (replicate (length vs) g) st vs st' -> gives (GAtLeast n g) st (VList vs) st'
  | G_Some g st v st' : gives g st v st' -> gives (GOptional g) st v st'
  | G_None g st : gives (GOptional g) st VNone st
  | G_Mark g st v st' : gives g st v st' -> gives (GMark g) st (VMarked (line_info st) v (line_info st')) st'
  | G_Tag name g st v st' : gives g st v st' -> gives (GTag name g) st (VTagged name v) st'
  | G_Ref x st v st' : gives (body x) st v st' -> gives (GRef x) st v st'
with gives_all : list (gram N) -> stream -> list value -> stream -> Prop :=
  | G_nil st : gives_all [] st [] st
  | G_cons g gs st v st1 vs st' :
      gives g st v st1 -> gives_all gs st1 vs st' -> gives_all (g :: gs) st (v :: vs) st'.

Scheme gives_mut := Minimality for gives Sort Prop
  with gives_all_mut := Minimality for gives_all Sort Prop.
Combined Scheme gives_both from gives_mut, gives_all_mut.

Lemma gives_all_snoc gs st vs st1 g v st' :
  gives_all gs st vs st1 -> gives g st1 v st' -> gives_all (gs ++ [g]) st (vs ++ [v]) st'.
Proof.
  induction 1 as [st|g0 gs st v0 st1 vs st2 H0 H1 IH]; intros Hg; cbn.
  - exact (G_cons g [] st v st' [] st' Hg (G_nil st')).
  - exact (G_cons g0 (gs ++ [g]) st v0 st1 (vs ++ [v]) st' H0 (IH Hg)).
Qed.

(** Inversion, one combinator at a time. *)
Lemma gives_GSeq gs st v st' : gives (GSeq gs) st v st' -> exists vs, v = VList vs /\ gives_all gs st vs st'.
Proof. inversion 1; subst. eauto. Qed.

Lemma gives_all_cons g gs st vs st' :
  gives_all (g :: gs) st vs st' -> exists v vs' st1, vs = v :: vs' /\ gives g st v st1 /\ gives_all gs st1 vs' st'.
Proof. inversion 1; subst. eauto 7. Qed.

Lemma gives_all_nil st vs st' : gives_all [] st vs st' -> vs = [] /\ st' = st.
Proof. by inversion 1. Qed.

Lemma gives_GThen g1 g2 st v st' : gives (GThen g1 g2) st v st' -> exists st1, gives g2 st1 v st'.
Proof. inversion 1; subst. eauto. Qed.

Lemma gives_GAtLeast n g st v st' :
  gives (GAtLeast n g) st v st' -> exists vs, v = VList vs /\ n <= length vs /\ gives_all (replicate (length vs) g) st vs st'.
Proof. inversion 1; subst. eauto. Qed.

Lemma gives_GOptional g st v st' :
  gives (GOptional g) st v st' -> gives g st v st' \/ v = VNone.
Proof. inversion 1; subst; eauto. Qed.

Section sound.
Context (rec : gram N -> stream -> outcome).
Hypothesis rec_gives : forall g st v st', rec g st = Succeeds v st' -> gives g st v st'.

Lemma at_least_gives g n fuel vs st0 st v st' :
  (forall st v st', peg_in body rec g st = Succeeds v st' -> gives g st v st') ->
  gives_all (replicate (length vs) g) st0 vs st ->
  at_least (peg_in body rec g) n fuel vs st = Succeeds v st' -> gives (GAtLeast n g) st0 v st'.
Proof.
  intros Hg. revert vs st. induction fuel as [|fuel IH]; intros vs st Hvs H; cbn [at_least] in H; [done|].
  destruct (peg_in body rec g st) as [v1 st1| |] eqn:E; [|destruct (Nat.leb_spec n (length vs)); [|done]|done].
  - destruct (length (ahead st1) <? length (ahead st)); [|done]. eapply IH in H; [done|].
    rewrite length_app, Nat.add_comm. cbn [length Nat.add]. rewrite replicate_S_end.
    eapply gives_all_snoc; eauto.
  - injection H as <- <-. by constructor.
Qed.

Lemma peg_seq_gives gs vs st0 st v st' done :
  Forall (fun g => forall st v st', peg_in body rec g st = Succeeds v st' -> gives g st v st') gs ->
  gives_all done st0 vs st -> peg_seq (peg_in body rec) gs vs st = Succeeds v st' ->
  exists vs', v = VList vs' /\ gives_all (done ++ gs) st0 vs' st'.
Proof.
  intros Hgs. revert vs st done. induction Hgs as [|g gs Hg Hgs IH]; intros vs st gs0 H0 H; cbn in H.
  - injection H as <- <-. exists vs. by rewrite app_nil_r.
  - destruct (peg_in body rec g st) as [v1 st2| |] eqn:E; [|done..]. apply Hg in E.
    apply (IH _ _ (gs0 ++ [g])) in H as (vs' & -> & H); [|by eapply gives_all_snoc].
    exists vs'. by rewrite <- app_assoc in H.
Qed.

Lemma peg_in_gives g st v st' : peg_in body rec g st = Succeeds v st' -> gives g st v st'.
Proof.
  revert st v st'. induction g as [r|s|gs IH|g1 g2 IH1 IH2|g1 g2 IH1 IH2|n g IH|g IH|g IH|name g IH|x] using gram_nested_ind;
    intros st v st' H; cbn [peg_in] in H.
  - destruct (run r _) as [|m l] eqn:E; [done|]. injection H as <- <-.
    constructor. rewrite E. apply list_elem_of_here.
  - destruct (startswith (ahead st) s) eqn:E; [|done]. injection H as <- <-.
    apply startswith_spec in E as [t E]. constructor. by rewrite E, drop_app_length.
  - destruct (peg_seq_gives gs [] st st v st' [] IH (G_nil st) H) as (vs' & -> & H'). by constructor.
  - destruct (peg_in body rec g1 st) as [v1 st1| |] eqn:E; [|done..]. econstructor; eauto.
  - destruct (peg_in body rec g1 st) as [v1 st1| |] eqn:E; [injection H as -> ->; by apply G_AltL, IH1| |done].
    by apply G_AltR, IH2.
  - eapply at_least_gives; [exact IH| |exact H]. constructor.
  - destruct (peg_in body rec g st) as [v1 st1| |] eqn:E; [injection H as -> ->; by apply G_Some, IH| |done].
    injection H as <- <-. apply G_None.
  - destruct (peg_in body rec g st) as [v1 st1| |] eqn:E; [|done..]. injection H as <- <-. apply G_Mark. by apply IH.
  - destruct (peg_in body rec g st) as [v1 st1| |] eqn:E; [|done..]. injection H as <- <-. apply G_Tag. by apply IH.
  - constructor. by apply rec_gives.
Qed.
End sound.

(** What a parser returns it gives. *)
Lemma peg_gives fuel g st v st' : peg body fuel g st = Succeeds v st' -> gives g st v st'.
Proof.
  revert g st v st'. induction fuel as [|f IH]; intros g st v st' H; [done|].
  cbn in H. eapply peg_in_gives; eauto.
Qed.
End gives.

(** A parser reads a piece of the text; where nothing is thrown away ([>>]) its
    value holds exactly that piece. *)
Fixpoint keeps {N : Set} (g : gram N) : bool :=
  match g with
  | GSeq gs => forallb keeps gs
  | GThen _ _ => false
  | GAlt g1 g2 => keeps g1 && keeps g2
  | GAtLeast _ g | GOptional g | GMark g | GTag _ g => keeps g
  | _ => true
  end.

Lemma gives_reads {N : Set} (body : N -> gram N) :
  (forall x, keeps (body x) = true) ->
  (forall g st v st', gives body g st v st' ->
     exists w, ahead st = w ++ ahead st' /\ past st' = rev w ++ past st /\ (keeps g = true -> vtext v = w)) /\
  (forall gs st vs st', gives_all body gs st vs st' ->
     exists w, ahead st = w ++ ahead st' /\ past st' = rev w ++ past st /\
               (forallb keeps gs = true -> concat (map vtext vs) = w)).
Proof.
  intros Hbody. apply gives_both; try done.
  - intros r [sn s] [sn' s' cs'] Hm. apply run_sound, matches_consumes in Hm as (w & E1 & E2). cbn in *.
    exists w. split_and!; [done|done|]. intros _. rewrite E1. exact (text_between_app sn sn' w s' [] cs').
  - intros s st t E. by exists s.
  - intros g1 g2 st v1 st1 v st' _ (w1 & A1 & B1 & _) _ (w2 & A2 & B2 & _). exists (w1 ++ w2).
    rewrite A1, A2, B2, B1, rev_app_distr, <- !app_assoc. split_and!; done.
  - intros g1 g2 st v st' _ (w & A & B & C). exists w. split_and!; try done. cbn. intros [? ?]%andb_true_iff. auto.
  - intros g1 g2 st v st' _ (w & A & B & C). exists w. split_and!; try done. cbn. intros [? ?]%andb_true_iff. auto.
  - intros n g st vs st' Hn _ (w & A & B & C). exists w. split_and!; try done. cbn. intros Hk. apply C.
    apply forallb_forall. by intros x <-%list_elem_of_In%elem_of_replicate_inv.
  - intros g st. exists []. done.
  - intros x st v st' _ (w & A & B & C). exists w. split_and!; try done. intros _. by apply C.
  - intros st. by exists [].
  - intros g gs st v st1 vs st' _ (w1 & A1 & B1 & C1) _ (w2 & A2 & B2 & C2). exists (w1 ++ w2).
    rewrite A1, A2, B2, B1, rev_app_distr, <- !app_assoc. split_and!; [done|done|]. cbn.
    intros [H1 H2]%andb_true_iff. by rewrite C1, C2.
Qed.

(** ** Parsing ends

    A grammar is well guarded when every recursion comes after something has
    been read and no loop can go round on nothing.  [nullable g]: [g] may
    succeed on nothing, the bodies of [@generate] parsers aside. *)

Fixpoint nullable {N : Set} (g : gram N) : bool :=
  match g with
  | GRegex r => negb (consuming r)
  | GString s => bool_decide (s = [])
  | GSeq gs => forallb nullable gs
  | GThen g1 g2 => nullable g1 && nullable g2
  | GAlt g1 g2 => nullable g1 || nullable g2
  | GAtLeast n g => (n =? 0) || nullable g
  | GOptional _ => true
  | GMark g | GTag _ g => nullable g
  | GRef _ => false
  end.

(** [guarded read g]: as above for [g], where something has been read before it
    when [read]. *)
Fixpoint guarded {N : Set} (read : bool) (g : gram N) : bool :=
  match g with
  | GRegex _ | GString _ => true
  | GSeq gs =>
      (fix go (read : bool) (gs : list (gram N)) : bool :=
         match gs with [] => true | g :: gs' => guarded read g && go (read || negb (nullable g)) gs' end) read gs
  | GThen g1 g2 => guarded read g1 && guarded (read || negb (nullable g1)) g2
  | GAlt g1 g2 => guarded read g1 && guarded read g2
  | GAtLeast _ g => guarded read g && negb (nullable g)
  | GOptional g | GMark g | GTag _ g => guarded read g
  | GRef _ => read
  end.
Fixpoint guarded_seq {N : Set} (read : bool) (gs : list (gram N)) : bool :=
  match gs with [] => true | g :: gs' => guarded read g && guarded_seq (read || negb (nullable g)) gs' end.

Lemma guarded_GSeq {N : Set} read (gs : list (gram N)) : guarded read (GSeq gs) = guarded_seq read gs.
Proof. revert read. induction gs as [|g gs IH]; intros read; [done|]. cbn. f_equal. apply IH. Qed.

Definition well_guarded {N : Set} (body : N -> gram N) : Prop :=
  forall x, guarded false (body x) = true /\ nullable (body x) = false.

Section ends.
Context {N : Set} (body : N -> gram N) (Hbody : well_guarded body).

(** Success without reading is possible only where [nullable] says so. *)
Lemma gives_consumes :
  (forall g st v st', gives body g st v st' ->
     length (ahead st') <= length (ahead st) /\ (nullable g = false -> length (ahead st') < length (ahead st))) /\
  (forall gs st vs st', gives_all body gs st vs st' ->
     length (ahead st') <= length (ahead st) /\ (forallb nullable gs = false -> length (ahead st') < length (ahead st))).
Proof.
  apply gives_both; cbn; try done.
  - intros r [sn s] [sn' s' cs'] Hm%run_sound. cbn. pose proof (matches_consumes _ _ _ Hm) as (w & E & _). cbn in E.
    split; [rewrite E, length_app; lia|]. intros Hc%negb_false_iff. by apply (matches_consuming _ _ _ Hm).
  - intros s st t E. rewrite E, length_app. split; [lia|]. intros Hs%bool_decide_eq_false. destruct s; [done|cbn; lia].
  - intros g1 g2 st v1 st1 v st' _ [A1 B1] _ [A2 B2]. split; [lia|].
    intros [H|H]%andb_false_iff; [specialize (B1 H)|specialize (B2 H)]; lia.
  - intros g1 g2 st v st' _ [A B]. split; [done|]. intros [? ?]%orb_false_iff. auto.
  - intros g1 g2 st v st' _ [A B]. split; [done|]. intros [? ?]%orb_false_iff. auto.
  - intros n g st vs st' Hn _ [A B]. split; [done|]. intros [Hn0%Nat.eqb_neq Hg]%orb_false_iff. apply B.
    destruct vs as [|v vs]; [cbn in Hn; lia|]. cbn. by rewrite Hg.
  - intros g st v st' _ [A _]. done.
  - intros x st v st' _ [A B]. destruct (Hbody x) as [_ Hx]. split; [done|]. intros _. by apply B.
  - intros g gs st v st1 vs st' _ [A1 B1] _ [A2 B2]. split; [lia|].
    intros [H|H]%andb_false_iff; [specialize (B1 H)|specialize (B2 H)]; lia.
Qed.

Section one_level.
Context (rec : gram N -> stream -> outcome) (n : nat).
Hypothesis rec_gives : forall g st v st', rec g st = Succeeds v st' -> gives body g st v st'.
Hypothesis rec_ends : forall x st, length (ahead st) < n -> rec (body x) st <> Diverges.

(** The room left, given whether something has been read since [n]. *)
Definition room (read : bool) (st : stream) : Prop :=
  if read then length (ahead st) < n else length (ahead st) <= n.

Lemma room_after g read st v st' :
  room read st -> peg_in body rec g st = Succeeds v st' -> room (read || negb (nullable g)) st'.
Proof.
  intros Hr H. apply (peg_in_gives body rec rec_gives), gives_consumes in H as [A B].
  unfold room in *. destruct read; cbn; [lia|]. destruct (nullable g); cbn; [lia|]. specialize (B eq_refl). lia.
Qed.

Lemma room_weaken read st : room read st -> length (ahead st) <= n.
Proof. destruct read; cbn; lia. Qed.

Lemma at_least_ends g k fuel vs st :
  (forall st', length (ahead st') <= length (ahead st) -> peg_in body rec g st' <> Diverges) ->
  nullable g = false -> length (ahead st) < fuel ->
  at_least (peg_in body rec g) k fuel vs st <> Diverges.
Proof.
  intros Hg Hn. revert vs st Hg. induction fuel as [|fuel IH]; intros vs st Hg Hf; [lia|]. cbn [at_least].
  pose proof (Hg st ltac:(lia)) as H0. destruct (peg_in body rec g st) as [v st'| |] eqn:E; [|by destruct (k <=? _)|done].
  apply (peg_in_gives body rec rec_gives), gives_consumes in E as [_ E]. specialize (E Hn).
  rewrite (proj2 (Nat.ltb_lt _ _) E). apply IH; [|lia]. intros st2 H2. apply Hg. lia.
Qed.

Lemma room_le read st st' : room read st -> length (ahead st') <= length (ahead st) -> room read st'.
Proof. destruct read; cbn; lia. Qed.

Lemma peg_seq_ends gs read vs st :
  Forall (fun g => forall read st, guarded read g = true -> room read st -> peg_in body rec g st <> Diverges) gs ->
  guarded_seq read gs = true -> room read st -> peg_seq (peg_in body rec) gs vs st <> Diverges.
Proof.
  intros Hgs. revert read vs st. induction Hgs as [|g gs Hg Hgs IH]; intros read vs st H Hr; cbn in *; [done|].
  apply andb_true_iff in H as [H1 H2]. pose proof (Hg read st H1 Hr) as H0.
  destruct (peg_in body rec g st) as [v st'| |] eqn:E; [|done..]. eapply IH; [exact H2|]. by eapply room_after.
Qed.

Lemma peg_in_ends g read st : guarded read g = true -> room read st -> peg_in body rec g st <> Diverges.
Proof.
  revert read st. induction g as [r|s|gs IH|g1 g2 IH1 IH2|g1 g2 IH1 IH2|k g IH|g IH|g IH|name g IH|x] using gram_nested_ind;
    intros read st Hg Hr; cbn [peg_in].
  - by destruct (run r _).
  - by destruct (startswith _ _).
  - rewrite guarded_GSeq in Hg. by eapply peg_seq_ends.
  - cbn in Hg. apply andb_true_iff in Hg as [H1 H2]. specialize (IH1 read st H1 Hr).
    destruct (peg_in body rec g1 st) as [v st'| |] eqn:E; [|done..]. eapply IH2; [exact H2|]. by eapply room_after.
  - cbn in Hg. apply andb_true_iff in Hg as [H1 H2]. specialize (IH1 read st H1 Hr).
    destruct (peg_in body rec g1 st); eauto.
  - cbn in Hg. apply andb_true_iff in Hg as [H1 H2%negb_true_iff]. apply at_least_ends; [|done|lia].
    intros st' Hst. eapply IH; [exact H1|]. by eapply room_le.
  - specialize (IH read st Hg Hr). by destruct (peg_in body rec g st).
  - specialize (IH read st Hg Hr). by destruct (peg_in body rec g st).
  - specialize (IH read st Hg Hr). by destruct (peg_in body rec g st).
  - cbn in Hg. subst read. by apply rec_ends.
Qed.
End one_level.

(** One level of recursion per character of the text is enough. *)
Theorem peg_ends fuel g read st :
  guarded read g = true -> (if read then length (ahead st) < fuel else length (ahead st) <= fuel) -> 
  peg body (S fuel) g st <> Diverges.
Proof.
  revert g read st. induction fuel as [|f IH]; intros g read st Hg Hf.
  - eapply (peg_in_ends (fun _ _ => Diverges) 0); [done|intros; lia|exact Hg|exact Hf].
  - change (peg_in body (peg body (S f)) g st <> Diverges).
    eapply (peg_in_ends (peg body (S f)) (S f)); [|intros; apply (IH _ false); [apply Hbody|lia]|exact Hg|exact Hf].
    intros g' st1 v st2. apply peg_gives.
Qed.
End ends.

(** ** The package

    What tladfy.py relies on, for grammars that do not recurse on nothing. *)
Class Parsy := {
  parse : forall {N : Set}, (N -> gram N) -> gram N -> str -> res value;
  parse_documented : forall (N : Set) (body : N -> gram N) g s,
    well_guarded body -> guarded true g = true ->
    parse body g s = answer (peg body (S (S (length s))) g (At [] s))
}.

#[export] Instance reference_parsy : Parsy := {|
  parse := fun N body g s => answer (peg body (S (S (length s))) g (At [] s));
  parse_documented := fun _ _ _ _ _ _ => eq_refl
|}.

Section parsy.
Context {P : Parsy} {N : Set} (body : N -> gram N) (g : gram N).
Hypothesis (Hbody : well_guarded body) (Hg : guarded true g = true).

(** A parser gives a value of its grammar, or raises [ParseError]. *)
Lemma parse_cases s :
  match parse body g s with
  | Ok v => exists past, gives body g (At [] s) v (At past [])
  | Raise e => e = ParseError
  end.
Proof.
  rewrite parse_documented by done.
  pose proof (peg_ends body Hbody (S (length s)) g true (At [] s) Hg ltac:(cbn; lia)) as H.
  destruct (peg body _ g _) as [v [past [|c t]]| |] eqn:E; cbn; try done. exists past. by eapply peg_gives.
Qed.

(** Where nothing is thrown away the value holds the whole text. *)
Lemma parse_keeps s v :
  (forall x, keeps (body x) = true) -> keeps g = true -> parse body g s = Ok v -> vtext v = s.
Proof.
  intros Hk Hkg H. pose proof (parse_cases s) as Hc. rewrite H in Hc. destruct Hc as [past Hv].
  apply (proj1 (gives_reads body Hk)) in Hv as (w & E & _ & T). cbn in E. rewrite app_nil_r in E. subst w. by apply T.
Qed.
End parsy.

(** ** Texts a parser reads

    [reads g w s Q]: before the text [s], [g] reads exactly [w] and gives a value
    with [Q]. *)

Section reads.
Context {N : Set} (body : N -> gram N) (rec : gram N -> stream -> outcome).

Definition reads (g : gram N) (w s : str) (Q : value -> Prop) : Prop :=
  forall past, exists v, peg_in body rec g (At past (w ++ s)) = Succeeds v (At (rev w ++ past) s) /\ Q v.
Definition reads_all (gs : list (gram N)) (w s : str) (Q : list value -> Prop) : Prop :=
  forall past vs, exists vs', peg_seq (peg_in body rec) gs vs (At past (w ++ s)) =
                             Succeeds (VList (vs ++ vs')) (At (rev w ++ past) s) /\ Q vs'.

Lemma reads_regex r w s :
  (forall sn, exists cs l, run r (MSt sn (w ++ s) []) = MSt (rev w ++ sn) s cs :: l) ->
  reads (GRegex r) w s (fun v => v = VStr w).
Proof.
  intros H past. destruct (H past) as (cs & l & E). exists (VStr w). cbn [peg_in Parsy.past ahead]. rewrite E.
  rewrite (text_between_app past (rev w ++ past) w s [] cs). done.
Qed.

Lemma reads_string w s : reads (GString w) w s (fun v => v = VStr w).
Proof.
  intros past. exists (VStr w). cbn. rewrite (proj2 (startswith_spec _ _)) by eauto. by rewrite drop_app_length.
Qed.

Lemma reads_tag name g w s Q :
  reads g w s Q -> reads (GTag name (GMark g)) w s (fun v => exists v0 st e, Q v0 /\ v = VTagged name (VMarked st v0 e)).
Proof. intros H past. destruct (H past) as (v & E & Hv). cbn. rewrite E. cbn. eauto 8. Qed.

Lemma reads_nil s : reads_all [] [] s (fun vs => vs = []).
Proof. intros past vs. exists []. cbn. by rewrite app_nil_r. Qed.

Lemma reads_cons g gs w1 w2 s Q1 (Q2 : list value -> Prop) :
  reads g w1 (w2 ++ s) Q1 -> reads_all gs w2 s Q2 ->
  reads_all (g :: gs) (w1 ++ w2) s (fun vs => exists v vs', vs = v :: vs' /\ Q1 v /\ Q2 vs').
Proof.
  intros H1 H2 past vs. rewrite <- app_assoc. destruct (H1 past) as (v & E1 & Hv).
  destruct (H2 (rev w1 ++ past) (vs ++ [v])) as (vs' & E2 & Hvs).
  exists (v :: vs'). cbn. rewrite E1, E2. rewrite <- !app_assoc, rev_app_distr, <- app_assoc. cbn. eauto 6.
Qed.

Lemma reads_seq gs w s Q : reads_all gs w s Q -> reads (GSeq gs) w s (fun v => exists vs, v = VList vs /\ Q vs).
Proof. intros H past. destruct (H past []) as (vs & E & Hvs). cbn. rewrite E. eauto. Qed.

Lemma reads_then g1 g2 w1 w2 s Q1 Q2 :
  reads g1 w1 (w2 ++ s) Q1 -> reads g2 w2 s Q2 -> reads (GThen g1 g2) (w1 ++ w2) s Q2.
Proof.
  intros H1 H2 past. rewrite <- app_assoc. destruct (H1 past) as (v1 & E1 & _).
  destruct (H2 (rev w1 ++ past)) as (v2 & E2 & Hv). exists v2. cbn. rewrite E1, E2.
  by rewrite rev_app_distr, <- app_assoc.
Qed.

Lemma reads_some g w s Q : reads g w s Q -> reads (GOptional g) w s Q.
Proof. intros H past. destruct (H past) as (v & E & Hv). cbn. rewrite E. eauto. Qed.

Lemma reads_none g s : (forall past, peg_in body rec g (At past s) = Fails) -> reads (GOptional g) [] s (fun v => v = VNone).
Proof. intros H past. cbn. rewrite H. eauto. Qed.

Lemma reads_weaken g w s (Q Q' : value -> Prop) : (forall v, Q v -> Q' v) -> reads g w s Q -> reads g w s Q'.
Proof. intros HQ H past. destruct (H past) as (v & E & Hv). eauto. Qed.

(** A loop over pieces that are not empty, up to a text the parser refuses. *)
Lemma reads_many {A} g (ws : list A) (text : A -> str) s (Q : A -> value -> Prop) :
  (forall past, peg_in body rec g (At past s) = Fails) ->
  (forall a ws', a ∈ ws -> reads g (text a) (concat (map text ws') ++ s) (Q a)) -> (forall a, text a <> []) ->
  reads (GMany g) (concat (map text ws)) s (fun v => exists vs, v = VList vs /\ Forall2 Q ws vs).
Proof.
  intros Hs Hr Hne past. cbn [peg_in ahead].
  assert (Hl : forall fuel vs past, length (concat (map text ws) ++ s) < fuel ->
    exists vs', at_least (peg_in body rec g) 0 fuel vs (At past (concat (map text ws) ++ s)) =
                Succeeds (VList (vs ++ vs')) (At (rev (concat (map text ws)) ++ past) s) /\ Forall2 Q ws vs').
  { clear past. induction ws as [|a ws IH]; intros fuel vs past Hf; (destruct fuel as [|fuel]; [lia|]); cbn [at_least].
    - cbn [map concat app rev]. rewrite Hs. exists []. by rewrite app_nil_r.
    - cbn [map concat]. rewrite <- app_assoc. destruct (Hr a ws ltac:(apply list_elem_of_here) past) as (v & E & Hv). rewrite E. cbn [ahead].
      assert (Hlt : length (concat (map text ws) ++ s) < length (text a ++ concat (map text ws) ++ s)).
      { rewrite (length_app (text a)). specialize (Hne a). destruct (text a); [done|cbn; lia]. }
      rewrite (proj2 (Nat.ltb_lt _ _) Hlt).
      destruct (IH ltac:(intros; apply Hr; by apply list_elem_of_further) fuel (vs ++ [v]) (rev (text a) ++ past)) as (vs' & E' & H'); [cbn [map concat] in Hf; rewrite <- app_assoc in Hf; lia|].
      exists (v :: vs'). rewrite E', rev_app_distr, <- !app_assoc. split; [done|]. by constructor. }
  destruct (Hl _ [] past (Nat.lt_succ_diag_r _)) as (vs & E & Hvs). eauto.
Qed.
End reads.

Lemma parse_reads {P : Parsy} {N : Set} (body : N -> gram N) g s Q :
  well_guarded body -> guarded true g = true ->
  reads body (peg body (S (length s))) g s [] Q -> exists v, parse body g s = Ok v /\ Q v.
Proof.
  intros Hb Hg H. rewrite parse_documented by done. destruct (H []) as (v & E & Hv). rewrite app_nil_r in E.
  exists v. change (peg body (S (S (length s))) g (At [] s)) with (peg_in body (peg body (S (length s))) g (At [] s)).
  by rewrite E.
Qed.
