(* ===== verification/Aggregate.v ===== *)
(** * Verification status (tools/lib_aggregate.py, tools/aggregate-verchk.py)

    Classifying the output of a Dafny run and aggregating the reports of a
    build into its worst condition. *)
From S2P Require Import Prelude PyStr Regex Paths PyFloat Json.

(** ** Conditions *)

Record DafnyCondition := Condition {
  level : nat;
  is_success : bool;
  result : str;
  style : str;
  verchk : option str;
  userTimeSec : option float
}.

Definition new_condition (l : nat) (ok : bool) (res sty : str) : DafnyCondition :=
  Condition l ok res sty None None.

Definition DafnyParseError := new_condition 0 false "parse error" "fillcolor=red; shape=trapezium".
Definition DafnyTypeError := new_condition 1 false "type error" "fillcolor=orange; shape=parallelogram".
Definition DafnyVerificationError :=
  new_condition 2 false "verification error" "fillcolor=yellow; shape=doubleoctagon".
Definition DafnyAssumeError :=
  new_condition 3 false "untrusted file contains assumptions" "fillcolor=cyan; shape=octagon".
Definition DafnyTimeoutError :=
  new_condition 4 false "verification timeout"
    ("fillcolor=" ++ [qm] ++ "#555555" ++ [qm] ++ "; fontcolor=white; shape=octagon").
Definition DafnyDynamicFrames := new_condition 5 true "dynamic frames" "fillcolor=blue; shape=egg".
Definition DafnyVerified :=
  new_condition 6 true "verified successfully" "fillcolor=green; shape=ellipse".
Definition DafnySyntaxOK := new_condition 7 true "syntax ok" "fillcolor=green; shape=ellipse".

(** [__lt__], [__repr__] and [json]. *)
Definition condition_lt (a b : DafnyCondition) : bool := level a <? level b.
Definition condition_repr (c : DafnyCondition) : str := result c.

Definition opt_json (o : option str) : Json.json := match o with Some s => JStr s | None => JNull end.
Definition json (c : DafnyCondition) : Json.json :=
  JObj [ (# "file", opt_json (verchk c)); (# "level", JInt (Z.of_nat (level c)));
         (# "result", JStr (result c)); (# "is_success", JBool (is_success c)) ].

(** ** Report types and file names *)

Definition SYNCHK : str := "synchk".
Definition VERCHK : str := "verchk".

Definition chkFromDafny (chk dfy : str) : str := "build/" ++ replace dfy ".dfy" ("." ++ chk).
Definition dafnyFromVerchk (v : str) : str :=
  replace (replace (replace v "build/" "./") ".verchk" ".dfy") ".synchk" ".dfy".

(** ** Patterns *)

Definition line_comment_re : re := seqs [Lit "//"; Star Dot; Eol].
Definition modifies_re : re := seqs [Bol; Star Space; Lit "modifies"].
Definition reads_re : re := seqs [Bol; Star Space; Lit "reads"].
Definition parse_errors_re : re := Lit "parse errors detected in".
Definition type_errors_re : re := Lit "resolution/type errors detected in".
Definition finished_re : re :=
  Seq (Lit "Dafny program verifier finished with ")
   (Seq (Grp 1 (Plus Digit)) (Seq (Lit " verified, ")
    (Seq (Grp 2 (Plus Digit)) (Seq (Lit " error")
     (Opt (Grp 3 (Seq (Star Dot) (Seq (Grp 4 (Plus Digit)) (Lit " time out"))))))))).
Definition user_time_re : re := seqs [BolM; Grp 1 (Plus (OneOf "0123456789.")); Lit "user"].

Section aggregate.
(** The working directory, and the files that can be opened. *)
Context (cwd : str) (fs : gmap str str).

Definition hasDisallowedAssumptions (v : str) : res bool :=
  let dfy := dafnyFromVerchk v in
  if endswith dfy ".s.dfy" then Ok false
  else contents ← py_open cwd fs dfy;
       Ok (existsb (fun line => contains "assume" (sub line_comment_re [] line)) (readlines contents)).

Definition hasDynamicFrames (v : str) : res bool :=
  contents ← py_open cwd fs (dafnyFromVerchk v);
  Ok (existsb (fun line => searchb modifies_re line || searchb reads_re line) (readlines contents)).

(** An integer group of a match. *)
Definition group_int (n : nat) (m : match_obj) : res Z :=
  s ← of_option TypeError (group n m); py_int s.

(** [rawTimeoutCount != None and int(rawTimeoutCount) > 0]. *)
Definition timed_out (mo : match_obj) : res bool :=
  match group 4 mo with
  | None => Ok false
  | Some s => n ← py_int s; Ok (0 <? n)%Z
  end.

Definition extractCondition (reportType report content : str) : res DafnyCondition :=
  if searchb parse_errors_re content then Ok DafnyParseError
  else if searchb type_errors_re content then Ok DafnyTypeError
  else match search finished_re content with
  | Some mo =>
      verifCount ← group_int 1 mo;
      errorCount ← group_int 2 mo;
      if (0 <? errorCount)%Z then Ok DafnyVerificationError
      else
        assume_found ← hasDisallowedAssumptions report;
        if (assume_found : bool) then Ok DafnyAssumeError
        else
          timedOut ← timed_out mo;
          if (timedOut : bool) then Ok DafnyTimeoutError else Ok DafnyVerified
  | None =>
      if bool_decide (reportType = VERCHK) then
        Raise (PyException ("build system error: couldn't summarize " ++ report ++ [nl]))
      else if bool_decide (reportType = SYNCHK) then
        assume_found ← hasDisallowedAssumptions report;
        if (assume_found : bool) then Ok DafnyAssumeError
        else dynamic ← hasDynamicFrames report;
             if (dynamic : bool) then Ok DafnyDynamicFrames else Ok DafnySyntaxOK
      else Raise (PyException ("build system error: unknown report type " ++ reportType ++ [nl]))
  end.

Definition summarize (reportType v : str) : res DafnyCondition :=
  contents ← py_open cwd fs v;
  let content := universal_newlines contents in
  time ← match search user_time_re content with
         | Some mo => s ← of_option TypeError (group 1 mo); t ← py_float s; Ok (Some t)
         | None => Ok None
         end;
  c ← extractCondition reportType v content;
  Ok (Condition (level c) (is_success c) (result c) (style c) (Some v) time).

(** ** aggregate-verchk.py *)

(** [sorted] by [__lt__]. *)
Definition sort_conditions (l : list DafnyCondition) : list DafnyCondition := sort_by condition_lt l.

(** [min]: the first of the smallest. *)
Definition min_condition (l : list DafnyCondition) : res DafnyCondition :=
  match l with
  | [] => Raise ValueError
  | c :: l' => Ok (fold_left (fun m d => if condition_lt d m then d else m) l' c)
  end.

Record aggregate_result := Aggregated {
  ag_is_success : bool; ag_worst : Json.json; ag_summaries : list Json.json
}.

Definition aggregate_main (reportType : str) (inputs : list str) : res aggregate_result :=
  let verchks := List.filter (fun prereq => endswith prereq ("." ++ reportType)) inputs in
  summarized ← map_res (summarize reportType) verchks;
  let summaries := sort_conditions summarized in
  worst ← min_condition summaries;
  Ok (Aggregated (is_success worst) (json worst) (map json summaries)).

(** What is printed: the report as JSON with sorted keys, and a newline. *)
Definition aggregate_json (r : aggregate_result) : Json.json :=
  JObj [ (# "is_success", JBool (ag_is_success r)); (# "worst", ag_worst r); (# "summaries", JArr (ag_summaries r)) ].
Definition aggregate_text (r : aggregate_result) : str := dumps (Some 4) (sort_keys (aggregate_json r)) ++ [nl].

(** The script: the report type is checked first.  The message of the
    exception has the conversion ["%0 <"], which [%] rejects with a
    [ValueError] before the exception can be built. *)
Definition aggregate_script (reportType : str) (inputs : list str) : res str :=
  if negb (bool_decide (reportType = SYNCHK) || bool_decide (reportType = VERCHK))
  then Raise ValueError
  else r ← aggregate_main reportType inputs; Ok (aggregate_text r).
End aggregate.

(** ** The summary line of a Dafny run

    [Dafny program verifier finished with v verified, e errors, t time outs],
    with singular nouns for one and the last part only when there are time
    outs; a newline ends it. *)
Definition plural (n : N) : str := if (n =? 1)%N then [] else "s".

Definition summary_tail (e : N) (t : option N) : str :=
  plural e ++ match t with
              | None => [nl]
              | Some n => ", " ++ dec_N n ++ " time out" ++ plural n ++ [nl]
              end.

Definition dafny_summary (v e : N) (t : option N) : str :=
  "Dafny program verifier finished with " ++ dec_N v ++ " verified, " ++ dec_N e ++ " error" ++
  summary_tail e t.

(** What the optional last group leaves in group 4. *)
Definition time_out_re : re := Grp 3 (Seq (Star Dot) (Seq (Grp 4 (Plus Digit)) (Lit " time out"))).

Lemma digit_not_nl c : is_digit c = true -> negb (bool_decide (c = nl)) = true.
Proof. intros H. rewrite bool_decide_eq_false_2; [done|]. by apply digit_neq. Qed.

Lemma plural_cases n : plural n = [] \/ plural n = "s".
Proof. unfold plural. destruct (n =? 1)%N; auto. Qed.

Lemma time_out_none sn e cs :
  run (Opt time_out_re) (MSt sn (summary_tail e None) cs) = [MSt sn (summary_tail e None) cs].
Proof.
  apply run_Opt_none. unfold summary_tail. by destruct (plural_cases e) as [-> | ->].
Qed.

(** Only the last digit of the number of time outs is left for [\d+]: the
    greedy [.*] before it takes the others. *)
Lemma time_out_last_digit sn d ps cs :
  is_digit d = true -> (ps = [] \/ ps = "s") ->
  exists st l, flat_map (run (Seq (Grp 4 (Plus Digit)) (Lit " time out")))
      (spans sn (d :: " time out" ++ ps) [nl] cs) = st :: l /\
    caps st = (4, [d]) :: cs.
Proof.
  intros Hd Hps. cbn [spans]. rewrite flat_map_app.
  replace (flat_map _ (spans (d :: sn) _ _ _)) with (@nil mstate)
    by (destruct Hps as [-> | ->]; reflexivity).
  cbn [app flat_map]. rewrite app_nil_r.
  destruct (run_Plus_Cls_first is_digit sn [d] (" time out" ++ ps ++ [nl]) cs) as (l & Hl);
    [by constructor|done|done|].
  destruct (run_Grp_first 4 _ _ _ _ Hl) as (l' & Hl').
  pose proof (run_Lit_app " time out" (rev [d] ++ sn) (ps ++ [nl]) ((4, [d]) :: cs)) as Hlit.
  rewrite capture_app in Hl'.
  destruct (run_Seq_first (Grp 4 (Plus Digit)) (Lit " time out") _ _ _ _ _ Hl' Hlit) as (l2 & Hl2).
  eexists _, l2. split; [etrans; [|exact Hl2]; by rewrite <- app_assoc|reflexivity].
Qed.

Lemma time_out_some sn e n cs :
  exists st l, run (Opt time_out_re) (MSt sn (summary_tail e (Some n)) cs) = st :: l /\
    exists txt, caps st = (3, txt) :: (4, [digit_char (N.to_nat (n mod 10))]) :: cs.
Proof.
  destruct (dec_N_last n) as (ds & Hdec & Hds). set (d := digit_char _) in *.
  assert (Hd : is_digit d = true) by (apply digit_char_ok; pose proof (N.mod_lt n 10); lia).
  unfold summary_tail. rewrite Hdec.
  destruct (time_out_last_digit (rev (plural e ++ ", " ++ ds) ++ sn) d (plural n) cs Hd (plural_cases n))
    as (st & l & Hfm & Hcaps).
  destruct (run_Star_then_first (fun a => negb (bool_decide (a = nl)))
    (Seq (Grp 4 (Plus Digit)) (Lit " time out")) sn (plural e ++ ", " ++ ds)
    (d :: " time out" ++ plural n) [nl] cs st l) as (l1 & Hl1); [|done|exact Hfm|].
  { rewrite !Forall_app. split; [split; [|split]|].
    - destruct (plural_cases e) as [-> | ->]; repeat constructor.
    - repeat constructor.
    - eapply Forall_impl; [exact Hds|]. apply digit_not_nl.
    - constructor; [by apply digit_not_nl|]. apply Forall_app. split; [repeat constructor|].
      destruct (plural_cases n) as [-> | ->]; repeat constructor. }
  destruct (run_Grp_first 3 _ _ _ _ Hl1) as (l2 & Hl2).
  destruct (run_Opt_first _ _ _ _ Hl2) as (l3 & Hl3).
  eexists _, l3. split.
  - rewrite <- Hl3. unfold time_out_re, Dot. do 2 f_equal.
    repeat (rewrite <- !app_assoc; cbn [app]). done.
  - eexists. cbn. by rewrite Hcaps.
Qed.

Lemma run_Plus_Digit_dec n sn s cs :
  stops is_digit s ->
  exists l, run (Plus Digit) (MSt sn (dec_N n ++ s) cs) = MSt (rev (dec_N n) ++ sn) s cs :: l.
Proof. intros H. destruct (dec_N_digits n). by apply run_Plus_Cls_first. Qed.

Lemma run_Grp_dec k n sn s cs :
  stops is_digit s ->
  exists l, run (Grp k (Plus Digit)) (MSt sn (dec_N n ++ s) cs) =
    MSt (rev (dec_N n) ++ sn) s ((k, dec_N n) :: cs) :: l.
Proof.
  intros H. destruct (run_Plus_Digit_dec n sn s cs H) as (l & Hl).
  destruct (run_Grp_first k _ _ _ _ Hl) as (l' & Hl'). rewrite capture_app in Hl'. by eexists.
Qed.

(** The groups the summary pattern captures. *)
Lemma finished_search v e t :
  exists m, search finished_re (dafny_summary v e t) = Some m /\
    group 1 m = Some (dec_N v) /\ group 2 m = Some (dec_N e) /\
    group 4 m = (fun n => [digit_char (N.to_nat (n mod 10))]) <$> t.
Proof.
  assert (Hopt : forall sn cs, exists st l,
    run (Opt time_out_re) (MSt sn (summary_tail e t) cs) = st :: l /\
    exists pre, caps st = pre ++ cs /\
      match t with None => pre = []
                 | Some n => exists txt, pre = [(3, txt); (4, [digit_char (N.to_nat (n mod 10))])] end).
  { intros sn cs. destruct t as [n|].
    - destruct (time_out_some sn e n cs) as (st & l & Hrun & txt & Hcaps).
      exists st, l. split; [done|]. eexists [_; _]. cbn. rewrite Hcaps. eauto.
    - exists (MSt sn (summary_tail e None) cs), []. split; [apply time_out_none|]. by exists []. }
  pose proof (run_Grp_dec 1 v (rev "Dafny program verifier finished with " ++ [])
    (" verified, " ++ dec_N e ++ " error" ++ summary_tail e t) []) as (l1 & H1); [done|].
  pose proof (run_Grp_dec 2 e (rev " verified, " ++ rev (dec_N v) ++ rev "Dafny program verifier finished with " ++ [])
    (" error" ++ summary_tail e t) [(1, dec_N v)]) as (l2 & H2); [done|].
  destruct (Hopt (rev " error" ++ rev (dec_N e) ++ rev " verified, " ++ rev (dec_N v)
    ++ rev "Dafny program verifier finished with " ++ []) [(2, dec_N e); (1, dec_N v)])
    as (st & l3 & H3 & pre & Hcaps & Hpre).
  destruct (run_Lit_first " error" _ _ _ _ _ _ H3) as (l4 & H4).
  destruct (run_Seq_first _ _ _ _ _ _ _ H2 H4) as (l5 & H5).
  destruct (run_Lit_first " verified, " _ _ _ _ _ _ H5) as (l6 & H6).
  destruct (run_Seq_first _ _ _ _ _ _ _ H1 H6) as (l7 & H7).
  destruct (run_Lit_first "Dafny program verifier finished with " _ _ _ _ _ _ H7) as (l8 & H8).
  eexists. split; [eapply search_hit; exact H8|]. unfold group. cbn [m_state]. rewrite Hcaps.
  clear -Hpre. destruct t as [n|]; [destruct Hpre as (txt & ->)|subst pre]; split_and!; reflexivity.
Qed.

(** Characters of a summary: the error markers have one it lacks. *)
Lemma not_in_summary v e t c :
  c = "c"%char \/ c = "/"%char -> c ∉ dafny_summary v e t.
Proof.
  intros Hc.
  assert (Hlit : forall w : str, forallb (fun x => negb (bool_decide (x = "c"%char)) && negb (bool_decide (x = "/"%char))) w = true -> c ∉ w).
  { intros w Hw Hin%list_elem_of_In. pose proof (proj1 (forallb_forall _ _) Hw c Hin) as H.
    by destruct Hc as [-> | ->]. }
  assert (Hdig : forall n, c ∉ dec_N n).
  { intros n Hin. destruct (dec_N_digits n) as [Hd _].
    pose proof (proj1 (Forall_forall _ _) Hd c Hin) as H. by destruct Hc as [-> | ->]. }
  assert (Hpl : forall n, c ∉ plural n).
  { intros n. by destruct (plural_cases n) as [-> | ->]; apply Hlit. }
  unfold dafny_summary, summary_tail. rewrite !not_elem_of_app.
  split_and!; auto. destruct t as [n|]; [|by apply Hlit].
  rewrite !not_elem_of_app. split_and!; auto.
Qed.

Lemma group_int_dec m k n : group k m = Some (dec_N n) -> group_int k m = Ok (Z.of_N n).
Proof. intros H. unfold group_int. rewrite H. cbn. apply py_int_dec_N. Qed.

Lemma py_int_last_digit n : py_int [digit_char (N.to_nat (n mod 10))] = Ok (Z.of_N (n mod 10)).
Proof.
  destruct (digit_char_ok (N.to_nat (n mod 10))) as [Hd Hv]; [pose proof (N.mod_lt n 10); lia|].
  rewrite py_int_digits by (by constructor || done). cbn. rewrite Hv. f_equal. lia.
Qed.

(** C3. The verdict for a run that reached its summary line, for all counts:
    any error is a verification error; otherwise an assumption in an untrusted
    file is reported; otherwise the run counts as timed out exactly when the
    LAST DIGIT of the number of time outs is not zero.  A run with ten, twenty
    or any multiple of ten time outs and no errors is reported as verified. *)
Theorem verdict_of_summary cwd fs reportType report v e t assumes :
  hasDisallowedAssumptions cwd fs report = Ok assumes ->
  extractCondition cwd fs reportType report (dafny_summary v e t) =
  Ok (if (0 <? e)%N then DafnyVerificationError
      else if assumes then DafnyAssumeError
      else match t with
           | Some n => if (n mod 10 =? 0)%N then DafnyVerified else DafnyTimeoutError
           | None => DafnyVerified
           end).
Proof.
  intros Has. unfold extractCondition, searchb, parse_errors_re, type_errors_re.
  rewrite (search_Lit_None _ "c"%char) by first [apply not_in_summary; by auto | apply list_elem_of_In; cbn; tauto].
  rewrite (search_Lit_None _ "/"%char) by first [apply not_in_summary; by auto | apply list_elem_of_In; cbn; tauto].
  destruct (finished_search v e t) as (m & -> & G1 & G2 & G4).
  rewrite (group_int_dec _ _ _ G1). cbn [mbind res_bind]. rewrite (group_int_dec _ _ _ G2). cbn [mbind res_bind].
  replace (0 <? Z.of_N e)%Z with (0 <? e)%N by (by destruct e).
  destruct (0 <? e)%N; [done|]. rewrite Has. cbn [mbind res_bind]. destruct assumes; [done|].
  unfold timed_out. rewrite G4. destruct t as [n|]; cbn [fmap option_fmap option_map]; [|done].
  rewrite py_int_last_digit. cbn [mbind res_bind].
  destruct (n mod 10)%N; done.
Qed.

(** ** File names *)

(** A path without its [.dfy], free of the markers the name functions look
    for. *)
Definition plain_base (chk base : str) : bool :=
  negb (contains ".dfy" (base ++ removelast ".dfy"))
  && negb (contains "build/" (base ++ "." ++ chk))
  && negb (contains ".verchk" ("./" ++ base ++ removelast ".verchk"))
  && negb (contains ".synchk" ("./" ++ base ++ removelast ".synchk"))
  && negb (contains ".verchk" ("./" ++ base ++ ".synchk"))
  && negb (contains ".synchk" ("./" ++ base ++ ".dfy")).

(** The report name of a source file leads back to the source file, by its
    path from the current directory. *)
Theorem chk_dafny_roundtrip chk base :
  chk = VERCHK \/ chk = SYNCHK -> plain_base chk base = true ->
  dafnyFromVerchk (chkFromDafny chk (base ++ ".dfy")) = "./" ++ base ++ ".dfy".
Proof.
  unfold plain_base. rewrite !andb_true_iff, !negb_true_iff.
  intros Hchk (((((H1 & H2) & H3) & H4) & H5) & H6). unfold chkFromDafny, dafnyFromVerchk.
  replace (base ++ ".dfy") with (base ++ # ".dfy" ++ []) by (by rewrite app_nil_r).
  rewrite (replace_first base ".dfy") by done. rewrite (replace_absent []), !app_nil_r by done.
  pose proof (replace_first [] "build/" (base ++ "." ++ chk) "./") as Hb. cbn [app] in Hb.
  cbn [app]. rewrite Hb by done. rewrite (replace_absent (base ++ _)) by done.
  destruct Hchk as [-> | ->].
  - pose proof (replace_first ("./" ++ base) ".verchk" [] ".dfy") as Hv.
    rewrite <- !app_assoc, !app_nil_r in Hv. change ("." ++ VERCHK) with # ".verchk".
    rewrite Hv by (done || by rewrite <- app_assoc). by rewrite replace_absent.
  - change ("." ++ SYNCHK) with # ".synchk".
    rewrite (replace_absent _ ".verchk") by done.
    pose proof (replace_first ("./" ++ base) ".synchk" [] ".dfy") as Hv.
    rewrite <- !app_assoc, !app_nil_r in Hv.
    by rewrite Hv by (done || by rewrite <- app_assoc).
Qed.

(** ** Aggregation *)

#[local] Arguments condition_lt : simpl never.

Lemma sort_conditions_Permutation l : sort_conditions l ≡ₚ l.
Proof. unfold sort_conditions. auto with py. Qed.

Definition level_le (a b : DafnyCondition) : Prop := level a <= level b.

#[export] Instance condition_order : WeakOrder condition_lt := key_order level Nat.ltb.

Lemma sort_conditions_sorted l : StronglySorted level_le (sort_conditions l).
Proof.
  eapply StronglySorted_weaken; [|apply (sort_by_sorted condition_lt)].
  intros a b. apply Nat.ltb_ge.
Qed.

(** Of a sorted list, [min] is the first element. *)
Lemma min_condition_sorted l c :
  StronglySorted level_le l -> min_condition l = Ok c -> exists l', l = c :: l'.
Proof.
  intros Hs H. destruct l as [|d l]; [done|]. cbn in H. injection H as H. exists l. f_equal.
  inversion Hs as [|? ? _ Hall]; subst. clear Hs. induction Hall as [|x l Hx Hall IH]; [done|].
  cbn. unfold condition_lt in *. by rewrite (proj2 (Nat.ltb_ge _ _)).
Qed.

(** Success is a matter of the level. *)
Definition condition_wf (c : DafnyCondition) : Prop := is_success c = (5 <=? level c).

Lemma extractCondition_wf cwd fs rt rep content c :
  extractCondition cwd fs rt rep content = Ok c -> condition_wf c.
Proof.
  unfold extractCondition, condition_wf. intros H.
  repeat first [ progress simplify_eq/= | case_match
               | match goal with H : (_ ≫= _) = Ok _ |- _ => apply bind_Ok in H as (? & _ & H) end ];
    done.
Qed.

Lemma summarize_wf cwd fs rt v c : summarize cwd fs rt v = Ok c -> condition_wf c /\ verchk c = Some v.
Proof.
  unfold summarize. intros (contents & _ & H)%bind_Ok. apply bind_Ok in H as (t & _ & H).
  apply bind_Ok in H as (d & Hd & H). injection H as <-. by apply extractCondition_wf in Hd.
Qed.

Lemma json_is_wf c : json_wf (json c).
Proof.
  constructor; [apply (bool_decide_unpack _); vm_compute; exact I|].
  repeat constructor. cbn. by destruct (verchk c); constructor.
Qed.

Lemma aggregate_reads_back b w cs :
  json_wf w -> Forall json_wf cs ->
  loads (aggregate_text (Aggregated b w cs)) = Ok (sort_keys (aggregate_json (Aggregated b w cs))).
Proof.
  intros Hw Hcs. apply loads_dumps; [|done]. apply sort_keys_wf. constructor; [apply (bool_decide_unpack _); vm_compute; exact I|].
  repeat constructor; done.
Qed.

(** C24. The aggregate report of a build: its summaries are those of all the
    inputs of the report type, worst first; its worst entry has the lowest
    level of all; and it is a success exactly when every one of them is.  What the script prints
    reads back as that report. *)
Theorem aggregate_is_worst cwd fs rt inputs r :
  aggregate_main cwd fs rt inputs = Ok r ->
  exists cs, map_res (summarize cwd fs rt) (List.filter (fun p => endswith p ("." ++ rt)) inputs) = Ok cs /\
    ag_summaries r = map json (sort_conditions cs) /\
    sort_conditions cs ≡ₚ cs /\ StronglySorted level_le (sort_conditions cs) /\
    (exists w, w ∈ cs /\ ag_worst r = json w /\ Forall (level_le w) cs) /\
    (ag_is_success r = true <-> Forall (fun c => is_success c = true) cs) /\
    loads (aggregate_text r) = Ok (sort_keys (aggregate_json r)).
Proof.
  unfold aggregate_main. intros (cs & Hcs & H)%bind_Ok. apply bind_Ok in H as (w & Hw & H).
  injection H as <-. exists cs. cbn [ag_summaries ag_worst ag_is_success].
  pose proof (sort_conditions_Permutation cs) as Hperm. pose proof (sort_conditions_sorted cs) as Hsort.
  destruct (min_condition_sorted _ _ Hsort Hw) as (l & Hl).
  assert (Hmin : Forall (level_le w) cs).
  { rewrite <- Hperm, Hl. rewrite Hl in Hsort. inversion Hsort; subst. constructor; [by unfold level_le|done]. }
  assert (Hwin : w ∈ cs) by (rewrite <- Hperm, Hl; apply list_elem_of_here).
  assert (Hwf : Forall condition_wf cs).
  { apply Forall_forall. intros c Hc. apply (map_res_elem _ _ _ _ Hcs) in Hc as (v & _ & Hv).
    by apply summarize_wf in Hv as [? _]. }
  split_and!; try done; [by exists w| |].
  2: { apply aggregate_reads_back; [apply json_is_wf|]. apply Forall_forall. intros v (c & -> & _)%list_elem_of_fmap. apply json_is_wf. }
  rewrite !Forall_forall in *. unfold condition_wf, level_le in *. split.
  - intros Hok c Hc. rewrite (Hwf c Hc). rewrite (Hwf w Hwin) in Hok.
    apply Nat.leb_le in Hok. apply Nat.leb_le. specialize (Hmin c Hc). lia.
  - intros Hall. by apply Hall.
Qed.

(** ** Examples *)

Definition demo_files : gmap str str := list_to_map
  [ (# "/r/Impl/A.i.dfy", "lemma L() { // we assume nothing" ++ [nl] ++ "}");
    (# "/r/Impl/B.i.dfy", # "lemma L() { assume false; }");
    (# "/r/build/Impl/A.i.verchk",
       dafny_summary 12 0 (Some 10%N) ++ "3.52user 0.10system" ++ [nl]);
    (# "/r/build/Impl/B.i.verchk", dafny_summary 3 0 None);
    (# "/r/build/Impl/C.i.synchk", # "2 parse errors detected in C.i.dfy") ].

Definition demo_report : str := "build/Impl/A.i.verchk".

Lemma verdict_of_summary_witness :
  hasDisallowedAssumptions "/r" demo_files demo_report = Ok false /\
  extractCondition "/r" demo_files VERCHK demo_report (dafny_summary 12 0 (Some 20%N)) = Ok DafnyVerified /\
  extractCondition "/r" demo_files VERCHK demo_report (dafny_summary 12 0 (Some 21%N)) = Ok DafnyTimeoutError.
Proof.
  assert (H : hasDisallowedAssumptions "/r" demo_files demo_report = Ok false) by (vm_compute; reflexivity).
  split; [exact H|]. split.
  - exact (verdict_of_summary "/r" demo_files VERCHK demo_report 12 0 (Some 20%N) false H).
  - exact (verdict_of_summary "/r" demo_files VERCHK demo_report 12 0 (Some 21%N) false H).
Defined.

Lemma chk_dafny_roundtrip_witness :
  plain_base VERCHK "Impl/BlockSystem.i" = true /\
  dafnyFromVerchk (chkFromDafny VERCHK ("Impl/BlockSystem.i" ++ ".dfy")) = "./" ++ "Impl/BlockSystem.i" ++ ".dfy".
Proof.
  split; [vm_compute; reflexivity|].
  apply (chk_dafny_roundtrip VERCHK "Impl/BlockSystem.i"); [by left|vm_compute; reflexivity].
Defined.

Lemma aggregate_is_worst_witness :
  exists r, aggregate_main "/r" demo_files VERCHK ["build/Impl/A.i.verchk" : str; "build/Impl/C.i.synchk" : str; "build/Impl/B.i.verchk" : str] = Ok r /\
    ag_is_success r = false /\
    exists cs, map_res (summarize "/r" demo_files VERCHK)
        (List.filter (fun p => endswith p ("." ++ VERCHK)) ["build/Impl/A.i.verchk" : str; "build/Impl/C.i.synchk" : str; "build/Impl/B.i.verchk" : str]) = Ok cs /\
      ag_summaries r = map json (sort_conditions cs) /\
      sort_conditions cs ≡ₚ cs /\ StronglySorted level_le (sort_conditions cs) /\
      (exists w, w ∈ cs /\ ag_worst r = json w /\ Forall (level_le w) cs) /\
      (ag_is_success r = true <-> Forall (fun c => is_success c = true) cs) /\
      loads (aggregate_text r) = Ok (sort_keys (aggregate_json r)).
Proof.
  eexists. split; [vm_compute; reflexivity|]. split; [reflexivity|].
  apply (aggregate_is_worst "/r" demo_files VERCHK). vm_compute; reflexivity.
Defined.

(** The reported user time is the float of the first [user] line. *)
Example summarize_time :
  (t ← summarize "/r" demo_files VERCHK demo_report; Ok (float_repr <$> userTimeSec t)) = Ok (Some # "3.52").
Proof. vm_compute. reflexivity. Qed.

(** What the script prints for one report. *)
Example aggregate_prints :
  aggregate_script "/r" demo_files VERCHK ["build/Impl/B.i.verchk" : str] =
  Ok (join [nl] (map (fun l => replace l "'" [qm])
    [ # "{"; # "    'is_success': false,"; # "    'summaries': ["; # "        {";
      # "            'file': 'build/Impl/B.i.verchk',"; # "            'is_success': false,"; # "            'level': 3,";
      # "            'result': 'untrusted file contains assumptions'"; # "        }"; # "    ],"; # "    'worst': {";
      # "        'file': 'build/Impl/B.i.verchk',"; # "        'is_success': false,"; # "        'level': 3,";
      # "        'result': 'untrusted file contains assumptions'"; # "    }"; # "}"; []])).
Proof. vm_compute. reflexivity. Qed.
