(* ===== verification/DepGraph.v ===== *)
(** * The dependency graph drawing (tools/dep-graph.py)

    The traversal that collects the edges of the include graph of one root,
    and the GraphViz file: the legend, one coloured node per file, one cluster
    per source directory. *)
From S2P Require Import Prelude PyStr Regex Paths Deps PyFloat Aggregate.

(** The attributes of [Traverser]. *)
Record traverser := Traverser {
  output : list str;
  count : nat;
  visited : list iref
}.

Definition emit_line (line : str) (t : traverser) : traverser :=
  Traverser (output t ++ [line]) (count t) (visited t).
Definition emit_lines (lines : list str) (t : traverser) : traverser :=
  Traverser (output t ++ lines) (count t) (visited t).

Definition quoted (s : str) : str := [qm] ++ s ++ [qm].
Definition edge_line (a b : str) : str := quoted a ++ " -> " ++ quoted b ++ ";".

(** The node line shared by the legend and the files. *)
Definition node_line (name sty label : str) : str :=
  quoted name ++ " [style=filled; " ++ sty ++ "; label=" ++ quoted label ++ "];".

Section dep_graph.
Context (cwd ROOT_PATH : str) (fs : gmap str str) {SO : SetOrder}.

(** [visit]: recursive, so the fuel bounds the depth of the calls. *)
Fixpoint visit (fuel : nat) (t : traverser) (r : iref) : res traverser :=
  match fuel with
  | O => Raise OutOfFuel
  | S f =>
      let t := Traverser (output t) (S (count t)) (visited t) in
      if iref_in r (visited t) then Ok t
      else
        let t := Traverser (output t) (count t) (iref_add r (visited t)) in
        deps ← childrenForIref cwd ROOT_PATH fs r;
        let t := emit_lines (map (fun dep => edge_line (normPath r) (normPath dep)) deps) t in
        deps' ← childrenForIref cwd ROOT_PATH fs r;
        for_each (visit f) deps' t
  end.

(** Each call on the stack has added a file that exists to [visited]. *)
Definition visit_fuel : nat := S (size fs).

Definition legend_samples (reportType : str) : res (list DafnyCondition) :=
  if bool_decide (reportType = SYNCHK) then
    Ok [DafnyParseError; DafnyTypeError; DafnyAssumeError; DafnyDynamicFrames; DafnySyntaxOK]
  else if bool_decide (reportType = VERCHK) then
    Ok [DafnyParseError; DafnyTypeError; DafnyVerificationError; DafnyAssumeError;
        DafnyTimeoutError; DafnyVerified; DafnySyntaxOK]
  else Raise AssertionError.

Definition legend (reportType : str) (t : traverser) : res traverser :=
  samples ← legend_samples reportType;
  let chain := zip_with (fun l r => edge_line (result l) (result r)) samples (tail samples) in
  let header := [ # "subgraph cluster_legend {"; "  label=" ++ quoted "legend";
                 # "  style=filled"; # "  color=lightgrey"; # "    fontsize=48"] in
  Ok (emit_lines (chain ++ header ++
        map (fun s => node_line (result s) (style s) (result s)) samples ++ [ # "}"]) t).

Definition getSummary (reportType : str) (r : iref) : res DafnyCondition :=
  let report := replace (path_join (path_join ROOT_PATH "build") (normPath r)) ".dfy" ("." ++ reportType) in
  summarize cwd fs reportType report.

(** [breakName]: the part after the last slash; there is no [parts[1]] when
    the name has no slash. *)
Definition breakName (name : str) : res str := nth_res (rsplit1 slash name) 1.

(** ["%s" % summary.userTimeSec]. *)
Definition time_str (t : option float) : str :=
  match t with None => "None" | Some x => float_repr x end.

Definition fill_line (reportType : str) (r : iref) : res str :=
  summary ← getSummary reportType r;
  label ← breakName (normPath r);
  Ok (node_line (normPath r) (style summary) (label ++ [nl] ++ time_str (userTimeSec summary) ++ "s")).

Definition addFillColors (reportType : str) (t : traverser) : res traverser :=
  for_each (fun t r => line ← fill_line reportType r; Ok (emit_line line t))
    (set_order (visited t)) t.

(** [rsplit("/", 1)[0]], which always exists. *)
Definition sourceDir (r : iref) : str := default [] (head (rsplit1 slash (normPath r))).

Definition members (prefix : str) (files : list iref) : list str :=
  map (fun r => quoted (normPath r)) (List.filter (fun r => bool_decide (sourceDir r = prefix)) files).

Definition cluster (files : list iref) (prefix : str) : list str :=
  let dot_safe_prefix := replace (replace prefix "/" "_") "-" "_" in
  ["subgraph cluster_" ++ dot_safe_prefix ++ " {"; "    label=" ++ quoted prefix;
   # "    style=filled"; # "    color=lightblue"; # "    fontsize=48"]
  ++ map (fun member => "    " ++ member ++ ";") (members prefix files) ++ [ # "}"].

Definition prefixes (t : traverser) : list str :=
  set_order (remove_dups (map sourceDir (visited t))).

Definition createSubgraphs (t : traverser) : traverser :=
  emit_lines (flat_map (cluster (set_order (visited t))) (prefixes t)) t.

(** The constructor, up to what [emit] writes. *)
Definition Traverser_init (reportType rootDfy : str) : res traverser :=
  let t := Traverser [ # "digraph {"] 0 [] in
  root ← mk_iref cwd ROOT_PATH None 0 rootDfy;
  t ← visit visit_fuel t root;
  t ← legend reportType t;
  t ← addFillColors reportType t;
  Ok (emit_line "}" (createSubgraphs t)).

(** [emit]: the contents of the output file. *)
Definition emit (t : traverser) : str := flat_map (fun line => line ++ [nl]) (output t).

(** [main]: the bare [except] turns a missing or wrong argument into the usage
    message and an exit. *)
Definition dep_graph_main (args : list str) : res (str * str) :=
  match args with
  | reportType :: rootDfy :: outputFilename :: _ =>
      if bool_decide (reportType = VERCHK) || bool_decide (reportType = SYNCHK) then
        t ← Traverser_init reportType rootDfy; Ok (outputFilename, emit t)
      else Raise SystemExit
  | _ => Raise SystemExit
  end.
End dep_graph.

#[global] Arguments quoted : simpl never.
#[global] Arguments edge_line : simpl never.
#[global] Arguments node_line : simpl never.
#[global] Arguments iref_in : simpl never.

(** ** The traversal *)

Section traversal.
Context (cwd ROOT_PATH : str) (fs : gmap str str).

(** The edge lines of one file. *)
Definition edges_of (r : iref) : res (list str) :=
  deps ← childrenForIref cwd ROOT_PATH fs r;
  Ok (map (fun dep => edge_line (normPath r) (normPath dep)) deps).

(** What visiting a list of references adds to the state: [new] files with
    their edge lines, in the same order. *)
Record grows (starts : list str) (t t' : traverser) (new : list iref) (blocks : list (list str)) : Prop := {
  g_visited : visited t' = visited t ++ new;
  g_nodup : NoDup (paths (visited t)) -> NoDup (paths (visited t'));
  g_blocks : map_res edges_of new = Ok blocks;
  g_output : output t' = output t ++ concat blocks;
  g_count : count t' = count t + length starts + length (concat blocks);
  g_closed : forall v q, v ∈ paths new -> includes cwd fs v q -> q ∈ paths (visited t');
  g_starts : forall q, q ∈ starts -> q ∈ paths (visited t');
  g_origin : forall q, q ∈ paths new -> exists s, s ∈ starts /\ rtc (includes cwd fs) s q
}.

Lemma grows_nil t : grows [] t t [] [].
Proof.
  constructor; cbn; try (by rewrite app_nil_r); try done; try lia;
    intros; by match goal with H : _ ∈ [] |- _ => apply not_elem_of_nil in H end.
Qed.

Lemma grows_app s1 s2 t t1 t2 n1 n2 b1 b2 :
  grows s1 t t1 n1 b1 -> grows s2 t1 t2 n2 b2 -> grows (s1 ++ s2) t t2 (n1 ++ n2) (b1 ++ b2).
Proof.
  intros G1 G2.
  assert (Hmono : forall q, q ∈ paths (visited t1) -> q ∈ paths (visited t2)).
  { intros q Hq. rewrite (g_visited _ _ _ _ _ G2), elem_of_paths_app. auto. }
  constructor.
  - by rewrite (g_visited _ _ _ _ _ G2), (g_visited _ _ _ _ _ G1), app_assoc.
  - intros H. by apply (g_nodup _ _ _ _ _ G2), (g_nodup _ _ _ _ _ G1).
  - pose proof (g_blocks _ _ _ _ _ G1) as H1. pose proof (g_blocks _ _ _ _ _ G2) as H2.
    apply map_res_Forall2 in H1, H2. apply map_res_Forall2. by apply Forall2_app.
  - by rewrite (g_output _ _ _ _ _ G2), (g_output _ _ _ _ _ G1), concat_app, app_assoc.
  - rewrite (g_count _ _ _ _ _ G2), (g_count _ _ _ _ _ G1), concat_app, !length_app. lia.
  - intros v q. rewrite elem_of_paths_app. intros [Hv|Hv] Hi.
    + by eapply Hmono, (g_closed _ _ _ _ _ G1).
    + by eapply (g_closed _ _ _ _ _ G2).
  - intros q [Hq|Hq]%elem_of_app.
    + by eapply Hmono, (g_starts _ _ _ _ _ G1).
    + by eapply (g_starts _ _ _ _ _ G2).
  - intros q [Hq|Hq]%elem_of_paths_app.
    + destruct (g_origin _ _ _ _ _ G1 q Hq) as (s & ? & ?). exists s. rewrite elem_of_app. auto.
    + destruct (g_origin _ _ _ _ _ G2 q Hq) as (s & ? & ?). exists s. rewrite elem_of_app. auto.
Qed.

Lemma for_each_grows f cs t t' :
  (forall t r t', r ∈ cs -> f t r = Ok t' -> exists new blocks, grows [absPath r] t t' new blocks) ->
  for_each f cs t = Ok t' -> exists new blocks, grows (paths cs) t t' new blocks.
Proof.
  revert t. induction cs as [|c cs IH]; intros t Hf H; cbn in H.
  - simplify_eq. eexists [], []. apply grows_nil.
  - apply bind_Ok in H as (t1 & H1 & H2).
    destruct (Hf _ _ _ ltac:(apply list_elem_of_here) H1) as (n1 & b1 & G1).
    destruct (IH t1) as (n2 & b2 & G2); [|done|].
    + intros. apply Hf; [by apply list_elem_of_further|done].
    + exists (n1 ++ n2), (b1 ++ b2). exact (grows_app [absPath c] (paths cs) _ _ _ _ _ _ _ G1 G2).
Qed.

(** Entering a file and then visiting what it includes. *)
Lemma grows_enter r cs t t' new blocks :
  absPath r ∉ paths (visited t) -> childrenForIref cwd ROOT_PATH fs r = Ok cs ->
  let edges := map (fun dep => edge_line (normPath r) (normPath dep)) cs in
  grows (paths cs) (Traverser (output t ++ edges) (S (count t)) (visited t ++ [r])) t' new blocks ->
  grows [absPath r] t t' (r :: new) (edges :: blocks).
Proof.
  intros Hr Hcs edges G.
  destruct (childrenForIref_Ok _ _ _ _ _ Hcs) as (contents & _ & _ & Hch & _).
  assert (Hin : forall q, q = absPath r \/ q ∈ paths new -> q ∈ paths (visited t')).
  { intros q Hq. rewrite (g_visited _ _ _ _ _ G). cbn.
    rewrite !elem_of_paths_app, elem_of_paths_cons. naive_solver. }
  constructor.
  - rewrite (g_visited _ _ _ _ _ G). cbn. by rewrite <- app_assoc.
  - intros H. apply (g_nodup _ _ _ _ _ G). cbn. rewrite paths_snoc. apply NoDup_app.
    split_and!; [done| |apply NoDup_singleton]. by intros x Hx ->%list_elem_of_singleton.
  - assert (E : edges_of r = Ok edges) by (unfold edges_of; by rewrite Hcs).
    cbn [map_res]. rewrite E, bind_of_Ok. by rewrite (g_blocks _ _ _ _ _ G).
  - rewrite (g_output _ _ _ _ _ G). cbn. by rewrite <- app_assoc.
  - rewrite (g_count _ _ _ _ _ G). cbn. unfold edges, paths. rewrite length_app, !length_map. lia.
  - intros v q. rewrite elem_of_paths_cons. intros [->|Hv] Hi.
    + by apply (g_starts _ _ _ _ _ G), Hch.
    + by eapply (g_closed _ _ _ _ _ G).
  - intros q ->%list_elem_of_singleton. auto.
  - intros q. rewrite elem_of_paths_cons. intros [->|Hq].
    + exists (absPath r). split; [apply list_elem_of_here|apply rtc_refl].
    + destruct (g_origin _ _ _ _ _ G q Hq) as (s & Hs & Hsq). exists (absPath r).
      split; [apply list_elem_of_here|]. eapply rtc_l; [|exact Hsq]. by apply Hch.
Qed.

Lemma grows_again r t :
  absPath r ∈ paths (visited t) ->
  grows [absPath r] t (Traverser (output t) (S (count t)) (visited t)) [] [].
Proof.
  intros Hr. constructor; cbn; rewrite ?app_nil_r; try done; try lia.
  - by intros ? ? ?%not_elem_of_nil.
  - by intros q ->%list_elem_of_singleton.
  - by intros ? ?%not_elem_of_nil.
Qed.

Lemma visit_grows fuel t r t' :
  visit cwd ROOT_PATH fs fuel t r = Ok t' -> exists new blocks, grows [absPath r] t t' new blocks.
Proof.
  revert t r t'. induction fuel as [|fuel IH]; intros t r t' H; cbn in H; [done|].
  destruct (iref_in r (visited t)) eqn:Hin.
  - injection H as <-. apply iref_in_spec in Hin. exists [], []. apply grows_again, Hin.
  - apply bind_Ok in H as (cs & Hcs & H). rewrite Hcs in H. cbn in H.
    unfold iref_add in H. rewrite Hin in H. apply for_each_grows in H as (new & blocks & G).
    + eexists _, _. eapply grows_enter; [|exact Hcs|exact G].
      intros E%iref_in_spec. congruence.
    + intros. by eapply IH.
Qed.

Lemma visit_grows_all t root t' :
  visited t = [] -> visit cwd ROOT_PATH fs (visit_fuel fs) t root = Ok t' ->
  exists blocks,
    NoDup (paths (visited t')) /\
    (forall q, q ∈ paths (visited t') <-> rtc (includes cwd fs) (absPath root) q) /\
    map_res edges_of (visited t') = Ok blocks /\
    output t' = output t ++ concat blocks /\
    count t' = count t + 1 + length (concat blocks).
Proof.
  intros Ht H. apply visit_grows in H as (new & blocks & G).
  pose proof (g_visited _ _ _ _ _ G) as Hv. rewrite Ht in Hv. cbn in Hv. subst new.
  exists blocks. split_and!.
  - apply (g_nodup _ _ _ _ _ G). rewrite Ht. constructor.
  - intros q. split.
    + intros Hq. destruct (g_origin _ _ _ _ _ G q Hq) as (s & ->%list_elem_of_singleton & ?). done.
    + revert q. apply (rtc_ind_r (fun q => q ∈ paths (visited t'))).
      * apply (g_starts _ _ _ _ _ G), list_elem_of_here.
      * intros y z _ Hyz Hy. by eapply (g_closed _ _ _ _ _ G).
  - apply (g_blocks _ _ _ _ _ G).
  - apply (g_output _ _ _ _ _ G).
  - apply (g_count _ _ _ _ _ G).
Qed.

(** C20. The edges drawn are exactly the include edges of the files reachable
    from the root: every reachable file is visited once, the output holds the
    edge lines of each visited file in the order of the visits and nothing
    else, and [count] is one more than the number of edges. *)
Theorem graph_of_reachable root t :
  visit cwd ROOT_PATH fs (visit_fuel fs) (Traverser [ # "digraph {"] 0 []) root = Ok t ->
  NoDup (paths (visited t)) /\
  (forall q, q ∈ paths (visited t) <-> rtc (includes cwd fs) (absPath root) q) /\
  exists blocks, map_res edges_of (visited t) = Ok blocks /\
    output t = # "digraph {" :: concat blocks /\ count t = length (output t).
Proof.
  intros H. apply visit_grows_all in H as (blocks & ? & ? & ? & Ho & Hc); [|done].
  do 2 (split; [done|]). exists blocks. split_and!; [done|done|]. rewrite Hc, Ho. cbn. lia.
Qed.

(** C21. The two traversals of the program agree: the recursion of the drawing
    and the worklist of [depsFromDfySource] find the same files, each once. *)
Theorem traversals_agree root t deps :
  visit cwd ROOT_PATH fs (visit_fuel fs) (Traverser [ # "digraph {"] 0 []) root = Ok t ->
  depsFromDfySource cwd ROOT_PATH fs root = Ok deps ->
  paths (visited t) ≡ₚ paths (root :: deps).
Proof.
  intros Ht Hd. apply visit_grows_all in Ht as (_ & Hnd & Hq & _); [|done].
  pose proof (visited_NoDup _ _ _ _ _ Hd) as Hnd'.
  apply NoDup_Permutation; [done|done|]. intros q.
  rewrite Hq, elem_of_paths_cons, (reachable_paths _ _ _ _ _ Hd q). split.
  - destruct (decide (q = absPath root)); auto.
  - intros [->|[_ ?]]; [apply rtc_refl|done].
Qed.

(** ** Termination *)

Definition unvisited (t : traverser) : nat :=
  size (dom fs ∖ list_to_set (paths (visited t)) : gset str).

Lemma unvisited_mono t t' :
  (forall q, q ∈ paths (visited t) -> q ∈ paths (visited t')) -> unvisited t' <= unvisited t.
Proof.
  intros H. unfold unvisited. apply subseteq_size. intros q. rewrite !elem_of_difference, !elem_of_list_to_set. naive_solver.
Qed.

Lemma unvisited_enter r t t' :
  is_Some (fs !! absPath r) -> absPath r ∉ paths (visited t) ->
  (forall q, q ∈ paths (visited t') <-> q ∈ paths (visited t) \/ q = absPath r) ->
  unvisited t' < unvisited t.
Proof.
  intros Hfs Hr Ht'. unfold unvisited. apply subset_size. split.
  - intros q. rewrite !elem_of_difference, !elem_of_list_to_set, Ht'. naive_solver.
  - intros Hsub. specialize (Hsub (absPath r)).
    rewrite !elem_of_difference, !elem_of_list_to_set, Ht' in Hsub.
    apply elem_of_dom in Hfs. naive_solver.
Qed.

Lemma visit_enough_fuel fuel t r :
  unvisited t < fuel -> visit cwd ROOT_PATH fs fuel t r <> Raise OutOfFuel.
Proof.
  revert t r. induction fuel as [|fuel IH]; intros t r Hlt; [lia|]. cbn.
  destruct (iref_in r (visited t)) eqn:Hin; [done|].
  destruct (childrenForIref cwd ROOT_PATH fs r) as [cs|e] eqn:Hcs; cbn.
  2: { intros [= ->]. by eapply childrenForIref_not_fuel. }
  apply childrenForIref_Ok in Hcs as (contents & Hfs & _).
  unfold iref_add. rewrite Hin.
  set (t1 := emit_lines _ _).
  assert (H1 : unvisited t1 < unvisited t).
  { apply (unvisited_enter r); [by rewrite Hfs|by intros ?%iref_in_spec; congruence|].
    intros q. cbn. by rewrite paths_snoc, elem_of_app, list_elem_of_singleton. }
  assert (Hle : unvisited t1 < fuel) by lia. clear H1 Hin Hlt. clearbody t1.
  revert t1 Hle. induction cs as [|c cs IHcs]; intros t1 Hle; cbn; [done|].
  rewrite bind_Raise. intros [H|(t2 & H2 & H)]; [by eapply IH|].
  eapply (IHcs t2); [|exact H]. apply visit_grows in H2 as (new & blocks & G).
  eapply Nat.le_lt_trans; [|exact Hle]. apply unvisited_mono. intros q Hq.
  rewrite (g_visited _ _ _ _ _ G), elem_of_paths_app. auto.
Qed.

Lemma unvisited_size t : unvisited t < visit_fuel fs.
Proof.
  unfold unvisited, visit_fuel. rewrite <- size_dom. apply Nat.lt_succ_r, subseteq_size. set_solver.
Qed.

(** The recursion of [visit] ends on every file system, whatever includes
    what: no chain of nested calls is longer than the number of files plus
    one. *)
Theorem visit_terminates t root : visit cwd ROOT_PATH fs (visit_fuel fs) t root <> Raise OutOfFuel.
Proof. apply visit_enough_fuel, unvisited_size. Qed.
End traversal.

(** ** The drawing *)

Section drawing.
Context (cwd ROOT_PATH : str) (fs : gmap str str) {SO : SetOrder}.

Lemma breakName_Ok name base :
  breakName name = Ok base <-> exists dir, name = dir ++ slash :: base /\ slash ∉ base.
Proof.
  unfold breakName, nth_res.
  destruct (rsplit1_spec slash name) as [(Hn & ->)|(dir & b & -> & Hb & ->)]; cbn.
  - split; [done|]. intros (dir & -> & _). rewrite elem_of_app, elem_of_cons in Hn. naive_solver.
  - split; [intros [= ->]; by exists dir|]. intros (dir' & E & Hbase).
    assert (rev b = rev base) as Hrev%(f_equal (@rev _)); [|by rewrite !rev_involutive in Hrev; subst].
    apply (f_equal (@rev _)) in E. rewrite !rev_app_distr in E. cbn in E. rewrite <- !app_assoc in E.
    assert (H1 : forall l : str, slash ∉ l -> slash ∉ rev l).
    { intros l Hl Hin. apply Hl. by apply list_elem_of_In, in_rev, list_elem_of_In in Hin. }
    apply H1 in Hb, Hbase. revert E Hb Hbase.
    generalize (rev b), (rev base), (rev dir), (rev dir'). clear.
    intros l. induction l as [|x l IH]; intros [|y l'] d d' E Hl Hl'; cbn in E; try done.
    + injection E as <- _. exfalso; apply Hl', list_elem_of_here.
    + injection E as -> _. exfalso; apply Hl, list_elem_of_here.
    + injection E as -> E. apply not_elem_of_cons in Hl as [_ Hl], Hl' as [_ Hl'].
      f_equal. exact (IH l' d d' E Hl Hl').
Qed.

Lemma addFillColors_Ok reportType l t t' :
  for_each (fun t r => line ← fill_line cwd ROOT_PATH fs reportType r; Ok (emit_line line t)) l t = Ok t' ->
  exists lines, map_res (fill_line cwd ROOT_PATH fs reportType) l = Ok lines /\ t' = emit_lines lines t.
Proof.
  revert t. induction l as [|r l IH]; intros t H; cbn in H.
  - injection H as <-. exists []. split; [done|]. destruct t. unfold emit_lines. by rewrite app_nil_r.
  - apply bind_Ok in H as (t1 & (line & Hline & [= <-])%bind_Ok & H).
    apply IH in H as (lines & Hl & ->). exists (line :: lines). cbn [map_res]. rewrite Hline. cbn.
    rewrite Hl. split; [done|]. unfold emit_lines, emit_line. cbn. by rewrite <- app_assoc.
Qed.

Lemma app_assoc_4 {A} (a b c d e : list A) :
  (((a ++ b) ++ c) ++ d) ++ e = a ++ b ++ c ++ d ++ e.
Proof. by rewrite !app_assoc. Qed.

(** What the constructor does, once the traversal has returned. *)
Lemma Traverser_init_Ok reportType rootDfy t :
  Traverser_init cwd ROOT_PATH fs reportType rootDfy = Ok t ->
  exists root t0 legend_lines lines,
    mk_iref cwd ROOT_PATH None 0 rootDfy = Ok root /\
    visit cwd ROOT_PATH fs (visit_fuel fs) (Traverser [ # "digraph {"] 0 []) root = Ok t0 /\
    map_res (fill_line cwd ROOT_PATH fs reportType) (set_order (visited t0)) = Ok lines /\
    visited t = visited t0 /\
    output t = output t0 ++ legend_lines ++ lines ++
      flat_map (cluster (set_order (visited t))) (prefixes t) ++ [ # "}"].
Proof.
  unfold Traverser_init. intros (root & Hr & (t0 & Ht0 & (t1 & H1 & (t2 & H2 & [= <-])%bind_Ok)%bind_Ok)%bind_Ok)%bind_Ok.
  unfold legend in H1. apply bind_Ok in H1 as (samples & Hs & [= <-]).
  unfold addFillColors in H2. apply addFillColors_Ok in H2 as (lines & Hl & ->).
  exists root, t0. eexists _, lines. do 3 (split; [done|]). split; [done|].
  unfold emit_line, createSubgraphs, emit_lines. cbn [output visited]. apply app_assoc_4.
Qed.

(** A run that returns has drawn every file reachable from the root: its
    report was summarised and gives the colour of the node line, whose label is
    the last component of the name and the user time.  Every such name has a
    slash: a file at the top of the repository stops the run instead. *)
Theorem files_drawn reportType rootDfy t :
  Traverser_init cwd ROOT_PATH fs reportType rootDfy = Ok t ->
  exists root, mk_iref cwd ROOT_PATH None 0 rootDfy = Ok root /\
    (forall q, q ∈ paths (visited t) <-> rtc (includes cwd fs) (absPath root) q) /\
    forall r, r ∈ visited t -> exists summary dir base,
      getSummary cwd ROOT_PATH fs reportType r = Ok summary /\
      normPath r = dir ++ slash :: base /\ slash ∉ base /\
      node_line (normPath r) (style summary)
        (base ++ [nl] ++ time_str (userTimeSec summary) ++ "s") ∈ output t.
Proof.
  intros (root & t0 & legend_lines & lines & Hr & Hv & Hl & Hvis & Ho)%Traverser_init_Ok.
  exists root. split; [done|]. apply visit_grows_all in Hv as (_ & _ & Hq & _); [|done].
  rewrite Hvis. split; [done|]. intros r Hin.
  assert (exists line, line ∈ lines /\ fill_line cwd ROOT_PATH fs reportType r = Ok line) as (line & Hline & Hf).
  { pose proof (proj1 (map_res_Forall2 _ _ _) Hl) as HF.
    apply (proj2 (elem_of_set_order r (visited t0))), list_elem_of_lookup in Hin as (i & Hi).
    destruct (Forall2_lookup_l _ _ _ _ _ HF Hi) as (line & ? & ?).
    exists line. split; [by eapply list_elem_of_lookup_2|done]. }
  unfold fill_line in Hf. apply bind_Ok in Hf as (summary & Hs & (base & (dir & Hb)%breakName_Ok & [= Hx])%bind_Ok).
  destruct Hb as [Hb1 Hb2].
  exists summary, dir, base. do 3 (split; [done|]). 
  rewrite Ho. apply elem_of_app; right. apply elem_of_app; right. apply elem_of_app; left.
  rewrite <- Hx in Hline. exact Hline.
Qed.

(** The clusters partition the files: over all the subgraphs written, every
    visited file is a member exactly once, of the cluster of its directory. *)
Theorem clusters_partition t :
  NoDup (prefixes t) /\
  flat_map (fun p => members p (set_order (visited t))) (prefixes t)
    ≡ₚ map (fun r => quoted (normPath r)) (visited t).
Proof.
  assert (Hnd : NoDup (prefixes t)).
  { unfold prefixes. rewrite (set_order_law _ _). apply NoDup_remove_dups. }
  split; [done|].
  etrans; [|apply Permutation_map, (set_order_law _ (visited t))].
  rewrite <- (group_by_Permutation sourceDir (prefixes t) (set_order (visited t)) Hnd).
  - clear Hnd. generalize (prefixes t) as ps. intros ps. induction ps as [|p ps IH]; cbn; [done|].
    rewrite map_app. by apply Permutation_app.
  - intros r Hr. apply (proj1 (elem_of_set_order r (visited t))) in Hr. unfold prefixes.
    by apply elem_of_set_order, elem_of_remove_dups, list_elem_of_fmap_2.
Qed.
End drawing.

(** ** Examples *)

#[local] Existing Instance insertion_order.

(** A small build tree: two sources with their reports. *)
Definition graph_fs : gmap str str := list_to_map
  [ (# "/r/lib/A.i.dfy", include_line "B.i.dfy");
    (# "/r/lib/B.i.dfy", include_line "../lib/A.i.dfy");
    (# "/r/build/lib/A.i.verchk",
       "1.25user 0.1system" ++ [nl] ++ "Dafny program verifier finished with 3 verified, 0 errors" ++ [nl]);
    (# "/r/build/lib/B.i.verchk",
       "Dafny program verifier finished with 3 verified, 2 errors" ++ [nl]);
    (# "/r/Top.i.dfy", []);
    (# "/r/build/Top.i.verchk",
       "Dafny program verifier finished with 3 verified, 2 errors" ++ [nl]) ].

Lemma graph_of_reachable_witness :
  exists t, visit "/r" "/r" graph_fs (visit_fuel graph_fs) (Traverser [ # "digraph {"] 0 [])
      (demo_root "lib/A.i.dfy") = Ok t /\ length (visited t) = 2 /\
    NoDup (paths (visited t)).
Proof.
  eexists. split; [vm_compute; reflexivity|]. split; [reflexivity|].
  eapply (graph_of_reachable "/r" "/r" graph_fs (demo_root "lib/A.i.dfy")). vm_compute; reflexivity.
Defined.

Lemma traversals_agree_witness :
  exists t deps,
    visit "/r" "/r" graph_fs (visit_fuel graph_fs) (Traverser [ # "digraph {"] 0 [])
      (demo_root "lib/A.i.dfy") = Ok t /\
    depsFromDfySource "/r" "/r" graph_fs (demo_root "lib/A.i.dfy") = Ok deps /\
    paths (visited t) ≡ₚ paths (demo_root "lib/A.i.dfy" :: deps).
Proof.
  eexists _, _. split; [vm_compute; reflexivity|]. split; [vm_compute; reflexivity|].
  eapply (traversals_agree "/r" "/r" graph_fs (demo_root "lib/A.i.dfy")); vm_compute; reflexivity.
Defined.

Lemma files_drawn_witness :
  exists t, Traverser_init "/r" "/r" graph_fs VERCHK "lib/A.i.dfy" = Ok t /\
    exists root, mk_iref "/r" "/r" None 0 "lib/A.i.dfy" = Ok root /\
      forall q, q ∈ paths (visited t) <-> rtc (includes "/r" graph_fs) (absPath root) q.
Proof.
  eexists. split; [vm_compute; reflexivity|].
  edestruct (files_drawn "/r" "/r" graph_fs VERCHK "lib/A.i.dfy") as (root & Hr & Hq & _);
    [vm_compute; reflexivity|].
  exists root. split; [exact Hr|exact Hq].
Defined.

(** A file at the top of the repository has no slash in its name. *)
Example top_level_file :
  dep_graph_main "/r" "/r" graph_fs [VERCHK; # "Top.i.dfy"; # "out.dot"] = Raise IndexError.
Proof. vm_compute. reflexivity. Qed.
