(* ===== verification/LineCount.v ===== *)
(** * Counting source lines (tools/line_count_lib.py, tools/line_counter.py)

    Dafny prints a file with or without its ghost code; the text is cleaned of
    warnings, comments, export controls and blank lines, and what remains is
    counted.  The counts split a file into specification, implementation and
    proof. *)
From S2P Require Import Prelude PyStr Regex Paths PyFloat Json Aggregate.

(** ** Values of the count files *)

Inductive pyval :=
  | VNone
  | VInt (z : Z)
  | VFloat (x : float)
  | VStr (s : str).

Definition of_time (t : option float) : pyval :=
  match t with None => VNone | Some x => VFloat x end.

(** ["%s" % v]. *)
Definition pystr_of (v : pyval) : str :=
  match v with
  | VNone => "None" | VInt z => dec_Z z | VFloat x => float_repr x | VStr s => s
  end.

(** The attributes of [DafnyFile]. *)
Record DafnyFile := DafnyFileOf {
  filename : str; verify_time : pyval; spec : Z; impl : Z; proof : Z
}.

Definition DafnyFile_init (name : str) (time : pyval) : DafnyFile :=
  DafnyFileOf (replace name "\" "/") time 0 0 0.
Definition dafny_file_repr (f : DafnyFile) : str :=
  filename f ++ " " ++ pystr_of (verify_time f) ++ " secs " ++ dec_Z (spec f) ++ " spec " ++
  dec_Z (impl f) ++ " impl " ++ dec_Z (proof f) ++ " proof".
Definition is_spec (f : DafnyFile) : bool := endswith (filename f) ".s.dfy".

(** ** Cleaning the printed program *)

(** The pattern of a pass over the lines: [split], a conditional [append],
    [join]. *)
Definition drop_lines (bad : str -> bool) (program : str) : str :=
  join [nl] (List.filter (fun line => negb (bad line)) (split_char nl program)).

Definition no_terms_re : re := Seq (Lit "Warning: ") (Seq (Star Dot) (Lit "No terms found")).
Definition operand_re : re := Lit "Warning: the type of the other operand".

Definition is_warning (line : str) : bool :=
  startswith line "Dafny program verifier finished" || searchb no_terms_re line
  || searchb operand_re line.
Definition remove_warnings : str -> str := drop_lines is_warning.

Definition comment_re : re := Grp 1 (Alt (Lit "/*") (Lit "*/")).

(** One region of the split: a delimiter moves the depth, a text at depth
    zero is output. *)
Definition comment_step (st : Z * list str) (region : str) : Z * list str :=
  let '(depth, output) := st in
  if bool_decide (region = "/*") then (depth + 1, output)%Z
  else if bool_decide (region = "*/") then (depth - 1, output)%Z
  else if (depth =? 0)%Z then (depth, output ++ [region]) else (depth, output).

Definition remove_paired_comments (program : str) : str :=
  concat (snd (fold_left comment_step (resplit comment_re program) (0%Z, []))).

Definition indented_re (word : str) : re := seqs [Bol; Star Space; Lit word].

Definition is_cruft (line : str) : bool :=
  searchb (indented_re "export ") line || searchb (indented_re "provides ") line
  || searchb (indented_re "reveals ") line || searchb (indented_re "import ") line.
Definition remove_cruft : str -> str := drop_lines is_cruft.

Definition blank_re : re := seqs [Bol; Star Space; Eol].
Definition remove_whitespace : str -> str := drop_lines (searchb blank_re).

(** The four passes of [clean_dafny_output]. *)
Definition clean_program (program : str) : str :=
  remove_whitespace (remove_cruft (remove_paired_comments (remove_warnings program))).

(** ** Running the tools *)

Definition INSPECT_DIR : str := "./tmp/inspect".

Definition sloc_re : re := seqs [Grp 1 (Plus Digit); Plus Space; Lit "cs"].

(** The loop over the lines of sloccount's output: the last match counts. *)
Definition last_sloc (output : str) : option str :=
  fold_left (fun sloc line => match search sloc_re line with
                              | Some result => group 1 result
                              | None => sloc
                              end) (split_char nl output) None.

(** The files by absolute path, the directories made, the draws so far. *)
Record world := World { files : gmap str str; dirs : gset str; draws : nat }.

Section counter.
(** The working directory; the random numbers; and the programs that are run:
    each yields its standard output from its command line, and for egrep its
    input, for sloccount the files it reads. *)
Context (cwd : str) (randint : nat -> N)
  (dafny : list str -> gmap str str -> str) (egrep : list str -> str -> str)
  (sloccount : list str -> gmap str str -> str) (iron_base : str).

Definition write_file (name contents : str) (w : world) : world :=
  World (<[abspath cwd name := contents]> (files w)) (dirs w) (draws w).

(** [os.makedirs] of a directory that must not exist.  Parents are not
    recorded. *)
Definition makedirs (name : str) (w : world) : res world :=
  if bool_decide (abspath cwd name ∈ dirs w) then Raise IOError
  else Ok (World (files w) ({[abspath cwd name]} ∪ dirs w) (draws w)).

Definition dafny_command (show_ghost : bool) (dafny_filename : str) : list str :=
  (iron_base ++ "/.dafny/dafny/Scripts/dafny") ::
  ["/rprint:-" : str; "/noAutoReq" : str; "/noVerify" : str; "/compile:0" : str; "/env:0" : str] ++
  [if show_ghost then "/printMode:NoIncludes" : str else "/printMode:NoGhost" : str] ++
  [dafny_filename].

Definition run_dafny (show_ghost : bool) (dafny_filename tmp_filename : str) (w : world) : world :=
  let out := dafny (dafny_command show_ghost dafny_filename) (files w) in
  let grep_filter_cmd := ["egrep" : str; "-v" : str; "(var[^:]*_tmp|self := _inout_tmp)" : str] in
  write_file tmp_filename (egrep grep_filter_cmd out) w.

Definition run_sloccount (tmp_dir : str) (w : world) : res (str * world) :=
  let data_dir := tmp_dir ++ "_data" in
  w ← makedirs data_dir w;
  let output := sloccount ["sloccount" : str; "--datadir" : str; data_dir; "--details" : str; tmp_dir] (files w) in
  match last_sloc output with
  | Some sloc => Ok (sloc, w)
  | None => Raise (PyException ("Failed to find sloccount result! in " ++ tmp_dir))
  end.

Definition clean_dafny_output (name inspect_path : str) (w : world) : res world :=
  contents ← py_open cwd (files w) name;
  let program := clean_program (universal_newlines contents) in
  Ok (write_file inspect_path program (write_file name program w)).

Definition make_tmp_dir (w : world) : str * world :=
  let tmp_dir := iron_base ++ "/tmp/linecounts_" ++ hex_N (randint (draws w)) in
  (tmp_dir, World (files w) ({[abspath cwd tmp_dir]} ∪ dirs w) (S (draws w))).

Definition compute_sloc (show_ghost : bool) (dafny_file : str) (w : world) : res (Z * world) :=
  let '(tmp_dir, w) := make_tmp_dir w in
  let tmp_filename := basename dafny_file ++ "-" ++
    (if show_ghost then "ghost" : str else "real" : str) ++ ".cs" in
  let tmp_file := path_join tmp_dir tmp_filename in
  let w := run_dafny show_ghost dafny_file tmp_file w in
  let inspect_path := path_join (path_join INSPECT_DIR (dirname dafny_file)) tmp_filename in
  w ← clean_dafny_output tmp_file inspect_path w;
  '(sloc, w) ← run_sloccount tmp_dir w;
  n ← py_int sloc;
  Ok (n, w).

(** The body of the loop of [collect_line_counts]. *)
Definition count_file (f : DafnyFile) (w : world) : res (DafnyFile * world) :=
  '(ghost_sloc, w) ← compute_sloc true (filename f) w;
  if is_spec f then Ok (DafnyFileOf (filename f) (VInt 0) ghost_sloc (impl f) (proof f), w)
  else
    '(impl_sloc, w) ← compute_sloc false (filename f) w;
    Ok (DafnyFileOf (filename f) (verify_time f) (spec f) impl_sloc (ghost_sloc - impl_sloc), w).

Fixpoint collect_line_counts (dafny_files : list DafnyFile) (w : world) : res (list DafnyFile * world) :=
  match dafny_files with
  | [] => Ok ([], w)
  | f :: fs =>
      '(f', w) ← count_file f w;
      '(fs', w) ← collect_line_counts fs w;
      Ok (f' :: fs', w)
  end.

(** ** line_counter.py *)

Definition loadFile (synchk : str) (w : world) : res DafnyFile :=
  c ← summarize cwd (files w) SYNCHK synchk;
  Ok (DafnyFile_init (dafnyFromVerchk synchk) (of_time (userTimeSec c))).

(** [count]: the object that is written to the output file as JSON. *)
Definition count_obj (input : str) (w : world) : res (list (str * pyval) * world) :=
  c ← summarize cwd (files w) VERCHK (chkFromDafny VERCHK input);
  let time := of_time (userTimeSec c) in
  '(dafnyFiles, w) ← collect_line_counts [DafnyFile_init input time] w;
  dafnyFile ← nth_res dafnyFiles 0;
  Ok ([ ("spec" : str, VInt (spec dafnyFile)); ("impl" : str, VInt (impl dafnyFile));
        ("proof" : str, VInt (proof dafnyFile)); ("time" : str, time) ], w).

(** The text of such an object, and the file written. *)
Definition json_of_pyval (v : pyval) : Json.json :=
  match v with VNone => JNull | VInt z => JInt z | VFloat x => JFloat x | VStr s => JStr s end.
Definition json_of_dict (d : list (str * pyval)) : Json.json := JObj (map (fun '(k, v) => (k, json_of_pyval v)) d).
Definition count (input output : str) (w : world) : res world :=
  '(obj, w) ← count_obj input w;
  Ok (write_file output (dumps None (json_of_dict obj) ++ [nl]) w).
End counter.

(** ** Comments *)

(** The comment-free text, read off one character at a time. *)
Fixpoint uncomment (depth : Z) (s : str) : str :=
  match s with
  | [] => []
  | a :: s' =>
      let visible := if (depth =? 0)%Z then [a] else [] in
      match s' with
      | [] => visible
      | b :: s'' =>
          if bool_decide ([a; b] = "/*") then uncomment (depth + 1) s''
          else if bool_decide ([a; b] = "*/") then uncomment (depth - 1) s''
          else visible ++ uncomment depth s'
      end
  end.

Lemma uncomment_delim depth a b s :
  uncomment depth (a :: b :: s) =
  if bool_decide ([a; b] = "/*") then uncomment (depth + 1) s
  else if bool_decide ([a; b] = "*/") then uncomment (depth - 1) s
  else (if (depth =? 0)%Z then [a] else []) ++ uncomment depth (b :: s).
Proof. done. Qed.

(** The text of a list of regions, from a given depth on. *)
Fixpoint regions_text (depth : Z) (regions : list str) : str :=
  match regions with
  | [] => []
  | r :: rs =>
      if bool_decide (r = "/*") then regions_text (depth + 1) rs
      else if bool_decide (r = "*/") then regions_text (depth - 1) rs
      else (if (depth =? 0)%Z then r else []) ++ regions_text depth rs
  end.

Lemma comment_fold regions depth output :
  concat (snd (fold_left comment_step regions (depth, output))) = concat output ++ regions_text depth regions.
Proof.
  revert depth output. induction regions as [|r rs IH]; intros depth output.
  - cbn. by rewrite app_nil_r.
  - cbn [fold_left regions_text].
    change (comment_step (depth, output) r) with
      (if bool_decide (r = "/*") then (depth + 1, output)%Z
       else if bool_decide (r = "*/") then (depth - 1, output)%Z
       else if (depth =? 0)%Z then (depth, output ++ [r]) else (depth, output)).
    repeat case_bool_decide; [apply IH|apply IH|].
    destruct (depth =? 0)%Z; rewrite IH; [|done].
    rewrite concat_app. cbn [concat]. by rewrite app_nil_r, <- app_assoc.
Qed.

Lemma match_at_comment before s :
  m_text <$> match_at comment_re before s =
  if prefixb "/*" s then Some (# "/*") else if prefixb "*/" s then Some (# "*/") else None.
Proof.
  unfold match_at, comment_re.
  change (run (Grp 1 (Alt (Lit "/*") (Lit "*/"))) ?st) with
    (map (capture 1 st) (run (Lit "/*") st ++ run (Lit "*/") st)).
  rewrite !run_Lit. destruct (prefixb "/*" s) eqn:E1.
  - apply prefixb_spec in E1 as (k & ->). cbn. unfold text_between. cbn.
    rewrite drop_0. by replace (S (S (length k)) - length k) with 2 by lia.
  - destruct (prefixb "*/" s) eqn:E2; [|done]. apply prefixb_spec in E2 as (k & ->). cbn.
    unfold text_between. cbn. rewrite drop_0. by replace (S (S (length k)) - length k) with 2 by lia.
Qed.

Definition at_delimiter (s : str) : bool := prefixb "/*" s || prefixb "*/" s.

(** A text that is being collected does not start with a delimiter. *)
Lemma region_not_delimiter cur s :
  cur = [] \/ at_delimiter (rev cur ++ s) = false -> rev cur <> "/*" /\ rev cur <> "*/".
Proof.
  intros [-> |H]; [done|]. by split; intros E; rewrite E in H.
Qed.

Lemma at_delimiter_one a : at_delimiter [a] = false.
Proof.
  unfold at_delimiter. cbn. rewrite !andb_false_r. done.
Qed.

Lemma at_delimiter_two a b s :
  prefixb "/*" (a :: b :: s) = bool_decide ([a; b] = "/*") /\
  prefixb "*/" (a :: b :: s) = bool_decide ([a; b] = "*/").
Proof. cbn. rewrite !andb_true_r. split; repeat case_bool_decide; naive_solver. Qed.

Lemma regions_text_uncomment n s depth before cur :
  length s <= n -> cur = [] \/ at_delimiter (rev cur ++ s) = false ->
  regions_text depth (resplit_from comment_re 0 before cur s) =
  (if (depth =? 0)%Z then rev cur else []) ++ uncomment depth s.
Proof.
  revert s depth before cur. induction n as [|n IH]; intros s depth before cur Hn Hcur;
    pose proof (region_not_delimiter _ _ Hcur) as [Hr1 Hr2].
  - destruct s; [|cbn in Hn; lia]. cbn -[bool_decide]. rewrite !bool_decide_eq_false_2 by done. done.
  - destruct s as [|a s].
    { cbn -[bool_decide]. rewrite !bool_decide_eq_false_2 by done. done. }
    cbn [resplit_from]. pose proof (match_at_comment before (a :: s)) as Hm.
    destruct s as [|b s].
    + assert (Hnone : match_at comment_re before [a] = None).
      { pose proof (at_delimiter_one a) as Hd. unfold at_delimiter in Hd.
        apply orb_false_iff in Hd as [Hd1 Hd2]. rewrite Hd1, Hd2 in Hm. by destruct (match_at _ _ _). }
      rewrite Hnone. cbn [resplit_from regions_text].
      destruct (region_not_delimiter (a :: cur) []) as [Hs1 Hs2].
      { right. destruct Hcur as [-> |Hcur]; [apply at_delimiter_one|].
        cbn [rev]. by rewrite <- app_assoc. }
      rewrite !bool_decide_eq_false_2 by done. cbn [uncomment rev]. rewrite app_nil_r.
      by destruct (depth =? 0)%Z.
    + destruct (at_delimiter_two a b s) as [E1 E2]. rewrite E1, E2 in Hm. rewrite uncomment_delim.
      destruct (bool_decide_reflect ([a; b] = "/*")) as [Ho|Ho];
        [|destruct (bool_decide_reflect ([a; b] = "*/")) as [Hc|Hc]];
        destruct (match_at comment_re before (a :: b :: s)) as [m|]; try discriminate Hm.
      * injection Hm as Hm. rewrite Hm. cbn [regions_text length pred].
        rewrite (bool_decide_eq_false_2 (rev cur = "/*")), (bool_decide_eq_false_2 (rev cur = "*/")) by done.
        rewrite (bool_decide_eq_true_2 ((# "/*") = # "/*")) by done. cbn [resplit_from].
        rewrite IH by (cbn in Hn; lia || auto). by destruct (depth + 1 =? 0)%Z.
      * injection Hm as Hm. rewrite Hm. cbn [regions_text length pred].
        rewrite (bool_decide_eq_false_2 (rev cur = "/*")), (bool_decide_eq_false_2 (rev cur = "*/")) by done.
        rewrite (bool_decide_eq_false_2 ((# "*/") = # "/*")) by done.
        rewrite (bool_decide_eq_true_2 ((# "*/") = # "*/")) by done. cbn [resplit_from].
        rewrite IH by (cbn in Hn; lia || auto). by destruct (depth - 1 =? 0)%Z.
      * rewrite IH; [|cbn in Hn |- *; lia|].
        -- cbn [rev]. destruct (depth =? 0)%Z; [|done]. by rewrite <- app_assoc.
        -- right. cbn [rev]. rewrite <- app_assoc. destruct Hcur as [-> |Hcur]; [|done].
           unfold at_delimiter. cbn [rev app]. rewrite E1, E2. done.
Qed.

Lemma paired_comments_uncomment program : remove_paired_comments program = uncomment 0 program.
Proof.
  unfold remove_paired_comments, resplit. rewrite comment_fold. cbn [concat app].
  by rewrite (regions_text_uncomment (length program)) by (lia || auto).
Qed.

(** ** Nested comments *)

(** A program text: plain characters, and comments holding texts. *)
Inductive doc :=
  | Done
  | Plain (a : ascii) (d : doc)
  | Comment (body : doc) (d : doc).

Fixpoint render (d : doc) : str :=
  match d with
  | Done => []
  | Plain a d => a :: render d
  | Comment body d => "/*" ++ render body ++ "*/" ++ render d
  end.

(** What lies outside all comments. *)
Fixpoint visible (d : doc) : str :=
  match d with
  | Done => []
  | Plain a d => a :: visible d
  | Comment _ d => visible d
  end.

(** No star outside the delimiters, and no slash right before the end of a
    comment or at the end of the text: such characters would form delimiters
    of their own. *)
Fixpoint plain_doc (d : doc) : Prop :=
  match d with
  | Done => True
  | Plain a d => a <> "*"%char /\ (d = Done -> a <> "/"%char) /\ plain_doc d
  | Comment body d => plain_doc body /\ plain_doc d
  end.

(** A character that starts no delimiter. *)
Lemma uncomment_plain depth a s :
  a <> "*"%char -> (a = "/"%char -> head s <> Some "*"%char) ->
  uncomment depth (a :: s) = (if (depth =? 0)%Z then [a] else []) ++ uncomment depth s.
Proof.
  intros Ha Hs. destruct s as [|b s]; [cbn [uncomment]; by rewrite app_nil_r|]. rewrite uncomment_delim.
  rewrite bool_decide_eq_false_2 by (intros [= -> ->]; by apply Hs).
  rewrite bool_decide_eq_false_2 by (intros [= -> ->]; by apply Ha). done.
Qed.

Lemma render_head d k : plain_doc d -> d <> Done -> head (render d ++ k) <> Some "*"%char.
Proof. destruct d; cbn; [done| |done]. intros (Ha & _) _ [= ->]. done. Qed.

Lemma uncomment_render d depth k :
  plain_doc d -> (0 <= depth)%Z ->
  uncomment depth (render d ++ k) = (if (depth =? 0)%Z then visible d else []) ++ uncomment depth k.
Proof.
  revert depth k. induction d as [|a d IH|body IHb d IH]; intros depth k H Hd; cbn [render visible plain_doc] in *.
  - by destruct (depth =? 0)%Z.
  - destruct H as (Ha & Hlast & H). cbn [app]. rewrite uncomment_plain; [|done|].
    + rewrite IH by done. by destruct (depth =? 0)%Z.
    + intros Hsl. apply render_head; [done|]. intros ->. by apply Hlast.
  - destruct H as [Hb H].
    change (("/*" ++ render body ++ "*/" ++ render d) ++ k) with ("/"%char :: "*"%char :: (render body ++ "*/" ++ render d) ++ k).
    rewrite uncomment_delim, bool_decide_eq_true_2 by done.
    rewrite <- app_assoc, IHb by (done || lia).
    rewrite (proj2 (Z.eqb_neq (depth + 1) 0)) by lia. cbn [app].
    change ((# "*/" ++ render d) ++ k) with ("*"%char :: "/"%char :: render d ++ k).
    rewrite uncomment_delim, bool_decide_eq_false_2, bool_decide_eq_true_2 by done.
    replace (depth + 1 - 1)%Z with depth by lia. by apply IH.
Qed.

(** Nested comments are removed, at every depth of nesting, and the text
    outside them is kept as it is. *)
Theorem comments_removed d : plain_doc d -> remove_paired_comments (render d) = visible d.
Proof.
  intros H. rewrite paired_comments_uncomment.
  rewrite <- (app_nil_r (render d)), uncomment_render by (done || lia). cbn. apply app_nil_r.
Qed.

(** ** The cleaned program *)

Lemma split_char_drop_lines bad program :
  split_char nl (drop_lines bad program) =
  match List.filter (fun line => negb (bad line)) (split_char nl program) with
  | [] => [[]]
  | kept => kept
  end.
Proof.
  unfold drop_lines. pose proof (split_char_words nl program) as Hw.
  assert (Hk : Forall (fun w => nl ∉ w) (List.filter (fun line => negb (bad line)) (split_char nl program))).
  { apply Forall_forall. intros w [Hin _]%list_elem_of_In%filter_In.
    apply list_elem_of_In in Hin. by eapply Forall_forall in Hw. }
  destruct (List.filter _ _) as [|k ks] eqn:E; [done|]. by apply split_char_join.
Qed.

Definition cruft_words : list str := ["export " : str; "provides " : str; "reveals " : str; "import " : str].

(** The lines that count: not blank, not starting with an export control. *)
Definition counted_line (line : str) : bool :=
  negb (existsb (startswith (lstrip line)) cruft_words) && negb (forallb is_space line).

Lemma is_cruft_words line : is_cruft line = existsb (startswith (lstrip line)) cruft_words.
Proof.
  unfold is_cruft, indented_re, cruft_words. cbn [existsb].
  rewrite !searchb_indented_word by done. by rewrite orb_false_r, !orb_assoc.
Qed.

Lemma clean_after_comments text :
  remove_whitespace (remove_cruft text) = join [nl] (List.filter counted_line (split_char nl text)).
Proof.
  unfold remove_whitespace, remove_cruft. unfold drop_lines at 1. rewrite split_char_drop_lines.
  assert (E : List.filter counted_line (split_char nl text) =
    List.filter (fun line => negb (searchb blank_re line))
      (List.filter (fun line => negb (is_cruft line)) (split_char nl text))).
  { rewrite filter_filter. apply filter_ext_eq. intros x. unfold counted_line, blank_re.
    by rewrite is_cruft_words, searchb_blank. }
  rewrite E. by destruct (List.filter (fun line => negb (is_cruft line)) _).
Qed.

(** C19. What is counted: the four passes leave, of the output with its warning
    lines dropped and its comments removed, exactly the lines that are neither
    blank nor export controls, unchanged and in order. *)
Theorem clean_program_lines program :
  clean_program program =
  join [nl] (List.filter counted_line (split_char nl (uncomment 0
    (join [nl] (List.filter (fun line => negb (is_warning line)) (split_char nl program)))))).
Proof.
  unfold clean_program. rewrite paired_comments_uncomment. apply clean_after_comments.
Qed.

(** ** Reading the count *)

Lemma sloc_not_at before c s : is_digit c = false -> match_at sloc_re before (c :: s) = None.
Proof.
  intros Hc. unfold match_at.
  assert (E : run sloc_re (MSt before (c :: s) []) = []); [|by rewrite E].
  change (run sloc_re ?st) with (flat_map (run (Seq (Plus Space) (Lit "cs"))) (map (capture 1 st) (run (Plus Digit) st))).
  change (run (Plus Digit) ?st) with (flat_map (run (Star Digit)) (run Digit st)).
  unfold Digit at 2. rewrite run_Cls, Hc. done.
Qed.

Lemma search_skip r before a s :
  (forall a1 c a2, a = a1 ++ c :: a2 -> match_at r (rev a1 ++ before) (c :: a2 ++ s) = None) ->
  search_from r before (a ++ s) = search_from r (rev a ++ before) s.
Proof.
  revert before. induction a as [|c a IH]; intros before H; [done|].
  cbn [app search_from]. rewrite (H [] c a eq_refl : match_at r before (c :: a ++ s) = None).
  rewrite IH; [cbn [rev]; by rewrite <- app_assoc|].
  intros a1 d a2 ->. specialize (H (c :: a1) d a2 eq_refl). cbn [rev] in H. by rewrite <- app_assoc in H.
Qed.

(** A line with a count: text without digits, the number, spaces, [cs]. *)
Definition details_line (pre : str) (n : N) (sp post : str) : str := pre ++ dec_N n ++ sp ++ "cs" ++ post.

Lemma sloc_search pre n sp post :
  Forall (fun c => is_digit c = false) pre -> Forall (fun c => is_space c = true) sp -> sp <> [] ->
  exists m, search sloc_re (details_line pre n sp post) = Some m /\ group 1 m = Some (dec_N n).
Proof.
  intros Hpre Hsp Hne. unfold search, details_line. rewrite search_skip.
  2: { intros a1 c a2 ->. apply sloc_not_at. apply Forall_app in Hpre as [_ Hpre]. by inversion Hpre. }
  rewrite app_nil_r. set (sn := rev pre).
  assert (Hsep : stops is_digit (sp ++ "cs" ++ post)).
  { inversion Hsp as [|c l Hc Hl]; subst; [done|]. cbn. destruct (is_digit c) eqn:E; [|done].
    apply digit_not_space in E. congruence. }
  destruct (run_Grp_dec 1 n sn (sp ++ "cs" ++ post) [] Hsep) as (l1 & H1).
  destruct (run_Plus_Cls_first is_space (rev (dec_N n) ++ sn) sp ("cs" ++ post) [(1, dec_N n)] Hsp Hne)
    as (l2 & H2); [done|].
  pose proof (run_Lit_app "cs" (rev sp ++ rev (dec_N n) ++ sn) post [(1, dec_N n)]) as H3.
  destruct (run_Seq_first _ _ _ _ _ _ _ H2 H3) as (l3 & H4).
  destruct (run_Seq_first (Grp 1 (Plus Digit)) (Seq (Plus Space) (Lit "cs")) _ _ _ _ _ H1 H4) as (l4 & H5).
  eexists. split; [exact (search_from_hit sloc_re _ _ _ _ H5)|reflexivity].
Qed.

(** The count read from sloccount's output is the one of the last line
    that holds one, whatever lines without one follow. *)
Theorem sloc_of_details before pre n sp post after :
  Forall (fun c => is_digit c = false) pre -> Forall (fun c => is_space c = true) sp -> sp <> [] ->
  Forall (fun line => nl ∉ line) (before ++ details_line pre n sp post :: after) ->
  Forall (fun line => search sloc_re line = None) after ->
  exists s, last_sloc (join [nl] (before ++ details_line pre n sp post :: after)) = Some s /\
    py_int s = Ok (Z.of_N n).
Proof.
  intros Hpre Hsp Hne Hnl Hafter. exists (dec_N n). split; [|apply py_int_dec_N].
  unfold last_sloc. rewrite split_char_join by (by destruct before || done).
  rewrite fold_left_app. cbn [fold_left].
  destruct (sloc_search pre n sp post Hpre Hsp Hne) as (m & -> & ->). clear Hnl.
  induction Hafter as [|line after Hline Hafter IH]; [done|]. cbn [fold_left]. by rewrite Hline.
Qed.

(** ** The counts of a file *)

Section counts.
Context (cwd : str) (randint : nat -> N)
  (dafny : list str -> gmap str str -> str) (egrep : list str -> str -> str)
  (sloccount : list str -> gmap str str -> str) (iron_base : str).

Definition grep_command : list str :=
  ["egrep" : str; "-v" : str; "(var[^:]*_tmp|self := _inout_tmp)" : str].

(** The text to be counted: what dafny prints, filtered and cleaned. *)
Definition printed (show_ghost : bool) (f : str) (w : world) : str :=
  clean_program (universal_newlines (egrep grep_command (dafny (dafny_command iron_base show_ghost f) (files w)))).

(** sloccount, run in [w'] on a directory where [text] has been written,
    reports [n]. *)
Definition sloc_reported (text : str) (n : Z) (w' : world) : Prop :=
  exists dir name out, files w' !! abspath cwd (path_join dir name) = Some text /\
    last_sloc (sloccount ["sloccount" : str; "--datadir" : str; dir ++ "_data"; "--details" : str; dir] (files w')) = Some out /\
    py_int out = Ok n.

Lemma compute_sloc_Ok show_ghost f w n w' :
  compute_sloc cwd randint dafny egrep sloccount iron_base show_ghost f w = Ok (n, w') ->
  sloc_reported (printed show_ghost f w) n w'.
Proof.
  unfold compute_sloc, make_tmp_dir.
  set (dir := iron_base ++ _). set (name := basename f ++ _). 
  set (inspect := path_join (path_join INSPECT_DIR (dirname f)) name).
  unfold run_dafny, clean_dafny_output, py_open, write_file. cbn [files].
  rewrite lookup_insert_eq. cbn [of_option].
  intros H. apply bind_Ok in H as (w1 & H1 & H). cbn in H1. injection H1 as <-.
  apply bind_Ok in H as ([sloc w2] & H2 & H). apply bind_Ok in H as (n' & H3 & H). injection H as <- <-.
  unfold run_sloccount, makedirs in H2. cbn [dirs files] in H2.
  case_bool_decide; [discriminate H2|]. rewrite bind_of_Ok in H2. cbn [files] in H2.
  destruct (last_sloc _) as [out|] eqn:Hout; [|discriminate H2]. injection H2 as <- <-.
  exists dir, name, out. split_and!; [|exact Hout|exact H3]. cbn [files].
  destruct (decide (abspath cwd inspect = abspath cwd (path_join dir name))) as [-> |Hne].
  - apply lookup_insert_eq.
  - rewrite lookup_insert_ne by done. apply lookup_insert_eq.
Qed.

(** The split of the lines of a file: the three counts add up to what
    sloccount reports for the cleaned print with ghost code; a specification
    file has no other lines, and in any other file the implementation lines are
    what is reported for the print without ghost code.  The time is the one the
    verification log of the file gives. *)
Theorem counts_add_up input w obj w' :
  count_obj cwd randint dafny egrep sloccount iron_base input w = Ok (obj, w') ->
  let f := replace input "\" "/" in
  exists s i p c w1,
    summarize cwd (files w) VERCHK (chkFromDafny VERCHK input) = Ok c /\
    obj = [("spec" : str, VInt s); ("impl" : str, VInt i); ("proof" : str, VInt p);
           ("time" : str, of_time (userTimeSec c))] /\
    compute_sloc cwd randint dafny egrep sloccount iron_base true f w = Ok ((s + i + p)%Z, w1) /\
    sloc_reported (printed true f w) (s + i + p) w1 /\
    if endswith f ".s.dfy" then i = 0%Z /\ p = 0%Z /\ w1 = w'
    else s = 0%Z /\ compute_sloc cwd randint dafny egrep sloccount iron_base false f w1 = Ok (i, w') /\
         sloc_reported (printed false f w1) i w'.
Proof.
  unfold count_obj. intros (c & Hsum & H)%bind_Ok. apply bind_Ok in H as ([fs' w2] & Hc & H).
  apply bind_Ok in H as (df & Hdf & H). injection H as <- <-.
  cbn [collect_line_counts] in Hc. apply bind_Ok in Hc as ([f' w3] & Hf & Hc).
  injection Hc as <- <-. cbn in Hdf. injection Hdf as <-.
  unfold count_file in Hf. apply bind_Ok in Hf as ([g w1] & Hg & Hf).
  cbn [filename DafnyFile_init impl proof spec verify_time] in *. unfold is_spec in Hf.
  change (filename (DafnyFile_init ?x ?y)) with (replace x "\" "/") in *.
  pose proof (compute_sloc_Ok _ _ _ _ _ Hg) as Hg'. cbn [fst snd] in *.
  destruct (endswith (replace input "\" "/") ".s.dfy") eqn:Hs.
  - injection Hf as <- <-. cbn. exists g, 0%Z, 0%Z, c, w1. rewrite !Z.add_0_r. by split_and!.
  - apply bind_Ok in Hf as ([i w4] & Hi & Hf). injection Hf as <- <-. pose proof (compute_sloc_Ok _ _ _ _ _ Hi) as Hi'.
    cbn. exists 0%Z, i, (g - i)%Z, c, w1. replace (0 + i + (g - i))%Z with g by lia. by split_and!.
Qed.
End counts.

(** ** Examples *)

(** A printer that keeps its ghost line on request, a filter that keeps
    everything, and a counter of the lines of the last [.cs] file. *)
Definition demo_dafny (args : list str) (fs : gmap str str) : str :=
  "method M() {" ++ [nl] ++ "/* a /* b */ */" ++ [nl] ++
  (if contains "NoGhost" (concat args) then [] else "ghost var x;" ++ [nl]) ++ "}" ++ [nl].
Definition demo_sloccount (args : list str) (fs : gmap str str) : str :=
  let dir := List.last args [] in
  let lines := concat (map (fun '(p, c) =>
    if startswith p (abspath "/r" dir) && endswith p ".cs" then split_char nl c else []) (map_to_list fs)) in
  "Total:" ++ [nl] ++ dec_N (N.of_nat (length lines)) ++ "  cs  " ++ dir ++ [nl].
Definition demo_world : world := World (list_to_map
  [ (# "/r/build/Impl/A.i.verchk", "1.5user" ++ [nl] ++ dafny_summary 1 0 None);
    (# "/r/./Impl/A.i.dfy", []); (# "/r/Impl/A.i.dfy", []) ]) ∅ 0.

Definition demo_count : res (list (str * pyval) * world) :=
  count_obj "/r" N.of_nat demo_dafny (fun _ s => s) demo_sloccount "." "Impl/A.i.dfy" demo_world.

Example count_demo :
  (fst <$> demo_count) =
  Ok [("spec" : str, VInt 0); ("impl" : str, VInt 2); ("proof" : str, VInt 1);
      ("time" : str, VFloat (float_of_dec 15 (-1)))].
Proof. vm_compute. reflexivity. Qed.

Lemma counts_add_up_witness :
  exists obj w', demo_count = Ok (obj, w') /\
    exists s i p t w1,
      obj = [("spec" : str, VInt s); ("impl" : str, VInt i); ("proof" : str, VInt p); ("time" : str, t)] /\
      sloc_reported "/r" demo_sloccount
        (printed demo_dafny (fun _ s => s) "." true (replace "Impl/A.i.dfy" "\" "/") demo_world) (s + i + p) w1.
Proof.
  pose proof count_demo as Hd.
  destruct demo_count as [[obj w']|e] eqn:E; [|discriminate Hd].
  exists obj, w'. split; [reflexivity|].
  destruct (counts_add_up "/r" N.of_nat demo_dafny (fun _ s => s) demo_sloccount "."
    "Impl/A.i.dfy" demo_world obj w' E) as (s & i & p & c & w1 & _ & H1 & _ & H2 & _).
  exists s, i, p. eexists _, w1. split; [exact H1|exact H2].
Defined.

Definition demo_doc : doc :=
  Plain "x" (Comment (Plain "y" (Comment (Plain "z" Done) Done)) (Plain "w" Done)).

Lemma comments_removed_witness :
  render demo_doc = "x/*y/*z*/*/w" /\ remove_paired_comments (render demo_doc) = "xw".
Proof.
  split; [reflexivity|]. apply (comments_removed demo_doc). cbn. split_and!; done.
Defined.

Lemma sloc_of_details_witness :
  exists s, last_sloc (join [nl] ([ # "Computing results." ] ++ details_line "a " 120 "  " " ./tmp/x.cs"
      :: [ # "Total 120"; [] ])) = Some s /\ py_int s = Ok 120%Z.
Proof.
  apply (sloc_of_details [ # "Computing results." ] "a " 120 "  " " ./tmp/x.cs" [ # "Total 120"; [] ]).
  - repeat constructor.
  - repeat constructor.
  - done.
  - apply (bool_decide_unpack _). vm_compute. exact I.
  - repeat constructor; vm_compute; reflexivity.
Defined.
