(* ===== verification/Report.v ===== *)
(** * The line count report (tools/line_counter_report_lib.py)

    Per-file counts are accumulated into the rows of a table by a mapper, with
    implementation lines moved to the row that bills them, and the table and
    its highlights are printed as TeX.  The count files are read
    from the text [LineCount] writes; the console table of the debug option is
    printed as well. *)
From S2P Require Import Prelude PyStr Argparse Regex Paths Deps PyFloat Json Aggregate LineCount.

(** ** Dictionaries, counters *)

(** A dict: its items in insertion order, no key twice. *)
Section dict.
Context {V : Type}.

Fixpoint dget (k : str) (d : list (str * V)) : option V :=
  match d with
  | [] => None
  | (k', v) :: d' => if bool_decide (k' = k) then Some v else dget k d'
  end.
Fixpoint dset (k : str) (v : V) (d : list (str * V)) : list (str * V) :=
  match d with
  | [] => [(k, v)]
  | (k', v') :: d' => if bool_decide (k' = k) then (k, v) :: d' else (k', v') :: dset k v d'
  end.
Definition ddel (k : str) (d : list (str * V)) : list (str * V) :=
  List.filter (fun '(k', _) => negb (bool_decide (k' = k))) d.
End dict.

Definition report_data := list (str * pyval).
Abbreviation counter := (list (str * pyval)).
Abbreviation counters := (list (str * list (str * pyval))).

(** [a + b]. *)
Definition py_add (a b : pyval) : res pyval :=
  match a, b with
  | VInt x, VInt y => Ok (VInt (x + y))
  | VInt x, VFloat y => Ok (VFloat (fadd (float_of_Z x) y))
  | VFloat x, VInt y => Ok (VFloat (fadd x (float_of_Z y)))
  | VFloat x, VFloat y => Ok (VFloat (fadd x y))
  | VStr x, VStr y => Ok (VStr (x ++ y))
  | _, _ => Raise TypeError
  end.

(** [c[k]] of a Counter: a missing key counts zero. *)
Definition cget (k : str) (c : counter) : pyval := default (VInt 0) (dget k c).

(** [c.update(m)] of a Counter: an empty counter takes the items as they are,
    any other adds them one by one. *)
Definition counter_update (c : counter) (m : list (str * pyval)) : res counter :=
  match c with
  | [] => Ok (fold_left (fun c '(k, v) => dset k v c) m [])
  | _ => for_each (fun c '(k, v) => v' ← py_add v (cget k c); Ok (dset k v' c)) m c
  end.

(** [counters[k].update(m)] on the defaultdict. *)
Definition update_row (k : str) (m : list (str * pyval)) (cs : counters) : res counters :=
  c ← counter_update (default [] (dget k cs)) m; Ok (dset k c cs).

(** Reading [counters[k]] adds the key. *)
Definition touch_row (k : str) (cs : counters) : counter * counters :=
  match dget k cs with Some c => (c, cs) | None => ([], cs ++ [(k, [])]) end.

(** ** The rows of the table *)

Inductive row :=
  | Header (label : str)
  | Data (label counter_key : str) (impl_map : option str).

Definition row_descriptors : list row :=
  [ Header "Common Framework";
    Data "LTS def. \& ghost axioms" "ManualMapper-framework" None;
    Data "Memory Primitives" "ManualMapper-framework-mem" None;
    Data "Libraries" "ManualMapper-framework-lib" None;
    Header "Bank~\autoref{sec:core}";
    Data "Spec" "ManualMapper-bank-spec" (Some (# "ManualMapper-bank"));
    Data "LTS" "ManualMapper-bank-sm" (Some (# "ManualMapper-bank"));
    Data "Impl" "ManualMapper-bank" None;
    Header "RHHT Hash Table~\autoref{sec:spec:refinement}";
    Data "Spec" "ManualMapper-htatomic-spec" None;
    Data "LTS" "ManualMapper-htatomic-lts" (Some (# "ManualMapper-htatomic-impl"));
    Data "Refinement Proofs" "ManualMapper-htatomic-ref" (Some (# "ManualMapper-htatomic-impl"));
    Data "Impl" "ManualMapper-htatomic-impl" None;
    Header "Node Replication~\autoref{sec:nr}";
    Data "Spec" "ManualMapper-nr-spec" None;
    Data "\UnboundedLog LTS" "ManualMapper-nr-log" (Some (# "ManualMapper-nr-impl"));
    Data "\FlatCombine LTS" "ManualMapper-nr-fc" (Some (# "ManualMapper-nr-impl"));
    Data "\CyclicBuffer LTS" "ManualMapper-nr-cyclic" (Some (# "ManualMapper-nr-impl"));
    Data "\DistRwLock LTS" "ManualMapper-nr-rw" (Some (# "ManualMapper-nr-impl"));
    Data "Refinement Proofs" "ManualMapper-nr-ref" (Some (# "ManualMapper-nr-impl"));
    Data "Impl" "ManualMapper-nr-impl" None;
    Header "SplinterCache~\autoref{sec:cache}";
    Data "Spec" "ManualMapper-scache-spec" None;
    Data "Disk Model and API" "ManualMapper-scache-disk" None;
    Data "\Cache LTS" "ManualMapper-scache-sm" (Some (# "ManualMapper-scache-impl"));
    Data "\CacheRwLock LTS" "ManualMapper-scache-rw" (Some (# "ManualMapper-scache-impl"));
    Data "Refinement Proofs" "ManualMapper-scache-ref" (Some (# "ManualMapper-scache-impl"));
    Data "Impl" "ManualMapper-scache-impl" None ].

Definition row_has_key (key : str) (r : row) : bool :=
  match r with Data _ k _ => bool_decide (k = key) | Header _ => false end.
Definition key_appears_in_row_descriptors (key : str) : bool :=
  existsb (row_has_key key) row_descriptors.

(** The last row with the key decides. *)
Definition get_key_to_move_impl_to (key : str) : res (option str) :=
  let r := fold_left (fun r x => if row_has_key key x then Some x else r) row_descriptors None in
  match r with
  | Some (Data _ _ (Some impl_map)) =>
      _ ← py_assert (key_appears_in_row_descriptors impl_map); Ok (Some impl_map)
  | _ => Ok None
  end.

(** ** Mappers *)

(** What [accumulate] asks of a mapper. *)
Class Mapper := {
  categ : str;
  map_report : report_data -> res (list str)
}.

Definition mapper_keys {M : Mapper} (report : report_data) : res (list str) :=
  ks ← map_report report; Ok (map (fun key => categ ++ "-" ++ key) ks).

Definition source_of (report : report_data) : res str :=
  v ← of_option KeyError (dget "source" report);
  match v with VStr s => Ok s | _ => Raise TypeError end.

Definition AllMapper : Mapper := {| categ := "AllMapper"; map_report _ := Ok [ # "all"] |}.

Definition DirMapper : Mapper := {|
  categ := "DirMapper";
  map_report report :=
    source ← source_of report;
    let dirpart := dirname source in
    if bool_decide (dirpart = "Impl") then
      base ← nth_res (split_char "." source) 0;
      Ok (if endswith base "Model" then [ # "Impl-Model"]
          else if endswith base "Impl" then [ # "Impl-Impl"] else [ # "Impl-Misc"])
    else Ok [dirpart]
|}.

(** The mapping of [ManualMapper]: each path with its set of categories. *)
Definition classification := list (str * list str).

Definition classify_line (mapping : classification) (line : str) : res classification :=
  if startswith line "#" then Ok mapping
  else if bool_decide (strip line = []) then Ok mapping
  else match fields line with
       | [cat; path] =>
           let path := if startswith path "./" then drop 2 path else path in
           let old := default [] (dget path mapping) in
           Ok (dset path (if existsb (fun c => bool_decide (c = cat)) old then old else old ++ [cat]) mapping)
       | _ => Raise ValueError
       end.
Definition load_classification (contents : str) : res classification :=
  for_each classify_line (readlines contents) [].

Definition ManualMapper (mapping : classification) : Mapper := {|
  categ := "ManualMapper";
  map_report report :=
    source ← source_of report; Ok (default [ # "unmapped"] (dget source mapping))
|}.

(** ** Accumulation *)

Definition ignore_key (key : str) : bool :=
  endswith key "ignore" || endswith key "framework-linear-dafny" || bool_decide (key = "ManualMapper-hthh").

(** The rows of the [DebugTable]. *)
Definition debug_row : Type := str * str * list (str * pyval).
Definition debug_add (key : str) (report : report_data) (rows : list debug_row) : res (list debug_row) :=
  source ← source_of report; Ok (rows ++ [(key, source, ddel "source" report)]).

(** The body of the loop of [accumulate] for a report that is not ignored. *)
Definition bill_report (key : str) (report : report_data) (cs : counters) : res counters :=
  impl_key ← get_key_to_move_impl_to key;
  cs ← match impl_key with
       | None => update_row key report cs
       | Some ik =>
           impl_r ← counter_update [] [("impl" : str, cget "impl" report)];
           cs ← update_row key (ddel "impl" report) cs;
           update_row ik impl_r cs
       end;
  cs ← update_row "total" report cs;
  _ ← py_assert (key_appears_in_row_descriptors key);
  Ok cs.

Definition accumulate_step {M : Mapper} (st : counters * list debug_row) (report : report_data)
    : res (counters * list debug_row) :=
  let '(cs, dbg) := st in
  all_keys ← mapper_keys report;
  let keys := List.filter (fun key => negb (ignore_key key)) all_keys in
  _ ← py_assert (length keys <=? 1);
  match keys with
  | key :: _ =>
      dbg ← debug_add key report dbg;
      if ignore_key key then Ok (cs, dbg)
      else cs ← bill_report key report cs; Ok (cs, dbg)
  | [] => Ok (cs, dbg)
  end.

(** [del counter["source"]] for every counter. *)
Definition drop_sources (cs : counters) : counters := map (fun '(k, c) => (k, ddel "source" c)) cs.

Definition accumulate {M : Mapper} (reports : list report_data) (debugTable : list debug_row)
    : res (counters * list debug_row) :=
  '(cs, dbg) ← for_each accumulate_step reports ([], debugTable);
  Ok (drop_sources cs, dbg).

(** [DebugTable.display].  Rows are tuples: they are ordered by key, then by
    source; two rows that agree on both and differ in the data have no order. *)
#[export] Instance float_eq_dec : EqDecision float.
Proof. solve_decision. Defined.
#[export] Instance pyval_eq_dec : EqDecision pyval.
Proof. solve_decision. Defined.

Definition debug_ltb (a b : debug_row) : bool :=
  str_ltb (fst (fst a)) (fst (fst b)) ||
  (bool_decide (fst (fst a) = fst (fst b)) && str_ltb (snd (fst a)) (snd (fst b))).
Definition incomparable (a b : debug_row) : bool := bool_decide (fst a = fst b) && negb (bool_decide (snd a = snd b)).

Definition repr_pyval (v : pyval) : str := match v with VStr s => repr_str s | _ => pystr_of v end.
Definition repr_dict (d : list (str * pyval)) : str :=
  "{" ++ join ", " (map (fun '(k, v) => repr_str k ++ ": " ++ repr_pyval v) d) ++ "}".
Definition debug_line (r : debug_row) : str :=
  pad_right 40 (fst (fst r)) ++ " " ++ pad_right 70 (snd (fst r)) ++ " " ++ repr_dict (snd r) ++ [nl].
Definition debug_display (rows : list debug_row) : res str :=
  if existsb (fun a => existsb (incomparable a) rows) rows then Raise TypeError
  else Ok (flat_map debug_line (sort_by debug_ltb rows)).

(** ** Numbers in the report *)

Definition num (v : pyval) : res float :=
  match v with VInt z => Ok (float_of_Z z) | VFloat x => Ok x | _ => Raise TypeError end.

(** ["%d" % v], [int(v)] and ["%.1f" % v]. *)
Definition py_trunc (v : pyval) : res Z :=
  match v with VInt z => Ok z | VFloat x => float_trunc x | _ => Raise TypeError end.
Definition fmt_d (v : pyval) : res str := z ← py_trunc v; Ok (dec_Z z).
Definition fmt_f1 (v : pyval) : res str := x ← num v; Ok (fmt_fixed 1 x).

(** [a < b], [a / b], [a - b] on numbers. *)
Definition num_ltb (a b : pyval) : res bool :=
  match a, b with
  | VInt x, VInt y => Ok (x <? y)%Z
  | _, _ => x ← num a; y ← num b; Ok (fltb x y)
  end.
Definition py_div (a b : pyval) : res pyval := x ← num a; y ← num b; q ← fdiv x y; Ok (VFloat q).
Definition py_sub (a b : pyval) : res pyval :=
  match a, b with
  | VInt x, VInt y => Ok (VInt (x - y))
  | _, _ => x ← num a; y ← num b; Ok (VFloat (fsub x y))
  end.

Definition is_zero (v : pyval) : bool :=
  match v with VInt z => (z =? 0)%Z | VFloat x => fzero x | _ => false end.

(** Keys of a dict that must be there. *)
Definition item (k : string) (d : list (str * pyval)) : res pyval := of_option KeyError (dget k d).

(** ** The TeX table *)

Definition dropzero (d : pyval) (suffix : str) : str :=
  if is_zero d then [] else pystr_of d ++ suffix.

(** The inner [write_row]; the row's data is a Counter. *)
Definition write_row (label : str) (rowdata : counter) (use_minutes : bool) : res str :=
  time_row ←
    (if use_minutes then
       minutes ← py_div (cget "time" rowdata) (VInt 60);
       s ← fmt_f1 minutes; Ok (dropzero (VStr s) " min")
     else
       small ← num_ltb (cget "time" rowdata) (VInt 1);
       if (small : bool) then s ← fmt_f1 (cget "time" rowdata); Ok (dropzero (VStr s) " s")
       else z ← py_trunc (cget "time" rowdata); Ok (dropzero (VInt z) " s"));
  Ok (label ++ " & " ++ dropzero (cget "spec" rowdata) [] ++ " & " ++ dropzero (cget "impl" rowdata) []
      ++ " & " ++ dropzero (cget "proof" rowdata) [] ++ " & " ++ time_row ++ "\\" ++ [nl]).

Definition line (s : str) : str := s ++ [nl].

Definition table_row (cs : counters) (r : row) : res str :=
  match r with
  | Data label key _ =>
      match dget key cs with
      | Some local_counter => write_row label local_counter false
      | None => Ok []        (* a warning on the console *)
      end
  | Header label => Ok ("\textbf{" ++ label ++ "} & &  &  & \\")
  end.

Definition write_tex_table (cs : counters) : res (str * counters) :=
  rows ← map_res (table_row cs) row_descriptors;
  let '(total_counter, cs) := touch_row "total" cs in
  total ← write_row "Total" total_counter true;
  Ok (line "\begin{center}" ++ line "\setlength{\tabcolsep}{5pt}" ++
      line "\begin{tabular}{|l|rrrr|}" ++ line "\hline" ++
      line "Major component & trusted & impl & proof & verif\\" ++
      line "& {\small LOC} & {\small LOC} & {\small LOC} & time\\" ++
      line "\hline" ++ concat rows ++ line "\hline" ++ total ++
      line "\hline" ++ line "\end{tabular}" ++ line "\end{center}", cs).

(** ** The compact table *)

Fixpoint insert_str (x : str) (l : list str) : list str :=
  match l with
  | [] => [x]
  | y :: l' => if str_ltb y x then y :: insert_str x l' else x :: l
  end.
Definition sort_strs (l : list str) : list str := foldr insert_str [] l.

Definition compact_row (key spec impl proof : str) : str :=
  line ("% " ++ pad_right 48 key ++ " " ++ pad_left 5 spec ++ " " ++ pad_left 5 impl ++ " " ++ pad_left 5 proof).

Definition write_compact_table (cs : counters) : str :=
  line "% write_compact_table()" ++ compact_row [] "spec" "impl" "proof" ++
  flat_map (fun key =>
      let rowdata := default [] (dget key cs) in
      compact_row key (pystr_of (cget "spec" rowdata)) (pystr_of (cget "impl" rowdata))
        (pystr_of (cget "proof" rowdata)))
    (sort_strs (map fst cs)).

(** ** The tidy table *)

Definition emit_tex_commented (s : str) : str :=
  flat_map (fun l => line ("% " ++ l)) (split_char nl s).

(** [sort(key=...)]: stable, by [<] on the keys. *)
Fixpoint insert_by_res {A} (lt : A -> A -> res bool) (x : A) (l : list A) : res (list A) :=
  match l with
  | [] => Ok [x]
  | y :: l' => b ← lt y x;
               if (b : bool) then l'' ← insert_by_res lt x l'; Ok (y :: l'') else Ok (x :: l)
  end.
Fixpoint sort_by_res {A} (lt : A -> A -> res bool) (l : list A) : res (list A) :=
  match l with [] => Ok [] | x :: l' => s ← sort_by_res lt l'; insert_by_res lt x s end.

Definition py_neg (v : pyval) : res pyval :=
  match v with VInt z => Ok (VInt (- z)) | VFloat x => Ok (VFloat (fopp x)) | _ => Raise TypeError end.

Definition emit_tidy_table (reports : list report_data) : res str :=
  tagged ← map_res (fun report => source ← source_of report; Ok (source, report)) reports;
  let selected := List.filter (fun '(source, _) => endswith source ".s.dfy") tagged in
  keyed ← map_res (fun '(source, report) => v ← item "spec" report; k ← py_neg v; Ok (k, v, source)) selected;
  sorted ← sort_by_res (fun '(k, _, _) '(k', _, _) => num_ltb k k') keyed;
  lines ← map_res (fun '(_, v, source) => d ← fmt_d v; Ok (line (pad_left 5 d ++ " " ++ source))) sorted;
  Ok (concat lines).

(** ** Highlights *)

Definition newcommand (name : string) (v : str) : str :=
  line ("\newcommand{\" ++ name ++ "}{" ++ v ++ "}").

(** [counters[k][f]], which may add the row. *)
Definition touch_cell (k f : string) (cs : counters) : pyval * counters :=
  let '(c, cs) := touch_row k cs in (cget f c, cs).

(** The first of the smallest and of the largest. *)
Definition extremum (better : pyval -> pyval -> res bool) (l : list pyval) : res pyval :=
  match l with
  | [] => Raise ValueError
  | v :: l' => for_each (fun m x => b ← better x m; Ok (if (b : bool) then x else m)) l' v
  end.
Definition py_min : list pyval -> res pyval := extremum num_ltb.
Definition py_max : list pyval -> res pyval := extremum (fun x m => num_ltb m x).

Definition file_highlights (reports : list report_data) : res str :=
  times ← map_res (item "time") reports;
  under ← map_res (fun t => num_ltb t (VFloat (float_of_Z 60))) times;
  let count_under_minute := Z.of_nat (length (List.filter id under)) in
  ratio ← py_div (VInt count_under_minute) (VInt (Z.of_nat (length reports)));
  ratio ← num ratio;
  pct ← float_trunc (fmul ratio (float_of_Z 100));
  sorted ← sort_by_res num_ltb times;
  slowest ← of_option IndexError (last sorted);
  slowestFileSec ← py_trunc slowest;
  minutes ← py_div (VInt slowestFileSec) (VInt 60);
  minutes ← num minutes;
  slowestFileMin ← float_trunc (fadd minutes (float_of_Z 1));
  Ok (newcommand "dataPctFilesUnderOneMinute" (dec_Z pct) ++
      newcommand "dataSlowestFileSec" (dec_Z slowestFileSec) ++
      newcommand "dataSlowestFileMin" (dec_Z slowestFileMin)).

(** The rows whose specification counts as application: no total, no framework. *)
Definition trusted_app_key (k : str) : bool :=
  negb (ignore_key k) && negb (contains "total" k) && negb (contains "framework" k).

Definition highlights (reports : list report_data) (cs : counters) : res (str * counters) :=
  files ← file_highlights reports;
  let '(frameworkImplLoc, cs) := touch_cell "ManualMapper-framework-lib" "impl" cs in
  let '(totalImpl, cs) := touch_cell "total" "impl" cs in
  framework ← fmt_d frameworkImplLoc;
  caseStudyImplLoc ← py_sub totalImpl frameworkImplLoc;
  caseStudy ← fmt_d caseStudyImplLoc;
  let '(allProof, cs) := touch_cell "total" "proof" cs in
  proofs ← fmt_d allProof;
  let proofCodeRatio := match py_div allProof totalImpl with Ok r => r | Raise _ => VInt (-1) end in
  ratio ← fmt_f1 proofCodeRatio;
  let '(totalSpec, cs) := touch_cell "total" "spec" cs in
  trusted ← fmt_d totalSpec;
  let '(frameworkSpec, cs) := touch_cell "ManualMapper-framework" "spec" cs in
  let '(frameworkMemSpec, cs) := touch_cell "ManualMapper-framework-mem" "spec" cs in
  trustedFramework ← py_add frameworkSpec frameworkMemSpec;
  trustedFramework ← fmt_d trustedFramework;
  let trustedAppLines := map (fun '(_, c) => cget "spec" c) (List.filter (fun '(k, _) => trusted_app_key k) cs) in
  app_lines ←
    match trustedAppLines with
    | [] => Ok (newcommand "dataMinTrustedAppLines" "none" ++ newcommand "dataMaxTrustedAppLines" "none")
    | _ => lo ← py_min trustedAppLines; hi ← py_max trustedAppLines;
           lo ← fmt_d lo; hi ← fmt_d hi;
           Ok (newcommand "dataMinTrustedAppLines" lo ++ newcommand "dataMaxTrustedAppLines" hi)
    end;
  Ok (files ++ newcommand "dataFrameworkImplLoc" framework ++ newcommand "dataCaseStudyImplLoc" caseStudy
      ++ newcommand "dataAllProof" proofs ++ newcommand "dataProofCodeRatio" ratio
      ++ newcommand "dataTrustedLoc" trusted ++ newcommand "dataTrustedFrameworkLoc" trustedFramework
      ++ app_lines, cs).

(** ** json.dumps with sorted keys and indent 2 *)

Definition json_reports (reports : list report_data) : str := dumps (Some 2) (sort_keys (JArr (map json_of_dict reports))).
Definition json_counters (cs : counters) : str :=
  dumps (Some 2) (sort_keys (JObj (map (fun '(k, c) => (k, json_of_dict c)) cs))).

(** ** The report *)

Section report.
(** The sources, and the count files among them. *)
Context (cwd ROOT_PATH : str) (fs : gmap str str).

(** What [json.load] gives; a count file holds numbers, texts and null only. *)
Definition pyval_of_json (v : Json.json) : res pyval :=
  match v with
  | JNull => Ok VNone | JInt z => Ok (VInt z) | JFloat x => Ok (VFloat x) | JStr s => Ok (VStr s)
  | _ => Raise TypeError
  end.
Definition dict_of_json (v : Json.json) : res (list (str * pyval)) :=
  match v with
  | JObj d => map_res (fun '(k, v) => v ← pyval_of_json v; Ok (k, v)) d
  | _ => Raise TypeError
  end.

Definition loadReport (r : iref) : res report_data :=
  contents ← py_open cwd fs (targetName r ".lc");
  obj ← loads contents;
  values ← dict_of_json obj;
  Ok (dset "source" (VStr (normPath r)) values).

Definition gatherReports (input : str) : res (list report_data) :=
  TOP ← mk_iref cwd ROOT_PATH None 0 input;
  deps ← depsFromDfySource cwd ROOT_PATH fs TOP;
  map_res loadReport (TOP :: deps).

(** [report]: the contents of /tmp/debugtable and of the output file. *)
Definition report (input output : str) : res (str * str) :=
  reports ← gatherReports input;
  contents ← py_open cwd fs "docs/file-classifications.txt";
  mapping ← load_classification contents;
  '(cs, rows) ← accumulate (M := ManualMapper mapping) reports [];
  debug ← debug_display rows;
  '(hl, cs) ← highlights reports cs;
  '(table, cs) ← write_tex_table cs;
  tidy ← emit_tidy_table reports;
  Ok (debug, emit_tex_commented ("autogenerated with make " ++ output) ++ emit_tex_commented "%%%% highlights" ++
      line "\ifx\tablemode\undefined" ++ hl ++ line "\else" ++ table ++ line "\fi" ++
      emit_tex_commented "%%%% reports" ++ emit_tex_commented (json_reports reports) ++
      emit_tex_commented "%%%% counters" ++ emit_tex_commented (json_counters cs) ++
      emit_tex_commented "%%%% tidy table" ++ emit_tex_commented tidy ++ write_compact_table cs).
End report.

(** line_counter.py: the options and [main].  The mode is [None] when the
    namespace holds something else than a text. *)
Record counter_args := CounterArgs { c_mode : option str; c_input : str; c_output : str }.
Definition count_modes : list str := [ # "count"; # "report"].
Definition line_counter_parser : parser :=
  argument_parser [] ++ [option_choice "--mode" Argparse.VNone true count_modes; option_required "--input"; option_required "--output"].
Definition counter_args_of (ns : gmap str aval) : res counter_args :=
  m ← attribute ns "mode"; i ← attr_text ns "input"; o ← attr_text ns "output";
  Ok (CounterArgs (match m with Argparse.VStr s => Some s | _ => None end) i o).

(** The command line written out in full. *)
Definition counter_tokens (a : counter_args) : list token :=
  [GiveEquals "--mode" (option_choice "--mode" Argparse.VNone true count_modes) (default [] (c_mode a));
   GiveEquals "--input" (option_required "--input") (c_input a);
   GiveEquals "--output" (option_required "--output") (c_output a)].
#[export] Program Instance counter_line : CommandLine counter_args :=
  {| cl_parser := line_counter_parser; cl_of := counter_args_of; cl_tokens := counter_tokens;
     cl_ok := fun a => (exists m, c_mode a = Some m /\ m ∈ count_modes) /\ c_input a <> # "--" /\ c_output a <> # "--" |}.
Next Obligation.
  intros [m i o] ((m' & [= ->] & Hm) & Hi & Ho). cbn [c_input c_output] in *.
  rewrite parse_rendered; [|vm_compute; reflexivity|repeat constructor; vm_compute; reflexivity].
  unfold counter_tokens. cbn [c_mode c_input c_output default from_option id for_each meaning].
  assert (Hv : exists st, take_value (option_choice "--mode" Argparse.VNone true count_modes) m' (initial_state line_counter_parser) = Ok st /\
    st = with_namespace (option_choice "--mode" Argparse.VNone true count_modes)
      (<[ # "mode" := Argparse.VStr m']> (defaults line_counter_parser)) (initial_state line_counter_parser)).
  { unfold count_modes in Hm. rewrite !elem_of_cons in Hm. destruct Hm as [->|[->|Hm]]; [..|by apply not_elem_of_nil in Hm];
      eexists; split; try reflexivity; vm_compute; reflexivity. }
  destruct Hv as (st & -> & ->). rewrite bind_of_Ok, take_text, bind_of_Ok, take_text, bind_of_Ok by done. vm_compute. reflexivity.
Qed.

Definition line_counter_main (cwd ROOT_PATH : str) (randint : nat -> N) (dafny : list str -> gmap str str -> str)
    (egrep : list str -> str -> str) (sloccount : list str -> gmap str str -> str) (iron_base : str)
    (args : list str) (w : world) : res world :=
  a ← command_line args;
  if bool_decide (c_mode a = Some (# "count")) then
    count cwd randint dafny egrep sloccount iron_base (c_input a) (c_output a) w
  else if bool_decide (c_mode a = Some (# "report")) then
    '(debug, contents) ← report cwd ROOT_PATH (files w) (c_input a) (c_output a);
    Ok (write_file cwd (c_output a) contents (write_file cwd "/tmp/debugtable" debug w))
  else Raise (PyException "argparse allowed bogus mode").

(** The mode [main] sees is one of the two or, after [--mode=--], no text at
    all: argparse drops the separator before it looks at the choices.  Only then
    is the last branch taken. *)
Theorem counter_mode args :
  ends (fun ns => forall a, counter_args_of ns = Ok a ->
          c_mode a = None \/ exists m, c_mode a = Some m /\ m ∈ count_modes) (parse_args line_counter_parser args) /\
  forall cwd ROOT_PATH randint dafny egrep sloccount iron_base w a,
    command_line args = Ok a -> c_mode a = None ->
    line_counter_main cwd ROOT_PATH randint dafny egrep sloccount iron_base args w =
      Raise (PyException "argparse allowed bogus mode").
Proof.
  split.
  - eapply ends_weaken; [apply (parse_args_typed line_counter_parser); vm_compute; reflexivity|].
    intros ns Hns a Ha. set (m := option_choice "--mode" Argparse.VNone true count_modes).
    destruct (Hns m) as (v & Hv & [Hg|[_ Hr]]); [by apply list_elem_of_further, list_elem_of_here|done| |done].
    unfold counter_args_of, attribute in Ha. change (a_dest m) with (# "mode") in Hv. rewrite Hv in Ha.
    apply bind_Ok in Ha as (v' & [= <-] & Ha). res_inv. cbn [c_mode].
    destruct Hg as [->|(s & -> & Hs)]; [by left|right; by exists s].
  - intros * Ha Hm. unfold line_counter_main. rewrite Ha, bind_of_Ok, Hm. by rewrite !bool_decide_eq_false_2.
Qed.

Example bogus_mode_is_allowed :
  command_line [ # "--mode=--"; # "--input=Impl/A.i.dfy"; # "--output"; # "build/A.lc"] =
    Ok (CounterArgs None "Impl/A.i.dfy" "build/A.lc") /\
  parse_args line_counter_parser [ # "--mode=size"; # "--input=a"; # "--output=b"] =
    Raise (UsageError "argument --mode: invalid choice: 'size' (choose from 'count', 'report')").
Proof. vm_compute. done. Qed.

(** ** Dictionaries as finite maps *)

Section dict_lemmas.
Context {V : Type}.
Implicit Types (d : list (str * V)) (k : str).

Lemma dget_dset k k' v d : dget k (dset k' v d) = if bool_decide (k' = k) then Some v else dget k d.
Proof.
  induction d as [|[a b] d IH]; cbn; [done|].
  destruct (bool_decide_reflect (a = k')) as [->|Hne]; cbn.
  - by repeat case_bool_decide.
  - rewrite IH. repeat case_bool_decide; congruence.
Qed.

Lemma dget_dset_eq k v d : dget k (dset k v d) = Some v.
Proof. rewrite dget_dset. by rewrite bool_decide_eq_true_2. Qed.

Lemma dget_dset_ne k k' v d : k' <> k -> dget k (dset k' v d) = dget k d.
Proof. intros. rewrite dget_dset. by rewrite bool_decide_eq_false_2. Qed.

Lemma dget_ddel_ne k k' d : k' <> k -> dget k (ddel k' d) = dget k d.
Proof.
  intros Hne. induction d as [|[a b] d IH]; [done|]. unfold ddel in *. cbn.
  destruct (bool_decide_reflect (a = k')) as [->|]; cbn; [by rewrite bool_decide_eq_false_2|].
  by rewrite IH.
Qed.

Lemma dget_None k d : dget k d = None <-> k ∉ d.*1.
Proof.
  induction d as [|[a b] d IH]; cbn; [by split; [intros _ ?%not_elem_of_nil|]|].
  rewrite not_elem_of_cons. case_bool_decide; [naive_solver|]. rewrite IH. naive_solver.
Qed.

Lemma dset_keys k v d : NoDup d.*1 -> NoDup (dset k v d).*1.
Proof.
  assert (Hin : forall x d, x ∈ (dset k v d).*1 -> x = k \/ x ∈ d.*1).
  { intros x l. induction l as [|[a b] l IH]; cbn.
    - intros ->%list_elem_of_singleton. auto.
    - case_bool_decide; cbn; rewrite !elem_of_cons; naive_solver. }
  induction d as [|[a b] d IH]; cbn; [intros _; apply NoDup_singleton|].
  intros [Ha Hd]%NoDup_cons. case_bool_decide; cbn; [subst; by apply NoDup_cons|].
  apply NoDup_cons. split; [|auto]. by intros [|]%Hin.
Qed.
End dict_lemmas.

(** ** Integer fields *)

(** The value of a field that holds an integer, zero when it is missing. *)
Definition int_field (f : str) (c : counter) : Prop := exists z, cget f c = VInt z.
Definition val (f : str) (c : counter) : Z := match cget f c with VInt z => z | _ => 0%Z end.

Lemma for_each_add_field f m c c' :
  NoDup m.*1 -> int_field f c -> int_field f m ->
  for_each (fun c '(k, v) => v' ← py_add v (cget k c); Ok (dset k v' c)) m c = Ok c' ->
  cget f c' = VInt (val f c + val f m).
Proof.
  revert c. induction m as [|[k v] m IH]; intros c Hnd (z & Hz) Hm H; cbn [for_each] in H.
  - injection H as <-. unfold val. rewrite Hz. cbn. by rewrite Z.add_0_r.
  - apply bind_Ok in H as (c1 & (v' & Hv & [= <-])%bind_Ok & H).
    cbn in Hnd. apply NoDup_cons in Hnd as [Hk Hnd].
    unfold val, int_field, cget in Hm |- *. cbn [dget] in Hm |- *.
    destruct (bool_decide_reflect (k = f)) as [->|Hne].
    + cbn [default] in Hm |- *. destruct Hm as (y & Hy); cbn in Hy; subst v; cbn.
      apply dget_None in Hk. unfold cget in Hv, Hz. rewrite Hz in Hv. injection Hv as <-.
      apply (IH (dset f (VInt (y + z)) c)) in H; [|done| |].
      * unfold cget in H. rewrite H. unfold val, cget. rewrite dget_dset_eq, Hk. cbn.
        rewrite Hz. f_equal. lia.
      * exists (y + z)%Z. unfold cget. by rewrite dget_dset_eq.
      * exists 0%Z. unfold cget. by rewrite Hk.
    + apply (IH (dset k v' c)) in H; [|done| |exact Hm].
      * unfold cget in H. rewrite H. unfold val, cget. by rewrite dget_dset_ne.
      * exists z. unfold cget in *. by rewrite dget_dset_ne.
Qed.

Lemma fold_dset_get f (m : counter) (c : counter) :
  NoDup m.*1 ->
  dget f (fold_left (fun c '(k, v) => dset k v c) m c) =
  match dget f m with Some v => Some v | None => dget f c end.
Proof.
  revert c. induction m as [|[k v] m IH]; intros c Hnd; cbn; [done|].
  cbn in Hnd. apply NoDup_cons in Hnd as [Hk Hnd]. rewrite IH by done.
  case_bool_decide as E; [subst|by rewrite dget_dset_ne].
  apply dget_None in Hk. by rewrite Hk, dget_dset_eq.
Qed.

(** Updating a counter adds the integer fields. *)
Lemma counter_update_field f c m c' :
  NoDup m.*1 -> int_field f c -> int_field f m ->
  counter_update c m = Ok c' -> cget f c' = VInt (val f c + val f m).
Proof.
  intros Hnd Hc Hm H. destruct c as [|x c]; [|by eapply for_each_add_field in H].
  cbn in H. injection H as <-. destruct Hm as (z & Hz). unfold val. rewrite Hz. cbn.
  unfold cget. rewrite fold_dset_get by done. unfold cget in Hz. by destruct (dget f m).
Qed.

(** ** Rows *)

Definition row_of (k : str) (cs : counters) : counter := default [] (dget k cs).

(** The sum of a field over the rows other than the total. *)
Fixpoint sum_rows (f : str) (cs : counters) : Z :=
  match cs with
  | [] => 0
  | (k, c) :: cs' => ((if bool_decide (k = # "total") then 0 else val f c) + sum_rows f cs')%Z
  end.

Definition int_rows (f : str) (cs : counters) : Prop := forall k, int_field f (row_of k cs).

Lemma sum_rows_dset f k c cs :
  NoDup cs.*1 ->
  sum_rows f (dset k c cs) =
  (sum_rows f cs + if bool_decide (k = # "total") then 0 else val f c - val f (row_of k cs))%Z.
Proof.
  unfold row_of. induction cs as [|[a b] cs IH]; intros Hnd; cbn.
  - change (val f []) with 0%Z. destruct (bool_decide _); lia.
  - apply NoDup_cons in Hnd as [Ha Hnd]. destruct (bool_decide_reflect (a = k)) as [->|Hne]; cbn.
    + destruct (bool_decide _); lia.
    + rewrite IH by done. destruct (bool_decide (a = _)), (bool_decide (k = _)); lia.
Qed.

Lemma update_row_field f k m cs cs' :
  NoDup m.*1 -> NoDup cs.*1 -> int_rows f cs -> int_field f m -> update_row k m cs = Ok cs' ->
  NoDup cs'.*1 /\ int_rows f cs' /\
  sum_rows f cs' = (sum_rows f cs + if bool_decide (k = # "total") then 0 else val f m)%Z /\
  val f (row_of (# "total") cs') =
    (val f (row_of (# "total") cs) + if bool_decide (k = # "total") then val f m else 0)%Z.
Proof.
  intros Hm Hcs Hint Hmf. unfold update_row. intros (c & Hc & [= <-])%bind_Ok.
  pose proof (counter_update_field f _ _ _ Hm (Hint k) Hmf Hc) as Hval.
  fold (row_of k cs) in *. assert (Hrow : forall k', row_of k' (dset k c cs) = if bool_decide (k = k') then c else row_of k' cs).
  { intros k'. unfold row_of. rewrite dget_dset. by case_bool_decide. }
  assert (Hv : val f c = (val f (row_of k cs) + val f m)%Z) by (unfold val at 1; by rewrite Hval).
  split_and!.
  - by apply dset_keys.
  - intros k'. rewrite Hrow. case_bool_decide; [by eexists|apply Hint].
  - rewrite sum_rows_dset by done. case_bool_decide; lia.
  - rewrite Hrow. case_bool_decide as E; [subst k; rewrite Hv; lia|lia].
Qed.

(** ** The accounts balance *)

(** The data of a count file, as [count] writes it and [loadReport] completes
    it. *)
Definition lc_report (spec impl proof : Z) (time : pyval) (source : str) : report_data :=
  [("spec" : str, VInt spec); ("impl" : str, VInt impl); ("proof" : str, VInt proof);
   ("time" : str, time); ("source" : str, VStr source)].
Definition is_lc_report (r : report_data) : Prop :=
  exists s i p t src, r = lc_report s i p t src.

Definition count_fields : list str := ["spec" : str; "impl" : str; "proof" : str].

Lemma lc_report_field f r : is_lc_report r -> f ∈ count_fields -> int_field f r /\ NoDup r.*1.
Proof.
  intros (s & i & p & t & src & ->) Hf. split.
  - repeat (apply elem_of_cons in Hf as [->|Hf]; [eexists; reflexivity|]). by apply not_elem_of_nil in Hf.
  - apply (bool_decide_unpack _). vm_compute. exact I.
Qed.

(** ** From the count files to the reports *)

(** The object in a count file, and its text. *)
Definition lc_object (spec impl proof : Z) (time : pyval) : list (str * pyval) :=
  [("spec" : str, VInt spec); ("impl" : str, VInt impl); ("proof" : str, VInt proof); ("time" : str, time)].
Definition count_text (spec impl proof : Z) (time : pyval) : str :=
  dumps None (json_of_dict (lc_object spec impl proof time)) ++ [nl].

Lemma pyval_roundtrip v : pyval_of_json (json_of_pyval v) = Ok v.
Proof. by destruct v. Qed.

Lemma count_text_loads s i p t :
  json_wf (json_of_pyval t) -> (obj ← loads (count_text s i p t); dict_of_json obj) = Ok (lc_object s i p t).
Proof.
  intros Ht. unfold count_text. rewrite loads_dumps; [|constructor|done].
  - rewrite bind_of_Ok. cbn. by rewrite pyval_roundtrip.
  - apply (bool_decide_unpack _). vm_compute. exact I.
  - repeat constructor; exact Ht.
Qed.

Lemma loadReport_count_text cwd fs r s i p t :
  fs !! abspath cwd (targetName r ".lc") = Some (count_text s i p t) -> json_wf (json_of_pyval t) ->
  loadReport cwd fs r = Ok (lc_report s i p t (normPath r)).
Proof.
  intros Hf Ht. unfold loadReport, py_open. rewrite Hf. cbn [of_option]. rewrite bind_of_Ok.
  pose proof (count_text_loads s i p t Ht) as E. destruct (loads _) as [obj|e]; [|done].
  rewrite !bind_of_Ok in *. by rewrite E.
Qed.

(** The command line of a count is read as one. *)
Definition counting (input output : str) : counter_args := CounterArgs (Some (# "count")) input output.
Lemma counting_ok input output : input <> # "--" -> output <> # "--" -> cl_ok (counting input output).
Proof. intros Hi Ho. split_and!; [|done..]. exists (# "count"). split; [done|]. apply list_elem_of_here. Qed.

(** C25. From counting to the table, with the numbers followed all the way.
    When line_counter.py's command line asks for a count, the file it writes
    holds the four values computed for its input: the time of the input's
    verification log, and counts of specification, implementation and proof lines
    that add up to what sloccount reports for the print with ghost code, all of
    them specification lines for a specification file and otherwise split by what
    it reports for the print without.  When every file of the closure of an input
    has such a count file, the reports gathered are, in the order of the
    closure, exactly the values in those files, each under its own name and with
    the file's own source.  The time must read back from its printed form; then
    the file written is one that is read. *)
Theorem counts_come_back cwd ROOT_PATH randint dafny egrep sloccount iron_base :
  let program show_ghost := printed dafny egrep iron_base show_ghost in
  let sloc := compute_sloc cwd randint dafny egrep sloccount iron_base in
  (forall input output w w', input <> # "--" -> output <> # "--" ->
     line_counter_main cwd ROOT_PATH randint dafny egrep sloccount iron_base (words_of (counting input output)) w = Ok w' ->
     exists s i p c w1 w2,
       summarize cwd (files w) VERCHK (chkFromDafny VERCHK input) = Ok c /\
       (let f := replace input "\" "/" in
        sloc true f w = Ok ((s + i + p)%Z, w1) /\ sloc_reported cwd sloccount (program true f w) (s + i + p) w1 /\
        if endswith f ".s.dfy" then i = 0%Z /\ p = 0%Z /\ w1 = w2
        else s = 0%Z /\ sloc false f w1 = Ok (i, w2) /\ sloc_reported cwd sloccount (program false f w1) i w2) /\
       files w' = <[abspath cwd output := count_text s i p (of_time (userTimeSec c))]> (files w2) /\
       ((forall x, userTimeSec c = Some x -> float_reads_back x) -> json_wf (json_of_pyval (of_time (userTimeSec c))))) /\
  (forall fs input TOP deps counts,
     mk_iref cwd ROOT_PATH None 0 input = Ok TOP -> depsFromDfySource cwd ROOT_PATH fs TOP = Ok deps ->
     Forall2 (fun r '(s, i, p, t) => json_wf (json_of_pyval t) /\
                fs !! abspath cwd (targetName r ".lc") = Some (count_text s i p t)) (TOP :: deps) counts ->
     gatherReports cwd ROOT_PATH fs input =
       Ok (zip_with (fun r '(s, i, p, t) => lc_report s i p t (normPath r)) (TOP :: deps) counts)).
Proof.
  intros program sloc. split.
  - intros input output w w' Hi Ho H. unfold line_counter_main in H.
    rewrite (command_line_words _ (counting_ok input output Hi Ho)), bind_of_Ok in H.
    cbn [counting c_mode c_input c_output] in H. rewrite bool_decide_eq_true_2 in H by done. unfold count in H. apply bind_Ok in H as ([obj w2] & H & [= <-]).
    apply counts_add_up in H as (s & i & p & c & w1 & Hc & -> & H1 & H2 & H3).
    exists s, i, p, c, w1, w2. split; [done|]. split; [exact (conj H1 (conj H2 H3))|]. split; [done|].
    intros Ht. destruct (userTimeSec c) as [x|]; constructor. by apply Ht.
  - intros fs input TOP deps counts Htop Hdeps Hall. unfold gatherReports. rewrite Htop, bind_of_Ok, Hdeps, bind_of_Ok.
    revert Hall. generalize (TOP :: deps). clear. intros rs Hall. induction Hall as [|r [[[s i] p] t] rs counts [Ht Hf] _ IH]; [done|].
    cbn [map_res zip_with]. by rewrite (loadReport_count_text cwd fs r s i p t Hf Ht), bind_of_Ok, IH.
Qed.

(** Moving the implementation lines splits a report without changing sums. *)
Lemma lc_report_split f r impl_r :
  is_lc_report r -> f ∈ count_fields ->
  counter_update [] [("impl" : str, cget "impl" r)] = Ok impl_r ->
  int_field f impl_r /\ NoDup impl_r.*1 /\ int_field f (ddel "impl" r) /\ NoDup (ddel "impl" r).*1 /\
  (val f impl_r + val f (ddel "impl" r) = val f r)%Z.
Proof.
  intros (s & i & p & t & src & ->) Hf [= <-].
  assert (H : f = "impl" \/ f = "spec" \/ f = "proof").
  { unfold count_fields in Hf. rewrite !elem_of_cons in Hf.
    destruct Hf as [|[|[|Hf]]]; auto. by apply not_elem_of_nil in Hf. }
  split_and!.
  - destruct H as [-> |[-> | ->]]; eexists; reflexivity.
  - apply NoDup_singleton.
  - destruct H as [-> |[-> | ->]]; eexists; reflexivity.
  - apply (bool_decide_unpack _). vm_compute. exact I.
  - destruct H as [-> |[-> | ->]]; [change (i + 0 = i)%Z|change (0 + s = s)%Z|change (0 + p = p)%Z]; lia.
Qed.

Lemma key_in_rows key : key_appears_in_row_descriptors key = true -> key <> # "total".
Proof. by intros H ->. Qed.

Lemma get_key_in_rows key ik :
  get_key_to_move_impl_to key = Ok (Some ik) -> key_appears_in_row_descriptors ik = true.
Proof.
  unfold get_key_to_move_impl_to. destruct (fold_left _ _ _) as [[|? ? [im|]]|]; try done.
  intros (u & H%py_assert_Ok & [= <-])%bind_Ok. done.
Qed.

(** What holds of the counters while the reports are added up. *)
Definition balanced (f : str) (n : Z) (cs : counters) : Prop :=
  NoDup cs.*1 /\ int_rows f cs /\ sum_rows f cs = n /\ val f (row_of (# "total") cs) = n.

Lemma bill_report_balanced f n key r cs cs' :
  is_lc_report r -> f ∈ count_fields -> balanced f n cs ->
  bill_report key r cs = Ok cs' -> balanced f (n + val f r) cs'.
Proof.
  intros Hr Hf (Hnd & Hint & Hsum & Htot) H. destruct (lc_report_field f r Hr Hf) as [Hrf Hrk].
  unfold bill_report in H. apply bind_Ok in H as (impl_key & Hik & H).
  apply bind_Ok in H as (cs2 & Hcs2 & H). apply bind_Ok in H as (cs3 & Htotal & H).
  apply bind_Ok in H as (u & Hkey%py_assert_Ok & [= <-]). apply key_in_rows in Hkey.
  assert (H2 : NoDup cs2.*1 /\ int_rows f cs2 /\ sum_rows f cs2 = (n + val f r)%Z /\
    val f (row_of (# "total") cs2) = n).
  { destruct impl_key as [ik|].
    - apply get_key_in_rows, key_in_rows in Hik.
      apply bind_Ok in Hcs2 as (impl_r & Hir & (cs1 & H1 & H2)%bind_Ok).
      destruct (lc_report_split f r impl_r Hr Hf Hir) as (Hi & Hind & Hd & Hdnd & E).
      apply (update_row_field f) in H1 as (? & ? & Hs1 & Ht1); [|done..].
      apply (update_row_field f) in H2 as (? & ? & Hs2 & Ht2); [|done..].
      rewrite bool_decide_eq_false_2 in Hs1, Ht1, Hs2, Ht2 by done. split_and!; [done|done|lia|lia].
    - apply (update_row_field f) in Hcs2 as (? & ? & Hs2 & Ht2); [|done..].
      rewrite bool_decide_eq_false_2 in Hs2, Ht2 by done. split_and!; [done|done|lia|lia]. }
  destruct H2 as (Hnd2 & Hint2 & Hsum2 & Htot2).
  apply (update_row_field f) in Htotal as (? & ? & Hs3 & Ht3); [|done..].
  rewrite bool_decide_eq_true_2 in Hs3, Ht3 by done. split_and!; [done|done|lia|lia].
Qed.

(** The reports a mapper bills: those with a key that is not ignored. *)
Definition billed {M : Mapper} (r : report_data) : bool :=
  match mapper_keys r with
  | Ok ks => match List.filter (fun key => negb (ignore_key key)) ks with [] => false | _ => true end
  | Raise _ => false
  end.
Definition billed_sum {M : Mapper} (f : str) (reports : list report_data) : Z :=
  fold_right Z.add 0%Z (map (fun r => if billed r then val f r else 0%Z) reports).

Lemma accumulate_step_balanced {M : Mapper} f n r cs dbg cs' dbg' :
  is_lc_report r -> f ∈ count_fields -> balanced f n cs ->
  accumulate_step (cs, dbg) r = Ok (cs', dbg') ->
  balanced f (n + if billed r then val f r else 0) cs'.
Proof.
  intros Hr Hf Hb H. unfold accumulate_step in H. apply bind_Ok in H as (ks & Hks & H).
  unfold billed. rewrite Hks.
  destruct (List.filter _ ks) as [|key rest] eqn:Hk; apply bind_Ok in H as (u & _ & H).
  - injection H as <- _. by rewrite Z.add_0_r.
  - apply bind_Ok in H as (dbg2 & _ & H).
    assert (Hign : ignore_key key = false).
    { assert (Hin : In key (List.filter (fun key => negb (ignore_key key)) ks)) by (rewrite Hk; by left).
      apply filter_In in Hin as [_ Hin]. by apply negb_true_iff in Hin. }
    rewrite Hign in H. apply bind_Ok in H as (cs2 & H2 & [= <- _]). by eapply bill_report_balanced.
Qed.

Lemma val_ddel_source f c : f <> # "source" -> val f (ddel "source" c) = val f c.
Proof. intros Hf. unfold val, cget. by rewrite dget_ddel_ne by congruence. Qed.

Lemma drop_sources_cons k c cs : drop_sources ((k, c) :: cs) = (k, ddel "source" c) :: drop_sources cs.
Proof. done. Qed.

Lemma drop_source_rows f cs :
  f <> # "source" ->
  sum_rows f (drop_sources cs) = sum_rows f cs /\
  forall k, val f (row_of k (drop_sources cs)) = val f (row_of k cs).
Proof.
  intros Hf. induction cs as [|[a b] cs [IH1 IH2]]; [done|]. rewrite drop_sources_cons. split.
  - cbn [sum_rows]. by rewrite IH1, val_ddel_source.
  - intros k. unfold row_of in *. cbn [dget]. case_bool_decide; [by apply val_ddel_source|apply IH2].
Qed.

(** C8. The accounts balance: for the lines of specification, implementation
    and proof, the rows of the table add up to the total, and the total is the
    sum over the reports that are billed.  Moving implementation lines to
    another row loses none and counts none twice. *)
Theorem accumulate_balanced {M : Mapper} f reports dbg cs dbg' :
  Forall is_lc_report reports -> f ∈ count_fields ->
  accumulate reports dbg = Ok (cs, dbg') ->
  sum_rows f cs = billed_sum f reports /\ val f (row_of (# "total") cs) = billed_sum f reports.
Proof.
  intros Hr Hf H. unfold accumulate in H. apply bind_Ok in H as ([cs1 dbg1] & H & [= <- _]).
  assert (Hsrc : f <> # "source") by (intros ->; apply (bool_decide_pack _) in Hf; by vm_compute in Hf).
  destruct (drop_source_rows f cs1 Hsrc) as [-> ->].
  enough (Hb : forall n cs0 dbg0, balanced f n cs0 -> for_each accumulate_step reports (cs0, dbg0) = Ok (cs1, dbg1) ->
    balanced f (n + billed_sum f reports) cs1).
  { apply (Hb 0%Z) in H; [by destruct H as (_ & _ & -> & ->)|].
    split_and!; [constructor| |done|done]. intros k. by exists 0%Z. }
  clear H. unfold billed_sum. induction Hr as [|r reports Hr Hrs IH]; intros n cs0 dbg0 Hb H.
  - cbn in H. injection H as <- <-. cbn. by rewrite Z.add_0_r.
  - cbn [for_each] in H. apply bind_Ok in H as ([cs2 dbg2] & H2 & H).
    apply (accumulate_step_balanced f n) in H2; [|done..].
    cbn [map fold_right]. rewrite Z.add_assoc. by eapply IH.
Qed.

(** ** Every file has a row *)

(** The keys of a report that count. *)
Definition live_keys {M : Mapper} (r : report_data) : res (list str) :=
  ks ← mapper_keys r; Ok (List.filter (fun key => negb (ignore_key key)) ks).

Lemma accumulate_step_rows {M : Mapper} st r st' :
  accumulate_step st r = Ok st' ->
  exists ks, live_keys r = Ok ks /\ length ks <= 1 /\
    Forall (fun k => key_appears_in_row_descriptors k = true) ks.
Proof.
  destruct st as [cs dbg]. unfold accumulate_step, live_keys.
  intros (ks & -> & H)%bind_Ok. rewrite bind_of_Ok. eexists. split; [done|].
  apply bind_Ok in H as (u & Hlen%py_assert_Ok%Nat.leb_le & H). split; [done|].
  destruct (List.filter _ ks) as [|key rest] eqn:Hk; [constructor|].
  destruct rest; [|cbn in Hlen; lia]. constructor; [|constructor].
  apply bind_Ok in H as (dbg2 & _ & H).
  destruct (ignore_key key) eqn:Hign.
  - assert (Hin : In key (List.filter (fun key => negb (ignore_key key)) ks)) by (rewrite Hk; by left).
    apply filter_In in Hin as [_ Hin]. by rewrite Hign in Hin.
  - apply bind_Ok in H as (cs2 & H2 & _). unfold bill_report in H2.
    apply bind_Ok in H2 as (ik & _ & (cs3 & _ & (cs4 & _ & (v & Hkey%py_assert_Ok & _)%bind_Ok)%bind_Ok)%bind_Ok).
    done.
Qed.

Lemma unmapped_has_no_row : key_appears_in_row_descriptors "ManualMapper-unmapped" = false.
Proof. reflexivity. Qed.

(** A report is produced only when every source is classified: each file
    has an entry in the classification, its entries that are not ignored are
    at most one, and that one names a row of the table.  A single file missing
    from the classification stops the report. *)
Theorem accumulate_classified mapping reports dbg out :
  accumulate (M := ManualMapper mapping) reports dbg = Ok out ->
  forall r src, r ∈ reports -> source_of r = Ok src ->
  exists cats, dget src mapping = Some cats /\
    let ks := List.filter (fun key => negb (ignore_key key)) (map (fun c => "ManualMapper-" ++ c) cats) in
    length ks <= 1 /\ Forall (fun k => key_appears_in_row_descriptors k = true) ks.
Proof.
  unfold accumulate. intros ([cs dbg'] & H & _)%bind_Ok r src Hr Hsrc.
  destruct (for_each_elem _ _ _ _ _ H Hr) as (s1 & s2 & Hstep).
  apply accumulate_step_rows in Hstep as (ks & Hks & Hlen & Hrows).
  unfold live_keys, mapper_keys in Hks. cbn [map_report ManualMapper categ] in Hks.
  rewrite Hsrc in Hks. rewrite !bind_of_Ok in Hks. injection Hks as <-.
  destruct (dget src mapping) as [cats|] eqn:E.
  - exists cats. done.
  - exfalso. apply (Forall_inv (a := # "ManualMapper-unmapped")) in Hrows. discriminate Hrows.
Qed.

(** ** The order of the reports *)

(** The keys whose implementation lines are moved, with the rows they go to. *)
Definition moved_keys : list (str * str) :=
  omap (fun r => match r with Data _ k (Some ik) => Some (k, ik) | _ => None end) row_descriptors.

Lemma moved_keys_live :
  Forall (fun '(key, ik) => ignore_key key = false /\ ignore_key ik = false) moved_keys.
Proof. unfold moved_keys. cbn [omap list_omap row_descriptors]. repeat constructor. Qed.

Lemma own_report_second :
  Forall (fun '(key, ik) => forall s i p t src s' i' p' t' src',
    (cs ← bill_report key (lc_report s i p t src) []; bill_report ik (lc_report s' i' p' t' src') cs)
      = Raise TypeError) moved_keys.
Proof.
  unfold moved_keys. cbn [omap list_omap row_descriptors].
  repeat apply Forall_cons_2; try apply Forall_nil_2; intros; destruct t'; reflexivity.
Qed.

Lemma own_report_first :
  Forall (fun '(key, ik) => forall s i p t src s' i' p' t' src' x x',
    num t = Ok x -> num t' = Ok x' ->
    is_Ok (cs ← bill_report ik (lc_report s' i' p' t' src') []; bill_report key (lc_report s i p t src) cs)
      = true) moved_keys.
Proof.
  unfold moved_keys. cbn [omap list_omap row_descriptors].
  repeat apply Forall_cons_2; try apply Forall_nil_2; intros s i p t src s' i' p' t' src' x x' Ht Ht';
    destruct t, t'; try discriminate Ht; try discriminate Ht'; reflexivity.
Qed.

Lemma accumulate_two {M : Mapper} k1 k2 r1 r2 dbg :
  mapper_keys r1 = Ok [k1] -> mapper_keys r2 = Ok [k2] ->
  ignore_key k1 = false -> ignore_key k2 = false -> is_lc_report r1 -> is_lc_report r2 ->
  exists dbg', accumulate [r1; r2] dbg =
    cs ← (cs ← bill_report k1 r1 []; bill_report k2 r2 cs); Ok (drop_sources cs, dbg').
Proof.
  intros H1 H2 I1 I2 (? & ? & ? & ? & src1 & E1) (? & ? & ? & ? & src2 & E2).
  exists ((dbg ++ [(k1, src1, ddel "source" r1)]) ++ [(k2, src2, ddel "source" r2)]).
  assert (Hstep : forall cs dbg k r src, mapper_keys r = Ok [k] -> ignore_key k = false -> source_of r = Ok src ->
    accumulate_step (cs, dbg) r =
    cs' ← bill_report k r cs; Ok (cs', dbg ++ [(k, src, ddel "source" r)])).
  { intros cs dbg0 k r src Hk Hi Hsrc. unfold accumulate_step. rewrite Hk, bind_of_Ok. cbn [List.filter].
    rewrite Hi. cbn [negb length]. unfold debug_add. rewrite Hsrc. cbn. by rewrite Hi. }
  unfold accumulate. cbn [for_each].
  rewrite (Hstep [] dbg k1 r1 src1 H1 I1) by (by subst r1).
  destruct (bill_report k1 r1 []) as [cs1|e]; [|reflexivity]. rewrite !bind_of_Ok.
  rewrite (Hstep cs1 _ k2 r2 src2 H2 I2) by (by subst r2).
  destruct (bill_report k2 r2 cs1) as [cs2|e]; reflexivity.
Qed.

(** The result depends on the order of the reports.  For every row whose
    implementation lines are moved to another: when the report of the row comes
    first, the implementation row is started with the moved lines alone, and
    adding that row's own report then adds its path to the number zero, which
    stops the program; in the other order the same two reports are accepted. *)
Theorem own_report_must_come_first {M : Mapper} key ik r r_own dbg :
  (key, ik) ∈ moved_keys -> is_lc_report r -> is_lc_report r_own ->
  mapper_keys r = Ok [key] -> mapper_keys r_own = Ok [ik] ->
  accumulate [r; r_own] dbg = Raise TypeError /\
  (forall t t' x x', dget "time" r = Some t -> dget "time" r_own = Some t' ->
     num t = Ok x -> num t' = Ok x' -> exists out, accumulate [r_own; r] dbg = Ok out).
Proof.
  intros Hin Hr Ho Hk Hko.
  pose proof (proj1 (Forall_forall _ _) moved_keys_live _ Hin) as [I1 I2].
  pose proof (proj1 (Forall_forall _ _) own_report_second _ Hin) as Hsecond.
  pose proof (proj1 (Forall_forall _ _) own_report_first _ Hin) as Hfirst. cbn in Hsecond, Hfirst.
  pose proof Hr as (s & i & p & t & src & E). pose proof Ho as (s' & i' & p' & t' & src' & E').
  split.
  - destruct (accumulate_two key ik r r_own dbg Hk Hko I1 I2 Hr Ho) as (dbg' & ->).
    subst r r_own. by rewrite Hsecond.
  - intros t1 t1' x x' Ht Ht' Hx Hx'.
    destruct (accumulate_two ik key r_own r dbg Hko Hk I2 I1 Ho Hr) as (dbg' & ->).
    subst r r_own. injection Ht as <-. injection Ht' as <-.
    specialize (Hfirst s i p t src s' i' p' t' src' x x' Hx Hx').
    destruct (cs ← bill_report ik _ []; _) as [cs|e]; [|discriminate Hfirst]. by eexists.
Qed.

(** ** The debug table *)

Lemma accumulate_step_debug {M : Mapper} st r st' src :
  accumulate_step st r = Ok st' -> source_of r = Ok src ->
  map (fun row => snd (fst row)) (snd st') `sublist_of` map (fun row => snd (fst row)) (snd st) ++ [src].
Proof.
  destruct st as [cs dbg]. intros H Hs. unfold accumulate_step in H.
  apply bind_Ok in H as (keys & _ & H). apply bind_Ok in H as (u & _ & H).
  destruct (List.filter _ keys) as [|key l]; [injection H as <-; apply sublist_inserts_r; done|].
  apply bind_Ok in H as (dbg2 & Hd & H). unfold debug_add in Hd. rewrite Hs in Hd. injection Hd as <-.
  assert (Hst : snd st' = dbg ++ [(key, src, ddel "source" r)]).
  { destruct (ignore_key key); [by injection H as <-|]. apply bind_Ok in H as (cs2 & _ & [= <-]). done. }
  rewrite Hst, map_app. done.
Qed.

Lemma accumulate_debug {M : Mapper} reports : forall st st' srcs,
  for_each accumulate_step reports st = Ok st' -> map_res source_of reports = Ok srcs ->
  map (fun row => snd (fst row)) (snd st') `sublist_of` map (fun row => snd (fst row)) (snd st) ++ srcs.
Proof.
  induction reports as [|r reports IH]; intros st st' srcs H Hs; cbn in H, Hs.
  - injection H as <-. injection Hs as <-. by rewrite app_nil_r.
  - apply bind_Ok in H as (st1 & H1 & H). apply bind_Ok in Hs as (src & Hsrc & Hs). apply bind_Ok in Hs as (srcs' & Hs & [= <-]).
    etrans; [exact (IH st1 st' srcs' H Hs)|].
    replace (map (fun row => snd (fst row)) (snd st) ++ src :: srcs') with ((map (fun row => snd (fst row)) (snd st) ++ [src]) ++ srcs')
      by (by rewrite <- app_assoc).
    apply sublist_app; [by eapply accumulate_step_debug|done].
Qed.

(** The table of the rows billed can always be printed when the sources of the
    reports are distinct: no two rows are compared by their data. *)
Theorem debug_table_prints {M : Mapper} reports srcs cs rows :
  accumulate reports [] = Ok (cs, rows) -> map_res source_of reports = Ok srcs -> NoDup srcs ->
  debug_display rows = Ok (flat_map debug_line (sort_by debug_ltb rows)) /\ sort_by debug_ltb rows ≡ₚ rows.
Proof.
  intros H Hs Hnd. unfold accumulate in H. apply bind_Ok in H as ([cs1 dbg] & H & [= _ ->]).
  pose proof (accumulate_debug _ _ _ _ H Hs) as Hsub. cbn [snd map app] in Hsub.
  pose proof (sublist_NoDup _ _ Hnd Hsub) as Hrows.
  split; [|apply sort_by_Permutation]. unfold debug_display.
  destruct (existsb _ rows) eqn:He; [exfalso; revert He|done]. intros (a & Ha & (b & Hb & Hab)%existsb_exists)%existsb_exists.
  unfold incomparable in Hab. apply andb_true_iff in Hab as [Hf%bool_decide_eq_true Hd%negb_true_iff].
  apply bool_decide_eq_false in Hd. apply Hd. f_equal.
  apply list_elem_of_In, list_elem_of_lookup in Ha as (i & Hi). apply list_elem_of_In, list_elem_of_lookup in Hb as (j & Hj).
  assert (i = j) as ->; [|congruence].
  assert (Hat : forall n x, rows !! n = Some x -> map (fun row : debug_row => snd (fst row)) rows !! n = Some (snd (fst x))).
  { intros n x E. etrans; [exact (list_lookup_fmap (fun row : debug_row => snd (fst row)) rows n)|]. unfold debug_row in *. by rewrite E. }
  eapply (NoDup_lookup _ i j (snd (fst a)) Hrows); [by apply Hat|]. rewrite Hf. by apply Hat.
Qed.

(** ** Examples *)

Definition bank_classes : str :=
  "bank ./Impl/Bank.i.dfy" ++ [nl] ++ "bank-sm Impl/Sm.i.dfy" ++ [nl] ++ "# comment" ++ [nl] ++ [nl] ++
  "bank-spec Spec.s.dfy" ++ [nl] ++ "ignore Tool.i.dfy" ++ [nl].
Definition bank_mapping : classification :=
  [ (# "Impl/Bank.i.dfy", [ # "bank"]); (# "Impl/Sm.i.dfy", [ # "bank-sm"]);
    (# "Spec.s.dfy", [ # "bank-spec"]); (# "Tool.i.dfy", [ # "ignore"]) ].

Example bank_classification : load_classification bank_classes = Ok bank_mapping.
Proof. vm_compute. reflexivity. Qed.

Definition bank_impl : report_data := lc_report 0 30 50 (VInt 12) "Impl/Bank.i.dfy".
Definition bank_sm : report_data := lc_report 0 7 60 (VInt 9) "Impl/Sm.i.dfy".
Definition bank_spec : report_data := lc_report 45 0 0 (VInt 0) "Spec.s.dfy".
Definition bank_tool : report_data := lc_report 0 99 0 (VInt 3) "Tool.i.dfy".
Definition bank_reports : list report_data := [bank_impl; bank_spec; bank_tool; bank_sm].

Lemma lc_report_is s i p t src : is_lc_report (lc_report s i p t src).
Proof. by exists s, i, p, t, src. Qed.

Lemma accumulate_balanced_witness :
  exists cs dbg, accumulate (M := ManualMapper bank_mapping) bank_reports [] = Ok (cs, dbg) /\
    Forall is_lc_report bank_reports /\ (# "impl") ∈ count_fields /\
    sum_rows "impl" cs = 37%Z /\ val "impl" (row_of (# "total") cs) = 37%Z.
Proof.
  assert (Hr : Forall is_lc_report bank_reports) by (repeat constructor; apply lc_report_is).
  assert (Hf : (# "impl") ∈ count_fields) by (apply (bool_decide_unpack _); vm_compute; exact I).
  eexists _, _. split; [vm_compute; reflexivity|]. split; [exact Hr|]. split; [exact Hf|].
  eapply (accumulate_balanced (M := ManualMapper bank_mapping) (# "impl") bank_reports [] _ _ Hr Hf).
  vm_compute. reflexivity.
Defined.

Lemma accumulate_classified_witness :
  exists out, accumulate (M := ManualMapper bank_mapping) bank_reports [] = Ok out /\
    bank_sm ∈ bank_reports /\
    exists cats, dget (# "Impl/Sm.i.dfy") bank_mapping = Some cats /\
      length (List.filter (fun key => negb (ignore_key key)) (map (fun c => "ManualMapper-" ++ c) cats)) <= 1.
Proof.
  assert (Hin : bank_sm ∈ bank_reports) by (unfold bank_reports; rewrite !elem_of_cons; auto).
  eexists. split; [vm_compute; reflexivity|]. split; [exact Hin|].
  edestruct (accumulate_classified bank_mapping bank_reports []) as (cats & H1 & H2 & _);
    [vm_compute; reflexivity|exact Hin|reflexivity|].
  exists cats. split; [exact H1|exact H2].
Defined.

Lemma own_report_must_come_first_witness :
  accumulate (M := ManualMapper bank_mapping) [bank_sm; bank_impl] [] = Raise TypeError /\
  exists out, accumulate (M := ManualMapper bank_mapping) [bank_impl; bank_sm] [] = Ok out.
Proof.
  destruct (own_report_must_come_first (M := ManualMapper bank_mapping)
    (# "ManualMapper-bank-sm") (# "ManualMapper-bank") bank_sm bank_impl []) as [H1 H2].
  - apply (bool_decide_unpack _). vm_compute. exact I.
  - apply lc_report_is.
  - apply lc_report_is.
  - reflexivity.
  - reflexivity.
  - split; [exact H1|]. eapply H2; reflexivity.
Defined.

(** A zero time is printed, not dropped: the test is made on the formatted
    string. *)
Example zero_time_row :
  write_row "Spec" (lc_report 45 0 0 (VInt 0) "Spec.s.dfy") false =
  Ok ("Spec & 45 &  &  & 0.0 s\\" ++ [nl]).
Proof. vm_compute. reflexivity. Qed.

(** Reading the table's highlights leaves rows behind. *)
Example highlights_add_rows :
  (fun '(_, cs) => map fst cs) <$> highlights [bank_spec] [] =
  Ok [ # "ManualMapper-framework-lib"; # "total"; # "ManualMapper-framework"; # "ManualMapper-framework-mem"].
Proof. vm_compute. reflexivity. Qed.

(** Counting one file and gathering its report. *)
Definition demo_counted : res world :=
  line_counter_main "/r" "/r" N.of_nat demo_dafny (fun _ s => s) demo_sloccount "."
    [ # "--mode=count"; # "--input=Impl/A.i.dfy"; # "--output=build/Impl/A.i.lc"] demo_world.
Definition demo_gathered : res (str * list iref) :=
  w' ← demo_counted; TOP ← mk_iref "/r" "/r" None 0 "Impl/A.i.dfy";
  deps ← depsFromDfySource "/r" "/r" (files w') TOP; Ok (targetName TOP ".lc", deps).

Lemma counts_come_back_witness :
  exists w', demo_counted = Ok w' /\
    files w' !! (# "/r/build/Impl/A.i.lc") = Some (count_text 0 2 1 (VFloat (float_of_dec 15 (-1)))) /\
    gatherReports "/r" "/r" (files w') "Impl/A.i.dfy" = Ok [lc_report 0 2 1 (VFloat (float_of_dec 15 (-1))) "Impl/A.i.dfy"].
Proof.
  assert (Hdemo : demo_gathered = Ok (# "build/Impl/A.i.lc", [])) by (vm_compute; reflexivity).
  unfold demo_gathered in Hdemo.
  apply bind_Ok in Hdemo as (w' & E & Hdemo). apply bind_Ok in Hdemo as (TOP & Htop & Hdemo).
  apply bind_Ok in Hdemo as (deps & Hdeps & Hlast).
  assert (Hname : targetName TOP ".lc" = # "build/Impl/A.i.lc") by congruence.
  assert (Hnil : deps = []) by congruence. clear Hlast.
  destruct (counts_come_back "/r" "/r" N.of_nat demo_dafny (fun _ s => s) demo_sloccount ".") as [H1 H2].
  destruct (H1 (# "Impl/A.i.dfy") (# "build/Impl/A.i.lc") demo_world w' ltac:(discriminate) ltac:(discriminate) E)
    as (s & i & p & c & w1 & w2 & Hc & _ & Hf & Hwf).
  assert (Htext : files w' !! (# "/r/build/Impl/A.i.lc") = Some (count_text 0 2 1 (VFloat (float_of_dec 15 (-1))))).
  { assert (Hd : (fun w' => files w' !! (# "/r/build/Impl/A.i.lc")) <$> demo_counted =
                 Ok (Some (count_text 0 2 1 (VFloat (float_of_dec 15 (-1)))))) by (vm_compute; reflexivity).
    rewrite E in Hd. injection Hd as Hd. exact Hd. }
  exists w'. split; [exact E|]. split; [exact Htext|].
  pose proof (H2 (files w') (# "Impl/A.i.dfy") TOP deps [(0%Z, 2%Z, 1%Z, VFloat (float_of_dec 15 (-1)))] Htop Hdeps) as H3.
  rewrite Hnil in H3. rewrite H3; [|constructor; [|constructor]].
  - vm_compute in Htop. injection Htop as <-. vm_compute. reflexivity.
  - rewrite Hname. split; [|exact Htext]. vm_compute in Hc. injection Hc as <-.
    apply Hwf. intros x [= <-]. vm_compute. reflexivity.
Defined.
