(* ===== verification/Suite.v ===== *)
(** * Experiment suites (tools/aws/suite.py)

    A suite is the product of its variables; each variant carries one value
    per variable, a label made of the values that vary, and the file its
    results go to.  Values and variables are objects with identity: a value
    points back to the variable that was last built with it. *)
From S2P Require Import Prelude PyStr Regex Paths.

(** ** The objects *)

Record value := ValueOf { v_label : str; v_param : str; v_variable : option nat }.
Record variable := VariableOf { var_label : str; var_type : str; var_values : list nat }.

(** The objects by identity. *)
Record heap := Heap { h_values : gmap nat value; h_variables : gmap nat variable; h_next : nat }.

Definition empty_heap : heap := Heap ∅ ∅ 0.

(** [Value(label, param_value)]. *)
Definition new_value (label param : str) (h : heap) : nat * heap :=
  (h_next h, Heap (<[h_next h := ValueOf label param None]> (h_values h)) (h_variables h) (S (h_next h))).

Definition set_variable (x : nat) (vs : gmap nat value) (v : nat) : gmap nat value :=
  match vs !! v with
  | Some o => <[v := ValueOf (v_label o) (v_param o) (Some x)]> vs
  | None => vs
  end.

(** [Variable(label, type, values)]: every value is pointed to it. *)
Definition new_variable (label ty : str) (vals : list nat) (h : heap) : nat * heap :=
  let x := h_next h in
  (x, Heap (fold_left (set_variable x) vals (h_values h))
           (<[x := VariableOf label ty vals]> (h_variables h)) (S x)).

Record variant := Variant { values : list nat; label_ : str }.

Inductive suite :=
  | Suite (label : str) (variables : list nat) (variants : list variant)
  | ConcatSuite (label : str) (suites : list suite) (variants : list variant).

Definition suite_label (s : suite) : str := match s with Suite l _ _ | ConcatSuite l _ _ => l end.
Definition variants (s : suite) : list variant := match s with Suite _ _ vs | ConcatSuite _ _ vs => vs end.

Section objects.
Context (h : heap).

Definition value_at (v : nat) : res value := of_option AttributeError (h_values h !! v).
Definition variable_at (x : nat) : res variable := of_option AttributeError (h_variables h !! x).

(** [val.variable]. *)
Definition variable_of (v : nat) : res nat := o ← value_at v; of_option AttributeError (v_variable o).

(** [variables_by_label]: the last variable with a label. *)
Fixpoint variable_by_label (lbl : str) (vars : list nat) : res (option nat) :=
  match vars with
  | [] => Ok None
  | x :: vars' =>
      o ← variable_at x;
      later ← variable_by_label lbl vars';
      Ok (match later with
          | Some y => Some y
          | None => if bool_decide (var_label o = lbl) then Some x else None
          end)
  end.

(** [value_label_set_for_variable_label] of a [Suite]: a set is the list of
    its elements. *)
Definition labels_of_variables (vars : list nat) (lbl : str) : res (list str) :=
  found ← variable_by_label lbl vars;
  match found with
  | None => Ok []
  | Some x => o ← variable_at x;
              vs ← map_res value_at (var_values o);
              Ok (remove_dups (map v_label vs))
  end.

Definition str_union (a b : list str) : list str := remove_dups (a ++ b).

Fixpoint value_label_set_for_variable_label (s : suite) (lbl : str) : res (list str) :=
  match s with
  | Suite _ vars _ => labels_of_variables vars lbl
  | ConcatSuite _ suites _ =>
      (fix go (ss : list suite) (acc : list str) : res (list str) :=
         match ss with
         | [] => Ok acc
         | s' :: ss' => ls ← value_label_set_for_variable_label s' lbl; go ss' (str_union acc ls)
         end) suites []
  end.

(** [make_label]: the labels of the values whose variable varies. *)
Definition label_part (label_set : str -> res (list str)) (v : nat) : res (list str) :=
  x ← variable_of v;
  var ← variable_at x;
  ls ← label_set (var_label var);
  o ← value_at v;
  Ok (if 1 <? length ls then [v_label o] else []).
Definition make_label (label_set : str -> res (list str)) (vals : list nat) : res str :=
  parts ← map_res (label_part label_set) vals;
  Ok (join "-" (concat parts)).

Definition Variant_init (label_set : str -> res (list str)) (vals : list nat) : res variant :=
  l ← make_label label_set vals; Ok (Variant vals l).

(** [make_variants]: every value of the first variable before each variant of
    the others. *)
Fixpoint make_variants (label_set : str -> res (list str)) (vars : list nat) : res (list variant) :=
  match vars with
  | [] => Raise IndexError
  | [x] =>
      o ← variable_at x;
      map_res (fun v => Variant_init label_set [v]) (var_values o)
  | x :: vars' =>
      o ← variable_at x;
      groups ← map_res (fun v =>
        subs ← make_variants label_set vars';
        map_res (fun sub => Variant_init label_set (v :: values sub)) subs) (var_values o);
      Ok (concat groups)
  end.

(** [Suite(label, *variables)] and [ConcatSuite(label, *suites)]. *)
Definition Suite_init (label : str) (vars : list nat) : res suite :=
  vs ← make_variants (labels_of_variables vars) vars; Ok (Suite label vars vs).
Definition ConcatSuite_init (label : str) (suites : list suite) : res suite :=
  vs ← map_res (fun v => Variant_init (value_label_set_for_variable_label (ConcatSuite label suites []))
                           (values v)) (flat_map variants suites);
  Ok (ConcatSuite label suites vs).

(** ** What the launchers ask of a variant *)

Definition outfile (s : suite) (v : variant) : str :=
  "expresults/" ++ suite_label s ++ "-" ++ label_ v ++ ".data".
Definition logpath (s : suite) : str := path_join "logs" (suite_label s ++ ".log").
Definition png_filename (s : suite) : str := suite_label s ++ ".png".
Definition plot_command (s : suite) : str :=
  join " " ([ # "tools/plot/perf-compare.py"; "output=" ++ png_filename s] ++
            map (fun v => label_ v ++ "=" ++ outfile s v) (variants s)).

(** How values and variables print. *)
Definition value_repr (v : value) : str := "#(" ++ v_label v ++ ")".
Definition variable_repr (x : variable) : str := "$(" ++ var_label x ++ ")".

(** [Suite.vars_of_type]. *)
Definition suite_vars_of_type (vars : list nat) (type : str) : res (list nat) :=
  vs ← map_res (fun x => o ← variable_at x; Ok (x, o)) vars;
  Ok (map fst (List.filter (fun '(_, o) => bool_decide (var_type o = type)) vs)).

(** [vars_of_type]: the variables of the values, in order. *)
Definition vars_of_type (v : variant) (type_label : str) : res (list nat) :=
  xs ← map_res (fun val => x ← variable_of val; o ← variable_at x;
                           Ok (if bool_decide (var_type o = type_label) then [x] else [])) (values v);
  Ok (concat xs).

(** [valmap[x]]: the last value whose variable is [x]. *)
Fixpoint valmap (vals : list nat) (x : nat) : res (option nat) :=
  match vals with
  | [] => Ok None
  | val :: vals' =>
      y ← variable_of val;
      later ← valmap vals' x;
      Ok (match later with Some w => Some w | None => if y =? x then Some val else None end)
  end.

Definition param_of (v : variant) (x : nat) : res str :=
  found ← valmap (values v) x;
  val ← of_option KeyError found;
  o ← value_at val; Ok (v_param o).

Definition value_by_name (v : variant) (lbl : str) : res nat :=
  matched ← map_res (fun val => x ← variable_of val; o ← variable_at x;
                                Ok (if bool_decide (var_label o = lbl) then [val] else [])) (values v);
  _ ← py_assert (length (concat matched) =? 1);
  nth_res (concat matched) 0.

Definition branch_of_type (ty : str) (v : variant) : res str :=
  xs ← vars_of_type v ty; x ← nth_res xs 0; param_of v x.
Definition git_branch : variant -> res str := branch_of_type "git_branch".
Definition infrastructure_branch : variant -> res str := branch_of_type "infrastructure_branch".
Definition run_params (ty : str) (v : variant) : res (list str) :=
  xs ← vars_of_type v ty; map_res (param_of v) xs.
Definition run_veri_params : variant -> res (list str) := run_params "run_veri".

(** ** Well-formed variables *)

(** A value belongs to the variable that lists it. *)
Definition bound (x : nat) (v : nat) : Prop :=
  exists o, h_values h !! v = Some o /\ v_variable o = Some x.
Definition wf_variable (x : nat) : Prop :=
  exists o, h_variables h !! x = Some o /\ Forall (bound x) (var_values o).

Definition values_of (x : nat) : list nat := default [] (var_values <$> h_variables h !! x).
Definition label_of (v : nat) : str := default [] (v_label <$> h_values h !! v).
Definition param_at (v : nat) : str := default [] (v_param <$> h_values h !! v).
Definition name_of (x : nat) : str := default [] (var_label <$> h_variables h !! x).
Definition type_of (x : nat) : str := default [] (var_type <$> h_variables h !! x).

(** The product of the value lists, the first variable slowest. *)
Fixpoint product (vars : list nat) : list (list nat) :=
  match vars with
  | [] => [[]]
  | x :: vars' => flat_map (fun v => map (cons v) (product vars')) (values_of x)
  end.
End objects.

(** ** Variants are the product of the variables *)

Section suites.
Context (h : heap).

#[local] Abbreviation picks := (Forall2 (fun v x => v ∈ values_of h x)).

(** What a list of variables needs for its suite: they exist, their values
    point to them. *)
Definition wf_variables (vars : list nat) : Prop := Forall (wf_variable h) vars.

Lemma wf_values x v : wf_variable h x -> v ∈ values_of h x -> bound h x v.
Proof.
  intros (o & Ho & Hb) Hv. unfold values_of in Hv. rewrite Ho in Hv. cbn in Hv.
  by eapply Forall_forall in Hb.
Qed.

Lemma wf_value_at x : wf_variable h x -> map_res (value_at h) (values_of h x) = 
  Ok (map (fun v => default (ValueOf [] [] None) (h_values h !! v)) (values_of h x)).
Proof.
  intros Hwf. rewrite <- map_res_pure.
  assert (Hall : forall v, v ∈ values_of h x -> is_Some (h_values h !! v)).
  { intros v Hv. destruct (wf_values x v Hwf Hv) as (o & Ho & _). by exists o. }
  revert Hall. generalize (values_of h x). intros l Hall. induction l as [|v l IH]; [done|].
  destruct (Hall v ltac:(apply list_elem_of_here)) as (o & Ho).
  assert (Hv : value_at h v = Ok o) by (unfold value_at; by rewrite Ho).
  cbn [map_res]. rewrite Hv, Ho, !bind_of_Ok, IH; [done|].
  intros w Hw. apply Hall. by apply list_elem_of_further.
Qed.

Lemma variable_by_label_total lbl vars :
  wf_variables vars ->
  exists found, variable_by_label h lbl vars = Ok found /\
    match found with Some x => x ∈ vars /\ name_of h x = lbl | None => Forall (fun x => name_of h x <> lbl) vars end.
Proof.
  induction 1 as [|x vars (o & Ho & _) Hwf (found & Hf & IH)]; [by exists None|].
  cbn [variable_by_label]. unfold variable_at. rewrite Ho. cbn [of_option]. rewrite bind_of_Ok, Hf, bind_of_Ok.
  assert (Hn : name_of h x = var_label o) by (unfold name_of; by rewrite Ho).
  destruct found as [y|].
  - eexists. split; [done|]. destruct IH. split; [by apply list_elem_of_further|done].
  - case_bool_decide as E; eexists; (split; [done|]).
    + split; [apply list_elem_of_here|by rewrite Hn].
    + constructor; [by rewrite Hn|done].
Qed.

(** The label set of a variable of the suite, when names are not shared. *)
Lemma labels_of_variables_own vars x :
  wf_variables vars -> NoDup (map (name_of h) vars) -> x ∈ vars ->
  labels_of_variables h vars (name_of h x) = Ok (remove_dups (map (label_of h) (values_of h x))).
Proof.
  intros Hwf Hnd Hx. unfold labels_of_variables.
  destruct (variable_by_label_total (name_of h x) vars Hwf) as ([y|] & -> & Hf); rewrite bind_of_Ok.
  - destruct Hf as [Hy Hname].
    assert (y = x) as ->.
    { apply list_elem_of_lookup in Hy as (i & Hi), Hx as (j & Hj).
      assert (i = j) as ->; [|congruence].
      change (map (name_of h) vars) with (name_of h <$> vars) in Hnd.
      eapply (NoDup_lookup (name_of h <$> vars)); [done| |]; rewrite list_lookup_fmap.
      - by rewrite Hi.
      - rewrite Hj. cbn. by rewrite Hname. }
    pose proof (proj1 (Forall_forall _ _) Hwf x Hx) as Hwx. pose proof Hwx as (o & Ho & _).
    unfold variable_at. rewrite Ho. cbn [of_option]. rewrite bind_of_Ok.
    assert (values_of h x = var_values o) as E by (unfold values_of; by rewrite Ho).
    rewrite <- E, wf_value_at by done. rewrite bind_of_Ok. do 2 f_equal. rewrite map_map.
    apply map_ext. intros v. unfold label_of. by destruct (h_values h !! v).
  - eapply Forall_forall in Hf; [|exact Hx]. done.
Qed.

(** The part a value contributes to a label. *)
Definition part_of (x v : nat) : list str :=
  if 1 <? length (remove_dups (map (label_of h) (values_of h x))) then [label_of h v] else [].
Definition label_text (vars vals : list nat) : str := join "-" (concat (zip_with part_of vars vals)).

Lemma make_label_text all vars vals :
  wf_variables all -> NoDup (map (name_of h) all) -> (forall x, x ∈ vars -> x ∈ all) ->
  picks vals vars ->
  make_label h (labels_of_variables h all) vals = Ok (label_text vars vals).
Proof.
  intros Hwf Hnd Hsub Hp. unfold make_label, label_text.
  assert (E : map_res (label_part h (labels_of_variables h all)) vals = Ok (zip_with part_of vars vals));
    [|by rewrite E].
  induction Hp as [|v x vals vars Hv Hp IH]; [done|]. cbn [map_res zip_with].
  assert (Hx : x ∈ all) by apply Hsub, list_elem_of_here.
  pose proof (proj1 (Forall_forall _ _) Hwf x Hx) as Hwx.
  destruct (wf_values x v Hwx Hv) as (o & Ho & Hox). destruct Hwx as (vo & Hvo & _).
  assert (Hpart : label_part h (labels_of_variables h all) v = Ok (part_of x v)).
  { unfold label_part, variable_of, value_at, variable_at. rewrite Ho. cbn [of_option]. rewrite bind_of_Ok, Hox.
    cbn [of_option]. rewrite bind_of_Ok, Hvo. cbn [of_option]. rewrite bind_of_Ok.
    assert (var_label vo = name_of h x) as -> by (unfold name_of; by rewrite Hvo).
    rewrite labels_of_variables_own by done. rewrite !bind_of_Ok. 
    unfold part_of. assert (label_of h v = v_label o) as -> by (unfold label_of; by rewrite Ho). done. }
  rewrite Hpart, bind_of_Ok, IH; [done|]. intros y Hy. apply Hsub. by apply list_elem_of_further.
Qed.

Lemma in_product vars vals : vals ∈ product h vars <-> picks vals vars.
Proof.
  revert vals. induction vars as [|x vars IH]; intros vals; cbn [product].
  - rewrite list_elem_of_singleton. split; [intros ->; constructor|by inversion 1].
  - rewrite list_elem_of_In, in_flat_map. split.
    + intros (v & Hv & (sub & <- & Hsub)%in_map_iff). constructor; [by apply list_elem_of_In|].
      by apply IH, list_elem_of_In.
    + inversion 1 as [|v ? sub ? Hv Hsub]; subst. exists v. split; [by apply list_elem_of_In|].
      apply in_map_iff. exists sub. split; [done|]. by apply list_elem_of_In, IH.
Qed.

Lemma map_res_Ok_ext {A B C} (f : A -> res B) (g : B -> C) (k : A -> C) l :
  (forall x, x ∈ l -> exists y, f x = Ok y /\ g y = k x) ->
  exists ys, map_res f l = Ok ys /\ map g ys = map k l.
Proof.
  induction l as [|x l IH]; intros H; [by exists []|].
  destruct (H x ltac:(apply list_elem_of_here)) as (y & Hy & Hg).
  destruct IH as (ys & Hys & Hm); [intros z Hz; apply H; by apply list_elem_of_further|].
  exists (y :: ys). cbn. rewrite Hy. cbn. rewrite Hys. cbn. by rewrite Hg, Hm.
Qed.

(** Both components of a variant, for a list of variables of the suite. *)
Definition labelled (vars vals : list nat) : variant := Variant vals (label_text vars vals).

Lemma make_variants_product all vars :
  wf_variables all -> NoDup (map (name_of h) all) -> (forall x, x ∈ vars -> x ∈ all) -> vars <> [] ->
  make_variants h (labels_of_variables h all) vars = Ok (map (labelled vars) (product h vars)).
Proof.
  intros Hwf Hnd. set (ls := labels_of_variables h all).
  assert (Hinit : forall vars vals, (forall x, x ∈ vars -> x ∈ all) -> picks vals vars ->
    Variant_init h ls vals = Ok (labelled vars vals)).
  { intros vs vals Hsub Hp. unfold Variant_init, ls. by rewrite (make_label_text all vs vals). }
  assert (Hmap : forall vars, (forall x, x ∈ vars -> x ∈ all) -> forall l, (forall vals, vals ∈ l -> picks vals vars) ->
    map_res (Variant_init h ls) l = Ok (map (labelled vars) l)).
  { intros vs Hsub l. induction l as [|vals l IHl]; intros Hl; [done|]. cbn.
    rewrite (Hinit vs) by (done || apply Hl, list_elem_of_here). cbn.
    rewrite IHl; [done|]. intros w Hw. apply Hl. by apply list_elem_of_further. }
  induction vars as [|x vars IH]; intros Hsub Hne; [done|].
  assert (Hx : x ∈ all) by apply Hsub, list_elem_of_here.
  pose proof (proj1 (Forall_forall _ _) Hwf x Hx) as (o & Ho & _).
  assert (Hvals : values_of h x = var_values o) by (unfold values_of; by rewrite Ho).
  assert (Hsub' : forall y, y ∈ vars -> y ∈ all) by (intros y Hy; apply Hsub; by apply list_elem_of_further).
  assert (Hp : forall v sub, v ∈ values_of h x -> sub ∈ product h vars -> picks (v :: sub) (x :: vars)).
  { intros v sub Hv Hs. constructor; [done|]. by apply in_product. }
  destruct vars as [|x' vars'].
  - cbn [make_variants product]. unfold variable_at. rewrite Ho. cbn [of_option]. rewrite bind_of_Ok, <- Hvals.
    assert (E : flat_map (fun v => map (cons v) [[]]) (values_of h x) = map (fun v => [v]) (values_of h x)).
    { clear. induction (values_of h x) as [|v l IHl]; [done|]. cbn [flat_map map app]. by rewrite <- IHl. }
    rewrite E.
    assert (E2 : forall l, map_res (fun v => Variant_init h ls [v]) l = map_res (Variant_init h ls) (map (fun v => [v]) l)).
    { clear. intros l. induction l as [|v l IHl]; [done|]. cbn [map_res map]. by rewrite IHl. }
    rewrite E2. apply (Hmap [x] Hsub). intros vals (v & -> & Hv)%list_elem_of_fmap. apply Hp; [done|].
    apply list_elem_of_here.
  - change (make_variants h ls (x :: x' :: vars')) with
      (o ← variable_at h x;
       groups ← map_res (fun v => subs ← make_variants h ls (x' :: vars');
                                  map_res (fun sub => Variant_init h ls (v :: values sub)) subs) (var_values o);
       Ok (concat groups)).
    unfold variable_at. rewrite Ho. cbn [of_option]. rewrite bind_of_Ok, <- Hvals.
    rewrite IH by done. set (sub_vals := product h (x' :: vars')) in *.
    assert (Hgroup : forall v, v ∈ values_of h x ->
      (subs ← Ok (map (labelled (x' :: vars')) sub_vals);
       map_res (fun sub => Variant_init h ls (v :: values sub)) subs) =
      Ok (map (labelled (x :: x' :: vars')) (map (cons v) sub_vals))).
    { intros v Hv. rewrite bind_of_Ok. rewrite <- (Hmap (x :: x' :: vars') Hsub).
      - generalize sub_vals. clear. intros l. induction l as [|s l IHl]; [done|]. cbn [map_res map values labelled]. by rewrite IHl.
      - intros vals (sub & -> & Hs)%list_elem_of_fmap. by apply Hp. }
    change (product h (x :: x' :: vars')) with (flat_map (fun v => map (cons v) sub_vals) (values_of h x)).
    clearbody sub_vals. clear -Hgroup. revert Hgroup. generalize (values_of h x) as l.
    intros l. induction l as [|v l IHl]; intros Hgroup; [done|]. cbn [map_res flat_map].
    rewrite Hgroup by apply list_elem_of_here. rewrite bind_of_Ok, map_app.
    specialize (IHl (fun w Hw => Hgroup w (list_elem_of_further _ _ _ Hw))).
    apply bind_Ok in IHl as (gs & -> & [= Hc]). rewrite !bind_of_Ok. cbn [concat]. by rewrite Hc.
Qed.

Lemma Suite_init_variants label vars :
  wf_variables vars -> NoDup (map (name_of h) vars) -> vars <> [] ->
  Suite_init h label vars = Ok (Suite label vars (map (labelled vars) (product h vars))).
Proof. intros Hwf Hnd Hne. unfold Suite_init. by rewrite make_variants_product by auto. Qed.

Lemma length_product vars :
  length (product h vars) = fold_right Nat.mul 1 (map (fun x => length (values_of h x)) vars).
Proof.
  induction vars as [|x vars IH]; [done|]. cbn [product map fold_right]. rewrite <- IH.
  generalize (product h vars) as l. intros l. induction (values_of h x) as [|v vs IHv]; [done|].
  cbn [flat_map length]. rewrite length_app, length_map, IHv. lia.
Qed.

(** C27. A suite runs every combination: its variants are the product of the
    values of its variables, each combination in one place, in the order in
    which the first variable varies slowest; no combination raises. *)
Theorem suite_is_product label vars :
  wf_variables vars -> NoDup (map (name_of h) vars) -> vars <> [] ->
  exists s, Suite_init h label vars = Ok s /\
    map values (variants s) = product h vars /\
    length (variants s) = fold_right Nat.mul 1 (map (fun x => length (values_of h x)) vars).
Proof.
  intros Hwf Hnd Hne. eexists. split; [by apply Suite_init_variants|]. cbn [variants].
  rewrite length_map, length_product, map_map. cbn. by rewrite map_id.
Qed.

(** ** Labels *)

(** The labels of the values of a variable tell them apart, and when the
    variable varies they hold no dash. *)
Definition clear_labels (x : nat) : Prop :=
  NoDup (map (label_of h) (values_of h x)) /\
  (length (values_of h x) <= 1 \/ Forall (fun v => "-"%char ∉ label_of h v) (values_of h x)).

Lemma remove_dups_id (l : list str) : NoDup l -> remove_dups l = l.
Proof.
  induction 1 as [|x l Hx Hnd IH]; [done|]. cbn. destruct (decide_rel (∈) x l); [done|]. by rewrite IH.
Qed.

Lemma part_varies x v :
  clear_labels x -> part_of x v = if 1 <? length (values_of h x) then [label_of h v] else [].
Proof. intros [Hnd _]. unfold part_of. by rewrite remove_dups_id, length_map by done. Qed.

Lemma one_value x v w : length (values_of h x) <= 1 -> v ∈ values_of h x -> w ∈ values_of h x -> v = w.
Proof.
  destruct (values_of h x) as [|a [|b l]]; cbn; [by intros _ ?%not_elem_of_nil| |lia].
  by intros _ ->%list_elem_of_singleton ->%list_elem_of_singleton.
Qed.

Lemma same_label_same_value x v w :
  clear_labels x -> v ∈ values_of h x -> w ∈ values_of h x -> label_of h v = label_of h w -> v = w.
Proof.
  intros [Hnd _] (i & Hi)%list_elem_of_lookup (j & Hj)%list_elem_of_lookup E.
  change (map (label_of h) (values_of h x)) with (label_of h <$> values_of h x) in Hnd.
  assert (i = j) as ->; [|congruence].
  eapply (NoDup_lookup _ i j (label_of h v) Hnd); rewrite list_lookup_fmap; [by rewrite Hi|rewrite Hj; by cbn; rewrite E].
Qed.

Lemma parts_injective vars vals vals' :
  Forall clear_labels vars -> picks vals vars -> picks vals' vars ->
  concat (zip_with (part_of) vars vals) = concat (zip_with (part_of) vars vals') -> vals = vals'.
Proof.
  intros Hc Hp. revert vals'. induction Hp as [|v x vals vars Hv Hp IH]; intros vals' Hp' E;
    inversion Hp' as [|v' ? vals2 ? Hv' Hp2]; subst; [done|].
  apply Forall_cons in Hc as [Hx Hc]. cbn [zip_with concat] in E. rewrite !part_varies in E by done.
  destruct (Nat.ltb_spec 1 (length (values_of h x))) as [Hl|Hl].
  - injection E as E1 E2. f_equal; [by eapply same_label_same_value|by apply IH].
  - f_equal; [by eapply one_value|by apply IH].
Qed.

Lemma parts_no_dash vars vals :
  Forall clear_labels vars -> picks vals vars ->
  Forall (fun w => "-"%char ∉ w) (concat (zip_with (part_of) vars vals)).
Proof.
  intros Hc Hp. induction Hp as [|v x vals vars Hv Hp IH]; [constructor|].
  apply Forall_cons in Hc as [Hx Hc]. cbn [zip_with concat]. rewrite part_varies by done.
  apply Forall_app. split; [|by apply IH].
  destruct (Nat.ltb_spec 1 (length (values_of h x))) as [Hl|Hl]; [|constructor].
  constructor; [|constructor]. destruct Hx as [_ [|Hd]]; [lia|]. by eapply Forall_forall in Hd.
Qed.

Lemma parts_length vars vals vals' :
  picks vals vars -> picks vals' vars ->
  length (concat (zip_with (part_of) vars vals)) = length (concat (zip_with (part_of) vars vals')).
Proof.
  intros Hp. revert vals'. induction Hp as [|v x vals vars Hv Hp IH]; intros vals' Hp';
    inversion Hp' as [|v' ? vals2 ? Hv' Hp2]; subst; [done|].
  cbn [zip_with concat]. rewrite !length_app, (IH vals2) by done. f_equal. unfold part_of. by destruct (1 <? _).
Qed.

Lemma label_text_injective vars vals vals' :
  Forall clear_labels vars -> picks vals vars -> picks vals' vars ->
  label_text vars vals = label_text vars vals' -> vals = vals'.
Proof.
  intros Hc Hp Hp' E. apply (parts_injective vars); [done..|].
  pose proof (parts_length vars vals vals' Hp Hp') as Hlen. unfold label_text in E.
  pose proof (parts_no_dash vars vals Hc Hp) as Hd. pose proof (parts_no_dash vars vals' Hc Hp') as Hd'.
  destruct (concat (zip_with _ vars vals)) as [|p ps], (concat (zip_with _ vars vals')) as [|q qs]; try done.
  apply (f_equal (split_char "-")) in E. change (# "-") with ["-"%char] in E.
  by rewrite !split_char_join in E by done.
Qed.

Lemma NoDup_product vars : Forall (fun x => NoDup (values_of h x)) vars -> NoDup (product h vars).
Proof.
  induction 1 as [|x vars Hx _ IH]; [apply NoDup_singleton|]. cbn [product].
  induction Hx as [|v vs Hv Hvs IHv]; [constructor|]. cbn [flat_map]. apply NoDup_app. split_and!.
  - apply NoDup_fmap_2; [by intros ? ? [= ->]|done].
  - intros s (sub & -> & Hsub)%list_elem_of_fmap (w & Hw & (sub' & [= <- <-] & _)%in_map_iff)%list_elem_of_In%in_flat_map.
    by apply Hv, list_elem_of_In.
  - done.
Qed.

(** C34. No run overwrites the results of another: when the labels of a
    variable's values are distinct and dash-free, the variants of a suite write
    to pairwise distinct files. *)
Theorem outfiles_distinct label vars s :
  wf_variables vars -> NoDup (map (name_of h) vars) -> vars <> [] -> Forall clear_labels vars ->
  Suite_init h label vars = Ok s -> NoDup (map (outfile s) (variants s)).
Proof.
  intros Hwf Hnd Hne Hc Hs. rewrite Suite_init_variants in Hs by done. injection Hs as <-. cbn [variants].
  rewrite map_map. change (map ?f ?l) with (f <$> l). apply NoDup_fmap_2_strong.
  - intros vals vals' Hv%in_product Hv'%in_product E. apply (label_text_injective vars); [done..|].
    unfold outfile in E. cbn [suite_label labelled label_] in E.
    apply app_inv_head, app_inv_head, app_inv_head in E. by apply app_inv_tail in E.
  - apply NoDup_product. eapply Forall_impl; [exact Hc|]. intros x [Hx _]. by eapply NoDup_fmap_1.
Qed.

(** ** Parameters *)

(** The values of a variant whose variables have a given type. *)
Definition values_of_type (ty : str) (vars vals : list nat) : list (nat * nat) :=
  List.filter (fun '(x, _) => bool_decide (type_of h x = ty)) (zip vars vals).

Lemma bound_variable x v : bound h x v -> variable_of h v = Ok x.
Proof. intros (o & Ho & Hx). unfold variable_of, value_at. rewrite Ho. cbn. by rewrite Hx. Qed.

Lemma picks_bound vars vals : wf_variables vars -> picks vals vars -> Forall2 (bound h) vars vals.
Proof.
  intros Hwf Hp. induction Hp as [|v x vals vars Hv Hp IH]; [constructor|].
  apply Forall_cons in Hwf as [Hx Hwf]. constructor; [by apply wf_values|by apply IH].
Qed.

Lemma valmap_total vals x :
  Forall (fun v => exists y, variable_of h v = Ok y) vals -> exists found, valmap h vals x = Ok found.
Proof.
  induction 1 as [|v vals (y & Hy) _ (found & IH)]; [by exists None|]. cbn. rewrite Hy. cbn.
  rewrite IH. cbn. by eexists.
Qed.

Lemma valmap_found vars vals x v :
  NoDup vars -> Forall2 (bound h) vars vals -> (x, v) ∈ zip vars vals -> valmap h vals x = Ok (Some v).
Proof.
  intros Hnd Hb. induction Hb as [|y w vars vals Hy Hb IH]; [by intros ?%not_elem_of_nil|].
  apply NoDup_cons in Hnd as [Hfresh Hnd].
  assert (Hnone : forall z, z ∉ vars -> valmap h vals z = Ok None).
  { clear -Hb. induction Hb as [|y w vars vals Hy Hb IH]; intros z Hz; [done|].
    apply not_elem_of_cons in Hz as [Hne Hz]. cbn. rewrite (bound_variable _ _ Hy). cbn.
    rewrite IH by done. cbn. by rewrite (proj2 (Nat.eqb_neq y z)) by congruence. }
  cbn [zip zip_with valmap]. rewrite (bound_variable _ _ Hy), bind_of_Ok.
  intros [E|Hin]%elem_of_cons.
  - injection E as -> ->. rewrite Hnone by done. cbn. by rewrite Nat.eqb_refl.
  - by rewrite IH.
Qed.

Lemma vars_of_type_spec ty vars vals l :
  wf_variables vars -> Forall2 (bound h) vars vals ->
  vars_of_type h (Variant vals l) ty = Ok (map fst (values_of_type ty vars vals)).
Proof.
  intros Hwf Hb. unfold vars_of_type, values_of_type. cbn [values].
  assert (E : map_res (fun val => x ← variable_of h val; o ← variable_at h x;
      Ok (if bool_decide (var_type o = ty) then [x] else [])) vals =
    Ok (zip_with (fun x _ => if bool_decide (type_of h x = ty) then [x] else []) vars vals)).
  { induction Hb as [|x v vars vals Hx Hb IH]; [done|]. apply Forall_cons in Hwf as [(o & Ho & _) Hwf].
    assert (Ht : type_of h x = var_type o) by (unfold type_of; by rewrite Ho).
    assert (Hvar : variable_at h x = Ok o) by (unfold variable_at; by rewrite Ho).
    cbn [map_res zip_with]. by rewrite (bound_variable _ _ Hx), bind_of_Ok, Hvar, !bind_of_Ok, IH, Ht. }
  rewrite E, bind_of_Ok. f_equal. clear. revert vals. induction vars as [|x vars IH]; intros [|v vals]; try done.
  cbn [zip_with zip concat List.filter]. rewrite IH. by case_bool_decide.
Qed.

(** The parameters a variant hands to the runner are those of its values
    of the given type, in the order of the suite's variables. *)
Theorem run_params_in_order label vars s ty v :
  wf_variables vars -> NoDup (map (name_of h) vars) -> vars <> [] ->
  Suite_init h label vars = Ok s -> v ∈ variants s ->
  run_params h ty v = Ok (map (fun '(_, val) => param_at h val) (values_of_type ty vars (values v))).
Proof.
  intros Hwf Hnd Hne Hs Hv. rewrite Suite_init_variants in Hs by done. injection Hs as <-.
  cbn [variants] in Hv. apply list_elem_of_fmap in Hv as (vals & -> & Hp%in_product). cbn [values labelled].
  pose proof (picks_bound vars vals Hwf Hp) as Hb.
  assert (Hndv : NoDup vars) by by eapply NoDup_fmap_1.
  unfold run_params, labelled. rewrite (vars_of_type_spec ty vars) by done. rewrite bind_of_Ok.
  assert (Hall : forall p, p ∈ values_of_type ty vars vals -> p ∈ zip vars vals).
  { intros p Hin%list_elem_of_In. unfold values_of_type in Hin. apply filter_In in Hin as [Hin _].
    by apply list_elem_of_In. }
  assert (Hbound : forall x w, (x, w) ∈ zip vars vals -> bound h x w).
  { clear -Hb. induction Hb as [|x w vars vals Hx Hb IH]; intros y z; [by intros ?%not_elem_of_nil|].
    cbn. intros [[= -> ->]|Hin]%elem_of_cons; auto. }
  revert Hall. generalize (values_of_type ty vars vals) as l. intros l.
  induction l as [|[x w] l IH]; intros Hall; [done|]. cbn [map map_res fst].
  assert (Hxw : (x, w) ∈ zip vars vals) by apply Hall, list_elem_of_here.
  destruct (Hbound x w Hxw) as (o & Ho & _).
  assert (E : param_of h (Variant vals (label_text vars vals)) x = Ok (param_at h w)).
  { unfold param_of. cbn [values]. rewrite (valmap_found vars vals x w) by done. 
    unfold param_at, value_at. cbn. by rewrite Ho. }
  rewrite E, bind_of_Ok, IH; [done|]. intros p Hin. apply Hall. by apply list_elem_of_further.
Qed.
End suites.

(** ** Example: building the objects *)

(** A list of values, and a variable of them. *)
Fixpoint new_values (vs : list (str * str)) (h : heap) : list nat * heap :=
  match vs with
  | [] => ([], h)
  | (l, p) :: vs' => let '(v, h) := new_value l p h in let '(ids, h) := new_values vs' h in (v :: ids, h)
  end.
Definition declare (label ty : str) (vs : list (str * str)) (h : heap) : nat * heap :=
  let '(ids, h) := new_values vs h in new_variable label ty ids h.
Fixpoint declare_all (decls : list (str * str * list (str * str))) (h : heap) : list nat * heap :=
  match decls with
  | [] => ([], h)
  | (label, ty, vs) :: decls' =>
      let '(x, h) := declare label ty vs h in let '(xs, h) := declare_all decls' h in (x :: xs, h)
  end.

(** ** Declared variables

    Every identity in use is below [h_next]. *)
Definition heap_ok (h : heap) : Prop :=
  (forall v, h_next h <= v -> h_values h !! v = None) /\ (forall x, h_next h <= x -> h_variables h !! x = None).

(** From [h] to [h'] objects are only added. *)
Definition extends (h h' : heap) : Prop :=
  h_next h <= h_next h' /\
  (forall v, v < h_next h -> h_values h' !! v = h_values h !! v) /\
  (forall x, x < h_next h -> h_variables h' !! x = h_variables h !! x).

Lemma extends_refl h : extends h h.
Proof. by split_and!. Qed.

Lemma extends_trans h1 h2 h3 : extends h1 h2 -> extends h2 h3 -> extends h1 h3.
Proof.
  intros (A1 & A2 & A3) (B1 & B2 & B3). split_and!; [lia| |]; intros z Hz.
  - rewrite B2, A2 by lia. done.
  - rewrite B3, A3 by lia. done.
Qed.

Definition is_value (h : heap) (x : option nat) (v : nat) (lp : str * str) : Prop :=
  h_values h !! v = Some (ValueOf (fst lp) (snd lp) x).

Lemma new_values_spec vs h ids h' :
  new_values vs h = (ids, h') -> heap_ok h ->
  heap_ok h' /\ extends h h' /\ NoDup ids /\ Forall (fun v => h_next h <= v < h_next h') ids /\
  Forall2 (is_value h' None) ids vs.
Proof.
  revert h ids. induction vs as [|[l p] vs IH]; intros h ids H Hok; cbn in H.
  - injection H as <- <-. split_and!; [done|apply extends_refl|constructor|constructor|constructor].
  - destruct (new_values vs _) as [ids1 h1] eqn:E. injection H as <- <-.
    assert (Hok1 : heap_ok (Heap (<[h_next h := ValueOf l p None]> (h_values h)) (h_variables h) (S (h_next h)))).
    { destruct Hok as [O1 O2]. split; cbn; intros z Hz; [rewrite lookup_insert_ne by lia; apply O1; lia|apply O2; lia]. }
    destruct (IH _ _ E Hok1) as (H1 & (X1 & X2 & X3) & H3 & H4 & H5). cbn in X1, X2, X3, H4.
    split_and!; [done| | | |].
    + split_and!; [lia| |]; intros z Hz; [|apply X3; lia]. rewrite X2 by lia. apply lookup_insert_ne. lia.
    + constructor; [|done]. intros Hin. rewrite Forall_forall in H4. specialize (H4 _ Hin). lia.
    + constructor; [lia|]. eapply Forall_impl; [exact H4|]. cbn. lia.
    + constructor; [|done]. unfold is_value. rewrite X2 by lia. apply lookup_insert_eq.
Qed.

Lemma set_variables_spec x ids vals :
  (forall v, v ∉ ids -> fold_left (set_variable x) ids vals !! v = vals !! v) /\
  (forall v o, v ∈ ids -> vals !! v = Some o ->
     fold_left (set_variable x) ids vals !! v = Some (ValueOf (v_label o) (v_param o) (Some x))).
Proof.
  revert vals. induction ids as [|i ids IH]; intros vals; cbn.
  { split; [done|]. intros v o Hv. by apply not_elem_of_nil in Hv. }
  destruct (IH (set_variable x vals i)) as [I1 I2]. unfold set_variable in *. split.
  - intros v [Hne Hv]%not_elem_of_cons. rewrite I1 by done. destruct (vals !! i); [|done].
    by rewrite lookup_insert_ne by congruence.
  - intros v o Hv Ho. destruct (decide (v = i)) as [->|Hne].
    + rewrite Ho in I1, I2 |- *. destruct (decide (i ∈ ids)) as [Hin|Hin].
      * rewrite (I2 i _ Hin (lookup_insert_eq _ _ _)). done.
      * rewrite (I1 i Hin). apply lookup_insert_eq.
    + apply elem_of_cons in Hv as [|Hv]; [done|]. apply I2; [done|].
      destruct (vals !! i); [by rewrite lookup_insert_ne|done].
Qed.

(** A variable of [h] as it was declared. *)
Definition declared (h : heap) (x : nat) (d : str * str * list (str * str)) : Prop :=
  x < h_next h /\
  exists ids, h_variables h !! x = Some (VariableOf (fst (fst d)) (snd (fst d)) ids) /\
    Forall (fun v => v < h_next h) ids /\ Forall2 (is_value h (Some x)) ids (snd d).

Lemma declared_extends h h' x d : extends h h' -> declared h x d -> declared h' x d.
Proof.
  intros (X1 & X2 & X3) (Hx & ids & Hv & Hlt & Hids). split; [lia|]. exists ids. split_and!.
  - by rewrite X3.
  - eapply Forall_impl; [exact Hlt|]. cbn. lia.
  - clear Hv. induction Hids as [|v lp ids vs Hv _ IH]; constructor.
    + inversion Hlt; subst. unfold is_value in *. by rewrite X2.
    + apply IH. by inversion Hlt.
Qed.

Lemma declare_spec l ty vs h x h' :
  declare l ty vs h = (x, h') -> heap_ok h -> heap_ok h' /\ extends h h' /\ declared h' x (l, ty, vs).
Proof.
  unfold declare. destruct (new_values vs h) as [ids h1] eqn:E. intros [= <- <-] Hok.
  destruct (new_values_spec _ _ _ _ E Hok) as ([O1 O2] & (X1 & X2 & X3) & Hnd & Hr & Hv).
  destruct (set_variables_spec (h_next h1) ids (h_values h1)) as [S1 S2].
  assert (Hin : forall v, v ∈ ids -> h_next h <= v < h_next h1) by (by apply Forall_forall).
  split_and!.
  - split; cbn; intros z Hz; [|rewrite lookup_insert_ne by lia; apply O2; lia].
    rewrite S1; [apply O1; lia|]. intros Hz'. specialize (Hin _ Hz'). lia.
  - split_and!; cbn; [lia| |]; intros z Hz; [|rewrite lookup_insert_ne by lia; by apply X3].
    rewrite S1; [by apply X2|]. intros Hz'. specialize (Hin _ Hz'). lia.
  - split; [cbn; lia|]. exists ids. cbn. split_and!; [apply lookup_insert_eq| |].
    + eapply Forall_impl; [exact Hr|]. cbn. lia.
    + apply Forall2_same_length_lookup. split; [by eapply Forall2_length|]. intros i v lp Hi Hlp.
      destruct (Forall2_lookup_lr _ _ _ _ _ _ Hv Hi Hlp). unfold is_value. cbn.
      apply (S2 v (ValueOf (fst lp) (snd lp) None)); [by eapply list_elem_of_lookup_2|].
      by apply (Forall2_lookup_lr _ _ _ _ _ _ Hv Hi Hlp).
Qed.

Lemma declare_all_spec decls h xs h' :
  declare_all decls h = (xs, h') -> heap_ok h ->
  heap_ok h' /\ extends h h' /\ Forall2 (declared h') xs decls.
Proof.
  revert h xs. induction decls as [|[[l ty] vs] decls IH]; intros h xs H Hok; cbn in H.
  { injection H as <- <-. split_and!; [done|apply extends_refl|constructor]. }
  destruct (declare l ty vs h) as [x h1] eqn:E1. destruct (declare_all decls h1) as [xs1 h2] eqn:E2.
  injection H as <- <-. destruct (declare_spec _ _ _ _ _ _ E1 Hok) as (Ok1 & X1 & D1).
  destruct (IH _ _ E2 Ok1) as (Ok2 & X2 & D2). split_and!; [done|by eapply extends_trans|].
  constructor; [by eapply declared_extends|done].
Qed.

Lemma empty_heap_ok : heap_ok empty_heap.
Proof. split; intros; apply lookup_empty. Qed.

(** The reading of a declared variable. *)
Lemma declared_view h x d :
  declared h x d ->
  wf_variable h x /\ name_of h x = fst (fst d) /\ type_of h x = snd (fst d) /\
  map (label_of h) (values_of h x) = map fst (snd d) /\ map (param_at h) (values_of h x) = map snd (snd d).
Proof.
  intros (_ & ids & Hx & _ & Hids). unfold wf_variable, name_of, type_of, values_of. rewrite Hx. cbn.
  split_and!; try done.
  - eexists. split; [done|]. cbn. clear Hx. induction Hids as [|v lp ids vs Hv _ IH]; constructor; [|done].
    eexists. split; [exact Hv|done].
  - clear Hx. induction Hids as [|v lp ids vs Hv _ IH]; [done|]. cbn. rewrite IH.
    unfold label_of at 1. unfold is_value in Hv. by rewrite Hv.
  - clear Hx. induction Hids as [|v lp ids vs Hv _ IH]; [done|]. cbn. rewrite IH.
    unfold param_at at 1. unfold is_value in Hv. by rewrite Hv.
Qed.

(** The labels of the variants of declared variables, from the declarations. *)
Fixpoint lprod {A} (ls : list (list A)) : list (list A) :=
  match ls with
  | [] => [[]]
  | l :: ls' => flat_map (fun x => map (cons x) (lprod ls')) l
  end.
Definition decl_parts (d : str * str * list (str * str)) : list (list str) :=
  let ls := map fst (snd d) in
  map (fun l => if 1 <? length (remove_dups ls) then [l] else []) ls.

Lemma flat_map_map {A B C} (f : B -> list C) (g : A -> B) l : flat_map f (map g l) = flat_map (fun x => f (g x)) l.
Proof. induction l as [|x l IH]; [done|]. cbn. by rewrite IH. Qed.
Lemma map_flat_map {A B C} (f : B -> C) (g : A -> list B) l : map f (flat_map g l) = flat_map (fun x => map f (g x)) l.
Proof. induction l as [|x l IH]; [done|]. cbn. by rewrite map_app, IH. Qed.

Lemma product_parts h vars decls :
  Forall2 (declared h) vars decls ->
  map (zip_with (part_of h) vars) (product h vars) = lprod (map decl_parts decls).
Proof.
  induction 1 as [|x d vars decls Hd _ IH]; [done|]. cbn [product lprod map]. rewrite <- IH.
  assert (Hp : map (part_of h x) (values_of h x) = decl_parts d).
  { destruct (declared_view _ _ _ Hd) as (_ & _ & _ & Hl & _). unfold decl_parts, part_of.
    rewrite <- Hl, map_map. done. }
  rewrite <- Hp, flat_map_map, map_flat_map. clear. generalize (values_of h x) as vs.
  induction vs as [|v vs IHv]; [done|]. cbn [flat_map]. by rewrite IHv, !map_map.
Qed.

Lemma declared_suite h vars decls label :
  Forall2 (declared h) vars decls -> NoDup (map (fun d => fst (fst d)) decls) -> vars <> [] ->
  exists s, Suite_init h label vars = Ok s /\ suite_label s = label /\
  map label_ (variants s) = map (fun ps => join "-" (concat ps)) (lprod (map decl_parts decls)).
Proof.
  intros Hd Hnd Hne. assert (Hwf : wf_variables h vars /\ map (name_of h) vars = map (fun d => fst (fst d)) decls).
  { clear Hnd Hne. induction Hd as [|x d vars decls Hx _ [IH1 IH2]]; [split; [constructor|done]|].
    destruct (declared_view _ _ _ Hx) as (H1 & H2 & _). split; [by constructor|]. cbn. by rewrite H2, IH2. }
  destruct Hwf as [Hwf Hn]. eexists. split; [by apply Suite_init_variants; [..|]; rewrite ?Hn|].
  split; [done|]. cbn [variants]. rewrite <- (product_parts _ _ _ Hd), !map_map. done.
Qed.

Definition wf_variableb (h : heap) (x : nat) : bool :=
  match h_variables h !! x with
  | None => false
  | Some o => forallb (fun v => match h_values h !! v with
                                | Some w => bool_decide (v_variable w = Some x) | None => false end) (var_values o)
  end.

Lemma wf_variables_check h vars : forallb (wf_variableb h) vars = true -> wf_variables h vars.
Proof.
  intros H. apply Forall_forall. intros x Hx%list_elem_of_In.
  pose proof (proj1 (forallb_forall _ _) H x Hx) as Hb. unfold wf_variableb in Hb. unfold wf_variable.
  destruct (h_variables h !! x) as [o|]; [|done]. exists o. split; [done|].
  apply Forall_forall. intros v Hv%list_elem_of_In. pose proof (proj1 (forallb_forall _ _) Hb v Hv) as Hw.
  cbv beta in Hw. unfold bound. destruct (h_values h !! v) as [w|]; [|done]. exists w. split; [done|].
  by apply bool_decide_eq_true in Hw.
Qed.

Definition clear_labelsb (h : heap) (x : nat) : bool :=
  bool_decide (NoDup (map (label_of h) (values_of h x))) &&
  ((length (values_of h x) <=? 1) || forallb (fun v => bool_decide ("-"%char ∉ label_of h v)) (values_of h x)).

Lemma clear_labels_check h vars : forallb (clear_labelsb h) vars = true -> Forall (clear_labels h) vars.
Proof.
  intros H. apply Forall_forall. intros x Hx%list_elem_of_In.
  pose proof (proj1 (forallb_forall _ _) H x Hx) as [H1 H2]%andb_true_iff.
  split; [by apply bool_decide_eq_true in H1|]. apply orb_true_iff in H2 as [H2|H2].
  - left. by apply Nat.leb_le.
  - right. apply Forall_forall. intros v Hv%list_elem_of_In.
    pose proof (proj1 (forallb_forall _ _) H2 v Hv) as Hd. by apply bool_decide_eq_true in Hd.
Qed.

Definition demo_decls : list (str * str * list (str * str)) :=
  [ (# "branch", # "git_branch", [(# "master", # "eval-btree-master")]);
    (# "ops", # "run_btree", [(# "2pows", # "ops=[1,2]")]);
    (# "seed", # "run_btree", [(# "seed0", # "seed=34"); (# "seed1", # "seed=57"); (# "seed2", # "seed=99")]) ].
Definition demo_vars : list nat := fst (declare_all demo_decls empty_heap).
Definition demo_heap : heap := snd (declare_all demo_decls empty_heap).

Lemma demo_wf :
  wf_variables demo_heap demo_vars /\ NoDup (map (name_of demo_heap) demo_vars) /\ demo_vars <> [] /\
  Forall (clear_labels demo_heap) demo_vars.
Proof.
  split; [apply wf_variables_check; vm_compute; reflexivity|].
  split; [apply (bool_decide_unpack _); vm_compute; exact I|]. split; [by vm_compute|].
  apply clear_labels_check. vm_compute. reflexivity.
Qed.

Lemma suite_is_product_witness :
  exists s, Suite_init demo_heap "repr" demo_vars = Ok s /\ length (variants s) = 3.
Proof.
  destruct demo_wf as (H1 & H2 & H3 & _).
  destruct (suite_is_product demo_heap "repr" demo_vars H1 H2 H3) as (s & Hs & _ & Hl).
  exists s. split; [exact Hs|]. etransitivity; [exact Hl|]. vm_compute. reflexivity.
Defined.

Lemma outfiles_distinct_witness :
  exists s, Suite_init demo_heap "repr" demo_vars = Ok s /\ map (outfile s) (variants s) =
    [ # "expresults/repr-seed0.data"; # "expresults/repr-seed1.data"; # "expresults/repr-seed2.data"] /\
    NoDup (map (outfile s) (variants s)).
Proof.
  destruct demo_wf as (H1 & H2 & H3 & H4). eexists. split; [vm_compute; reflexivity|].
  split; [vm_compute; reflexivity|].
  eapply (outfiles_distinct demo_heap "repr" demo_vars _ H1 H2 H3 H4). vm_compute. reflexivity.
Defined.

Lemma run_params_in_order_witness :
  exists s v, Suite_init demo_heap "repr" demo_vars = Ok s /\ v ∈ variants s /\
    run_params demo_heap "run_btree" v = Ok [ # "ops=[1,2]"; # "seed=34"].
Proof.
  destruct demo_wf as (H1 & H2 & H3 & _). eexists _, (Variant [0; 2; 4] "seed0").
  split; [vm_compute; reflexivity|]. split; [apply list_elem_of_here|].
  etransitivity; [eapply (run_params_in_order demo_heap "repr" demo_vars _ "run_btree" _ H1 H2 H3)|].
  - vm_compute. reflexivity.
  - apply list_elem_of_here.
  - vm_compute. reflexivity.
Defined.
