(* ===== verification/Automation.v ===== *)
(** * The worker pool (tools/aws/automation.py)

    Selecting the workers a file of patterns names, the command lines that
    reach them, and the two ways tasks are handed to them: one task per
    worker, or a queue that reuses each worker when its task ends. *)
From S2P Require Import Prelude PyStr Regex Paths.

(** ** Workers *)

(** A worker is a dict: which object it is (its place in the listing), and the
    entries that are read.  The entry [index] that a monitor adds is kept apart,
    under the object's identity. *)
Record worker := Worker { w_object : nat; w_Name : str; w_PublicIpAddress : option str }.

#[export] Instance worker_eq_dec : EqDecision worker.
Proof. solve_decision. Defined.

(** [load_worker_regex_list]: every line becomes an anchored pattern, the
    empty and the comment lines too. *)
Definition anchored (line : str) : str :=
  let line := strip (before_char "#" line) in
  let line := if startswith line "^" then line else "^" ++ line in
  if endswith line "$" then line else line ++ "$".
Definition load_worker_regex_list (contents : str) : list str := map anchored (readlines contents).

(** [filter_workers], for a given meaning of [re.search(regex, name)]. *)
Definition filter_workers (re_search : str -> str -> bool) (workers : list worker) (regexes : list str)
    : list worker :=
  fold_left (fun acc w =>
    fold_left (fun acc regex => if re_search regex (w_Name w) then acc ++ [w] else acc) regexes acc)
    workers [].

(** ** Commands *)

Record command := Command { c_label : str; cmd_ary : list str }.
Definition text_cmd_line (c : command) : str := join " " (cmd_ary c).

Definition SSH_ID_PEM : str := "~/.ssh/veribetrfsbastion.pem".
Definition ssh_preamble (want_pty : bool) : list str :=
  let kill_pty := if want_pty then [] else [ # "-T"] in
  [ # "ssh"] ++ kill_pty ++ fields "-o UserKnownHostsFile=/dev/null -o StrictHostKeyChecking=no -i" ++ [SSH_ID_PEM].
Definition ssh_target_for_worker (w : worker) : str :=
  "ubuntu@" ++ default (# "None") (w_PublicIpAddress w).
Definition ssh_cmd_for_worker (w : worker) (want_pty : bool) : list str :=
  ssh_preamble want_pty ++ [ssh_target_for_worker w].

(** ** Monitors *)

(** A [WorkerMonitor]; the task index is its identity. *)
Record monitor := Monitor { m_task : nat; m_worker : worker; m_cmd : command; m_running : bool }.

Definition set_dead (m : monitor) : monitor := Monitor (m_task m) (m_worker m) (m_cmd m) false.
Definition running (ms : list monitor) : list monitor := List.filter m_running ms.

(** What one call of [poll] reports for a pipe: nothing, or an event with its
    [POLLIN] and [POLLHUP] bits. *)
Definition poll_event := option (bool * bool).

(** A pipe that still has input is read; only a hang-up alone ends the job. *)
Definition poll_one (e : nat -> poll_event) (m : monitor) : monitor :=
  if m_running m then
    match e (m_task m) with
    | Some (pollin, pollhup) => if pollin then m else if pollhup then set_dead m else m
    | None => m
    end
  else m.
(** [poll_monitors]: the monitors after the call, and those still running. *)
Definition poll_monitors (e : nat -> poll_event) (ms : list monitor) : list monitor * list monitor :=
  let ms := map (poll_one e) ms in (ms, running ms).

(** [monitor_worker_pipes]: poll until nothing runs, or until the rounds
    given are used up. *)
Fixpoint monitor_worker_pipes (envs : list (nat -> poll_event)) (ms : list monitor) : option (list monitor) :=
  if length (running ms) =? 0 then Some ms
  else match envs with
       | [] => None
       | e :: envs' => monitor_worker_pipes envs' (snd (poll_monitors e ms))
       end.

(** ** Launching *)

Section launch.
(** The command of each task, and the number of tasks. *)
Context (lam : nat -> worker -> command) (ntasks : nat) (dry_run : bool).

(** [launch_worker_pipes]: task [i] on worker [i]; the monitors launched. *)
Definition launch_worker_pipes (workers : list worker) : res (list monitor) :=
  if length workers <? ntasks then
    Raise (PyException ("Requested " ++ dec_N (N.of_nat ntasks) ++ " tasks for " ++
                        dec_N (N.of_nat (length workers)) ++ " workers"))
  else
    monitors ← map_res (fun idx => worker ← nth_res workers idx; Ok (Monitor idx worker (lam idx worker) true))
                       (seq 0 ntasks);
    Ok (if dry_run then [] else monitors).

(** The state of [sequenced_launcher]; [assigned] and [launched] are the
    tasks logged and started, with their workers, latest last. *)
Record lstate := LState {
  idle_resources : list worker;
  next_task_idx : nat;
  monitors : list monitor;
  assigned : list (nat * worker);
  launched : list (nat * worker)
}.

(** [dispatch_one], the increment and the append: [pop] takes the last idle
    worker. *)
Definition dispatch_one (st : lstate) : res lstate :=
  match rev (idle_resources st) with
  | [] => Raise IndexError
  | w :: rest =>
      let idx := next_task_idx st in
      let m := Monitor idx w (lam idx w) (negb dry_run) in
      Ok (LState (rev rest) (S idx) (monitors st ++ [m]) (assigned st ++ [(idx, w)])
            (if dry_run then launched st else launched st ++ [(idx, w)]))
  end.

(** The inner loop; every pass uses up an idle worker. *)
Fixpoint assign_loop (fuel : nat) (st : lstate) : res lstate :=
  if (0 <? length (idle_resources st)) && (next_task_idx st <? ntasks) then
    match fuel with
    | O => Raise OutOfFuel
    | S f => st ← dispatch_one st; assign_loop f st
    end
  else Ok st.
Definition assign (st : lstate) : res lstate := assign_loop (length (idle_resources st)) st.

Definition survives (surviving : list monitor) (m : monitor) : bool :=
  existsb (fun s => m_task s =? m_task m) surviving.

(** One pass of the outer loop, given what [poll] reports. *)
Definition round (e : nat -> poll_event) (st : lstate) : res lstate :=
  st ← assign st;
  let '(ms, surviving) := if dry_run then (monitors st, []) else poll_monitors e (monitors st) in
  let finished := List.filter (fun m => negb (survives surviving m)) ms in
  Ok (LState (fold_left (fun idle m => m_worker m :: idle) finished (idle_resources st))
        (next_task_idx st) surviving (assigned st) (launched st)).

Definition loop_done (st : lstate) : bool :=
  (length (monitors st) =? 0) && (ntasks <=? next_task_idx st).

(** [sequenced_launcher]: [env k] is what the [k]-th poll reports; the state at
    the end, if the loop ends within the fuel. *)
Fixpoint sequenced_loop (env : nat -> nat -> poll_event) (fuel k : nat) (st : lstate) : res lstate :=
  if loop_done st then Ok st
  else match fuel with
       | O => Raise OutOfFuel
       | S f => st ← round (env k) st; sequenced_loop env f (S k) st
       end.
Definition start (workers : list worker) : lstate := LState workers 0 [] [] [].
Definition sequenced_launcher (env : nat -> nat -> poll_event) (fuel : nat) (workers : list worker) : res lstate :=
  sequenced_loop env fuel 0 (start workers).
End launch.

(** ** The queue of tasks *)

Section queue.
Context (lam : nat -> worker -> command) (ntasks : nat) (dry_run : bool) (workers : list worker).

(** What every state of the launcher satisfies: no worker is lost, added or
    doubled; the tasks were assigned in order, one after the other; what runs
    was assigned to the worker it runs on. *)
Record queue_ok (st : lstate) : Prop := {
  q_workers : idle_resources st ++ map m_worker (monitors st) ≡ₚ workers;
  q_tasks : map fst (assigned st) = seq 0 (next_task_idx st);
  q_bound : next_task_idx st <= ntasks;
  q_monitors : map m_task (monitors st) `sublist_of` seq 0 (next_task_idx st);
  q_assigned : forall m, m ∈ monitors st -> (m_task m, m_worker m) ∈ assigned st;
  q_running : forall m, m ∈ monitors st -> m_running m = negb dry_run;
  q_launched : launched st = if dry_run then [] else assigned st
}.

(** Tasks not yet finished. *)
Definition remaining (st : lstate) : nat := ntasks - next_task_idx st + length (monitors st).

Lemma start_ok : queue_ok (start workers).
Proof.
  constructor; cbn; try done; try lia.
  - by rewrite app_nil_r.
  - by intros m ?%not_elem_of_nil.
  - by intros m ?%not_elem_of_nil.
  - by destruct dry_run.
Qed.

Lemma dispatch_ok st st' :
  queue_ok st -> next_task_idx st < ntasks -> dispatch_one lam dry_run st = Ok st' ->
  queue_ok st' /\ remaining st' = remaining st /\
  S (length (idle_resources st')) = length (idle_resources st) /\ monitors st' <> [] /\
  (forall m, m ∈ monitors st -> m ∈ monitors st').
Proof.
  intros [H1 H2 H3 H4 H5 H7 H6] Hlt H. unfold dispatch_one in H.
  destruct (rev (idle_resources st)) as [|w rest] eqn:Hrev; [done|]. injection H as <-.
  assert (Hidle : idle_resources st = rev rest ++ [w]).
  { rewrite <- (rev_involutive (idle_resources st)), Hrev. done. }
  split_and!; [constructor; cbn [idle_resources next_task_idx monitors assigned launched]| | | |].
  - rewrite <- H1, Hidle, map_app, <- app_assoc. apply Permutation_app_head, Permutation_app_comm.
  - by rewrite map_app, H2, seq_S.
  - lia.
  - rewrite map_app, seq_S. by apply sublist_app.
  - intros m [Hm| ->%list_elem_of_singleton]%elem_of_app; apply elem_of_app; [left; auto|right; apply list_elem_of_here].
  - intros m [Hm| ->%list_elem_of_singleton]%elem_of_app; auto.
  - by destruct dry_run; [|rewrite H6].
  - unfold remaining. cbn. rewrite length_app. cbn. lia.
  - rewrite Hidle. cbn. rewrite !length_app, !length_rev. cbn. lia.
  - cbn. by destruct (monitors st).
  - intros m Hm. cbn. apply elem_of_app. by left.
Qed.

Lemma assign_ok fuel st :
  queue_ok st -> length (idle_resources st) <= fuel ->
  exists st', assign_loop lam ntasks dry_run fuel st = Ok st' /\ queue_ok st' /\
    remaining st' = remaining st /\ (forall m, m ∈ monitors st -> m ∈ monitors st') /\
    (idle_resources st' = [] \/ ntasks <= next_task_idx st').
Proof.
  revert st. induction fuel as [|fuel IH]; intros st Hok Hlen; cbn [assign_loop];
    destruct (Nat.ltb_spec 0 (length (idle_resources st))) as [Hi|Hi];
    destruct (Nat.ltb_spec (next_task_idx st) ntasks) as [Hn|Hn]; cbn [andb];
    try (exists st; split_and!; [done|done|done|done|]; destruct (idle_resources st); [by left|cbn in *; try lia; by right]).
  - lia.
  - destruct (dispatch_one lam dry_run st) as [st1|e] eqn:Hd.
    2: { unfold dispatch_one in Hd. destruct (rev (idle_resources st)) eqn:Hr; [|done].
         apply (f_equal (@length _)) in Hr. rewrite length_rev in Hr. cbn in Hr. lia. }
    destruct (dispatch_ok st st1 Hok Hn Hd) as (Hok1 & Hrem & Hl & _ & Hin).
    destruct (IH st1 Hok1) as (st' & Hst' & Hok' & Hrem' & Hin' & Hend); [lia|].
    exists st'. rewrite bind_of_Ok. split_and!; [done|done|congruence|auto|done].
Qed.

Lemma map_poll_task e ms : map m_task (map (poll_one e) ms) = map m_task ms.
Proof.
  rewrite map_map. apply map_ext. intros m. unfold poll_one.
  destruct (m_running m); [|done]. by destruct (e (m_task m)) as [[[] []]|].
Qed.

Lemma poll_worker e m : m_worker (poll_one e m) = m_worker m /\ m_task (poll_one e m) = m_task m.
Proof.
  unfold poll_one. destruct (m_running m); [|done]. by destruct (e (m_task m)) as [[[] []]|].
Qed.

Lemma survives_running ms m :
  NoDup (map m_task ms) -> m ∈ ms -> survives (running ms) m = m_running m.
Proof.
  intros Hnd Hm. unfold survives. destruct (m_running m) eqn:E.
  - apply existsb_exists. exists m. split; [|apply Nat.eqb_refl].
    apply filter_In. split; [by apply list_elem_of_In|done].
  - apply not_true_iff_false. intros (s & [Hs Hr]%filter_In & Ht%Nat.eqb_eq)%existsb_exists.
    apply list_elem_of_In in Hs. assert (s = m) as ->; [|congruence].
    apply list_elem_of_lookup in Hm as (i & Hi), Hs as (j & Hj).
    change (map m_task ms) with (m_task <$> ms) in Hnd.
    assert (i = j) as ->; [|congruence].
    eapply (NoDup_lookup _ i j (m_task m) Hnd); rewrite list_lookup_fmap; [by rewrite Hi|rewrite Hj; cbn; by rewrite Ht].
Qed.

Lemma fold_insert_idle idle ms :
  fold_left (fun idle m => m_worker m :: idle) ms idle = rev (map m_worker ms) ++ idle.
Proof.
  revert idle. induction ms as [|m ms IH]; intros idle; [done|]. cbn. by rewrite IH, <- app_assoc.
Qed.

(** The monitors of a pass: those that ended and those that go on. *)
Definition polled (e : nat -> poll_event) (ms : list monitor) : list monitor :=
  if dry_run then ms else map (poll_one e) ms.
Definition goes_on (m : monitor) : bool := negb dry_run && m_running m.

Lemma round_split e st st1 :
  queue_ok st1 -> assign lam ntasks dry_run st = Ok st1 ->
  round lam ntasks dry_run e st =
  Ok (LState (rev (map m_worker (List.filter (fun m => negb (goes_on m)) (polled e (monitors st1)))) ++ idle_resources st1)
        (next_task_idx st1) (List.filter goes_on (polled e (monitors st1))) (assigned st1) (launched st1)).
Proof.
  intros Hok Ha. unfold round. rewrite Ha, bind_of_Ok. unfold polled, goes_on, poll_monitors.
  assert (Hnd : NoDup (map m_task (monitors st1))).
  { eapply sublist_NoDup; [|exact (q_monitors _ Hok)]. apply NoDup_ListNoDup, seq_NoDup. }
  destruct dry_run.
  - rewrite fold_insert_idle. f_equal. f_equal.
    clear. induction (monitors st1) as [|m ms IH]; [done|]. cbn in *. exact IH.
  - rewrite fold_insert_idle. do 2 f_equal. f_equal. f_equal. f_equal.
    apply filter_ext_in. intros m Hm. rewrite survives_running; [done|by rewrite map_poll_task|done].
Qed.

Lemma round_ok e st :
  queue_ok st ->
  exists st1 st', assign lam ntasks dry_run st = Ok st1 /\ queue_ok st1 /\ remaining st1 = remaining st /\
    (forall m, m ∈ monitors st -> m ∈ monitors st1) /\
    (idle_resources st1 = [] \/ ntasks <= next_task_idx st1) /\
    round lam ntasks dry_run e st = Ok st' /\ queue_ok st' /\
    next_task_idx st' = next_task_idx st1 /\ monitors st' = List.filter goes_on (polled e (monitors st1)).
Proof.
  intros Hok. destruct (assign_ok (length (idle_resources st)) st Hok) as (st1 & Ha & Hok1 & Hrem & Hin & Hend); [done|].
  exists st1. eexists. split_and!; [exact Ha|done|done|done|done|by apply round_split| |done|done].
  destruct Hok1 as [H1 H2 H3 H4 H5 H7 H6].
  assert (Hpw : map m_worker (polled e (monitors st1)) = map m_worker (monitors st1)).
  { unfold polled. destruct dry_run; [done|]. rewrite map_map. apply map_ext. intros m. apply poll_worker. }
  assert (Hpt : map m_task (polled e (monitors st1)) = map m_task (monitors st1)).
  { unfold polled. destruct dry_run; [done|]. apply map_poll_task. }
  constructor; cbn; [|done|done| | | |done].
  - rewrite <- app_assoc, (Permutation_app_comm (idle_resources st1)), app_assoc.
    rewrite <- Permutation_rev, <- map_app, filter_split_perm, Hpw, Permutation_app_comm. done.
  - etrans; [|exact H4]. rewrite <- Hpt. apply map_sublist, filter_sublist.
  - intros m Hm%list_elem_of_In. apply filter_In in Hm as [Hm _]. unfold polled in Hm.
    destruct dry_run; [by apply H5, list_elem_of_In|].
    apply in_map_iff in Hm as (m0 & <- & Hm0%list_elem_of_In). destruct (poll_worker e m0) as [-> ->]. by apply H5.
  - intros m Hm%list_elem_of_In. apply filter_In in Hm as [_ Hm]. unfold goes_on in Hm.
    apply andb_true_iff in Hm as [-> ->]. done.
Qed.

(** ** Reachable states *)

(** One pass of the launcher under whatever [poll] reports. *)
Definition step (st st' : lstate) : Prop := exists e, round lam ntasks dry_run e st = Ok st'.

Lemma reachable_ok st : rtc step (start workers) st -> queue_ok st.
Proof.
  apply (rtc_ind_r (fun st => queue_ok st)); [apply start_ok|].
  intros y z _ [e He] Hy. destruct (round_ok e y Hy) as (st1 & st' & _ & _ & _ & _ & _ & Hr & Hok & _).
  congruence.
Qed.

(** C6. The queue of the launcher, in every reachable state and whatever the
    polls report: the idle and the busy workers together are the workers it
    was given, so that none is lost and, when they are distinct, none has two
    tasks; tasks were assigned once each, in order, and none past the last; a
    further pass never raises. *)
Theorem queue_invariant st :
  rtc step (start workers) st ->
  idle_resources st ++ map m_worker (monitors st) ≡ₚ workers /\
  (NoDup workers -> NoDup (map m_worker (monitors st))) /\
  map fst (assigned st) = seq 0 (next_task_idx st) /\ next_task_idx st <= ntasks /\
  (forall m, m ∈ monitors st -> (m_task m, m_worker m) ∈ assigned st) /\
  forall e, exists st', round lam ntasks dry_run e st = Ok st'.
Proof.
  intros Hst%reachable_ok. split_and!; try apply Hst.
  - intros Hnd. rewrite <- (q_workers _ Hst) in Hnd. by apply NoDup_app in Hnd as (_ & _ & ?).
  - intros e. destruct (round_ok e st Hst) as (st1 & st' & _ & _ & _ & _ & _ & Hr & _). by exists st'.
Qed.

(** ** The launcher ends *)

Lemma loop_done_remaining st : queue_ok st -> loop_done ntasks st = true <-> remaining st = 0.
Proof.
  intros Hok. pose proof (q_bound _ Hok). unfold loop_done, remaining.
  rewrite andb_true_iff, Nat.eqb_eq, Nat.leb_le. lia.
Qed.

(** A state that is not done has a busy worker after the assignment. *)
Lemma busy_after_assign st st1 :
  workers <> [] -> queue_ok st1 -> remaining st1 = remaining st -> remaining st <> 0 ->
  (idle_resources st1 = [] \/ ntasks <= next_task_idx st1) -> exists m, m ∈ monitors st1.
Proof.
  intros Hne Hok Hrem Hnz Hend. destruct (monitors st1) as [|m ms] eqn:E; [|exists m; apply list_elem_of_here].
  exfalso. destruct Hend as [Hi|Hn].
  - pose proof (q_workers _ Hok) as Hp. rewrite Hi, E in Hp. cbn in Hp.
    by apply Permutation_nil in Hp.
  - unfold remaining in Hrem at 1. rewrite E in Hrem. cbn in Hrem. lia.
Qed.

(** A pass in which a busy worker's job ends makes progress; otherwise the job
    is still there. *)
Lemma round_progress e st1 st' m :
  queue_ok st1 -> next_task_idx st' = next_task_idx st1 ->
  monitors st' = List.filter goes_on (polled e (monitors st1)) -> m ∈ monitors st1 ->
  remaining st' <= remaining st1 /\
  (dry_run = true \/ e (m_task m) = Some (false, true) -> remaining st' < remaining st1) /\
  (dry_run = false -> e (m_task m) <> Some (false, true) -> m ∈ monitors st').
Proof.
  intros Hok Hn Hms Hm. unfold remaining. rewrite Hn, Hms.
  assert (Hlen : length (polled e (monitors st1)) = length (monitors st1)).
  { unfold polled. by destruct dry_run; [|rewrite length_map]. }
  pose proof (List.filter_length_le goes_on (polled e (monitors st1))) as Hle. split_and!; [lia| |].
  - intros Hcase. enough (length (List.filter goes_on (polled e (monitors st1))) < length (polled e (monitors st1))) by lia.
    destruct dry_run eqn:Hd.
    + apply (filter_length_lt _ _ m); [unfold polled; by rewrite Hd|unfold goes_on; by rewrite Hd].
    + destruct Hcase as [|Hfire]; [done|].
      apply (filter_length_lt _ _ (poll_one e m)).
      * unfold polled. rewrite Hd. apply list_elem_of_In, in_map, list_elem_of_In, Hm.
      * unfold goes_on, poll_one. rewrite (q_running _ Hok m Hm), Hd. cbn. by rewrite Hfire.
  - intros Hd Hno. apply list_elem_of_In, filter_In. unfold polled, goes_on. rewrite Hd.
    assert (Hr : m_running m = true) by (by rewrite (q_running _ Hok m Hm), Hd).
    assert (E : poll_one e m = m).
    { unfold poll_one. rewrite Hr. by destruct (e (m_task m)) as [[[] []]|]. }
    split; [|done]. rewrite <- E. apply in_map, list_elem_of_In, Hm.
Qed.

(** Every job ends some time: whatever the round, a later poll reports a
    hang-up of the task with no input left. *)
Definition fair (env : nat -> nat -> poll_event) : Prop :=
  forall k t, exists k', k <= k' /\ env k' t = Some (false, true).

Definition ends (env : nat -> nat -> poll_event) (k : nat) (st : lstate) : Prop :=
  exists fuel st', sequenced_loop lam ntasks dry_run env fuel k st = Ok st' /\
    queue_ok st' /\ loop_done ntasks st' = true.

Lemma ends_done env k st : queue_ok st -> loop_done ntasks st = true -> ends env k st.
Proof. intros Hok Hd. exists 0, st. cbn. by rewrite Hd. Qed.

Lemma ends_step env k st st' :
  loop_done ntasks st = false -> round lam ntasks dry_run (env k) st = Ok st' ->
  ends env (S k) st' -> ends env k st.
Proof.
  intros Hd Hr (fuel & st'' & Hl & Hok & Hdone). exists (S fuel), st''. cbn [sequenced_loop].
  by rewrite Hd, Hr, bind_of_Ok.
Qed.

(** Waiting for one job. *)
Lemma ends_wait env d k st st1 m :
  workers <> [] -> queue_ok st -> remaining st <> 0 ->
  assign lam ntasks dry_run st = Ok st1 -> m ∈ monitors st1 ->
  dry_run = true \/ env (k + d) (m_task m) = Some (false, true) ->
  (forall k st', queue_ok st' -> remaining st' < remaining st -> ends env k st') ->
  ends env k st.
Proof.
  intros Hne. revert k st st1. induction d as [|d IH]; intros k st st1 Hok Hnz Ha Hm Hfire Hnext;
    destruct (round_ok (env k) st Hok) as (st1' & st' & Ha' & Hok1 & Hrem & Hin & _ & Hr & Hok' & Hn & Hms);
    assert (st1' = st1) as -> by congruence;
    destruct (round_progress (env k) st1 st' m Hok1 Hn Hms Hm) as (Hle & Hlt & Hstay);
    assert (Hnd : loop_done ntasks st = false)
      by (apply not_true_iff_false; intros Hdone%loop_done_remaining; [lia|done]).
  - rewrite Nat.add_0_r in Hfire. apply (ends_step env k st st' Hnd Hr), Hnext; [done|].
    specialize (Hlt Hfire). lia.
  - apply (ends_step env k st st' Hnd Hr).
    assert (Hcase : (dry_run = true \/ env k (m_task m) = Some (false, true)) \/
      (dry_run = false /\ env k (m_task m) <> Some (false, true))).
    { destruct dry_run; [auto|]. destruct (decide (env k (m_task m) = Some (false, true))); auto. }
    destruct Hcase as [Hnow|[Hd Hno]]; [apply Hnext; [done|]; specialize (Hlt Hnow); lia|].
    specialize (Hstay Hd Hno).
    destruct (round_ok (env (S k)) st' Hok') as (st2 & _ & Ha2 & _ & _ & Hin2 & _).
    apply (IH (S k) st' st2); [done| |done|by apply Hin2| |].
    + unfold remaining. destruct (monitors st'); [by apply not_elem_of_nil in Hstay|cbn; lia].
    + by replace (S k + d) with (k + S d) by lia.
    + intros k2 st2' Hok2 Hlt2. apply Hnext; [done|]. lia.
Qed.

Lemma ends_always env k st :
  workers <> [] -> dry_run = true \/ fair env -> queue_ok st -> ends env k st.
Proof.
  intros Hne Hfair. remember (remaining st) as r eqn:Hr. revert k st Hr.
  induction (lt_wf r) as [r _ IH]. intros k st -> Hok.
  destruct (decide (remaining st = 0)) as [Hz|Hnz].
  - apply ends_done; [done|]. by apply loop_done_remaining.
  - destruct (round_ok (env k) st Hok) as (st1 & _ & Ha & Hok1 & Hrem & _ & Hend & _).
    destruct (busy_after_assign st st1 Hne Hok1 Hrem Hnz Hend) as (m & Hm).
    assert (exists d, dry_run = true \/ env (k + d) (m_task m) = Some (false, true)) as (d & Hd).
    { destruct Hfair as [|Hf]; [by exists 0; left|]. destruct (Hf k (m_task m)) as (k' & Hk & Hfire).
      exists (k' - k). right. by replace (k + (k' - k)) with k' by lia. }
    apply (ends_wait env d k st st1 m); try done.
    intros k' st' Hok' Hlt. by apply (IH (remaining st')).
Qed.

(** C7. The launcher ends: with at least one worker, and if every job that runs
    ends some time, there is a number of passes after which it returns; then
    every task has been assigned to a worker exactly once and every worker is
    idle again.  A dry run needs no job to end and starts nothing. *)
Theorem launcher_completes env :
  workers <> [] -> dry_run = true \/ fair env ->
  exists fuel st, sequenced_launcher lam ntasks dry_run env fuel workers = Ok st /\
    map fst (assigned st) = seq 0 ntasks /\
    launched st = (if dry_run then [] else assigned st) /\
    monitors st = [] /\ idle_resources st ≡ₚ workers.
Proof.
  intros Hne Hfair. destruct (ends_always env 0 (start workers) Hne Hfair start_ok) as (fuel & st & Hl & Hok & Hd).
  exists fuel, st. split; [exact Hl|]. unfold loop_done in Hd.
  apply andb_true_iff in Hd as [Hm%Nat.eqb_eq Hn%Nat.leb_le].
  assert (Hms : monitors st = []) by (by destruct (monitors st)).
  split_and!; [|by apply q_launched|done|].
  - rewrite (q_tasks _ Hok). f_equal. pose proof (q_bound _ Hok). lia.
  - pose proof (q_workers _ Hok) as Hp. rewrite Hms in Hp. cbn in Hp. by rewrite app_nil_r in Hp.
Qed.
End queue.

(** ** Without workers *)

Lemma no_worker_round lam ntasks dry_run e :
  round lam ntasks dry_run e (start []) = Ok (start []).
Proof. destruct dry_run; reflexivity. Qed.

(** With no worker and something to do the launcher never returns: it polls
    nothing for ever. *)
Theorem no_worker_never_ends lam ntasks dry_run env fuel :
  0 < ntasks -> sequenced_launcher lam ntasks dry_run env fuel [] = Raise OutOfFuel.
Proof.
  intros Hn. unfold sequenced_launcher. generalize 0 as k.
  assert (Hd : loop_done ntasks (start []) = false) by (by destruct ntasks; [lia|]).
  induction fuel as [|fuel IH]; intros k; cbn [sequenced_loop]; rewrite Hd; [done|].
  rewrite no_worker_round, bind_of_Ok. apply IH.
Qed.

(** ** Selecting workers *)

Section filter.
Context (re_search : str -> str -> bool).

(** How many of the patterns a worker's name matches. *)
Definition hits (regexes : list str) (w : worker) : nat :=
  length (List.filter (fun regex => re_search regex (w_Name w)) regexes).

Lemma filter_workers_repeat workers regexes :
  filter_workers re_search workers regexes = flat_map (fun w => repeat w (hits regexes w)) workers.
Proof.
  assert (Hinner : forall w regexes acc,
    fold_left (fun acc regex => if re_search regex (w_Name w) then acc ++ [w] else acc) regexes acc =
    acc ++ repeat w (hits regexes w)).
  { clear. intros w regexes. induction regexes as [|r rs IH]; intros acc; unfold hits in *; cbn.
    - by rewrite app_nil_r.
    - rewrite IH. destruct (re_search r (w_Name w)); cbn; [by rewrite <- app_assoc|done]. }
  unfold filter_workers.
  assert (Houter : forall acc, fold_left (fun acc w =>
      fold_left (fun acc regex => if re_search regex (w_Name w) then acc ++ [w] else acc) regexes acc) workers acc =
    acc ++ flat_map (fun w => repeat w (hits regexes w)) workers); [|apply Houter].
  induction workers as [|w ws IH]; intros acc; cbn; [by rewrite app_nil_r|].
  by rewrite Hinner, IH, <- app_assoc.
Qed.

Lemma elem_of_repeat (x y : worker) n : x ∈ repeat y n <-> x = y /\ 0 < n.
Proof.
  induction n as [|n IH]; cbn; [split; [by intros ?%not_elem_of_nil|lia]|].
  rewrite elem_of_cons, IH. naive_solver lia.
Qed.

(** The workers selected are those whose name matches a pattern; but a
    worker is selected once for EACH pattern it matches, so that the selection
    is free of duplicates exactly when no worker matches two patterns. *)
Theorem filter_workers_duplicates workers regexes :
  NoDup workers ->
  (forall w, w ∈ filter_workers re_search workers regexes <->
     w ∈ workers /\ exists regex, regex ∈ regexes /\ re_search regex (w_Name w) = true) /\
  (NoDup (filter_workers re_search workers regexes) <-> Forall (fun w => hits regexes w <= 1) workers).
Proof.
  intros Hnd. rewrite filter_workers_repeat.
  assert (Hin : forall w ws, w ∈ flat_map (fun w => repeat w (hits regexes w)) ws <-> w ∈ ws /\ 0 < hits regexes w).
  { intros w ws. rewrite list_elem_of_In, in_flat_map. split.
    - intros (x & Hx & Hr). apply list_elem_of_In, elem_of_repeat in Hr as [-> ?].
      by apply list_elem_of_In in Hx.
    - intros [Hw Hh]. exists w. split; [by apply list_elem_of_In|]. by apply list_elem_of_In, elem_of_repeat. }
  split.
  - intros w. rewrite Hin. apply and_iff_compat_l. unfold hits. split.
    + intros Hl. destruct (List.filter _ regexes) as [|r rs] eqn:E; [cbn in Hl; lia|].
      assert (Hr : In r (List.filter (fun regex => re_search regex (w_Name w)) regexes)) by (rewrite E; by left).
      apply filter_In in Hr as [? ?]. exists r. by rewrite list_elem_of_In.
    + intros (r & Hr%list_elem_of_In & Hm).
      assert (Hin' : In r (List.filter (fun regex => re_search regex (w_Name w)) regexes)) by (by apply filter_In).
      destruct (List.filter _ regexes); [done|cbn; lia].
  - induction Hnd as [|w ws Hw Hnd IH]; cbn; [split; constructor|].
    rewrite Forall_cons, <- IH, NoDup_app. split.
    + intros (H1 & _ & H3). split; [|done]. destruct (hits regexes w) as [|[|n]]; [lia|lia|].
      cbn in H1. apply NoDup_cons in H1 as [H1 _]. exfalso. apply H1, list_elem_of_here.
    + intros [H1 H3]. split_and!; [| |done].
      * destruct (hits regexes w) as [|[|n]]; [constructor|apply NoDup_singleton|lia].
      * intros x [-> _]%elem_of_repeat [? _]%Hin. done.
Qed.
End filter.

(** ** One task per worker *)

Lemma map_res_seq {B} (f : nat -> res B) (g : nat -> B) n k :
  (forall i, k <= i < k + n -> f i = Ok (g i)) -> map_res f (seq k n) = Ok (map g (seq k n)).
Proof.
  revert k. induction n as [|n IH]; intros k H; [done|]. cbn [seq map_res map].
  rewrite H by lia. rewrite bind_of_Ok, IH; [done|]. intros i Hi. apply H. lia.
Qed.

(** [launch_worker_pipes] refuses more tasks than workers; otherwise task
    [i] is started on worker [i], and a dry run starts none. *)
Theorem one_task_per_worker lam ntasks dry_run workers :
  (length workers < ntasks -> exists msg, launch_worker_pipes lam ntasks dry_run workers = Raise (PyException msg)) /\
  (ntasks <= length workers -> exists ms, launch_worker_pipes lam ntasks dry_run workers = Ok ms /\
     if dry_run then ms = []
     else map m_task ms = seq 0 ntasks /\ map m_worker ms = take ntasks workers /\
          Forall (fun m => m_running m = true /\ m_cmd m = lam (m_task m) (m_worker m)) ms).
Proof.
  unfold launch_worker_pipes. destruct (Nat.ltb_spec (length workers) ntasks) as [Hlt|Hle].
  { split; [intros _; by eexists|lia]. }
  split; [lia|]. intros _. destruct workers as [|w0 ws] eqn:Hw.
  { cbn in Hle. assert (ntasks = 0) as -> by lia. exists []. split; [by destruct dry_run|]. by destruct dry_run. }
  rewrite <- Hw in *. set (g := fun i => let w := nth i workers w0 in Monitor i w (lam i w) true).
  rewrite (map_res_seq _ g).
  2: { intros i Hi. unfold nth_res. assert (Hl : i < length workers) by lia.
       destruct (lookup_lt_is_Some_2 _ _ Hl) as (w & E). rewrite E. cbn. unfold g.
       by rewrite (nth_lookup_Some _ _ _ _ E). }
  rewrite bind_of_Ok. eexists. split; [done|]. destruct dry_run; [done|]. split_and!.
  - rewrite map_map. unfold g. cbn. apply map_id.
  - rewrite map_map. unfold g. cbn. clear -Hle.
    revert workers Hle. induction ntasks as [|n IH]; intros workers Hle; [by rewrite take_0|].
    destruct workers as [|w workers]; [cbn in Hle; lia|]. cbn [seq map nth take]. f_equal.
    rewrite <- seq_shift, map_map. apply IH. cbn in Hle. lia.
  - apply Forall_forall. intros m Hm%list_elem_of_In. apply in_map_iff in Hm as (i & <- & _). done.
Qed.

(** ** Examples *)

Definition demo_workers : list worker :=
  [Worker 0 "veri-worker-a00" (Some (# "10.0.0.1")); Worker 1 "veri-worker-a01" (Some (# "10.0.0.2"))].
Definition demo_lam (idx : nat) (w : worker) : command := Command "job" (ssh_cmd_for_worker w false).
(** Every job hangs up at every other poll. *)
Definition demo_env (k t : nat) : poll_event := if Nat.even k then Some (false, true) else Some (true, true).

Lemma demo_fair : fair demo_env.
Proof.
  intros k t. unfold demo_env. destruct (Nat.even k) eqn:E; [exists k; by rewrite E|].
  exists (S k). split; [lia|]. rewrite Nat.even_succ, <- Nat.negb_even, E. done.
Qed.

Lemma queue_invariant_witness :
  exists st, rtc (step demo_lam 3 false) (start demo_workers) st /\ length (monitors st) = 2 /\
    idle_resources st ++ map m_worker (monitors st) ≡ₚ demo_workers.
Proof.
  assert (H : rtc (step demo_lam 3 false) (start demo_workers)
    (match round demo_lam 3 false (fun _ => None) (start demo_workers) with Ok st => st | Raise _ => start [] end)).
  { apply rtc_once. exists (fun _ => None). vm_compute. reflexivity. }
  eexists. split; [exact H|]. split; [vm_compute; reflexivity|].
  destruct (queue_invariant demo_lam 3 false demo_workers _ H) as (H1 & _). exact H1.
Defined.

Lemma launcher_completes_witness :
  demo_workers <> [] /\ fair demo_env /\
  exists fuel st, sequenced_launcher demo_lam 3 false demo_env fuel demo_workers = Ok st /\
    map fst (assigned st) = [0; 1; 2].
Proof.
  split; [done|]. split; [exact demo_fair|].
  destruct (launcher_completes demo_lam 3 false demo_workers demo_env ltac:(done) (or_intror demo_fair))
    as (fuel & st & H1 & H2 & _).
  exists fuel, st. split; [exact H1|exact H2].
Defined.

Lemma no_worker_never_ends_witness :
  0 < 3 /\ sequenced_launcher demo_lam 3 false demo_env 50 [] = Raise OutOfFuel.
Proof. split; [lia|]. apply (no_worker_never_ends demo_lam 3 false demo_env 50). lia. Defined.

(** Two patterns that both match every worker. *)
Lemma filter_workers_duplicates_witness :
  NoDup demo_workers /\
  (NoDup (filter_workers contains demo_workers [ # "veri-worker"; # "worker-a"]) <->
   Forall (fun w => hits contains [ # "veri-worker"; # "worker-a"] w <= 1) demo_workers) /\
  length (filter_workers contains demo_workers [ # "veri-worker"; # "worker-a"]) = 4.
Proof.
  assert (Hnd : NoDup demo_workers) by (apply (bool_decide_unpack _); vm_compute; exact I).
  split; [exact Hnd|]. split; [|vm_compute; reflexivity].
  exact (proj2 (filter_workers_duplicates contains demo_workers [ # "veri-worker"; # "worker-a"] Hnd)).
Defined.

Example launcher_demo :
  (assigned <$> sequenced_launcher demo_lam 3 false demo_env 5 demo_workers) =
  Ok [(0, Worker 1 "veri-worker-a01" (Some (# "10.0.0.2"))); (1, Worker 0 "veri-worker-a00" (Some (# "10.0.0.1")));
      (2, Worker 1 "veri-worker-a01" (Some (# "10.0.0.2")))].
Proof. vm_compute. reflexivity. Qed.

(** A comment line yields the pattern of the empty name. *)
Example worker_patterns :
  load_worker_regex_list ("veri-.* # all" ++ [nl] ++ "# none" ++ [nl] ++ "^b00$" ++ [nl]) =
  [ # "^veri-.*$"; # "^$"; # "^b00$"].
Proof. vm_compute. reflexivity. Qed.
