(* ===== verification/Experiment.v ===== *)
(** * Running one experiment (tools/run-veri-config-experiment.py)

    The command line is parsed into a configuration, checked, and carried out
    as a sequence of shell commands, any of which may end the run.  What a
    command does to the files, its exit code, and how the measured job ends are
    parameters. *)
From S2P Require Import Prelude PyStr Regex Paths PyFloat.

(** ** Commands and files *)

Inductive event :=
  | System (cmd : str)            (* os.system *)
  | Call (args : list str)        (* subprocess.call *)
  | Popen (args : list str)       (* subprocess.Popen *)
  | Job (cmd : str).              (* the measured command *)

Record world := World { files : gmap str str; trace : list event }.

(** Computations that run commands, change files and may raise. *)
Definition io : Type -> Type := script_of world.
#[export] Instance io_ret : MRet io := @script_ret world.
#[export] Instance io_bind : MBind io := @script_bind world.
Definition assert_ (b : bool) : io unit := lift (py_assert b).

(** ** The configuration *)

Record config := Config {
  ram : option str;
  cfg_git_branch : option str;
  workload : option str;
  device : option str;
  from_archive : option str;
  cache_size_in_bytes : option Z;
  cache_size_in_nodes : option Z;
  bucket_weight : option Z;
  log_size_in_blocks : option Z;
  o_direct : bool;
  value_updates : list (str * str);
  use_unverified_row_cache : bool;
  use_filters : bool;
  veri : bool; rocks : bool; berkeley : bool; kyoto : bool;
  log_stats : bool;
  time_budget_sec : float;
  cgroup_enabled : bool;
  outpath : option str
}.

(** [autoconfig], which nothing calls: the constants for a cache that holds as
    many buckets of the given weight as fit. *)
Definition autoconfig (bucket_weight_bytes cache_size_bytes : Z) : res (list (str * str)) :=
  if (bucket_weight_bytes =? 0)%Z then Raise ZeroDivisionError
  else Ok [ (# "MaxTotalBucketWeightUint64", dec_Z bucket_weight_bytes);
            (# "MaxCacheSizeUint64", dec_Z (cache_size_bytes / bucket_weight_bytes)) ].

(** A year, when no budget is asked for. *)
Definition default_config : config :=
  Config None None None None None None None None None false [] false false
    false false false false false (float_of_Z (3600 * 24 * 365)) true None.

(** One argument, as an update of the configuration. *)
Inductive setting :=
  | Set_ram (v : str) | Set_git_branch (v : str) | Set_workload (v : str) | Set_device (v : str)
  | Set_archive (v : str) | Set_cache_bytes (z : Z) | Set_cache_nodes (z : Z) | Set_bucket_weight (z : Z)
  | Set_log_size (z : Z) | Set_o_direct | Add_update (name value : str) | Set_row_cache | Set_filters
  | Set_veri | Set_rocks | Set_berkeley | Set_kyoto | Set_log_stats | Set_budget (x : float)
  | Set_cgroup (b : bool) | Set_output (path : str).

Definition apply_setting (s : setting) (c : config) : config :=
  let '(Config ra gb wl dv ar cb cn bw ls od vu rc fi ve ro be ky st tb cg op) := c in
  match s with
  | Set_ram v => Config (Some v) gb wl dv ar cb cn bw ls od vu rc fi ve ro be ky st tb cg op
  | Set_git_branch v => Config ra (Some v) wl dv ar cb cn bw ls od vu rc fi ve ro be ky st tb cg op
  | Set_workload v => Config ra gb (Some v) dv ar cb cn bw ls od vu rc fi ve ro be ky st tb cg op
  | Set_device v => Config ra gb wl (Some v) ar cb cn bw ls od vu rc fi ve ro be ky st tb cg op
  | Set_archive v => Config ra gb wl dv (Some v) cb cn bw ls od vu rc fi ve ro be ky st tb cg op
  | Set_cache_bytes z => Config ra gb wl dv ar (Some z) cn bw ls od vu rc fi ve ro be ky st tb cg op
  | Set_cache_nodes z => Config ra gb wl dv ar cb (Some z) bw ls od vu rc fi ve ro be ky st tb cg op
  | Set_bucket_weight z => Config ra gb wl dv ar cb cn (Some z) ls od vu rc fi ve ro be ky st tb cg op
  | Set_log_size z => Config ra gb wl dv ar cb cn bw (Some z) od vu rc fi ve ro be ky st tb cg op
  | Set_o_direct => Config ra gb wl dv ar cb cn bw ls true vu rc fi ve ro be ky st tb cg op
  | Add_update n v => Config ra gb wl dv ar cb cn bw ls od (vu ++ [(n, v)]) rc fi ve ro be ky st tb cg op
  | Set_row_cache => Config ra gb wl dv ar cb cn bw ls od vu true fi ve ro be ky st tb cg op
  | Set_filters => Config ra gb wl dv ar cb cn bw ls od vu rc true ve ro be ky st tb cg op
  | Set_veri => Config ra gb wl dv ar cb cn bw ls od vu rc fi true ro be ky st tb cg op
  | Set_rocks => Config ra gb wl dv ar cb cn bw ls od vu rc fi ve true be ky st tb cg op
  | Set_berkeley => Config ra gb wl dv ar cb cn bw ls od vu rc fi ve ro true ky st tb cg op
  | Set_kyoto => Config ra gb wl dv ar cb cn bw ls od vu rc fi ve ro be true st tb cg op
  | Set_log_stats => Config ra gb wl dv ar cb cn bw ls od vu rc fi ve ro be ky true tb cg op
  | Set_budget x => Config ra gb wl dv ar cb cn bw ls od vu rc fi ve ro be ky st x cg op
  | Set_cgroup b => Config ra gb wl dv ar cb cn bw ls od vu rc fi ve ro be ky st tb b op
  | Set_output p => Config ra gb wl dv ar cb cn bw ls od vu rc fi ve ro be ky st tb cg (Some p)
  end.

(** ** Parsing an argument *)

(** The text after a prefix, when the argument has it. *)
Definition after (prefix : string) (arg : str) : option str :=
  if startswith arg prefix then Some (drop (length (# prefix)) arg) else None.

Definition second_field (arg : str) : res str := nth_res (split_char "=" arg) 1.

Definition parse_budget (arg : str) : res float :=
  val_str ← second_field arg;
  unit ← of_option IndexError (last val_str);
  mult ← (if bool_decide (unit = "s"%char) then Ok 1%Z
          else if bool_decide (unit = "m"%char) then Ok 60%Z
          else if bool_decide (unit = "h"%char) then Ok 3600%Z
          else Raise AssertionError);
  n ← py_float (removelast val_str);
  Ok (fmul n (float_of_Z mult)).

(** The chain of tests, in the order of the source. *)
Definition parse_arg (arg : str) : res setting :=
  match after "ram=" arg with Some v => Ok (Set_ram v) | None =>
  match after "git_branch=" arg with Some v => Ok (Set_git_branch v) | None =>
  match after "workload=" arg with Some v => Ok (Set_workload v) | None =>
  match after "device=" arg with Some v => Ok (Set_device v) | None =>
  match after "fromArchive=" arg with Some v => Ok (Set_archive v) | None =>
  match after "cacheSizeInBytes=" arg with Some v => Set_cache_bytes <$> py_int v | None =>
  match after "cacheSizeInNodes=" arg with Some v => Set_cache_nodes <$> py_int v | None =>
  match after "bucketWeight=" arg with Some v => Set_bucket_weight <$> py_int v | None =>
  match after "veriLogSizeInBlocks=" arg with Some v => Set_log_size <$> py_int v | None =>
  if bool_decide (arg = "veriUseODirect") then Ok Set_o_direct
  else if contains "Uint64=" arg then
    match split_char "=" arg with [name; v] => Ok (Add_update name v) | _ => Raise AssertionError end
  else if bool_decide (arg = "use_unverified_row_cache") then Ok Set_row_cache
  else if bool_decide (arg = "use_filters") then Ok Set_filters
  else if bool_decide (arg = "veri") then Ok Set_veri
  else if bool_decide (arg = "rocks") then Ok Set_rocks
  else if bool_decide (arg = "berkeley") then Ok Set_berkeley
  else if bool_decide (arg = "kyoto") then Ok Set_kyoto
  else if bool_decide (arg = "log_stats") then Ok Set_log_stats
  else if startswith arg "time_budget=" then Set_budget <$> parse_budget arg
  else if startswith arg "cgroup=" then
    (fun enabled => Set_cgroup (bool_decide (enabled = # "True"))) <$> second_field arg
  else if startswith arg "output=" then Set_output <$> second_field arg
  else Raise AssertionError
  end end end end end end end end end.

(** ** Splicing a constant into the generated C++ *)

(** One line of the loop: the state [c], the lines so far, and whether a line
    was replaced. *)
Definition splice_line (signature replacement : str) (st : nat * list str * bool) (line : str)
    : nat * list str * bool :=
  let '(c, lines, done) := st in
  if bool_decide (strip line = signature) then (1, lines ++ [line], done)
  else if c =? 1 then (2, lines ++ [line], done)
  else if c =? 2 then (0, lines ++ [replacement], true)
  else (c, lines ++ [line], done).

Definition splice_signature (name : str) : str := "uint64 __default::" ++ name ++ "()".
Definition splice_replacement (v : str) : str := "    return (uint64)" ++ v ++ "; /*hi mom*/" ++ [nl].
Definition splice_lines (name v : str) (lines : list str) : res (list str) :=
  let '(_, out, splice_successful) :=
    fold_left (splice_line (splice_signature name) (splice_replacement v)) lines (0, [], false) in
  _ ← py_assert splice_successful; Ok out.

(** How the measured job ends: with an exit code, or not within the time budget;
    what it has printed by then; and the files it leaves. *)
Record job_end := JobEnd { j_ret : option Z; j_out : str; j_files : gmap str str }.

Section experiment.
(** The working directory; the effect of a command on the files and its exit
    code; the measured job, from its command, the files and the budget. *)
Context (cwd : str) (shell : event -> gmap str str -> Z * gmap str str)
  (job : str -> gmap str str -> float -> job_end).

Definition exists_file (name : str) : io bool :=
  fun w => (w, Ok (bool_decide (is_Some (files w !! abspath cwd name)))).
Definition read_file (name : str) : io str := fun w => (w, py_open cwd (files w) name).
Definition write_file (name contents : str) : io unit :=
  fun w => (World (<[abspath cwd name := contents]> (files w)) (trace w), Ok tt).
Definition run (e : event) : io Z :=
  fun w => let '(ret, fs) := shell e (files w) in (World fs (trace w ++ [e]), Ok ret).
(** [os.system] whose result is asserted to be zero, or ignored. *)
Definition system_ok (cmd : str) : io unit := ret ← run (System cmd); assert_ (ret =? 0)%Z.
Definition system (cmd : str) : io unit := _ ← run (System cmd); mret tt.

Definition cgroup_defaults : io unit := system_ok "./tools/configure-cgroups.sh".

Definition mem_limit (limit : str) : res Z :=
  if endswith limit "gb" then
    x ← py_float (take (length limit - 2) limit);
    float_trunc (fmul (fmul (fmul x (float_of_Z 1024)) (float_of_Z 1024)) (float_of_Z 1024))
  else py_int limit.
Definition set_mem_limit (limit : str) : io unit :=
  v ← lift (mem_limit limit);
  system_ok ("echo " ++ dec_Z v ++ " > /sys/fs/cgroup/memory/VeribetrfsExp/memory.limit_in_bytes").

Definition clear_page_cache : io unit :=
  _ ← system "sudo tools/setup-clear-os-page-cache-binary.sh";
  there ← exists_file "tools/clear-os-page-cache";
  if (there : bool) then system_ok "tools/clear-os-page-cache" else raise SystemExit.

Definition splice_value_into_bundle (name v : str) : io unit :=
  contents ← read_file "build/Bundle.cpp";
  lines ← lift (splice_lines name v (readlines contents));
  write_file "build/Bundle.cpp" (concat lines).

(** [Blktrace]. *)
Definition blktrace_killall : io unit := _ ← run (Call [ # "sudo"; # "killall"; # "blktrace"]); mret tt.
Definition blktrace_init : io unit := _ ← system "rm xvde.blktrace.*"; blktrace_killall.
Definition blktrace_start (dev : str) : io unit := _ ← run (Popen [ # "sudo"; # "blktrace"; dev]); mret tt.
Definition blktrace_stop : io unit := blktrace_killall.

(** ** main *)

Definition parse_step (c : config) (arg : str) : io config :=
  s ← lift (parse_arg arg);
  match s with
  | Set_output p =>
      there ← exists_file p;
      _ ← assert_ (negb there);
      _ ← write_file p [];
      mret (apply_setting s c)
  | _ => mret (apply_setting s c)
  end.
Fixpoint parse_args (args : list str) (c : config) : io config :=
  match args with
  | [] => mret c
  | arg :: args' => c ← parse_step c arg; parse_args args' c
  end.

Definition is_given {A} (o : option A) : bool := match o with Some _ => true | None => false end.

Definition check_config (c : config) : res unit :=
  _ ← py_assert (is_given (outpath c));
  _ ← py_assert (is_given (cfg_git_branch c));
  _ ← py_assert (negb (is_given (cache_size_in_bytes c)) || negb (is_given (cache_size_in_nodes c)));
  _ ← py_assert (negb (is_given (cache_size_in_bytes c)) || is_given (bucket_weight c));
  _ ← py_assert (negb (is_given (bucket_weight c)) || veri c);
  _ ← py_assert (is_given (workload c));
  _ ← py_assert (is_given (device c));
  _ ← py_assert (veri c || rocks c || berkeley c || kyoto c);
  _ ← py_assert (negb (use_unverified_row_cache c) || veri c);
  _ ← py_assert (negb (o_direct c) || veri c);
  py_assert (negb (use_filters c) || rocks c).

(** The constants to splice, the derived ones last. *)
Definition cache_nodes (c : config) : res (option Z) :=
  match cache_size_in_bytes c, bucket_weight c with
  | Some bytes, Some weight =>
      if (bytes =? 0)%Z then Ok (cache_size_in_nodes c)
      else if (weight =? 0)%Z then Raise ZeroDivisionError
      else Ok (Some (bytes / weight)%Z)
  | Some bytes, None => if (bytes =? 0)%Z then Ok (cache_size_in_nodes c) else Raise TypeError
  | None, _ => Ok (cache_size_in_nodes c)
  end.
Definition opt_update (name : string) (o : option Z) : list (str * str) :=
  match o with Some z => [(# name, dec_Z z)] | None => [] end.
Definition all_updates (c : config) (nodes : option Z) : list (str * str) :=
  value_updates c ++ opt_update "MaxTotalBucketWeightUint64" (bucket_weight c) ++
  opt_update "MaxCacheSizeUint64" nodes ++ opt_update "DiskNumJournalBlocksUint64" (log_size_in_blocks c).

Definition executable (c : config) : res str :=
  if rocks c then Ok (# "build/RocksYcsb")
  else if berkeley c then Ok (# "build/BerkeleyYcsb")
  else if kyoto c then Ok (# "build/KyotoYcsb")
  else _ ← py_assert (veri c); Ok (# "build/VeribetrfsYcsb").
Definition data_dir (c : config) : res str :=
  if bool_decide (device c = Some (# "ssd")) then Ok (# "/tmp/veribetrfs")
  else if bool_decide (device c = Some (# "disk")) then Ok (# "/mnt/xvde/scratch")
  else Raise AssertionError.
Definition location (c : config) (datadir : str) : res str :=
  if rocks c then Ok datadir
  else if berkeley c then Ok (datadir ++ "/berkeley.db")
  else if kyoto c then Ok (datadir ++ "/kyoto.cbt")
  else _ ← py_assert (veri c); Ok (datadir ++ "/veribetrkv.img").

(** An empty string is false. *)
Definition truthy (o : option str) : option str :=
  match o with Some [] => None | _ => o end.

Definition driver_options (c : config) : str :=
  (if use_filters c then # "--filters " else []) ++
  (match truthy (from_archive c) with Some _ => # "--preloaded " | None => [] end).

(** [make_options] as the builds see it: the two options added first are
    overwritten by the second assignment. *)
Definition make_options (c : config) : str :=
  let options : str := (if log_stats c then # "LOG_QUERY_STATS=1 " else []) ++
    (if use_unverified_row_cache c then # "WANT_UNVERIFIED_ROW_CACHE=true " else []) in
  let options : str := [] in
  if o_direct c then options ++ " WANT_O_DIRECT=true " else options.

Fixpoint splice_all (is_veri : bool) (updates : list (str * str)) : io unit :=
  match updates with
  | [] => mret tt
  | (name, v) :: updates' =>
      _ ← assert_ is_veri;
      _ ← splice_value_into_bundle name v;
      splice_all is_veri updates'
  end.

(** The measured job prints into the results file, which was opened when its
    name was read: from its start, unless the file is gone.  A time-out ends in
    the handler, which names an exception class that is not imported. *)
Definition run_job (out cmd : str) (budget : float) : io Z :=
  fun w => let e := job cmd (files w) budget in
           let path := abspath cwd out in
           let fs := match j_files e !! path with
                     | Some s => <[path := j_out e ++ drop (length (j_out e)) s]> (j_files e)
                     | None => j_files e
                     end in
           (World fs (trace w ++ [Job cmd]),
            match j_ret e with Some ret => Ok ret | None => Raise (NameError "TimeoutExpired") end).

(** The budget is printed as a [timedelta]: at most a thousand million days. *)
Definition print_budget (x : float) : res unit :=
  if is_nan x then Raise ValueError
  else if fltb x (float_of_Z (-86399999913600)) || negb (fltb x (float_of_Z 86400000000000)) then Raise OverflowError
  else Ok tt.

(** What is worked out before anything is run. *)
Record plan := Plan { p_updates : list (str * str); p_exe : str; p_datadir : str; p_loc : str }.
Definition make_plan (c : config) : res plan :=
  _ ← check_config c;
  _ ← print_budget (time_budget_sec c);
  nodes ← cache_nodes c;
  exe ← executable c;
  datadir ← data_dir c;
  loc ← location c datadir;
  Ok (Plan (all_updates c nodes) exe datadir loc).

Definition build (c : config) (p : plan) : io unit :=
  _ ← cgroup_defaults;
  limit ← lift (of_option (NameError "ram") (ram c));
  _ ← set_mem_limit limit;
  _ ← system_ok "rm -rf build/";
  _ ← system_ok ("./tools/clean-for-build.sh " ++ default [] (cfg_git_branch c));
  _ ← (if veri c then system_ok ("make " ++ make_options c ++ " build/Bundle.cpp > /dev/null 2> /dev/null")
       else mret tt);
  _ ← splice_all (veri c) (p_updates p);
  system_ok (make_options c ++ "make " ++ make_options c ++ " " ++ p_exe p).

Definition prepare (c : config) (p : plan) : io unit :=
  _ ← system_ok ("rm -rf " ++ p_datadir p);
  _ ← system_ok ("mkdir -p " ++ p_datadir p);
  _ ← (match truthy (from_archive c) with
       | Some archive =>
           if rocks c then system ("cp -a " ++ archive ++ "/* " ++ p_datadir p ++ "/")
           else system ("cp -a " ++ archive ++ " " ++ p_loc p)
       | None => if veri c then system ("head -c 17179869184 /dev/zero > " ++ p_loc p) else mret tt
       end);
  clear_page_cache.

Definition job_command (c : config) (p : plan) : str :=
  "taskset 4 " ++ (if cgroup_enabled c then # "cgexec -g memory:VeribetrfsExp " else []) ++
  "time ./" ++ p_exe p ++ " " ++ p_loc p ++ " " ++ driver_options c ++ " " ++
  join " " (split_char "," (default [] (workload c))).

Definition measure (c : config) (p : plan) : io unit :=
  _ ← system "iostat";
  _ ← blktrace_init;
  _ ← blktrace_start "/dev/xvde";
  ret ← run_job (default [] (outpath c)) (job_command c p) (time_budget_sec c);
  _ ← blktrace_stop;
  _ ← assert_ (ret =? 0)%Z;
  _ ← system "iostat";
  system ("blkparse -q -a issue -f" ++ ["034"%char] ++ "%S %n" ++ [nl] ++ ["034"%char] ++
          " -i xvde.blktrace.0 | bzip2 > " ++ default [] (outpath c) ++ ".trace..bz2").

Definition main (args : list str) : io unit :=
  c ← parse_args args default_config;
  p ← lift (make_plan c);
  _ ← build c p;
  _ ← prepare c p;
  measure c p.
End experiment.

(** ** Splicing *)

Section splicing.
Context (name v : str).

#[local] Abbreviation sig := (splice_signature name).
#[local] Abbreviation repl := (splice_replacement v).

(** Lines that are not the signature leave the state alone once it is idle. *)
Lemma splice_skip ls c out done :
  c <> 1 -> c <> 2 -> Forall (fun l => strip l <> sig) ls ->
  fold_left (splice_line sig repl) ls (c, out, done) = (c, out ++ ls, done).
Proof.
  intros H1 H2 H. revert out. induction H as [|l ls Hl H IH]; intros out; cbn [fold_left].
  - by rewrite app_nil_r.
  - unfold splice_line at 2. rewrite bool_decide_eq_false_2 by done.
    rewrite (proj2 (Nat.eqb_neq c 1)), (proj2 (Nat.eqb_neq c 2)) by done.
    by rewrite IH, <- app_assoc.
Qed.

(** C35. Splicing a constant: in a file with one definition of the constant the
    second line after its signature is replaced by the new value and every
    other line is kept; a file without the definition is refused and not
    written. *)
Theorem splice_replaces_body before sig_line brace body after :
  Forall (fun l => strip l <> sig) before -> strip sig_line = sig ->
  strip brace <> sig -> strip body <> sig -> Forall (fun l => strip l <> sig) after ->
  splice_lines name v (before ++ sig_line :: brace :: body :: after) =
    Ok (before ++ sig_line :: brace :: repl :: after) /\
  splice_lines name v (before ++ after) = Raise AssertionError.
Proof.
  intros Hb Hs Hbr Hbody Ha. unfold splice_lines. split.
  - rewrite fold_left_app, splice_skip by done. cbn [fold_left app].
    change (splice_line sig repl (0, before, false) sig_line) with
      (if bool_decide (strip sig_line = sig) then (1, before ++ [sig_line], false) else (0, before ++ [sig_line], false)).
    rewrite bool_decide_eq_true_2 by done.
    change (splice_line sig repl (1, before ++ [sig_line], false) brace) with
      (if bool_decide (strip brace = sig) then (1, (before ++ [sig_line]) ++ [brace], false)
       else (2, (before ++ [sig_line]) ++ [brace], false)).
    rewrite bool_decide_eq_false_2 by done.
    change (splice_line sig repl (2, (before ++ [sig_line]) ++ [brace], false) body) with
      (if bool_decide (strip body = sig) then (1, ((before ++ [sig_line]) ++ [brace]) ++ [body], false)
       else (0, ((before ++ [sig_line]) ++ [brace]) ++ [repl], true)).
    rewrite bool_decide_eq_false_2 by done.
    rewrite splice_skip by done. cbn. by rewrite <- !app_assoc.
  - rewrite splice_skip; [done|done|done|]. by apply Forall_app.
Qed.
End splicing.

(** ** The options that are lost *)

Section options.
Context (cwd : str) (shell : event -> gmap str str -> Z * gmap str str)
  (job : str -> gmap str str -> float -> job_end).

Definition with_log_stats (b : bool) (c : config) : config :=
  let '(Config ra gb wl dv ar cb cn bw ls od vu rc fi ve ro be ky _ tb cg op) := c in
  Config ra gb wl dv ar cb cn bw ls od vu rc fi ve ro be ky b tb cg op.

(** What [main] does once the arguments are parsed. *)
Definition carry_out (c : config) : io unit :=
  p ← lift (make_plan c); _ ← build cwd shell c p; _ ← prepare cwd shell c p; measure cwd shell job c p.

Lemma carry_out_log_stats b c : carry_out (with_log_stats b c) = carry_out c.
Proof. destruct c. reflexivity. Qed.

Lemma main_carry_out args w :
  main cwd shell job args w = (parse_args cwd args default_config ≫= carry_out) w.
Proof. reflexivity. Qed.

(** Configurations that differ in the flag alone parse alike. *)
Definition log_alike (c1 c2 : config) : Prop := with_log_stats false c1 = with_log_stats false c2.

Lemma log_alike_carry_out c1 c2 w : log_alike c1 c2 -> carry_out c1 w = carry_out c2 w.
Proof. intros H. by rewrite <- (carry_out_log_stats false c1), <- (carry_out_log_stats false c2), H. Qed.

Lemma apply_setting_alike s c1 c2 : log_alike c1 c2 -> log_alike (apply_setting s c1) (apply_setting s c2).
Proof.
  unfold log_alike. destruct c1, c2. intros H. injection H as -> -> -> -> -> -> -> -> -> -> -> -> -> -> -> -> -> -> -> ->.
  by destruct s.
Qed.

Lemma parse_step_alike {B} c1 c2 arg (k1 k2 : config -> io B) w :
  log_alike c1 c2 -> (forall c1 c2 w, log_alike c1 c2 -> k1 c1 w = k2 c2 w) ->
  (parse_step cwd c1 arg ≫= k1) w = (parse_step cwd c2 arg ≫= k2) w.
Proof.
  intros Hc Hk. unfold parse_step. rewrite !(script_bind_assoc (S := world)). apply (script_bind_eq (S := world)). clear w. intros s w.
  pose proof (apply_setting_alike s c1 c2 Hc) as Hs.
  destruct s; try (by apply Hk).
  rewrite !(script_bind_assoc (S := world)). apply (script_bind_eq (S := world)). clear w. intros there w.
  rewrite !(script_bind_assoc (S := world)). apply (script_bind_eq (S := world)). clear w. intros u w.
  rewrite !(script_bind_assoc (S := world)). apply (script_bind_eq (S := world)). clear w. intros u' w. by apply Hk.
Qed.

Lemma parse_args_alike args c1 c2 w :
  log_alike c1 c2 -> (parse_args cwd args c1 ≫= carry_out) w = (parse_args cwd args c2 ≫= carry_out) w.
Proof.
  revert c1 c2 w. induction args as [|arg args IH]; intros c1 c2 w Hc; cbn [parse_args].
  - by apply log_alike_carry_out.
  - rewrite !(script_bind_assoc (S := world)). by apply parse_step_alike.
Qed.

(** [log_stats] has no effect: wherever it stands on the command line, the
    run goes through the same commands, files and outcome as without it.  The
    option it asks for is overwritten before any build. *)
Theorem log_stats_ignored a b w :
  main cwd shell job (a ++ (# "log_stats") :: b) w = main cwd shell job (a ++ b) w.
Proof.
  rewrite !main_carry_out. generalize default_config as c. revert w.
  induction a as [|arg a IH]; intros w c; cbn [app parse_args].
  - rewrite (script_bind_assoc (S := world)). transitivity ((parse_args cwd b (with_log_stats true c) ≫= carry_out) w).
    + destruct c. reflexivity.
    + apply parse_args_alike. unfold log_alike. by destruct c.
  - rewrite !(script_bind_assoc (S := world)). apply (script_bind_eq (S := world)). intros c' w'. apply IH.
Qed.

(** ** The memory limit *)

Lemma apply_setting_ram s c :
  ram (apply_setting s c) = match s with Set_ram v => Some v | _ => ram c end.
Proof. destruct c, s; reflexivity. Qed.

Lemma parse_arg_ram arg v : parse_arg arg = Ok (Set_ram v) -> startswith arg "ram=" = true.
Proof.
  unfold parse_arg, after. destruct (startswith arg "ram="); [done|].
  repeat match goal with |- context [if ?b then _ else _] => destruct b end; try done;
    try (by destruct (py_int _)); try (by destruct (parse_budget _)); try (by destruct (second_field _));
    destruct (split_char "=" arg) as [|? [|? [|]]]; done.
Qed.

Lemma parse_step_Ok c arg w w1 c1 :
  parse_step cwd c arg w = (w1, Ok c1) ->
  exists s, parse_arg arg = Ok s /\ c1 = apply_setting s c /\ trace w1 = trace w.
Proof.
  unfold parse_step, lift, mbind at 1, io_bind at 1, script_bind at 1. destruct (parse_arg arg) as [s|e]; [|done].
  intros E. exists s. split; [done|].
  destruct s; try (injection E as <- <-; done).
  unfold exists_file, assert_, lift, mbind, io_bind, script_bind in E. destruct (py_assert _) as [u|e]; [|done].
  cbn in E. injection E as <- <-. done.
Qed.

Lemma parse_step_trace c arg w : trace (fst (parse_step cwd c arg w)) = trace w.
Proof.
  unfold parse_step, lift, mbind at 1, io_bind at 1, script_bind at 1. destruct (parse_arg arg) as [s|e]; [|done].
  destruct s; try done.
  unfold exists_file, assert_, lift, mbind, io_bind, script_bind. by destruct (py_assert _).
Qed.

Lemma parse_args_trace args c w : trace (fst (parse_args cwd args c w)) = trace w.
Proof.
  revert c w. induction args as [|arg args IH]; intros c w; cbn [parse_args]; [done|].
  unfold mbind, io_bind, script_bind. pose proof (parse_step_trace c arg w) as Ht.
  destruct (parse_step cwd c arg w) as [w1 [c1|e]]; [|done]. cbn in Ht. rewrite <- Ht. apply IH.
Qed.

Lemma parse_args_no_ram args c w w' c' :
  Forall (fun a => startswith a "ram=" = false) args -> ram c = None ->
  parse_args cwd args c w = (w', Ok c') -> ram c' = None.
Proof.
  intros Ha. revert c w. induction Ha as [|arg args Harg Ha IH]; intros c w Hc H; cbn [parse_args] in H.
  - injection H as <- <-. done.
  - unfold mbind, io_bind, script_bind in H. destruct (parse_step cwd c arg w) as [w1 [c1|e]] eqn:E; [|done].
    apply parse_step_Ok in E as (s & Hp & -> & _). eapply IH; [|exact H].
    rewrite apply_setting_ram. destruct s; try done. apply parse_arg_ram in Hp. congruence.
Qed.

Definition cgroup_setup : event := System "./tools/configure-cgroups.sh".

Lemma carry_out_no_ram c w :
  ram c = None -> exists e, snd (carry_out c w) = Raise e /\
    (trace (fst (carry_out c w)) = trace w \/ trace (fst (carry_out c w)) = trace w ++ [cgroup_setup]).
Proof.
  intros Hr. unfold carry_out, lift, mbind at 1, io_bind at 1, script_bind at 1.
  destruct (make_plan c) as [p|e]; [|by exists e; auto].
  unfold build, cgroup_defaults, system_ok, run, assert_, lift, mbind, io_bind, script_bind. rewrite Hr. fold cgroup_setup.
  destruct (shell cgroup_setup (files w)) as [ret fs]. cbn.
  destruct (py_assert _); cbn; eexists; split; auto.
Qed.

(** Without a [ram=] argument no experiment is run: the limit is read from
    a variable that was never assigned.  The run raises, and at most the
    cgroup set-up has been executed by then. *)
Theorem ram_is_required args w :
  Forall (fun a => startswith a "ram=" = false) args ->
  exists e, snd (main cwd shell job args w) = Raise e /\
    (trace (fst (main cwd shell job args w)) = trace w \/
     trace (fst (main cwd shell job args w)) = trace w ++ [cgroup_setup]).
Proof.
  intros Ha. rewrite main_carry_out. unfold mbind at 1 2 3, io_bind at 1 2 3, script_bind at 1 2 3.
  pose proof (parse_args_trace args default_config w) as Ht.
  destruct (parse_args cwd args default_config w) as [w1 [c|e]] eqn:E; cbn in Ht.
  - rewrite <- Ht. apply carry_out_no_ram. exact (parse_args_no_ram args default_config w w1 c Ha eq_refl E).
  - exists e. cbn. auto.
Qed.

(** ** The commands of a run *)

(** The commands a configuration calls for, in order, each with whether its exit
    code is checked. *)
Definition limit_commands (c : config) : list (event * bool) :=
  match ram c with
  | Some limit =>
      match mem_limit limit with
      | Ok v => [(System ("echo " ++ dec_Z v ++ " > /sys/fs/cgroup/memory/VeribetrfsExp/memory.limit_in_bytes"), true)]
      | Raise _ => []
      end
  | None => []
  end.
Definition build_commands (c : config) (p : plan) : list (event * bool) :=
  let options : str := if o_direct c then # " WANT_O_DIRECT=true " else [] in
  (cgroup_setup, true) :: limit_commands c ++
  (System "rm -rf build/", true) :: (System ("./tools/clean-for-build.sh " ++ default [] (cfg_git_branch c)), true) ::
  (if veri c then [(System ("make " ++ options ++ " build/Bundle.cpp > /dev/null 2> /dev/null"), true)] else []) ++
  [(System (options ++ "make " ++ options ++ " " ++ p_exe p), true)].
Definition prepare_commands (c : config) (p : plan) : list (event * bool) :=
  (System ("rm -rf " ++ p_datadir p), true) :: (System ("mkdir -p " ++ p_datadir p), true) ::
  (match truthy (from_archive c) with
   | Some archive => [(System ("cp -a " ++ archive ++ if rocks c then "/* " ++ p_datadir p ++ "/" else " " ++ p_loc p), false)]
   | None => if veri c then [(System ("head -c 17179869184 /dev/zero > " ++ p_loc p), false)] else []
   end) ++
  [(System "sudo tools/setup-clear-os-page-cache-binary.sh", false); (System "tools/clear-os-page-cache", true)].
Definition trace_kill : event := Call [ # "sudo"; # "killall"; # "blktrace"].
Definition job_commands (c : config) (p : plan) : list (event * bool) :=
  [(System "iostat", false); (System "rm xvde.blktrace.*", false); (trace_kill, false);
   (Popen [ # "sudo"; # "blktrace"; # "/dev/xvde"], false); (Job (job_command c p), true)].
Definition closing_commands (c : config) : list (event * bool) :=
  [(trace_kill, false); (System "iostat", false);
   (System ("blkparse -q -a issue -f" ++ ["034"%char] ++ "%S %n" ++ [nl] ++ ["034"%char] ++
            " -i xvde.blktrace.0 | bzip2 > " ++ default [] (outpath c) ++ ".trace..bz2"), false)].
Definition planned_commands (c : config) (p : plan) : list (event * bool) :=
  build_commands c p ++ prepare_commands c p ++ job_commands c p ++ closing_commands c.

(** A checked command that let the run go on: it returned zero or, for the job,
    ended within a budget. *)
Definition passed (x : event * bool) : Prop :=
  snd x = true -> match fst x with
                  | Job cmd => exists fs b, is_Some (j_ret (job cmd fs b))
                  | e => exists fs, fst (shell e fs) = 0%Z
                  end.

(** A computation that executes the commands [es], or stops within them at one
    that is the last. *)
Definition executes {A} (m : io A) (es : list (event * bool)) (Q : A -> Prop) : Prop :=
  forall w, match m w with
            | (w', Ok x) => trace w' = trace w ++ map fst es /\ Forall passed es /\ Q x
            | (w', Raise _) => exists done, done `prefix_of` es /\ trace w' = trace w ++ map fst done /\ Forall passed (removelast done)
            end.

Lemma executes_bind {A B} (m : io A) (k : A -> io B) es1 es2 Q R :
  executes m es1 Q -> (forall x, Q x -> executes (k x) es2 R) -> executes (m ≫= k) (es1 ++ es2) R.
Proof.
  intros Hm Hk w. specialize (Hm w). unfold mbind, io_bind, script_bind. destruct (m w) as [w1 [x|e]].
  - destruct Hm as (T1 & P1 & Hx). specialize (Hk x Hx w1). destruct (k x w1) as [w2 [y|e]].
    + destruct Hk as (T2 & P2 & Hy). rewrite T2, T1, map_app, app_assoc. split_and!; [done|by apply Forall_app|done].
    + destruct Hk as (done & Hpre & T2 & P2). exists (es1 ++ done). rewrite T2, T1, map_app, app_assoc.
      split_and!; [by apply prefix_app|done|]. destruct done as [|d done].
      * rewrite app_nil_r. destruct es1 as [|x1 l1] using rev_ind; [constructor|]. rewrite removelast_last. by apply Forall_app in P1 as [? _].
      * rewrite removelast_app by done. by apply Forall_app.
  - destruct Hm as (done & Hpre & T1 & P1). exists done. split_and!; [by apply prefix_app_r|done|done].
Qed.

Lemma executes_lift {A} (m : res A) : executes (lift m) [] (fun x => m = Ok x).
Proof. intros w. unfold lift. destruct m; [by rewrite app_nil_r; split_and!|]. exists []. by rewrite app_nil_r. Qed.

Lemma executes_ret {A} (x : A) (Q : A -> Prop) : Q x -> executes (mret x) [] Q.
Proof. intros H w. cbn. by rewrite app_nil_r; split_and!. Qed.

Lemma executes_weaken {A} (m : io A) es (Q R : A -> Prop) : executes m es Q -> (forall x, Q x -> R x) -> executes m es R.
Proof. intros Hm HQ w. specialize (Hm w). destruct (m w) as [w' [x|e]]; [|done]. naive_solver. Qed.

Lemma executes_system_ok cmd : executes (system_ok shell cmd) [(System cmd, true)] (fun _ => True).
Proof.
  intros w. unfold system_ok, run, assert_, lift, mbind, io_bind, script_bind.
  destruct (shell (System cmd) (files w)) as [ret fs] eqn:E. unfold py_assert. destruct (ret =? 0)%Z eqn:Er; cbn.
  - split_and!; [done| |done]. constructor; [|constructor]. intros _. exists (files w). rewrite E. by apply Z.eqb_eq.
  - exists [(System cmd, true)]. split_and!; [done|done|constructor].
Qed.

Lemma executes_run e : executes (run shell e) [(e, false)] (fun _ => True).
Proof.
  intros w. unfold run. destruct (shell e (files w)) as [ret fs]. cbn. split_and!; [done| |done].
  by constructor; [|constructor].
Qed.

Lemma executes_ignored e : executes (_ ← run shell e; mret tt) [(e, false)] (fun _ => True).
Proof.
  change [(e, false)] with ([(e, false)] ++ []). eapply executes_bind; [apply executes_run|]. intros x _. by apply executes_ret.
Qed.

Lemma executes_quiet {A} (m : io A) : (forall w, trace (fst (m w)) = trace w) -> executes m [] (fun _ => True).
Proof.
  intros H w. specialize (H w). destruct (m w) as [w' [x|e]]; cbn in H.
  - by rewrite app_nil_r; split_and!.
  - exists []. by rewrite app_nil_r.
Qed.

Lemma executes_splice v updates : executes (splice_all cwd v updates) [] (fun _ => True).
Proof.
  induction updates as [|[name value] updates IH]; cbn [splice_all]; [by apply executes_ret|].
  change (@nil (event * bool)) with (@nil (event * bool) ++ [] ++ []).
  eapply executes_bind; [apply executes_lift|]. intros _ _. eapply executes_bind; [|intros _ _; exact IH].
  apply executes_quiet. intros w.
  unfold splice_value_into_bundle, read_file, write_file, lift, mbind, io_bind, script_bind.
  destruct (py_open _ _ _) as [contents|e]; [|done]. by destruct (splice_lines _ _ _).
Qed.

Ltac runs_command :=
  first [apply executes_system_ok | apply executes_ignored | apply executes_run].
Ltac runs_next := eapply (executes_bind _ _ [_]); [runs_command|intros _ _].

Lemma executes_build c p : executes (build cwd shell c p) (build_commands c p) (fun _ =>
  exists limit v, ram c = Some limit /\ mem_limit limit = Ok v).
Proof.
  unfold build, build_commands. cbv zeta. runs_next.
  eapply (executes_bind _ _ []); [apply executes_lift|]. intros limit Hl.
  destruct (ram c) as [r|] eqn:Er; [injection Hl as ->|done]. unfold limit_commands. rewrite Er.
  unfold set_mem_limit. destruct (mem_limit limit) as [v|e] eqn:Ev.
  2:{ intros w. unfold lift, mbind at 1 2, io_bind at 1 2, script_bind at 1 2. exists []. cbn. by rewrite app_nil_r; split_and!; [apply prefix_nil| |constructor]. }
  eapply (executes_bind _ _ [_]).
  { eapply (executes_bind _ _ []); [apply executes_lift|]. intros x [= <-]. apply executes_system_ok. }
  intros _ _. do 2 runs_next. eapply executes_bind.
  { instantiate (1 := fun _ => True). destruct (veri c); [apply executes_system_ok|by apply executes_ret]. }
  intros _ _. eapply (executes_bind _ _ []); [apply executes_splice|]. intros _ _.
  eapply executes_weaken; [apply executes_system_ok|]. intros _ _. by exists limit, v.
Qed.

Lemma executes_prepare c p : executes (prepare cwd shell c p) (prepare_commands c p) (fun _ => True).
Proof.
  unfold prepare, prepare_commands. do 2 runs_next. eapply executes_bind.
  { instantiate (1 := fun _ => True). destruct (truthy (from_archive c)) as [archive|]; [destruct (rocks c); apply executes_ignored|].
    destruct (veri c); [apply executes_ignored|by apply executes_ret]. }
  intros _ _. unfold clear_page_cache. runs_next.
  eapply (executes_bind _ _ []); [by apply executes_quiet|]. intros there _.
  destruct there; [apply executes_system_ok|]. intros w. exists []. cbn. rewrite app_nil_r.
  split_and!; [apply prefix_nil|done|constructor].
Qed.

Lemma executes_job c p :
  executes (run_job cwd job (default [] (outpath c)) (job_command c p) (time_budget_sec c)) [(Job (job_command c p), true)]
    (fun ret => exists fs, j_ret (job (job_command c p) fs (time_budget_sec c)) = Some ret).
Proof.
  intros w. unfold run_job. destruct (j_ret (job _ (files w) _)) as [ret|] eqn:E; cbn.
  - split_and!; [done| |by eexists]. constructor; [|constructor]. intros _. exists (files w), (time_budget_sec c). exact (mk_is_Some _ _ E).
  - exists [(Job (job_command c p), true)]. split_and!; [done|done|constructor].
Qed.

Lemma executes_measure c p : executes (measure cwd shell job c p) (job_commands c p ++ closing_commands c)
  (fun _ => exists fs, j_ret (job (job_command c p) fs (time_budget_sec c)) = Some 0%Z).
Proof.
  unfold measure, blktrace_init, blktrace_start, blktrace_stop, blktrace_killall, job_commands, closing_commands.
  cbn [app]. runs_next.
  eapply (executes_bind _ _ [_; _]); [eapply (executes_bind _ _ [_]); [apply executes_ignored|intros _ _; apply executes_ignored]|].
  intros _ _. runs_next. eapply (executes_bind _ _ [_]); [apply executes_job|]. intros ret (fs & Hj). runs_next.
  eapply (executes_bind _ _ []); [apply executes_lift|]. intros _ Hr%py_assert_Ok%Z.eqb_eq. subst ret. runs_next.
  eapply executes_weaken; [apply executes_ignored|]. intros _ _. by exists fs.
Qed.

(** A job that never ends within the budget stops the run. *)
Lemma executes_measure_timeout c p :
  (forall fs, j_ret (job (job_command c p) fs (time_budget_sec c)) = None) ->
  executes (measure cwd shell job c p) (job_commands c p) (fun _ => False).
Proof.
  intros Hj. unfold measure, blktrace_init, blktrace_start, blktrace_killall, job_commands. runs_next.
  eapply (executes_bind _ _ [_; _]); [eapply (executes_bind _ _ [_]); [apply executes_ignored|intros _ _; apply executes_ignored]|].
  intros _ _. runs_next. change [(Job (job_command c p), true)] with ([(Job (job_command c p), true)] ++ []).
  eapply executes_bind; [apply executes_job|]. intros ret (fs & E). by rewrite Hj in E.
Qed.

Lemma executes_plan c p es Q :
  executes (measure cwd shell job c p) es Q ->
  executes (_ ← build cwd shell c p; _ ← prepare cwd shell c p; measure cwd shell job c p)
    (build_commands c p ++ prepare_commands c p ++ es)
    (fun x => (exists limit v, ram c = Some limit /\ mem_limit limit = Ok v) /\ Q x).
Proof.
  intros Hm. eapply executes_bind; [apply executes_build|]. intros ? Hl.
  eapply executes_bind; [apply executes_prepare|]. intros _ _. eapply executes_weaken; [exact Hm|]. auto.
Qed.

(** C39. The commands of run-veri-config-experiment.py, from its command line,
    whatever these commands do.  A run that ends normally has a memory limit and
    has executed exactly the commands of its configuration, in order: set the
    limit, clean and build (after splicing the constants), empty and fill the data
    directory, clear the page cache, start the block trace, run the job, stop the
    trace, save it.  Every command whose exit code is checked returned zero, and
    the job ended with zero within the budget.  A run that raises has executed
    nothing, or an initial part of these commands, all but the last of which had
    passed their check: nothing is run after a failure.  When the job does not end
    within its budget the run always raises, and the job is then the last command at the
    latest: nothing is killed, and the trace is neither stopped nor saved. *)
Theorem experiment_commands args w :
  match main cwd shell job args w with
  | (w', Ok _) => exists c p limit v fs,
      snd (parse_args cwd args default_config w) = Ok c /\ make_plan c = Ok p /\
      ram c = Some limit /\ mem_limit limit = Ok v /\
      trace w' = trace w ++ map fst (planned_commands c p) /\ Forall passed (planned_commands c p) /\
      j_ret (job (job_command c p) fs (time_budget_sec c)) = Some 0%Z
  | (w', Raise _) =>
      trace w' = trace w \/
      exists c p done,
        snd (parse_args cwd args default_config w) = Ok c /\ make_plan c = Ok p /\
        done `prefix_of` planned_commands c p /\ trace w' = trace w ++ map fst done /\ Forall passed (removelast done) /\
        ((forall fs, j_ret (job (job_command c p) fs (time_budget_sec c)) = None) ->
         done `prefix_of` build_commands c p ++ prepare_commands c p ++ job_commands c p)
  end.
Proof.
  rewrite main_carry_out. unfold mbind at 1, io_bind at 1, script_bind at 1.
  pose proof (parse_args_trace args default_config w) as Ht.
  destruct (parse_args cwd args default_config w) as [w1 [c|e]]; cbn [fst snd] in *; [|by left].
  unfold carry_out, lift, mbind at 1, io_bind at 1, script_bind at 1.
  destruct (make_plan c) as [p|e] eqn:Ep; [|by left].
  pose proof (executes_plan c p _ _ (executes_measure c p) w1) as H.
  pose proof (fun Hj => executes_plan c p _ _ (executes_measure_timeout c p Hj) w1) as Hto.
  destruct ((_ ← build cwd shell c p; _ ← prepare cwd shell c p; measure cwd shell job c p) w1) as [w2 [u|e]]; rewrite <- Ht.
  - destruct H as (T & P & (limit & v & Hr & Hv) & fs & Hj). exists c, p, limit, v, fs. by split_and!.
  - right. destruct H as (done & Hpre & T & P). exists c, p, done. split_and!; [done..|].
    intros Hj. destruct (Hto Hj) as (done' & Hpre' & T' & _). rewrite T in T'. apply app_inv_head in T'.
    enough (done = done') as -> by done.
    assert (Hpre2 : done' `prefix_of` planned_commands c p).
    { etransitivity; [exact Hpre'|]. unfold planned_commands. rewrite !app_assoc. by apply prefix_app_r. }
    assert (Hlen : length done = length done') by (by rewrite <- (length_map fst done), T', length_map).
    destruct (prefix_weak_total _ _ _ Hpre Hpre2) as [Hp|Hp]; [|symmetry]; apply (prefix_length_eq _ _ Hp); lia.
Qed.

End options.

(** ** Examples *)

Definition demo_bundle : list str :=
  [ "uint64 __default::MaxCacheSizeUint64()" ++ [nl]; "{" ++ [nl]; "    return (uint64)20;" ++ [nl]; "}" ++ [nl] ].

Lemma splice_replaces_body_witness :
  splice_lines "MaxCacheSizeUint64" "100" demo_bundle =
    Ok [ "uint64 __default::MaxCacheSizeUint64()" ++ [nl]; "{" ++ [nl];
         "    return (uint64)100; /*hi mom*/" ++ [nl]; "}" ++ [nl] ].
Proof.
  apply (splice_replaces_body "MaxCacheSizeUint64" "100" []
    ("uint64 __default::MaxCacheSizeUint64()" ++ [nl]) ("{" ++ [nl]) ("    return (uint64)20;" ++ [nl]) ["}" ++ [nl]]).
  - constructor.
  - vm_compute. reflexivity.
  - vm_compute. discriminate.
  - vm_compute. discriminate.
  - constructor; [vm_compute; discriminate|constructor].
Defined.

(** Every command succeeds and changes no file; the measured job succeeds. *)
Definition quiet_shell (e : event) (fs : gmap str str) : Z * gmap str str := (0%Z, fs).
Definition quiet_job (cmd : str) (fs : gmap str str) (budget : float) : job_end :=
  JobEnd (Some 0%Z) ("Throughput: 42" ++ [nl]) fs.
Definition demo_args : list str :=
  [ # "git_branch=master"; # "workload=ycsb/a.spec,ycsb/b.spec"; # "device=disk"; # "veri";
    # "cacheSizeInNodes=100"; # "time_budget=90m"; # "cgroup=True"; # "output=../out.data"].
Definition demo_world : world :=
  World (list_to_map [(# "/r/build/Bundle.cpp", concat demo_bundle); (# "/r/tools/clear-os-page-cache", [])]) [].

Lemma ram_is_required_witness :
  Forall (fun a => startswith a "ram=" = false) demo_args /\
  exists e, snd (main "/r" quiet_shell quiet_job demo_args demo_world) = Raise e.
Proof.
  assert (H : Forall (fun a => startswith a "ram=" = false) demo_args) by (repeat constructor).
  split; [exact H|].
  destruct (ram_is_required "/r" quiet_shell quiet_job demo_args demo_world H) as (e & He & _).
  exists e. exact He.
Defined.

Example demo_run :
  let '(w, r) := main "/r" quiet_shell quiet_job (demo_args ++ [ # "ram=2.0gb"]) demo_world in
  r = Ok tt /\ length (trace w) = 19 /\ files w !! (# "/out.data") = Some ("Throughput: 42" ++ [nl]) /\
  nth_error (trace w) 1 = Some (System "echo 2147483648 > /sys/fs/cgroup/memory/VeribetrfsExp/memory.limit_in_bytes") /\
  nth_error (trace w) 15 = Some (Job ("taskset 4 cgexec -g memory:VeribetrfsExp time ./build/VeribetrfsYcsb " ++
    "/mnt/xvde/scratch/veribetrkv.img  ycsb/a.spec ycsb/b.spec")).
Proof. vm_compute. split_and!; reflexivity. Qed.

(** The job runs out of its budget: what it has printed is in the results
    file, and the run ends there. *)
Definition slow_job (cmd : str) (fs : gmap str str) (budget : float) : job_end := JobEnd None (# "Thr") fs.

Lemma experiment_commands_witness :
  let '(w, r) := main "/r" quiet_shell slow_job (demo_args ++ [ # "ram=2.0gb"]) demo_world in
  r = Raise (NameError "TimeoutExpired") /\ files w !! (# "/out.data") = Some (# "Thr") /\
  exists c p done, trace w = map fst done /\ Forall (passed quiet_shell slow_job) (removelast done) /\
    done `prefix_of` build_commands c p ++ prepare_commands c p ++ job_commands c p.
Proof.
  pose proof (experiment_commands "/r" quiet_shell slow_job (demo_args ++ [ # "ram=2.0gb"]) demo_world) as H.
  destruct (main "/r" quiet_shell slow_job (demo_args ++ [ # "ram=2.0gb"]) demo_world) as [w r] eqn:E.
  assert (Hr : r = Raise (NameError "TimeoutExpired") /\ files w !! (# "/out.data") = Some (# "Thr") /\ length (trace w) = 16)
    by (vm_compute in E; injection E as <- <-; split_and!; vm_compute; reflexivity).
  destruct Hr as (-> & Hf & Hlen). split; [reflexivity|]. split; [exact Hf|].
  destruct H as [H|(c & p & done & _ & _ & _ & T & P & Hto)]; [rewrite H in Hlen; discriminate Hlen|].
  exists c, p, done. split; [exact T|]. split; [exact P|]. by apply Hto.
Defined.
