(* ===== verification/Launch.v ===== *)
(** * The launch scripts (tools/aws/launch-*.py)

    Each script builds a suite and hands one variant to each worker as an ssh
    command line.  The words the remote shell passes to the experiment runner
    are compared with the arguments the runner accepts. *)
From S2P Require Import Prelude PyStr Regex Paths PyFloat Suite Automation Experiment.

(** A script's objects and its suite. *)
Record script := Script { s_heap : heap; s_suite : res suite }.

(** [Suite(label, *own, *common)], the variables given by their declarations. *)
Definition declaration : Type := str * str * list (str * str).

(** [1 << n] and ["{}".format(z)]. *)
Definition shl1 (n : Z) : Z := Z.shiftl 1 n.

(** ** launch-btree.py *)

Definition btree_common : list declaration :=
  [ (# "ops", # "run_btree", [(# "2pows", # "ops=[1,2,3,4,5,6,7,8]")]);
    (# "seed", # "run_btree",
      [(# "seed0", # "seed=348725789"); (# "seed1", # "seed=34578699348"); (# "seed2", # "seed=23945765203");
       (# "seed3", # "seed=625478238923"); (# "seed4", # "seed=657843290874"); (# "seed5", # "seed=9526729840202")]) ].
Definition btree_script : script :=
  let '(common, h) := declare_all btree_common empty_heap in
  let '(b1, h) := declare "git_branch" "git_branch" [(# "master", # "eval-btree-master")] h in
  let '(b2, h) := declare "git_branch" "git_branch" [(# "linear", # "eval-btree-linear")] h in
  Script h (repr_suite ← Suite_init h "repr" (b1 :: common);
            linear_suite ← Suite_init h "linear" (b2 :: common);
            ConcatSuite_init h "silver-btree-millions-cc" [linear_suite; repr_suite]).

Definition MBTREE_PATH : str := "./tools/run-btree-config-experiment.py".

(** [suite.variants[idx]] and its command. *)
Definition variant_at (s : suite) (idx : nat) : res variant := nth_res (variants s) idx.

Definition btree_cmd (h : heap) (s : suite) (idx : nat) (w : worker) : res command :=
  variant ← variant_at s idx;
  branch ← git_branch h variant;
  params ← run_params h "run_btree" variant;
  Ok (Command (label_ variant)
    (ssh_cmd_for_worker w false ++
     [ # "cd"; # "veribetrfs"; # ";"; # "git"; # "clean"; # "-fd"; # "."; # ";";
       # "sh"; # "tools/clean-for-build.sh"; branch; # ";"] ++
     [ # "python3"; MBTREE_PATH] ++ ["git_branch=" ++ branch] ++ params ++ ["output=../" ++ outfile s variant])).

Definition btree_blacklist : list str :=
  [ # "veri-worker-b00"; # "veri-worker-b01"; # "veri-worker-b02"; # "veri-worker-b03"; # "veri-worker-b04";
    # "veri-worker-b05"].
Definition btree_workers (workers : list worker) : list worker :=
  List.filter (fun w => negb (bool_decide (w_Name w ∈ btree_blacklist))) workers.

(** ** launch-experiments.py *)

Definition experiments_common : list declaration :=
  [ (# "infrastructure_branch", # "infrastructure_branch", [(# "aws-tweaks", # "aws-tweaks")]);
    (# "ram", # "run_veri", [(# "2gb", # "ram=2.0gb")]);
    (# "bucketWeight", # "run_veri", [(# "bw", # "bucketWeight=2031616")]);
    (# "device", # "run_veri", [(# "disk", # "device=disk")]);
    (# "workload", # "run_veri",
      [(# "wkc", # "workload=ycsb/workloada-onefield.spec,ycsb/workloadc-onefield.spec")]);
    (# "duration", # "run_veri", [(# "90m", # "time_budget=90m")]) ].

(** ["%d" % (0.7*(1<<30) - (1<<bi)*600)]. *)
Definition row_cache_value (bi : Z) : str * str :=
  let bytes := fsub (fmul (float_of_dec 7 (-1)) (float_of_Z (shl1 30))) (float_of_Z (shl1 bi * 600)) in
  (dec_Z bi ++ "i",
   "env:ROW_CACHE_SIZE=" ++ dec_Z (shl1 bi) ++ " cacheSize=" ++
   match float_trunc bytes with Ok z => dec_Z z | Raise _ => [] end).
Definition experiments_own : list declaration :=
  [ (# "git_branch", # "run_veri", [(# "row-cache-adventure", # "git_branch=row-cache-adventure")]);
    (# "row_cache", # "run_veri", map row_cache_value [3; 12; 15; 18]%Z);
    (# "cache_size", # "run_veri", [(# "cache100nodes", # "cacheSizeInNodes=100")]);
    (# "veri", # "run_veri", [(# "veri", # "veri")]);
    (# "cgroup", # "run_veri", [(# "yescgroup", # "cgroup=True")]) ].
Definition experiments_script : script :=
  let '(common, h) := declare_all experiments_common empty_heap in
  let '(own, h) := declare_all experiments_own h in
  Script h (veri_suite ← Suite_init h "veri" (own ++ common);
            ConcatSuite_init h "row-cache-022" [veri_suite]).

Definition RUN_VERI_PATH : str := "tools/run-veri-config-experiment.py".

(** The arguments both scripts give the runner, after their set-up words. *)
Definition runner_args (h : heap) (s : suite) (v : variant) : res (list str) :=
  params ← run_veri_params h v; Ok (params ++ ["output=../" ++ outfile s v]).

Definition experiments_cmd (h : heap) (s : suite) (idx : nat) (w : worker) : res command :=
  variant ← variant_at s idx;
  branch ← infrastructure_branch h variant;
  args ← runner_args h s variant;
  Ok (Command (label_ variant)
    (ssh_cmd_for_worker w false ++
     [ # "cd"; # "veribetrfs"; # ";"; # "git"; # "fetch"; # ";"; # "git"; # "checkout"; branch; # ";";
       # "git"; # "pull"; # ";"] ++ [RUN_VERI_PATH] ++ args)).

(** ** row-cache-experiment.py *)

Definition row_cache_common : list declaration :=
  [ (# "infrastructure_branch", # "infrastructure_branch", [(# "aws-tweaks", # "aws-tweaks")]);
    (# "ram", # "run_veri", [(# "2gb", # "ram=2.0gb")]);
    (# "bucketWeight", # "run_veri", [(# "bw", # "bucketWeight=2031616")]);
    (# "device", # "run_veri", [(# "disk", # "device=disk")]);
    (# "workload", # "run_veri",
      [(# "wkc", # "workload=ycsb/workloada-onefield.spec,ycsb/workloadc-big.spec")]);
    (# "duration", # "run_veri", [(# "90m", # "time_budget=90m")]);
    (# "replica", # "silent",
      map (fun r => ("r" ++ dec_N (N.of_nat r), "r=" ++ dec_N (N.of_nat r))) (seq 0 3)) ].
Definition row_cache_own : list declaration :=
  [ (# "git_branch", # "run_veri", [(# "row-cache-adventure", # "git_branch=row-cache-adventure")]);
    (# "row_cache", # "run_veri", (# "0", # "env:ROW_CACHE_SIZE=0") ::
      map (fun bi => (dec_Z bi ++ "i", "env:ROW_CACHE_SIZE=" ++ dec_Z (shl1 bi))) [9; 14; 19]%Z);
    (# "cache_size", # "run_veri", [(# "cache100nodes", # "cacheSizeInNodes=100")]);
    (# "veri", # "run_veri", [(# "veri", # "veri")]);
    (# "cgroup", # "run_veri", [(# "yescgroup", # "cgroup=True")]) ].
Definition row_cache_script : script :=
  let '(common, h) := declare_all row_cache_common empty_heap in
  let '(own, h) := declare_all row_cache_own h in
  Script h (veri_suite ← Suite_init h "veri" (own ++ common);
            ConcatSuite_init h "row-cache-035" [veri_suite]).

(** The same words as the command of launch-experiments.py. *)
Definition row_cache_cmd (h : heap) (s : suite) (idx : nat) (w : worker) : res command :=
  variant ← variant_at s idx;
  branch ← infrastructure_branch h variant;
  args ← runner_args h s variant;
  Ok (Command (label_ variant)
    (ssh_cmd_for_worker w false ++
     [ # "cd"; # "veribetrfs"; # ";"; # "git"; # "fetch"; # ";"; # "git"; # "checkout"; branch; # ";";
       # "git"; # "pull"; # ";"] ++ [RUN_VERI_PATH] ++ args)).

(** ** launch-ycsb-benchmarks.py *)

Definition replica_count : nat := 6.
Definition ycsb_workload : str :=
  "workload=" ++ join "," [ # "ycsb/workloada-onefield.spec"; # "ycsb/workloadc-uniform.spec";
    # "ycsb/workloada-onefield.spec"; # "ycsb/workloadb-onefield.spec"; # "ycsb/workloadc-onefield.spec";
    # "ycsb/workloadd-onefield.spec"; # "ycsb/workloadf-onefield.spec"].
Definition ycsb_common : list declaration :=
  [ (# "cgroup", # "run_veri", [(# "yescgroup", # "cgroup=True")]);
    (# "ram", # "run_veri", [(# "2gb", # "ram=2.0gb")]);
    (# "device", # "run_veri", [(# "disk", # "device=disk")]);
    (# "workload", # "run_veri", [(# "all", ycsb_workload)]);
    (# "replica", # "silent",
      map (fun r => ("r" ++ dec_N (N.of_nat r), "r=" ++ dec_N (N.of_nat r))) (seq 0 replica_count)) ].
Definition ycsb_veri : list declaration :=
  [ (# "git_branch", # "git_branch", [(# "master", # "master"); (# "linear", # "linear-disintegration")]);
    (# "system", # "run_veri", [(# "veri", # "veri")]);
    (# "rowcache", # "run_veri", [(# "norowcache", [])]);
    (# "cachesize", # "run_veri", [(# "cachesize200m", "cacheSize=" ++ dec_Z (200 * 1024 * 1024))]);
    (# "bucketweight", # "run_veri",
      map (fun p => ("bucketweight2pow" ++ dec_Z p, "bucketWeight=" ++ dec_Z (2 ^ p * 1024))) [7]%Z) ].
Definition ycsb_others : list declaration := [(# "git_branch", # "git_branch", [(# "master", # "master")])].
Definition ycsb_rocks : list declaration :=
  [ (# "system", # "run_veri", [(# "rocks", # "rocks")]);
    (# "filters", # "run_veri", [(# "nofilters", []); (# "yesfilters", # "use_filters")]) ].
Definition ycsb_berkeley : list declaration := [(# "system", # "run_veri", [(# "berkeley", # "berkeley")])].
Definition ycsb_kyoto : list declaration := [(# "system", # "run_veri", [(# "kyoto", # "kyoto")])].

Definition ycsb_script : script :=
  let '(common, h) := declare_all ycsb_common empty_heap in
  let '(veri_vars, h) := declare_all ycsb_veri h in
  let '(other_vars, h) := declare_all ycsb_others h in
  let '(rocks_vars, h) := declare_all ycsb_rocks h in
  let '(berkeley_vars, h) := declare_all ycsb_berkeley h in
  let '(kyoto_vars, h) := declare_all ycsb_kyoto h in
  let others := common ++ other_vars in
  Script h (veri_suite ← Suite_init h "veribetrkv" (veri_vars ++ common);
            rocks_suite ← Suite_init h "rocksdb" (rocks_vars ++ others);
            berkeley_suite ← Suite_init h "berkeleydb" (berkeley_vars ++ others);
            kyoto_suite ← Suite_init h "berkeleydb" (kyoto_vars ++ others);
            ConcatSuite_init h "golden-ssd-veri-bucketweight" [veri_suite]).

Definition ycsb_cmd (h : heap) (s : suite) (idx : nat) (w : worker) : res command :=
  variant ← variant_at s idx;
  branch ← git_branch h variant;
  args ← runner_args h s variant;
  Ok (Command (label_ variant)
    (ssh_cmd_for_worker w false ++
     [ # "cd"; # "veribetrfs"; # ";"; # "sh"; # "tools/clean-for-build.sh"; branch; # ";"] ++
     [RUN_VERI_PATH] ++ args)).

(** ** What the runner is given

    ssh joins its words with spaces and the remote shell splits the line
    again: empty words vanish and words with spaces come apart. *)
Definition remote_words (words : list str) : list str := fields (join " " words).

(** ** The commands that are refused *)

Section refused.
Context (cwd : str) (shell : event -> gmap str str -> Z * gmap str str)
  (job : str -> gmap str str -> float -> job_end).

(** An argument that opens no file. *)
Definition opens_no_file (s : setting) : bool := match s with Set_output _ => false | _ => true end.
Definition accepted (arg : str) : bool :=
  match parse_arg arg with Ok s => opens_no_file s | Raise _ => false end.

(** The first unrecognised argument stops the run before anything is done. *)
Lemma main_refuses good bad rest w :
  forallb accepted good = true -> parse_arg bad = Raise AssertionError ->
  main cwd shell job (good ++ bad :: rest) w = (w, Raise AssertionError).
Proof.
  intros Hg Hb. rewrite main_carry_out. generalize default_config as c.
  induction good as [|a good IH]; intros c; cbn [app parse_args].
  - rewrite (script_bind_assoc (S := world)). unfold parse_step, lift, mbind, io_bind, script_bind. by rewrite Hb.
  - cbn [forallb] in Hg. apply andb_true_iff in Hg as [Ha Hg]. unfold accepted in Ha.
    destruct (parse_arg a) as [s|e] eqn:Hp; [|done].
    assert (Hstep : parse_step cwd c a w = (w, Ok (apply_setting s c))).
    { unfold parse_step, lift, mbind, io_bind, script_bind. rewrite Hp. by destruct s. }
    rewrite (script_bind_assoc (S := world)). unfold mbind at 1, script_bind at 1. rewrite Hstep. by apply IH.
Qed.

(** Whether a list of arguments meets an unrecognised one first. *)
Fixpoint refused (args : list str) : bool :=
  match args with
  | [] => false
  | a :: args' =>
      if accepted a then refused args'
      else match parse_arg a with Raise AssertionError => true | _ => false end
  end.

Lemma refused_main args w : refused args = true -> main cwd shell job args w = (w, Raise AssertionError).
Proof.
  intros H. assert (exists good bad rest, args = good ++ bad :: rest /\ forallb accepted good = true /\
    parse_arg bad = Raise AssertionError) as (good & bad & rest & -> & Hg & Hb).
  { induction args as [|a args IH]; [done|]. cbn [refused] in H. destruct (accepted a) eqn:Ha.
    - destruct (IH H) as (good & bad & rest & -> & Hg & Hb). exists (a :: good), bad, rest.
      split; [done|]. cbn [forallb]. by rewrite Ha, Hg.
    - exists [], a, args. split; [done|]. split; [done|]. by destruct (parse_arg a) as [|[]]. }
  by apply main_refuses.
Qed.

(** The arguments of all variants of a script, as the runner gets them. *)
Definition all_runner_args (s : script) : res (list (list str)) :=
  su ← s_suite s;
  map_res (fun v => args ← runner_args (s_heap s) su v; Ok (remote_words args)) (variants su).

Lemma all_refused s argss args w :
  all_runner_args s = Ok argss -> forallb refused argss = true -> args ∈ argss ->
  main cwd shell job args w = (w, Raise AssertionError).
Proof.
  intros _ Hall Hin. apply refused_main.
  apply (proj1 (forallb_forall _ _) Hall). by apply list_elem_of_In.
Qed.

Lemma ycsb_args : exists argss, all_runner_args ycsb_script = Ok argss /\ length argss = 12 /\ forallb refused argss = true.
Proof. eexists. split; [vm_compute; reflexivity|]. split; vm_compute; reflexivity. Qed.
Lemma row_cache_args : exists argss, all_runner_args row_cache_script = Ok argss /\ length argss = 12 /\ forallb refused argss = true.
Proof. eexists. split; [vm_compute; reflexivity|]. split; vm_compute; reflexivity. Qed.
Lemma experiments_args :
  exists argss, all_runner_args experiments_script = Ok argss /\ length argss = 4 /\ forallb refused argss = true.
Proof. eexists. split; [vm_compute; reflexivity|]. split; vm_compute; reflexivity. Qed.

(** C40. Three of the launchers and the runner disagree: for every variant of
    the YCSB and of both row-cache suites, the runner refuses the command line it is
    sent ([cacheSize=] and [env:] are not arguments it knows) before it has run
    any command or written any file. *)
Theorem launched_runs_are_refused s :
  s = ycsb_script \/ s = experiments_script \/ s = row_cache_script ->
  exists argss, all_runner_args s = Ok argss /\ argss <> [] /\
    forall args w, args ∈ argss -> main cwd shell job args w = (w, Raise AssertionError).
Proof.
  intros Hs. assert (exists argss, all_runner_args s = Ok argss /\ argss <> [] /\ forallb refused argss = true)
    as (argss & Hargs & Hne & Hall).
  { destruct Hs as [-> | [-> | ->]];
      [destruct ycsb_args as (a & H1 & H2 & H3) | destruct experiments_args as (a & H1 & H2 & H3)
      | destruct row_cache_args as (a & H1 & H2 & H3)];
      exists a; (split; [exact H1|]); (split; [intros E; rewrite E in H2; discriminate H2|exact H3]). }
  exists argss. split; [exact Hargs|]. split; [exact Hne|]. intros args w. exact (all_refused s argss args w Hargs Hall).
Qed.
End refused.

Lemma launched_runs_are_refused_witness :
  exists argss, all_runner_args ycsb_script = Ok argss /\ argss <> [] /\
    forall args w, args ∈ argss -> main "/r" quiet_shell quiet_job args w = (w, Raise AssertionError).
Proof.
  exact (launched_runs_are_refused "/r" quiet_shell quiet_job ycsb_script (or_introl eq_refl)).
Defined.

(** ** Results files *)

Definition outfiles_of (s : script) : res (list str) :=
  su ← s_suite s; Ok (map (outfile su) (variants su)).

(** The commands of all tasks of a script, on one worker. *)
Definition all_commands (cmd : heap -> suite -> nat -> worker -> res command) (s : script) (w : worker)
    : res (list command) :=
  su ← s_suite s; map_res (fun idx => cmd (s_heap s) su idx w) (seq 0 (length (variants su))).

Lemma commands_count cmd s w n :
  match all_commands cmd s w with Ok cs => length cs | Raise _ => 0 end = S n ->
  exists cs, all_commands cmd s w = Ok cs /\ length cs = S n.
Proof. destruct (all_commands cmd s w) as [cs|e]; [|done]. intros H. by exists cs. Qed.

(** Within each script no two variants write to the same results file, and
    every variant has a command line for every worker. *)
Theorem launch_outputs_distinct :
  Forall (fun s => exists fs, outfiles_of s = Ok fs /\ NoDup fs)
    [btree_script; experiments_script; row_cache_script; ycsb_script] /\
  forall w,
    (exists cs, all_commands btree_cmd btree_script w = Ok cs /\ length cs = 12) /\
    (exists cs, all_commands experiments_cmd experiments_script w = Ok cs /\ length cs = 4) /\
    (exists cs, all_commands row_cache_cmd row_cache_script w = Ok cs /\ length cs = 12) /\
    (exists cs, all_commands ycsb_cmd ycsb_script w = Ok cs /\ length cs = 12).
Proof.
  split.
  - repeat apply Forall_cons_2; try apply Forall_nil_2; eexists; (split; [vm_compute; reflexivity|]);
      apply (bool_decide_unpack _); vm_compute; exact I.
  - intros w. split_and!; apply commands_count; vm_compute; reflexivity.
Qed.
