(* ===== verification/VerifTime.v ===== *)
(** * Measuring verification time (tools/aws/verification-time-experiment.py)

    One task per source file, replica and branch: the sources are the
    dependencies of the root, and the name of a results file is built from the
    source's path with every character that is not a letter, a digit or a dash
    replaced. *)
From S2P Require Import Prelude PyStr Regex Paths Deps Suite Automation Launch.

Definition ROOT : str := "Impl/Bundle.i.dfy".
Definition SUITE_NAME : str := "veri_time_september_02".
Definition N_REPLICAS : nat := 5.

(** [[^A-Za-z0-9-]]. *)
Definition kept_char (c : ascii) : bool :=
  (is_word c && negb (bool_decide (c = "_"%char))) || bool_decide (c = "-"%char).
Definition clean_path (path : str) : str := sub (Cls (fun c => negb (kept_char c))) "_" path.

Section experiment.
Context (cwd ROOT_PATH : str) (fs : gmap str str) {SO : SetOrder}.

(** [listSources]: label and parameter of a value per path. *)
Definition listSources : res (list (str * str)) :=
  sources ← depsFromDfySources cwd ROOT_PATH fs [ROOT];
  let paths := remove_dups (map normPath sources) in
  Ok (map (fun path => (clean_path path, path)) (set_order paths)).

Definition vertime_decls (sources : list (str * str)) (nReplicas : nat) : list declaration :=
  [ (# "source", # "source", rev sources);
    (# "replica", # "silent",
      map (fun i => ("r" ++ dec_N (N.of_nat i), "r" ++ dec_N (N.of_nat i))) (seq 0 nReplicas));
    (# "git_branch", # "git_branch",
      [(# "dynamic-frames", # "osdi20-artifact-dynamic-frames-vertime");
       (# "linear", # "osdi20-artifact-linear-vertime")]) ].

Definition constructSuite (nReplicas : nat) : res script :=
  sources ← listSources;
  let '(vars, h) := declare_all (vertime_decls sources nReplicas) empty_heap in
  Ok (Script h (Suite_init h SUITE_NAME vars)).

(** The command of a task: its output starts with the worker's name and goes on
    with Dafny's. *)
Definition vertime_cmd (h : heap) (s : suite) (idx : nat) (w : worker) : res command :=
  variant ← variant_at s idx;
  v ← value_by_name h variant "source";
  o ← value_at h v;
  let output_path := "../" ++ outfile s variant in
  branch ← git_branch h variant;
  Ok (Command (label_ variant)
    (ssh_cmd_for_worker w false ++
     [ # "cd"; # "veribetrfs"; # ";"; # "sh"; # "tools/clean-for-build.sh"; branch; # ";";
       # "echo"; # "WORKER"; w_Name w; # ">"; output_path; # ";";
       # "tools/local-dafny.sh"; v_param o; # "/compile:0"; # "/trace"; # ">>"; output_path])).
End experiment.

(** ** Names of results files *)

(** The substitution works character by character. *)
Lemma clean_path_chars path :
  clean_path path = map (fun c => if kept_char c then c else "_"%char) path.
Proof.
  unfold clean_path, sub. generalize (@nil ascii) as before. induction path as [|c path IH]; intros before; [done|].
  cbn [sub_from map]. unfold match_at. rewrite run_Cls.
  destruct (kept_char c); cbn [negb]; [by rewrite <- (IH (c :: before))|].
  cbn [m_text]. change (c :: path) with ([c] ++ path) at 1. rewrite text_between_app. cbn [length pred app].
  by rewrite <- (IH (c :: before)).
Qed.

Definition branches : list str := [ # "dynamic-frames"; # "linear"].
Definition replicas (n : nat) : list str := map (fun i => "r" ++ dec_N (N.of_nat i)) (seq 0 n).

(** The files of one source, after the part its label contributes. *)
Definition source_files (n : nat) (part : list str) : list str :=
  flat_map (fun r => map (fun b => "expresults/" ++ SUITE_NAME ++ "-" ++ join "-" (part ++ [r; b]) ++ ".data") branches)
    (replicas n).

Lemma dec_N_inj a b : dec_N a = dec_N b -> a = b.
Proof. intros H. pose proof (dec_N_value a) as Ha. rewrite H, dec_N_value in Ha. by apply N2Z.inj. Qed.

Lemma replica_no_dash n r : r ∈ replicas n -> "-"%char ∉ r.
Proof.
  intros (i & -> & _)%list_elem_of_fmap H. cbn in H. apply elem_of_cons in H as [H|H]; [done|].
  destruct (dec_N_digits (N.of_nat i)) as [Hd _]. rewrite Forall_forall in Hd. by apply Hd in H.
Qed.

Lemma NoDup_replicas n : NoDup (replicas n).
Proof.
  apply NoDup_fmap_2; [|apply NoDup_seq]. intros i j H. cbn in H. injection H as H.
  apply dec_N_inj in H. lia.
Qed.

(** Everything before the last [-] of a dash-free end is determined. *)
Lemma dash_cancel (a b r s : str) :
  "-"%char ∉ r -> "-"%char ∉ s -> a ++ "-"%char :: r = b ++ "-"%char :: s -> a = b /\ r = s.
Proof.
  revert b. induction a as [|x a IH]; intros [|y b] Hr Hs H; cbn in H; simplify_eq; try done.
  - destruct Hr. apply elem_of_app. right. apply list_elem_of_here.
  - destruct Hs. apply elem_of_app. right. apply list_elem_of_here.
  - destruct (IH b Hr Hs) as [-> ->]; done.
Qed.

(** Two results files are the same only for the same source part, replica and
    branch. *)
Lemma source_file_inj n p1 p2 r1 r2 b1 b2 :
  r1 ∈ replicas n -> r2 ∈ replicas n -> b1 ∈ branches -> b2 ∈ branches ->
  join "-" (p1 ++ [r1; b1]) = join "-" (p2 ++ [r2; b2]) -> length p1 = length p2 -> length p1 <= 1 ->
  p1 = p2 /\ r1 = r2 /\ b1 = b2.
Proof.
  intros Hr1 Hr2 Hb1 Hb2 H Hl Hle.
  pose proof (replica_no_dash _ _ Hr1) as Hd1. pose proof (replica_no_dash _ _ Hr2) as Hd2.
  assert (Hrb : forall p r b, length p <= 1 -> join "-" (p ++ [r; b]) = (match p with [l] => l ++ "-"%char :: r | _ => r end) ++ "-"%char :: b).
  { intros [|l [|]] r b Hp; cbn in Hp; [done| |lia]. cbn. by rewrite <- app_assoc. }
  rewrite !Hrb in H by lia. clear Hrb.
  assert (Hb : b1 = b2).
  { assert (Hlast := f_equal (@rev ascii) H). rewrite !rev_app_distr in Hlast.
    unfold branches in Hb1, Hb2. repeat rewrite elem_of_cons in Hb1. repeat rewrite elem_of_cons in Hb2.
    destruct Hb1 as [->|[->|[]%not_elem_of_nil]], Hb2 as [->|[->|[]%not_elem_of_nil]]; try done; discriminate Hlast. }
  subst b2. apply app_inv_tail in H. split; [|split; [|done]].
  - destruct p1 as [|l1 [|]], p2 as [|l2 [|]]; cbn in *; try done; try lia.
    destruct (dash_cancel l1 l2 r1 r2) as [-> _]; done.
  - destruct p1 as [|l1 [|]], p2 as [|l2 [|]]; cbn in *; try done; try lia.
    by destruct (dash_cancel l1 l2 r1 r2).
Qed.

Lemma NoDup_flat_map_inv {A B} (g : A -> list B) l :
  (forall x, x ∈ l -> g x <> []) -> NoDup (flat_map g l) -> NoDup l.
Proof.
  induction l as [|x l IH]; intros Hg H; [constructor|]. cbn in H. apply NoDup_app in H as (_ & Hd & H).
  constructor; [|apply IH; [|done]; intros y Hy; apply Hg; by apply list_elem_of_further].
  intros Hx. specialize (Hg x (list_elem_of_here x l)). destruct (g x) as [|y ys] eqn:E; [done|].
  apply (Hd y); [apply list_elem_of_here|]. apply list_elem_of_In, in_flat_map. exists x.
  split; [by apply list_elem_of_In|]. rewrite E. by left.
Qed.

Lemma elem_of_source_files n p y :
  y ∈ source_files n p <-> exists r b, r ∈ replicas n /\ b ∈ branches /\
    y = "expresults/" ++ SUITE_NAME ++ "-" ++ join "-" (p ++ [r; b]) ++ ".data".
Proof.
  unfold source_files. rewrite list_elem_of_In, in_flat_map. split.
  - intros (r & Hr & (b & <- & Hb)%in_map_iff). exists r, b. by rewrite !list_elem_of_In.
  - intros (r & b & Hr & Hb & ->). exists r. rewrite <- list_elem_of_In. split; [done|].
    apply in_map_iff. exists b. by rewrite <- list_elem_of_In.
Qed.

(** The text of a file name determines the joined parts. *)
Lemma file_name_inj (x y : str) :
  "expresults/" ++ SUITE_NAME ++ "-" ++ x ++ ".data" = "expresults/" ++ SUITE_NAME ++ "-" ++ y ++ ".data" -> x = y.
Proof. intros H. do 3 apply app_inv_head in H. by apply app_inv_tail in H. Qed.

Lemma source_files_disjoint n p1 p2 y :
  length p1 = length p2 -> length p1 <= 1 -> y ∈ source_files n p1 -> y ∈ source_files n p2 -> p1 = p2.
Proof.
  intros Hl Hle (r1 & b1 & Hr1 & Hb1 & ->)%elem_of_source_files (r2 & b2 & Hr2 & Hb2 & H)%elem_of_source_files.
  apply file_name_inj in H. by destruct (source_file_inj n p1 p2 r1 r2 b1 b2).
Qed.

Lemma NoDup_source_files n p : length p <= 1 -> NoDup (source_files n p).
Proof.
  intros Hp. unfold source_files. apply NoDup_flat_map; [| |apply NoDup_replicas].
  - intros r1 r2 y Hr1 Hr2 (b1 & -> & Hb1)%list_elem_of_fmap (b2 & H & Hb2)%list_elem_of_fmap.
    apply file_name_inj in H. by destruct (source_file_inj n p p r1 r2 b1 b2) as (_ & ? & _).
  - intros r Hr. apply NoDup_fmap_2_strong; [|apply (bool_decide_unpack _); vm_compute; exact I].
    intros b1 b2 Hb1 Hb2 H%file_name_inj. by destruct (source_file_inj n p p r r b1 b2) as (_ & _ & ?).
Qed.

(** The part of a file name a source contributes, when there are several. *)
Definition source_part (ls : list str) (l : str) : list str :=
  if 1 <? length (remove_dups ls) then [l] else [].

Lemma NoDup_results n ls :
  0 < n -> NoDup (flat_map (fun l => source_files n (source_part ls l)) ls) <-> NoDup ls.
Proof.
  intros Hn. assert (Hle : forall l, length (source_part ls l) <= 1) by (intros l; unfold source_part; by case_match; cbn; lia).
  split.
  - apply NoDup_flat_map_inv. intros l _. unfold source_files, replicas. destruct n; [lia|done].
  - intros H. apply NoDup_flat_map; [|intros l _; by apply NoDup_source_files|done].
    intros l1 l2 y H1 H2 Hy1 Hy2.
    assert (Hp : source_part ls l1 = source_part ls l2).
    { eapply source_files_disjoint; [|apply Hle|exact Hy1|exact Hy2]. unfold source_part. by case_match. }
    unfold source_part in Hp. rewrite remove_dups_id in Hp by done.
    destruct ls as [|a [|b ls]]; [by apply not_elem_of_nil in H1| |by injection Hp].
    apply list_elem_of_singleton in H1, H2. congruence.
Qed.

Lemma length_source_files n part : length (source_files n part) = n * 2.
Proof.
  unfold source_files. rewrite <- (length_seq n 0) at 2. unfold replicas. rewrite flat_map_map.
  induction (seq 0 n) as [|i l IH]; [done|]. cbn [flat_map]. rewrite length_app, length_map, IH. done.
Qed.

Lemma length_results n (part : str -> list str) ls :
  length (flat_map (fun l => source_files n (part l)) ls) = length ls * (n * 2).
Proof.
  induction ls as [|l ls IH]; [done|]. cbn [flat_map]. rewrite length_app, length_source_files, IH. cbn. lia.
Qed.

Section results.
Context (cwd ROOT_PATH : str) (fs : gmap str str) {SO : SetOrder}.

Lemma listSources_labels sources :
  listSources cwd ROOT_PATH fs = Ok sources ->
  NoDup (map snd sources) /\ map fst sources = map (fun x => clean_path (snd x)) sources.
Proof.
  unfold listSources. intros H. res_inv. rewrite !map_map. cbn. rewrite map_id. split; [|done].
  rewrite set_order_law. apply NoDup_remove_dups.
Qed.

(** The results files, from the labels of the sources. *)
Lemma constructSuite_files n sources :
  2 <= n -> listSources cwd ROOT_PATH fs = Ok sources ->
  exists h s, constructSuite cwd ROOT_PATH fs n = Ok (Script h (Ok s)) /\
    let ls := map fst (rev sources) in
    map (outfile s) (variants s) = flat_map (fun l => source_files n (source_part ls l)) ls.
Proof.
  intros Hn Hs. unfold constructSuite. rewrite Hs, bind_of_Ok.
  destruct (declare_all (vertime_decls sources n) empty_heap) as [vars h] eqn:E.
  destruct (declare_all_spec _ _ _ _ E empty_heap_ok) as (_ & _ & Hd).
  destruct (declared_suite h vars (vertime_decls sources n) SUITE_NAME Hd) as (s & Hi & Hl & Hlab).
  { apply (bool_decide_unpack _). vm_compute. exact I. }
  { intros ->. inversion Hd. }
  exists h, s. rewrite Hi. split; [done|]. set (ls := map fst (rev sources)).
  assert (Hout : map (outfile s) (variants s) =
    map (fun l => "expresults/" ++ SUITE_NAME ++ "-" ++ l ++ ".data") (map label_ (variants s))).
  { rewrite map_map. unfold outfile. by rewrite Hl. }
  rewrite Hout, Hlab. unfold vertime_decls. cbn [map].
  assert (Hr : decl_parts (# "replica", # "silent", map (fun i => ("r" ++ dec_N (N.of_nat i), "r" ++ dec_N (N.of_nat i))) (seq 0 n))
    = map (fun r => [r]) (replicas n)).
  { unfold decl_parts. cbn [snd].
    assert (map fst (map (fun i => ("r" ++ dec_N (N.of_nat i), "r" ++ dec_N (N.of_nat i))) (seq 0 n)) = replicas n) as ->
      by (by rewrite map_map).
    rewrite remove_dups_id by apply NoDup_replicas. unfold replicas at 1. rewrite length_map, length_seq.
    by rewrite (proj2 (Nat.ltb_lt 1 n)). }
  rewrite Hr. set (bp := decl_parts (# "git_branch", _, _)). assert (Hb : bp = map (fun b => [b]) branches) by (vm_compute; reflexivity).
  rewrite Hb. clear. unfold decl_parts. cbn [snd]. fold ls. cbn [lprod].
  rewrite map_map, flat_map_map, map_flat_map. apply flat_map_ext. intros l. fold (source_part ls l).
  unfold source_files. rewrite flat_map_map, !map_map, map_flat_map. apply flat_map_ext. intros r.
  rewrite map_map, flat_map_map, map_flat_map. unfold branches. cbn [flat_map map app concat].
  reflexivity.
Qed.

(** The results of an experiment: it is built whenever the sources can be
    listed, the sources are distinct paths, there is a task for each source,
    replica and branch, and no two tasks share a results file exactly when the
    cleaned names of the sources are distinct. *)
Theorem vertime_results n sources :
  2 <= n -> listSources cwd ROOT_PATH fs = Ok sources ->
  NoDup (map snd sources) /\
  exists h s, constructSuite cwd ROOT_PATH fs n = Ok (Script h (Ok s)) /\
    length (variants s) = length sources * (n * 2) /\
    (NoDup (map (outfile s) (variants s)) <-> NoDup (map (fun x => clean_path (snd x)) sources)).
Proof.
  intros Hn Hs. destruct (listSources_labels _ Hs) as [Hnd Hl]. split; [done|].
  destruct (constructSuite_files n sources Hn Hs) as (h & s & Hc & Hf). cbv zeta in Hf.
  exists h, s. split; [done|]. rewrite <- Hl. split.
  - rewrite <- (length_map (outfile s)), Hf, length_results, length_map, length_rev. done.
  - rewrite Hf, NoDup_results by lia. by rewrite map_rev, <- Permutation_rev.
Qed.
End results.

(** Two sources whose cleaned names agree. *)
Definition clash_fs : gmap str str := list_to_map
  [ (# "/r/Impl/Bundle.i.dfy", "include " ++ ["034"%char] ++ "A_B.i.dfy" ++ ["034"%char; nl] ++
      "include " ++ ["034"%char] ++ "A/B.i.dfy" ++ ["034"%char; nl]);
    (# "/r/Impl/A_B.i.dfy", []); (# "/r/Impl/A/B.i.dfy", []) ].

Lemma vertime_results_witness :
  exists h s, constructSuite (SO := insertion_order) "/r" "/r" clash_fs N_REPLICAS = Ok (Script h (Ok s)) /\
    length (variants s) = 30 /\ ~ NoDup (map (outfile s) (variants s)).
Proof.
  destruct (listSources (SO := insertion_order) "/r" "/r" clash_fs) as [sources|] eqn:E.
  2: { apply (f_equal is_Ok) in E. vm_compute in E. discriminate E. }
  destruct (vertime_results (SO := insertion_order) "/r" "/r" clash_fs N_REPLICAS sources ltac:(unfold N_REPLICAS; lia) E)
    as (_ & h & s & H1 & H2 & H3).
  exists h, s. split; [exact H1|].
  assert (Hl : length sources = 3).
  { apply (f_equal (fun r => match r with Ok l => length l | _ => 0 end)) in E. rewrite <- E. vm_compute. reflexivity. }
  assert (Hd : bool_decide (NoDup (map (fun x => clean_path (snd x)) sources)) = false).
  { apply (f_equal (fun r => match r with Ok l => bool_decide (NoDup (map (fun x => clean_path (snd x)) l)) | _ => true end)) in E.
    rewrite <- E. vm_compute. reflexivity. }
  split; [rewrite H2, Hl; reflexivity|]. rewrite H3. by apply bool_decide_eq_false in Hd.
Defined.
