(* ===== verification/Trace.v ===== *)
(** * Traces of a run and reading them (tools/plot/parser.py, PlotHelper.py)

    A trace maps operation counts to samples and is read at any count, between
    samples by interpolation.  The sorted list of its keys is cached on the
    first read, so every read returns the trace it leaves behind.  The second
    half holds the functions of PlotHelper.py that turn traces into the points
    of a curve; drawing itself is matplotlib's. *)
From S2P Require Import Prelude PyStr PyFloat.
From Stdlib Require Import ZArith.

(** ** Python numbers *)

Inductive num := NInt (z : Z) | NFloat (x : float).

(** [float(z)]. *)
Definition int_to_float (z : Z) : res float :=
  match float_of_Z z with S754_infinity _ => Raise OverflowError | x => Ok x end.
Definition to_float (v : num) : res float :=
  match v with NInt z => int_to_float z | NFloat x => Ok x end.

Definition num_op (iop : Z -> Z -> Z) (fop : float -> float -> float) (a b : num) : res num :=
  match a, b with
  | NInt x, NInt y => Ok (NInt (iop x y))
  | _, _ => x ← to_float a; y ← to_float b; Ok (NFloat (fop x y))
  end.
Definition num_add : num -> num -> res num := num_op Z.add fadd.
Definition num_sub : num -> num -> res num := num_op Z.sub fsub.
Definition num_mul : num -> num -> res num := num_op Z.mul fmul.

(** [v / x] for a float [x]. *)
Definition num_div (v : num) (x : float) : res float := a ← to_float v; fdiv a x.

(** The exact value of a finite number, as a numerator over a power of two. *)
Definition dyadic (v : num) : option (Z * Z) :=
  match v with
  | NInt z => Some (z, 1)
  | NFloat (S754_zero _) => Some (0, 1)
  | NFloat (S754_finite s m e) =>
      let n := if s then Zneg m else Zpos m in
      Some (if 0 <=? e then n * 2 ^ e else n, if 0 <=? e then 1 else 2 ^ (- e))
  | NFloat _ => None
  end%Z.

(** [v < z] and [z < v] for an integer [z]; comparison is exact. *)
Definition num_ltb (v : num) (z : Z) : bool :=
  match dyadic v, v with
  | Some (n, d), _ => (n <? z * d)%Z
  | None, NFloat (S754_infinity s) => s
  | None, _ => false
  end.
Definition num_gtb (v : num) (z : Z) : bool :=
  match dyadic v, v with
  | Some (n, d), _ => (z * d <? n)%Z
  | None, NFloat (S754_infinity s) => negb s
  | None, _ => false
  end.

(** The dictionary key a number is equal to, and hashes like. *)
Definition num_key (v : num) : option Z :=
  '(n, d) ← dyadic v; if (n mod d =? 0)%Z then Some (n / d)%Z else None.

(** [v == 0]. *)
Definition num_is_zero (v : num) : bool := bool_decide (num_key v = Some 0%Z).

(** ** BaseTrace *)

Record trace (V : Type) := Trace {
  label : str; units : str;
  data : gmap Z V;                   (* self.data *)
  cache : option (list Z)            (* self._sortedKeys *)
}.
Arguments Trace {_} _ _ _ _.
Arguments label {_} _.
Arguments units {_} _.
Arguments data {_} _.
Arguments cache {_} _.

Section base.
Context {V : Type}.
Implicit Types t : trace V.

Definition new_trace (l u : str) : trace V := Trace l u ∅ None.
Definition trace_len t : nat := size (data t).
Definition trace_empty t : bool := bool_decide (trace_len t = 0).

(** [keys = list(self.data.keys()); keys.sort()]. *)
Definition keys_of (d : gmap Z V) : list Z := merge_sort Z.le (map fst (map_to_list d)).

(** [sortedKeys]: [not self._sortedKeys] holds of [None] and of []. *)
Definition sortedKeys t : list Z * trace V :=
  match cache t with
  | Some (k :: ks) => (k :: ks, t)
  | _ => let ks := keys_of (data t) in (ks, Trace (label t) (units t) (data t) (Some ks))
  end.

(** [bisect.bisect(a, x)], [below k] standing for [x < k]. *)
Fixpoint bisect_loop (below : Z -> bool) (a : list Z) (fuel lo hi : nat) : nat :=
  match fuel with
  | O => lo
  | S f =>
      if lo <? hi then
        let mid := (lo + hi) / 2 in
        if below (nth mid a 0%Z) then bisect_loop below a f lo mid
        else bisect_loop below a f (S mid) hi
      else lo
  end.
Definition bisect (below : Z -> bool) (a : list Z) : nat :=
  bisect_loop below a (length a) 0 (length a).

(** [idxAfter]: never extrapolates. *)
Definition idxAfter t (op : num) : option nat * trace V :=
  let '(ks, t) := sortedKeys t in
  match ks with
  | [] => (None, t)
  | k :: _ =>
      if num_ltb op k then (None, t)
      else if num_gtb op (List.last ks 0%Z) then (None, t)
      else (Some (bisect (num_ltb op) ks), t)
  end.

(** [trace[op] = val]: the cached keys are left as they are. *)
Definition trace_set t (op : Z) (val : V) : trace V :=
  Trace (label t) (units t) (<[op := val]> (data t)) (cache t).

(** [op in self.data] and [self.data[op]]. *)
Definition lookup_op t (op : num) : option V := z ← num_key op; data t !! z.
Definition sample t (k : Z) : res V := of_option KeyError (data t !! k).

(** [DiscreteTrace.__getitem__]. *)
Definition DiscreteTrace_getitem t (op : num) : res (option V) * trace V :=
  match lookup_op t op with
  | Some v => (Ok (Some v), t)
  | None =>
      let '(idx, t) := idxAfter t op in
      match idx with
      | None => (Ok None, t)
      | Some idx =>
          let '(ks, t) := sortedKeys t in
          (k ← nth_res ks idx; v ← sample t k; Ok (Some v), t)
      end
  end.
End base.

(** The value on the segment between two samples. *)
Definition interpolate (op : num) (left_op right_op : Z) (left_v right_v : num) : res num :=
  w ← int_to_float (right_op - left_op);
  d ← num_sub op (NInt left_op);
  frac ← num_div d w;
  dv ← num_sub right_v left_v;
  s ← num_mul (NFloat frac) dv;
  num_add left_v s.

(** [Trace.__getitem__]. *)
Definition Trace_getitem (t : trace num) (op : num) : res (option num) * trace num :=
  match lookup_op t op with
  | Some v => (Ok (Some v), t)
  | None =>
      let '(idx, t) := idxAfter t op in
      match idx with
      | None => (Ok None, t)
      | Some O =>
          let '(ks, t) := sortedKeys t in
          (k ← nth_res ks 0; v ← sample t k; Ok (Some v), t)
      | Some (S i) =>
          let '(ks, t) := sortedKeys t in
          (left_op ← nth_res ks i;
           right_op ← nth_res ks (S i);
           w ← int_to_float (right_op - left_op);
           d ← num_sub op (NInt left_op);
           frac ← num_div d w;
           left_v ← sample t left_op;
           right_v ← sample t right_op;
           dv ← num_sub right_v left_v;
           s ← num_mul (NFloat frac) dv;
           v ← num_add left_v s;
           Ok (Some v), t)
      end
  end.

(** ** Plotting (PlotHelper.py)

    A curve is computed from anything with [__getitem__]: reads are functions
    from operation counts to what the read returns. *)

Definition reader := num -> res (option num).

(** Reading a trace, from the state it is in. *)
Definition read_trace (t : trace num) : reader := fun op => fst (Trace_getitem t op).

(** [Scale]: a prefix and a multiplier. *)
Record Scale := ScaleOf { prefix : str; mult : float }.
Definition Unit_scale : Scale := ScaleOf [] (float_of_Z 1).
Definition K : Scale := ScaleOf "K" (float_of_Z 1000).
Definition Ki : Scale := ScaleOf "Ki" (float_of_Z 1024).
Definition Mi : Scale := ScaleOf "Mi" (float_of_Z (Z.shiftl 1 20)).
Definition Gi : Scale := ScaleOf "Gi" (float_of_Z (Z.shiftl 1 30)).
Definition G : Scale := ScaleOf "G" (float_of_Z 1000000000).

(** A number read, where [None] makes the arithmetic raise [TypeError]. *)
Definition number (r : res (option num)) : res num := o ← r; of_option TypeError o.

(** [StackedTraces.__getitem__]: [sum] starts from 0. *)
Definition StackedTraces_getitem (traces : list reader) : reader := fun opn =>
  vs ← map_res (fun tr => tr opn) traces;
  s ← for_each (fun acc v => x ← of_option TypeError v; num_add acc x) vs (NInt 0);
  Ok (Some s).

(** [except TypeError: return None]. *)
Definition catch_type_error {A} (m : res A) (k : A -> res (option num)) : res (option num) :=
  match m with
  | Ok a => k a
  | Raise TypeError => Ok None
  | Raise e => Raise e
  end.

(** [windowedPair]: the quotient of two differences over a window. *)
Definition windowedPair (num_trace denom_trace : reader) (scale : Scale) (window : float)
    : Z -> res (option num) := fun opn =>
  catch_type_error
    (opnBefore ← num_sub (NInt opn) (NFloat window);
     a ← num_trace (NInt opn); b ← num_trace opnBefore;
     a ← of_option TypeError a; b ← of_option TypeError b; n ← num_sub a b;
     c ← denom_trace (NInt opn); d ← denom_trace opnBefore;
     c ← of_option TypeError c; d ← of_option TypeError d; den ← num_sub c d;
     Ok (n, den))
    (fun '(n, den) =>
      if num_is_zero den then Ok None
      else (x ← num_div n (mult scale); y ← to_float den; r ← fdiv x y; Ok (Some (NFloat r)))).

(** [singleTrace]. *)
Definition singleTrace (tr : reader) (scale : Scale) : Z -> res (option num) := fun opn =>
  catch_type_error (v ← number (tr (NInt opn)); num_div v (mult scale))
    (fun x => Ok (Some (NFloat x))).

(** The loop of [plotVsKop]: [KeyError] and [IndexError] skip a point. *)
Definition plot_step (lam : Z -> res (option num)) (pts : list (float * num)) (opn : Z)
    : res (list (float * num)) :=
  match (x ← num_div (NInt opn) (mult K); y ← lam opn; Ok (x, y)) with
  | Ok (x, Some y) => Ok (pts ++ [(x, y)])
  | Ok (_, None) => Ok pts
  | Raise KeyError | Raise IndexError => Ok pts
  | Raise e => Raise e
  end.
Definition plotVsKop (sortedOpns : list Z) (lam : Z -> res (option num)) : res (list float * list num) :=
  pts ← for_each (plot_step lam) sortedOpns [];
  Ok (map fst pts, map snd pts).

(** *** Placing the axes *)

(** [PlotHelper.__init__]: columns and rows; [int((numPlots+0.5)/columns)] is
    the integer quotient for a positive number of columns. *)
Record grid := Grid { rows : Z; columns : Z }.
Definition PlotHelper_init (numPlots : Z) (cols : option Z) : grid :=
  let c := match cols with
           | Some c => if (c =? 0)%Z then (if numPlots >? 4 then 2 else 1)%Z else c
           | None => (if numPlots >? 4 then 2 else 1)%Z
           end in
  Grid ((2 * numPlots + 1) ÷ (2 * c))%Z c.

(** [nextAxis]: the cells [row:endRow, col] of the next axis and the next
    free slot. *)
Definition nextAxis (g : grid) (nextAxisSlot depth : Z) : res ((Z * Z * Z) * Z) :=
  if (rows g =? 0)%Z then Raise ZeroDivisionError
  else let col := (nextAxisSlot ÷ rows g)%Z in
       let row := (nextAxisSlot mod rows g)%Z in
       Ok ((row, row + depth, col), nextAxisSlot + depth)%Z.
Definition in_grid (g : grid) (cell : Z * Z * Z) : bool :=
  let '(row, endRow, col) := cell in
  ((0 <=? row) && (row <? rows g) && (endRow <=? rows g) && (0 <=? col) && (col <? columns g))%Z.

(** ** Reading without a cache *)

Definition consistent {V} (t : trace V) : Prop :=
  match cache t with Some (k :: ks) => k :: ks = keys_of (data t) | _ => True end.

Lemma keys_of_sorted {V} (d : gmap Z V) : StronglySorted Z.le (keys_of d).
Proof. apply Sorted_StronglySorted; [apply _|]. apply Sorted_merge_sort, _. Qed.

Lemma elem_of_keys {V} (d : gmap Z V) k : k ∈ keys_of d <-> is_Some (d !! k).
Proof.
  unfold keys_of. rewrite merge_sort_Permutation, list_elem_of_fmap. split.
  - intros ((k' & v) & -> & H). apply elem_of_map_to_list in H. by exists v.
  - intros [v H]. exists (k, v). split; [done|]. by apply elem_of_map_to_list.
Qed.

Lemma sortedKeys_spec {V} (t : trace V) :
  consistent t ->
  fst (sortedKeys t) = keys_of (data t) /\ data (snd (sortedKeys t)) = data t /\
  consistent (snd (sortedKeys t)) /\ fst (sortedKeys (snd (sortedKeys t))) = keys_of (data t) /\
  snd (sortedKeys (snd (sortedKeys t))) = snd (sortedKeys t).
Proof.
  unfold consistent, sortedKeys.
  destruct (cache t) as [[|k ks]|] eqn:E; cbn; intros H; rewrite ?E; [| |];
    destruct (keys_of (data t)) eqn:Ek; cbn; rewrite ?Ek; naive_solver.
Qed.

Lemma sorted_nth (a : list Z) i j :
  StronglySorted Z.le a -> i <= j -> j < length a -> (nth i a 0 <= nth j a 0)%Z.
Proof.
  intros H. revert i j. induction H as [|k a Ha IH Hk]; intros i j Hij Hj; cbn in *; [lia|].
  destruct i as [|i], j as [|j]; [lia| |lia|apply IH; lia].
  rewrite Forall_forall in Hk. apply Hk, list_elem_of_In, nth_In. lia.
Qed.

(** The position [bisect] returns splits a sorted list at [below]. *)
Lemma bisect_loop_spec below a fuel lo hi :
  (forall i j, i <= j -> j < length a -> below (nth i a 0%Z) = true -> below (nth j a 0%Z) = true) ->
  lo <= hi -> hi <= length a -> hi - lo <= fuel ->
  (forall j, j < lo -> below (nth j a 0%Z) = false) ->
  (forall j, hi <= j -> j < length a -> below (nth j a 0%Z) = true) ->
  let i := bisect_loop below a fuel lo hi in
  i <= length a /\ (forall j, j < i -> below (nth j a 0%Z) = false) /\
  (forall j, i <= j -> j < length a -> below (nth j a 0%Z) = true).
Proof.
  intros Hm. revert lo hi. induction fuel as [|f IH]; intros lo hi Hlh Hh Hf Hlo Hhi; cbn [bisect_loop].
  - repeat split; [lia|done|]. intros; apply Hhi; lia.
  - destruct (lo <? hi) eqn:E; [|apply Nat.ltb_ge in E; repeat split; [lia|done|intros; apply Hhi; lia]].
    apply Nat.ltb_lt in E.
    assert (lo <= (lo + hi) / 2 < hi) as [H1 H2].
    { split; [apply Nat.div_le_lower_bound|apply Nat.Div0.div_lt_upper_bound]; lia. }
    destruct (below (nth ((lo + hi) / 2) a 0%Z)) eqn:Eb.
    + apply IH; try lia; [done|]. intros j Hj1 Hj2. eapply Hm; eauto.
    + apply IH; try lia; [|done]. intros j Hj.
      destruct (below (nth j a 0%Z)) eqn:Ej; [|done].
      assert (Ht := Hm j ((lo + hi) / 2) ltac:(lia) ltac:(lia) Ej). congruence.
Qed.

Lemma dyadic_pos v n d : dyadic v = Some (n, d) -> (0 < d)%Z.
Proof.
  destruct v as [z|[s|s| |s m e]]; cbn; try discriminate; intros H; injection H as <- <-; try lia.
  destruct (0 <=? e)%Z eqn:E; [done|]. apply Z.pow_pos_nonneg; lia.
Qed.

Lemma num_ltb_dyadic v n d k : dyadic v = Some (n, d) -> num_ltb v k = (n <? k * d)%Z.
Proof. unfold num_ltb. by intros ->. Qed.

Lemma num_gtb_dyadic v n d k : dyadic v = Some (n, d) -> num_gtb v k = (k * d <? n)%Z.
Proof. unfold num_gtb. by intros ->. Qed.

Lemma num_key_dyadic v n d k : dyadic v = Some (n, d) -> num_key v = Some k <-> n = (k * d)%Z.
Proof.
  intros H. pose proof (dyadic_pos _ _ _ H). unfold num_key. rewrite H. cbn.
  destruct (n mod d =? 0)%Z eqn:E.
  - apply Z.eqb_eq in E. pose proof (Z.div_mod n d ltac:(lia)). split.
    + intros [= <-]. lia.
    + intros ->. f_equal. apply Z.div_mul. lia.
  - apply Z.eqb_neq in E. split; [done|]. intros ->. rewrite Z.mod_mul in E; lia.
Qed.

(** A number is equal to an integer key, below it or above it. *)
Lemma num_trichotomy v k :
  dyadic v <> None -> num_ltb v k = false -> num_gtb v k = false -> num_key v = Some k.
Proof.
  destruct (dyadic v) as [[n d]|] eqn:E; [|done]. intros _.
  rewrite (num_ltb_dyadic _ _ _ _ E), (num_gtb_dyadic _ _ _ _ E), (num_key_dyadic _ _ _ _ E).
  rewrite !Z.ltb_ge. lia.
Qed.

Lemma num_ltb_mono v k k' : (k <= k')%Z -> num_ltb v k = true -> num_ltb v k' = true.
Proof.
  destruct (dyadic v) as [[n d]|] eqn:E.
  - pose proof (dyadic_pos _ _ _ E).
    rewrite !(num_ltb_dyadic _ _ _ _ E), !Z.ltb_lt. intros H1 H2. nia.
  - unfold num_ltb. by rewrite E.
Qed.

Lemma num_gtb_mono v k k' : (k' <= k)%Z -> num_gtb v k = true -> num_gtb v k' = true.
Proof.
  destruct (dyadic v) as [[n d]|] eqn:E.
  - pose proof (dyadic_pos _ _ _ E).
    rewrite !(num_gtb_dyadic _ _ _ _ E), !Z.ltb_lt. intros H1 H2. nia.
  - unfold num_gtb. by rewrite E.
Qed.

Lemma num_not_both v k : num_ltb v k = true -> num_gtb v k = true -> False.
Proof.
  destruct (dyadic v) as [[n d]|] eqn:E.
  - rewrite (num_ltb_dyadic _ _ _ _ E), (num_gtb_dyadic _ _ _ _ E), !Z.ltb_lt. lia.
  - unfold num_ltb, num_gtb. rewrite E. destruct v as [|[]]; try done. by destruct s.
Qed.

Lemma last_nth (a : list Z) x : List.last (x :: a) 0%Z = nth (length a) (x :: a) 0%Z.
Proof. revert x. induction a as [|y a IH]; intros x; [done|]. exact (IH y). Qed.

(** [idxAfter] of a consistent trace: outside the keys nothing, inside the
    position of the first key above. *)
Lemma idxAfter_spec {V} (t : trace V) op :
  consistent t -> dyadic op <> None -> lookup_op t op = None ->
  let ks := keys_of (data t) in
  snd (idxAfter t op) = snd (sortedKeys t) /\
  match fst (idxAfter t op) with
  | None => (forall k, k ∈ ks -> num_ltb op k = true) \/ (forall k, k ∈ ks -> num_gtb op k = true)
  | Some i => 0 < i < length ks /\ (forall j, j < i -> num_gtb op (nth j ks 0%Z) = true) /\
              (forall j, i <= j -> j < length ks -> num_ltb op (nth j ks 0%Z) = true)
  end.
Proof.
  intros Hc Hop Hl ks. destruct (sortedKeys_spec t Hc) as (Hk & _).
  unfold idxAfter. rewrite (surjective_pairing (sortedKeys t)), Hk. fold ks.
  pose proof (keys_of_sorted (data t)) as Hs. fold ks in Hs.
  assert (Hin : forall j, j < length ks -> num_key op <> Some (nth j ks 0%Z)).
  { intros j Hj Hn. unfold lookup_op in Hl. rewrite Hn in Hl. cbn in Hl.
    assert (is_Some (data t !! nth j ks 0%Z)) as [v Hv]; [|congruence].
    apply elem_of_keys, list_elem_of_In, nth_In, Hj. }
  destruct ks as [|k ks'] eqn:Eks.
  { split; [done|]. left. intros k Hk'. by apply not_elem_of_nil in Hk'. }
  assert (Hpos : forall x, x ∈ k :: ks' -> exists j, j < length (k :: ks') /\ x = nth j (k :: ks') 0%Z).
  { intros x Hx. apply list_elem_of_In, (In_nth _ _ 0%Z) in Hx as (j & Hj & <-). by exists j. }
  rewrite last_nth. destruct (num_ltb op k) eqn:E1; [|destruct (num_gtb op (nth (length ks') (k :: ks') 0%Z)) eqn:E2].
  - split; [done|]. left. intros x (j & Hj & ->)%Hpos.
    eapply num_ltb_mono; [|exact E1]. exact (sorted_nth _ 0 j Hs ltac:(lia) Hj).
  - split; [done|]. right. intros x (j & Hj & ->)%Hpos.
    eapply num_gtb_mono; [|exact E2]. apply sorted_nth; [done|..]; cbn in *; lia.
  - split; [done|]. cbn [fst].
    destruct (bisect_loop_spec (num_ltb op) (k :: ks') (length (k :: ks')) 0 (length (k :: ks')))
      as (B1 & B2 & B3); try lia.
    { intros i j Hij Hj. apply num_ltb_mono, sorted_nth; done. }
    fold (bisect (num_ltb op) (k :: ks')) in B1, B2, B3.
    set (i := bisect _ _) in *.
    assert (Hgt : forall j, j < i -> num_gtb op (nth j (k :: ks') 0%Z) = true).
    { intros j Hj. destruct (num_gtb op (nth j (k :: ks') 0%Z)) eqn:Eg; [done|exfalso].
      apply (Hin j ltac:(lia)), num_trichotomy; auto. }
    split_and!; [| |done|done].
    + destruct (decide (i = 0)) as [Hi|]; [|lia].
      specialize (B3 0 ltac:(lia) ltac:(cbn; lia)). cbn in B3. congruence.
    + destruct (decide (i = length (k :: ks'))) as [Hi|]; [|lia].
      specialize (Hgt (length ks') ltac:(rewrite Hi; cbn; lia)). congruence.
Qed.

(** The two samples around a count are the neighbours of its position. *)
Lemma interval_adjacent ks i l r op :
  StronglySorted Z.le ks -> S i < length ks ->
  (forall j, j < S i -> num_gtb op (nth j ks 0%Z) = true) ->
  (forall j, S i <= j -> j < length ks -> num_ltb op (nth j ks 0%Z) = true) ->
  l ∈ ks -> r ∈ ks -> num_gtb op l = true -> num_ltb op r = true ->
  (forall k, k ∈ ks -> (l < k < r)%Z -> False) ->
  nth i ks 0%Z = l /\ nth (S i) ks 0%Z = r.
Proof.
  intros Hs Hi Hlo Hhi Hl Hr Hgl Hlr Hno.
  assert (Hpos : forall x, x ∈ ks -> exists j, j < length ks /\ x = nth j ks 0%Z).
  { intros x Hx. apply list_elem_of_In, (In_nth _ _ 0%Z) in Hx as (j & Hj & <-). by exists j. }
  assert (Hel : forall j, j < length ks -> nth j ks 0%Z ∈ ks).
  { intros j Hj. apply list_elem_of_In, nth_In, Hj. }
  destruct (Hpos l Hl) as (a & Ha & ->), (Hpos r Hr) as (b & Hb & ->).
  assert (a <= i).
  { destruct (decide (a <= i)); [done|]. destruct (num_not_both op (nth a ks 0%Z)); [apply Hhi; lia|done]. }
  assert (S i <= b).
  { destruct (decide (S i <= b)); [done|]. destruct (num_not_both op (nth b ks 0%Z)); [done|apply Hlo; lia]. }
  assert (H1 := sorted_nth ks a i Hs ltac:(lia) ltac:(lia)).
  assert (H2 := sorted_nth ks (S i) b Hs ltac:(lia) ltac:(lia)).
  assert (Hlt : (nth i ks 0 < nth (S i) ks 0)%Z).
  { destruct (decide (nth i ks 0 < nth (S i) ks 0)%Z) as [|Hn]; [done|].
    destruct (num_not_both op (nth i ks 0%Z)); [|apply Hlo; lia].
    eapply num_ltb_mono; [|apply (Hhi (S i)); lia]. lia. }
  split.
  - destruct (decide (nth i ks 0 = nth a ks 0)%Z) as [|Hn]; [done|].
    destruct (Hno (nth i ks 0%Z)); [apply Hel; lia|lia].
  - destruct (decide (nth (S i) ks 0 = nth b ks 0)%Z) as [|Hn]; [done|].
    destruct (Hno (nth (S i) ks 0%Z)); [apply Hel; lia|lia].
Qed.

(** A consistent read that misses the samples, by the outcome of [idxAfter]. *)
Lemma Trace_getitem_miss (t : trace num) op :
  consistent t -> dyadic op <> None -> lookup_op t op = None ->
  let ks := keys_of (data t) in
  snd (Trace_getitem t op) = snd (sortedKeys t) /\
  match fst (idxAfter t op) with
  | Some (S i) =>
      forall lv rv, data t !! nth i ks 0%Z = Some lv -> data t !! nth (S i) ks 0%Z = Some rv ->
      fst (Trace_getitem t op) = v ← interpolate op (nth i ks 0%Z) (nth (S i) ks 0%Z) lv rv; Ok (Some v)
  | _ => fst (Trace_getitem t op) = Ok None
  end.
Proof.
  intros Hc Hop Hl ks. destruct (idxAfter_spec t op Hc Hop Hl) as [Hs Hi].
  destruct (sortedKeys_spec t Hc) as (_ & Hd & _ & Hk & Hk2).
  unfold Trace_getitem. rewrite Hl.
  destruct (idxAfter t op) as [idx t1]. cbn in Hs, Hi. subst t1.
  destruct idx as [[|i]|]; [destruct Hi as [Hi _]; lia| |done].
  fold ks in Hk, Hi. rewrite (surjective_pairing (sortedKeys (snd (sortedKeys t)))), Hk, Hk2.
  split; [done|]. cbn [fst]. intros lv rv Hlv Hrv. unfold nth_res, sample. rewrite Hd.
  destruct Hi as [Hi _].
  assert (Hn : forall j, j < length ks -> ks !! j = Some (nth j ks 0%Z)).
  { intros j Hj. destruct (lookup_lt_is_Some_2 ks j Hj) as [x Hx]. rewrite Hx. f_equal.
    by rewrite (nth_lookup_Some _ _ _ _ Hx). }
  rewrite (Hn i), (Hn (S i)) by lia. cbn [of_option]. rewrite !bind_of_Ok, Hlv, Hrv.
  unfold interpolate. destruct (int_to_float _); [|done]. rewrite !bind_of_Ok.
  destruct (num_sub op _); [|done]. rewrite !bind_of_Ok.
  destruct (num_div _ _); [|done]. cbn [of_option]. rewrite !bind_of_Ok.
  destruct (num_sub rv lv); [|done]. rewrite !bind_of_Ok.
  by destruct (num_mul _ _).
Qed.

(** Outside the samples there is nothing to read. *)
Lemma getitem_outside (t : trace num) op :
  consistent t -> dyadic op <> None ->
  (forall k, is_Some (data t !! k) -> num_ltb op k = true) \/
  (forall k, is_Some (data t !! k) -> num_gtb op k = true) ->
  fst (Trace_getitem t op) = Ok None.
Proof.
  intros Hc Hop Ho. destruct (lookup_op t op) as [w|] eqn:Hl.
  - exfalso. unfold lookup_op in Hl. apply bind_Some in Hl as (z & Hz & Hw).
    destruct (dyadic op) as [[n d]|] eqn:E; [|done]. apply (num_key_dyadic _ _ _ _ E) in Hz.
    destruct Ho as [H'|H']; specialize (H' z (mk_is_Some _ _ Hw));
      rewrite ?(num_ltb_dyadic _ _ _ _ E), ?(num_gtb_dyadic _ _ _ _ E), Z.ltb_lt in H'; lia.
  - destruct (Trace_getitem_miss t op Hc Hop Hl) as [_ Hi].
    destruct (idxAfter_spec t op Hc Hop Hl) as [_ Hx].
    set (ks := keys_of (data t)) in *.
    destruct (fst (idxAfter t op)) as [[|i]|]; [done| |done]. exfalso.
    destruct Hx as (Hi1 & Hi2 & Hi3).
    assert (Hel : forall j, j < length ks -> is_Some (data t !! nth j ks 0%Z)).
    { intros j Hj. apply elem_of_keys, list_elem_of_In, nth_In, Hj. }
    destruct Ho as [Ho|Ho].
    + exact (num_not_both _ _ (Ho _ (Hel i ltac:(lia))) (Hi2 i ltac:(lia))).
    + exact (num_not_both _ _ (Hi3 (S i) ltac:(lia) ltac:(lia)) (Ho _ (Hel (S i) ltac:(lia)))).
Qed.

(** C12. Reading a trace: a read at a sampled count is the sample, a read below
    the first or above the last is nothing, and a read strictly between two
    adjacent samples is the interpolation of these two.  No read changes what
    later reads return. *)
Theorem trace_reads (t : trace num) (op : num) :
  consistent t -> dyadic op <> None ->
  (data (snd (Trace_getitem t op)) = data t /\ consistent (snd (Trace_getitem t op))) /\
  (forall v, lookup_op t op = Some v -> fst (Trace_getitem t op) = Ok (Some v)) /\
  ((forall k, is_Some (data t !! k) -> num_ltb op k = true) \/
   (forall k, is_Some (data t !! k) -> num_gtb op k = true) ->
   fst (Trace_getitem t op) = Ok None) /\
  (forall l r lv rv, data t !! l = Some lv -> data t !! r = Some rv ->
   num_gtb op l = true -> num_ltb op r = true ->
   (forall k, (l < k < r)%Z -> data t !! k = None) ->
   fst (Trace_getitem t op) = v ← interpolate op l r lv rv; Ok (Some v)).
Proof.
  intros Hc Hop. destruct (sortedKeys_spec t Hc) as (_ & Hd & Hc' & _).
  pose proof (getitem_outside t op Hc Hop) as HO.
  destruct (lookup_op t op) as [w|] eqn:Hl.
  - assert (Hg : Trace_getitem t op = (Ok (Some w), t)) by (unfold Trace_getitem; by rewrite Hl).
    rewrite Hg. unfold lookup_op in Hl. apply bind_Some in Hl as (z & Hz & Hw).
    destruct (dyadic op) as [[n d]|] eqn:E; [|done]. pose proof (dyadic_pos _ _ _ E).
    apply (num_key_dyadic _ _ _ _ E) in Hz.
    split_and!; cbn; [done|done|naive_solver|by rewrite Hg in HO|].
    + intros l r lv rv _ _ H1 H2 H3.
      rewrite (num_ltb_dyadic _ _ _ _ E), Z.ltb_lt in H2.
      rewrite (num_gtb_dyadic _ _ _ _ E), Z.ltb_lt in H1.
      rewrite (H3 z) in Hw; [done|]. nia.
  - destruct (Trace_getitem_miss t op Hc Hop Hl) as [Hs Hi].
    destruct (idxAfter_spec t op Hc Hop Hl) as [_ Hx].
    set (ks := keys_of (data t)) in *. rewrite Hs.
    assert (Hin : forall k, k ∈ ks <-> is_Some (data t !! k)) by apply elem_of_keys.
    split_and!; [done|done|done|exact HO|].
    + intros l r lv rv Hlv Hrv Hl1 Hr1 Hno.
      assert (l ∈ ks) as Hlin by (apply Hin; by exists lv).
      assert (r ∈ ks) as Hrin by (apply Hin; by exists rv).
      destruct (fst (idxAfter t op)) as [[|i]|].
      * lia.
      * destruct Hx as (Hi1 & Hi2 & Hi3).
        destruct (interval_adjacent ks i l r op) as [<- <-]; try done.
        -- apply keys_of_sorted.
        -- lia.
        -- intros k Hk Hk'. apply Hin in Hk as [v Hv]. by rewrite (Hno k Hk') in Hv.
        -- by apply Hi.
      * destruct Hx as [Hx|Hx].
        -- destruct (num_not_both _ _ (Hx _ Hlin) Hl1).
        -- destruct (num_not_both _ _ Hr1 (Hx _ Hrin)).
Qed.

Definition two_samples : trace num :=
  trace_set (trace_set (new_trace "rss" "B") 30 (NInt 70)) 10 (NInt 50).

Lemma trace_reads_witness :
  fst (Trace_getitem two_samples (NInt 20)) = Ok (Some (NFloat (float_of_Z 60))) /\
  fst (Trace_getitem two_samples (NFloat (float_of_Z 30))) = Ok (Some (NInt 70)) /\
  fst (Trace_getitem two_samples (NInt 31)) = Ok None.
Proof.
  split_and!.
  - destruct (trace_reads two_samples (NInt 20) I ltac:(discriminate)) as (_ & _ & _ & H).
    rewrite (H 10%Z 30%Z (NInt 50) (NInt 70)); [vm_compute; reflexivity..|].
    intros k Hk. unfold two_samples, trace_set. cbn [data].
    rewrite !lookup_insert_ne by lia. apply lookup_empty.
  - destruct (trace_reads two_samples (NFloat (float_of_Z 30)) I ltac:(discriminate)) as (_ & H & _).
    apply H. vm_compute. reflexivity.
  - destruct (trace_reads two_samples (NInt 31) I ltac:(discriminate)) as (_ & _ & H & _).
    apply H. right. intros k [v Hv]. unfold two_samples, trace_set in Hv. cbn [data] in Hv.
    apply lookup_insert_Some in Hv as [[<- _]|[_ Hv]]; [reflexivity|].
    apply lookup_insert_Some in Hv as [[<- _]|[_ Hv]]; [reflexivity|].
    cbn in Hv. by rewrite lookup_empty in Hv.
Defined.

(** A sample written after the keys were cached is not seen between samples:
    a read above the cached keys finds nothing. *)
Lemma stale_keys (t : trace num) ks k v op :
  cache t = Some ks -> ks <> [] -> num_key op <> Some k -> lookup_op t op = None ->
  num_gtb op (List.last ks 0%Z) = true ->
  fst (Trace_getitem (trace_set t k v) op) = Ok None.
Proof.
  intros Hc Hks Hk Hl Hgt. unfold Trace_getitem.
  assert (lookup_op (trace_set t k v) op = None) as ->.
  { unfold lookup_op in *. destruct (num_key op) as [z|]; [|done]. cbn in *.
    rewrite lookup_insert_ne by congruence. done. }
  unfold idxAfter, sortedKeys. cbn [cache trace_set]. rewrite Hc.
  destruct ks as [|k0 ks]; [done|]. cbn [fst snd]. rewrite Hgt. by destruct (num_ltb op k0).
Qed.

(** ** The grid of axes *)

Lemma quot_small a b : (0 <= a -> 0 < b -> a ÷ b = a / b)%Z.
Proof. intros. apply Z.quot_div_nonneg; lia. Qed.

(** The grid of a figure has one slot per plot, except that an odd number of
    plots above four loses one. *)
Lemma grid_size n :
  (0 < n)%Z ->
  let g := PlotHelper_init n None in
  (0 < rows g /\ 0 < columns g /\
   rows g * columns g = if (4 <? n) && Z.odd n then n - 1 else n)%Z.
Proof.
  intros Hn. unfold PlotHelper_init. cbn [rows columns].
  rewrite Z.gtb_ltb. destruct (4 <? n)%Z eqn:E; cbn [andb].
  - apply Z.ltb_lt in E. rewrite quot_small by lia.
    pose proof (Zdiv2_odd_eqn n) as Hq. destruct (Z.odd n).
    + replace (2 * n + 1)%Z with (3 + Z.div2 n * (2 * 2))%Z by lia.
      rewrite Z.div_add by lia. change (3 / (2 * 2))%Z with 0%Z. lia.
    + replace (2 * n + 1)%Z with (1 + Z.div2 n * (2 * 2))%Z by lia.
      rewrite Z.div_add by lia. change (1 / (2 * 2))%Z with 0%Z. lia.
  - rewrite quot_small by lia. replace (2 * n + 1)%Z with (1 + n * (2 * 1))%Z by lia.
    rewrite Z.div_add by lia. change (1 / (2 * 1))%Z with 0%Z. lia.
Qed.

(** Slot [i] of a grid is a cell of its own; it lies in the grid exactly when
    the grid has that many slots. *)
Lemma slot_cell g i :
  (0 < rows g -> 0 < columns g -> 0 <= i ->
   let cell := (i mod rows g, i mod rows g + 1, i / rows g) in
   nextAxis g i 1 = Ok (cell, i + 1) /\
   in_grid g cell = (i <? rows g * columns g))%Z.
Proof.
  intros Hr Hc Hi cell. unfold nextAxis. replace (rows g =? 0)%Z with false by lia.
  rewrite quot_small by lia. split; [done|]. unfold in_grid, cell.
  pose proof (Z.mod_pos_bound i (rows g) Hr). pose proof (Z.div_pos i (rows g) Hi Hr).
  pose proof (Z.div_mod i (rows g) ltac:(lia)).
  replace (0 <=? i mod rows g)%Z with true by lia.
  replace (i mod rows g <? rows g)%Z with true by lia.
  replace (i mod rows g + 1 <=? rows g)%Z with true by lia.
  replace (0 <=? i / rows g)%Z with true by lia. cbn [andb].
  apply Bool.eq_iff_eq_true. rewrite !Z.ltb_lt. nia.
Qed.

(** The axes of a figure of [n] plots are cells of its grid, all distinct,
    except that for an odd [n] above four the last axis falls outside. *)
Theorem axes_fit n i :
  (0 < n -> 0 <= i < n ->
   let g := PlotHelper_init n None in
   exists cell, nextAxis g i 1 = Ok (cell, i + 1) /\
     i = snd cell * rows g + fst (fst cell) /\
     in_grid g cell = negb ((4 <? n) && Z.odd n && (i =? n - 1)))%Z.
Proof.
  intros Hn Hi g. destruct (grid_size n Hn) as (Hr & Hc & Hs). fold g in Hr, Hc, Hs.
  destruct (slot_cell g i Hr Hc ltac:(lia)) as [H1 H2].
  eexists. split; [exact H1|]. cbn [fst snd]. split; [pose proof (Z.div_mod i (rows g) ltac:(lia)); lia|].
  rewrite H2, Hs. destruct (4 <? n)%Z, (Z.odd n); cbn; lia.
Qed.

Lemma axes_fit_witness :
  (exists cell, nextAxis (PlotHelper_init 5 None) 4 1 = Ok (cell, 5%Z) /\
    in_grid (PlotHelper_init 5 None) cell = false).
Proof.
  destruct (axes_fit 5 4 ltac:(lia) ltac:(lia)) as (cell & H1 & _ & H2). by exists cell.
Defined.
