(* ===== verification/PerfLog.v ===== *)
(** * Reading the log of a run (tools/plot/parser.py)

    [Experiment] reads the lines a benchmark prints: progress lines move the
    operation count, every other recognised line adds samples at the current
    count.  The traces of an object are a function from its attributes. *)
From stdpp Require Import functions.
From S2P Require Import Prelude PyStr Regex Paths PyFloat Trace.
From Stdlib Require Import ZArith.

(** ** Allocation rows *)

Definition field_width : nat := 14 + 1.
Definition arow_width : nat := field_width * 4 - 1.

Record ARow := ARowOf { total_count : Z; open_count : Z; total_byte : Z; open_byte : Z }.

(** [arow.field[name]]. *)
Definition arow_field (name : str) (r : ARow) : res Z :=
  if bool_decide (name = # "total_count") then Ok (total_count r)
  else if bool_decide (name = # "open_count") then Ok (open_count r)
  else if bool_decide (name = # "total_byte") then Ok (total_byte r)
  else if bool_decide (name = # "open_byte") then Ok (open_byte r)
  else Raise KeyError.

(** [ARow.__init__]. *)
Definition ARow_init (a b c d : str) : res ARow :=
  a ← py_int a; b ← py_int b; c ← py_int c; d ← py_int d; Ok (ARowOf a b c d).

(** [ARows]: the rows of one label by operation count. *)
Record ARows := ARowsOf { rows_label : str; arows : gmap Z ARow }.

Definition getTrace (r : ARows) (field : str) : res (trace num) :=
  let unit : str := if endswith field "_byte" then "B" else "cnt" in
  for_each (fun t '(op, row) => v ← arow_field field row; Ok (trace_set t op (NInt v)))
    (map_to_list (arows r)) (new_trace (rows_label r ++ "." ++ field) unit).

Definition parse_arow (s : str) : res ARow :=
  _ ← py_assert (bool_decide (length s = arow_width));
  ARow_init (take field_width s) (take field_width (drop field_width s))
    (take field_width (drop (field_width * 2) s)) (take field_width (drop (field_width * 3) s)).

Definition match_arow_line (token line : str) : res (option (ARow * str)) :=
  if negb (startswith line (token ++ " ")) then Ok None
  else arow ← parse_arow (take arow_width (drop (length token + 1) line));
       Ok (Some (arow, drop (length token + 1 + arow_width + 1) line)).

(** [CDF]: the two columns of a latency line. *)
Record CDF := CDFOf { xs : list float; ys : list float }.
Definition CDF_init (fields : list str) : res CDF :=
  xs ← map_res (fun f => w ← nth_res (split_char ":" f) 0; py_float w) fields;
  ys ← map_res (fun f => w ← nth_res (split_char ":" f) 1; py_float w) fields;
  Ok (CDFOf xs ys).

(** ** The object *)

Inductive attr :=
  | elapsed | operation | os_map_total | os_map_heap | ops_completed
  | read_count | read_bytes | write_count | write_bytes
  | utime | stime | vsize | rss
  | procio_read_bytes | procio_write_bytes | cgroups_memory_usage_bytes
  | jem_allocated | jem_active | jem_mapped
  | kvl_underlying | kvl_underlying_count
  | rocks_io_reads | rocks_io_hits | rocks_io_writes
  | slow_thresh | slow_reads | slow_writes | writeback_stalls.
#[export] Instance attr_eq_dec : EqDecision attr.
Proof. solve_decision. Defined.

Record pstate := PState {
  cur_op : Z; cur_t : num;
  cur_phase : option str; phase_op_base : Z; phase_t_base : num;
  phase_starts : gmap str Z;
  traces : attr -> trace num;
  iolatency_read : trace CDF; iolatency_write : trace CDF;
  microscopes : gmap str ARows;
  accum : gmap str (trace num);
  cgroups_stat : gmap str (trace num)
}.

(** The labels and units of [__init__]; three traces share one label. *)
Definition init_trace (a : attr) : trace num :=
  match a with
  | elapsed => new_trace "elapsed" "s"
  | operation => new_trace "operation" "op"
  | os_map_total => new_trace "os_map_total" "B"
  | os_map_heap => new_trace "os_map_heap" "B"
  | ops_completed => new_trace "ops_completed" "op"
  | read_count => new_trace "read_count" "iop"
  | read_bytes => new_trace "read_bytes" "B"
  | write_count => new_trace "write_count" "iop"
  | write_bytes => new_trace "write_bytes" "B"
  | utime => new_trace "utime" "s"
  | stime => new_trace "stime" "s"
  | vsize => new_trace "vsize" "B"
  | rss => new_trace "rss" "B"
  | procio_read_bytes => new_trace "procio_read_bytes" "B"
  | procio_write_bytes => new_trace "procio_write_bytes" "B"
  | cgroups_memory_usage_bytes => new_trace "cgroups_memory_usage_bytes" "B"
  | jem_allocated | jem_active | jem_mapped => new_trace "jem_allocated" "B"
  | kvl_underlying => new_trace "underlying_bytes" "B"
  | kvl_underlying_count => new_trace "underlying_cnt" "cnt"
  | rocks_io_reads => new_trace "rocksio_reads" "page"
  | rocks_io_hits => new_trace "rocksio_hits" "page"
  | rocks_io_writes => new_trace "rocksio_writes" "page"
  | slow_thresh => new_trace "slow_thresh" "cycles"
  | slow_reads => new_trace "slow_reads" "count"
  | slow_writes => new_trace "slow_writes" "count"
  | writeback_stalls => new_trace "writeback_stalls" "count"
  end.

Definition init_state : pstate :=
  PState 0 (NInt 0) None 0 (NInt 0) ∅ init_trace
    (new_trace "read-latency" "cycles") (new_trace "write-latency" "cycles") ∅ ∅ ∅.

(** [self.<a>[cur_op] = v] and [self.<a>[op] = v]. *)
Definition set_trace (s : pstate) (a : attr) (t : trace num) : pstate :=
  PState (cur_op s) (cur_t s) (cur_phase s) (phase_op_base s) (phase_t_base s) (phase_starts s)
    (<[a := t]> (traces s)) (iolatency_read s) (iolatency_write s) (microscopes s) (accum s) (cgroups_stat s).
Definition put (a : attr) (v : Z) (s : pstate) : pstate :=
  set_trace s a (trace_set (traces s a) (cur_op s) (NInt v)).
Definition set_tables (s : pstate) (r w : trace CDF) (m : gmap str ARows) (ac cg : gmap str (trace num)) : pstate :=
  PState (cur_op s) (cur_t s) (cur_phase s) (phase_op_base s) (phase_t_base s) (phase_starts s)
    (traces s) r w m ac cg.
Definition set_clock (s : pstate) (op : Z) (t : num) : pstate :=
  PState op t (cur_phase s) (phase_op_base s) (phase_t_base s) (phase_starts s)
    (traces s) (iolatency_read s) (iolatency_write s) (microscopes s) (accum s) (cgroups_stat s).

(** [int(fields[i])]. *)
Definition int_field (fs : list str) (i : nat) : res Z := w ← nth_res fs i; py_int w.

(** ** Progress lines *)

(** A new phase starts at the current count and time. *)
Definition enter_phase (phase : str) (s : pstate) : pstate :=
  if bool_decide (cur_phase s = Some phase) then s
  else PState (cur_op s) (cur_t s) (Some phase) (cur_op s) (cur_t s)
         (<[phase := cur_op s]> (phase_starts s))
         (traces s) (iolatency_read s) (iolatency_write s) (microscopes s) (accum s) (cgroups_stat s).

Definition process_elapsed (phase ms_text opnum_text : str) (s : pstate) : res pstate :=
  let s := enter_phase phase s in
  ms ← py_int ms_text;
  t_in_phase ← num_div (NInt ms) (float_of_Z 1000);
  t ← num_add (NFloat t_in_phase) (phase_t_base s);
  let s := set_clock s (cur_op s) t in
  let s := set_trace s elapsed (trace_set (traces s elapsed) (cur_op s) t) in
  op_in_phase ← py_int opnum_text;
  let op := (op_in_phase + phase_op_base s)%Z in
  let s := set_clock s op (cur_t s) in
  Ok (set_trace s operation (trace_set (traces s operation) op (NInt op))).

Definition on_elapsed (line : str) (fs : list str) (s : pstate) : res pstate :=
  if startswith line "elapsed" then
    p ← nth_res fs 4; ms ← nth_res fs 1; op ← nth_res fs 3; process_elapsed p ms op s
  else Ok s.
Definition on_step (line : str) (fs : list str) (s : pstate) : res pstate :=
  if startswith line "[step]" then
    w ← nth_res fs 3;
    if bool_decide (w = # "progress") then
      p ← nth_res fs 2; ms ← nth_res fs 4; op ← nth_res fs 6; process_elapsed p ms op s
    else Ok s
  else Ok s.

(** ** Sample lines *)

(** A line that starts with a word and has the integers of some attributes at
    fixed fields, read and stored in order. *)
Definition on_word (word : str) (cols : list (attr * nat)) (line : str) (fs : list str) (s : pstate) : res pstate :=
  if startswith line word then
    for_each (fun s '(a, i) => v ← int_field fs i; Ok (put a v s)) cols s
  else Ok s.

Definition on_os_map (line : str) (fs : list str) (s : pstate) : res pstate :=
  if startswith line "os-map-total" then
    v ← int_field fs 1;
    let s := put os_map_total v s in
    heap ← int_field fs 3;
    Ok (if (heap >? 0)%Z && (heap <? Z.shiftl 300 30)%Z then put os_map_heap heap s else s)
  else Ok s.

Definition on_microscope (line : str) (fs : list str) (s : pstate) : res pstate :=
  mo ← match_arow_line "ma-microscope" line;
  match mo with
  | None => Ok s
  | Some (arow, label) =>
      label ← of_option IndexError (head (rev (fields label)));
      let rows := match microscopes s !! label with Some r => r | None => ARowsOf label ∅ end in
      Ok (set_tables s (iolatency_read s) (iolatency_write s)
           (<[label := ARowsOf (rows_label rows) (<[cur_op s := arow]> (arows rows))]> (microscopes s))
           (accum s) (cgroups_stat s))
  end.

Definition jem_re : re :=
  seqs [Lit "Allocated: "; Grp 1 (Plus Digit); Lit ", active: "; Grp 2 (Plus Digit);
        Lit ", mapped: "; Grp 3 (Plus Digit)].
Definition group_Z (n : nat) (m : match_obj) : res Z := g ← of_option TypeError (group n m); py_int g.
Definition on_jem (line : str) (fs : list str) (s : pstate) : res pstate :=
  match search jem_re line with
  | None => Ok s
  | Some mo =>
      a ← group_Z 1 mo; b ← group_Z 2 mo; c ← group_Z 3 mo;
      Ok (put jem_mapped c (put jem_active b (put jem_allocated a s)))
  end.

Definition cache_re : re :=
  seqs [Lit "cache: "; Grp 1 (Plus Digit); Lit " "; Grp 2 (Star Dot); Lit "-";
        Grp 3 (Alt (Lit "bytes") (Lit "count"))].
Definition on_cache (line : str) (fs : list str) (s : pstate) : res pstate :=
  match search cache_re line with
  | None => Ok s
  | Some mo =>
      type ← of_option TypeError (group 2 mo);
      unit ← of_option TypeError (group 3 mo);
      let accum_key : str := type ++ "-" ++ unit in
      let t := match accum s !! accum_key with Some t => t | None => new_trace accum_key "unk" end in
      v ← group_Z 1 mo;
      Ok (set_tables s (iolatency_read s) (iolatency_write s) (microscopes s)
           (<[accum_key := trace_set t (cur_op s) (NInt v)]> (accum s)) (cgroups_stat s))
  end.

(** [len(fields)>=10] guards the eleventh field. *)
Definition on_rocks (line : str) (fs : list str) (s : pstate) : res pstate :=
  if startswith line "rocks_io_model" then
    r ← int_field fs 6; let s := put rocks_io_reads r s in
    h ← int_field fs 8; let s := put rocks_io_hits h s in
    if 10 <=? length fs then w ← int_field fs 10; Ok (put rocks_io_writes w s) else Ok s
  else Ok s.

Definition on_cgroups_stat (line : str) (fs : list str) (s : pstate) : res pstate :=
  if startswith line "cgroups-memory.stat" then
    statName ← nth_res fs 1;
    let t := match cgroups_stat s !! statName with
             | Some t => t | None => new_trace ("cgroups-stat-" ++ statName) "cnt" end in
    v ← int_field fs 2;
    Ok (set_tables s (iolatency_read s) (iolatency_write s) (microscopes s) (accum s)
         (<[statName := trace_set t (cur_op s) (NInt v)]> (cgroups_stat s)))
  else Ok s.

Definition on_latency (line : str) (fs : list str) (s : pstate) : res pstate :=
  if startswith line "io-latency" then
    which ← nth_res fs 1;
    if bool_decide (which = # "read") then
      c ← CDF_init (drop 2 fs);
      Ok (set_tables s (trace_set (iolatency_read s) (cur_op s) c) (iolatency_write s)
           (microscopes s) (accum s) (cgroups_stat s))
    else if bool_decide (which = # "write") then
      c ← CDF_init (drop 2 fs);
      Ok (set_tables s (iolatency_read s) (trace_set (iolatency_write s) (cur_op s) c)
           (microscopes s) (accum s) (cgroups_stat s))
    else Raise KeyError
  else Ok s.

(** ** The loop *)

Definition handler := str -> list str -> pstate -> res pstate.

(** The tests of the loop body that only add samples, in their order. *)
Definition sample_handlers : list handler :=
  [ on_os_map;
    on_word "ioaccounting " [(read_count, 2); (read_bytes, 4); (write_count, 6); (write_bytes, 8)];
    on_word "stat-accounting " [(utime, 2); (stime, 4); (vsize, 6); (rss, 8)];
    on_word "proc-io" [(procio_read_bytes, 2); (procio_write_bytes, 4)];
    on_word "cgroups-memory.usage_in_bytes" [(cgroups_memory_usage_bytes, 1)];
    on_microscope;
    on_word "allocationreport stop underyling_count" [(kvl_underlying_count, 3); (kvl_underlying, 5)];
    on_jem; on_cache; on_rocks; on_cgroups_stat; on_latency;
    on_word "ioaccounting-slow" [(slow_thresh, 2); (slow_reads, 4); (slow_writes, 6)];
    on_word "writebackStalls" [(writeback_stalls, 1)] ].

Definition process_line (s : pstate) (line : str) : res pstate :=
  let line := strip line in
  let fs := fields line in
  s ← on_elapsed line fs s;
  s ← on_step line fs s;
  for_each (fun s (h : handler) => h line fs s) sample_handlers s.

Definition parse_lines (lines : list str) (s : pstate) : res pstate := for_each process_line lines s.

Record experiment := Experiment {
  filename : str; nickname : str; state : pstate; sortedOpns : list Z; op_max : Z
}.

(** [Experiment.__init__]; [max] of an empty list raises [ValueError]. *)
Definition Experiment_init (cwd : str) (fs : gmap str str) (fname : str) (nick : option str) : res experiment :=
  let nickname := match nick with
                  | Some (c :: n) => c :: n
                  | _ => List.last (split_char slash fname) []
                  end in
  contents ← py_open cwd fs fname;
  s ← parse_lines (readlines contents) init_state;
  let ops := keys_of (data (traces s operation)) in
  op_max ← of_option ValueError (head (rev ops));
  Ok (Experiment fname nickname s ops op_max).

(** ** What a line does *)

(** Some trace or row of [s] has a sample at [k]. *)
Definition sample_at (s : pstate) (k : Z) : Prop :=
  (exists a, is_Some (data (traces s a) !! k)) \/
  is_Some (data (iolatency_read s) !! k) \/ is_Some (data (iolatency_write s) !! k) \/
  (exists n r, microscopes s !! n = Some r /\ is_Some (arows r !! k)) \/
  (exists n t, accum s !! n = Some t /\ is_Some (data t !! k)) \/
  (exists n t, cgroups_stat s !! n = Some t /\ is_Some (data t !! k)).

(** No trace of [s] has cached its keys. *)
Definition uncached (s : pstate) : Prop :=
  (forall a, cache (traces s a) = None) /\
  cache (iolatency_read s) = None /\ cache (iolatency_write s) = None /\
  (forall n t, accum s !! n = Some t -> cache t = None) /\
  (forall n t, cgroups_stat s !! n = Some t -> cache t = None).

(** From [s] to [s'] samples are added at the current count only, none of them
    to the two traces of progress lines. *)
Definition sampled (s s' : pstate) : Prop :=
  cur_op s' = cur_op s /\ traces s' elapsed = traces s elapsed /\ traces s' operation = traces s operation /\
  (forall k, sample_at s' k -> sample_at s k \/ k = cur_op s) /\
  (uncached s -> uncached s').

Lemma sampled_refl s : sampled s s.
Proof. unfold sampled. naive_solver. Qed.

Lemma sampled_trans s1 s2 s3 : sampled s1 s2 -> sampled s2 s3 -> sampled s1 s3.
Proof.
  intros (A1 & A2 & A3 & A4 & A5) (B1 & B2 & B3 & B4 & B5).
  unfold sampled. split_and!; try congruence; [|auto].
  intros k [H| ->]%B4; [auto|]. right. congruence.
Qed.

Lemma insert_is_Some {V} (d : gmap Z V) i v k : is_Some (<[i := v]> d !! k) -> k = i \/ is_Some (d !! k).
Proof. intros [w [[-> _]|[_ H]]%lookup_insert_Some]; [by left|right; by exists w]. Qed.

Lemma put_traces a v s b :
  traces (put a v s) b = if decide (a = b) then trace_set (traces s a) (cur_op s) (NInt v) else traces s b.
Proof. cbn. destruct (decide (a = b)) as [<-|Hn]; [apply fn_lookup_insert|by apply fn_lookup_insert_ne]. Qed.

Lemma put_sampled a v s : a <> elapsed -> a <> operation -> sampled s (put a v s).
Proof.
  intros He Ho. unfold sampled. rewrite !put_traces, !decide_False by done. split_and!; try done.
  - intros k [[b Hb]|H]; [|left; right; exact H]. rewrite put_traces in Hb.
    destruct (decide (a = b)) as [<-|]; [|left; left; by exists b].
    apply insert_is_Some in Hb as [->|Hb]; [by right|left; left; by exists a].
  - intros (H1 & H2). split; [|exact H2]. intros b. rewrite put_traces.
    destruct (decide (a = b)); [apply H1|apply H1].
Qed.

Create HintDb perf discriminated.
#[export] Hint Resolve sampled_refl : perf.
#[export] Hint Extern 1 (_ <> _) => discriminate : perf.

(** Replacing the tables by tables with samples added at the current count. *)
Lemma set_tables_sampled s r w m ac cg :
  (forall k, is_Some (data r !! k) -> is_Some (data (iolatency_read s) !! k) \/ k = cur_op s) ->
  (forall k, is_Some (data w !! k) -> is_Some (data (iolatency_write s) !! k) \/ k = cur_op s) ->
  (forall n x k, m !! n = Some x -> is_Some (arows x !! k) ->
    (exists y, microscopes s !! n = Some y /\ is_Some (arows y !! k)) \/ k = cur_op s) ->
  (forall n x k, ac !! n = Some x -> is_Some (data x !! k) ->
    (exists y, accum s !! n = Some y /\ is_Some (data y !! k)) \/ k = cur_op s) ->
  (forall n x k, cg !! n = Some x -> is_Some (data x !! k) ->
    (exists y, cgroups_stat s !! n = Some y /\ is_Some (data y !! k)) \/ k = cur_op s) ->
  (uncached s -> uncached (set_tables s r w m ac cg)) ->
  sampled s (set_tables s r w m ac cg).
Proof.
  intros Hr Hw Hm Ha Hc Hu. unfold sampled. split_and!; try done.
  intros k. unfold sample_at. cbn. intros [H|[H|[H|[(n & x & H & H')|[(n & x & H & H')|(n & x & H & H')]]]]].
  - left. by left.
  - destruct (Hr k H); [left; right; by left|by right].
  - destruct (Hw k H); [left; right; right; by left|by right].
  - destruct (Hm n x k H H') as [(y & ? & ?)|]; [left; do 3 right; left; by exists n, y|by right].
  - destruct (Ha n x k H H') as [(y & ? & ?)|]; [left; do 4 right; left; by exists n, y|by right].
  - destruct (Hc n x k H H') as [(y & ? & ?)|]; [left; do 5 right; by exists n, y|by right].
Qed.

(** Adding a sample to the trace a table holds under a name, or to a new one. *)
Lemma table_sample (d : gmap str (trace num)) n l u op v m x k :
  <[n := trace_set (match d !! n with Some t => t | None => new_trace l u end) op v]> d !! m = Some x ->
  is_Some (data x !! k) -> (exists y, d !! m = Some y /\ is_Some (data y !! k)) \/ k = op.
Proof.
  intros [[<- <-]|[_ H]]%lookup_insert_Some Hk; [|left; by exists x].
  cbn in Hk. apply insert_is_Some in Hk as [->|Hk]; [by right|].
  destruct (d !! n) as [t|]; [left; by exists t|]. cbn in Hk. rewrite lookup_empty in Hk. by destruct Hk.
Qed.

Lemma table_uncached (d : gmap str (trace num)) n l u op v :
  (forall m t, d !! m = Some t -> cache t = None) ->
  forall m t, <[n := trace_set (match d !! n with Some t => t | None => new_trace l u end) op v]> d !! m = Some t ->
  cache t = None.
Proof.
  intros Hd m t [[<- <-]|[_ H]]%lookup_insert_Some; [|by eapply Hd].
  cbn. destruct (d !! n) eqn:E; [by eapply Hd|done].
Qed.

Definition samples (h : handler) : Prop :=
  forall line fs s s', h line fs s = Ok s' -> sampled s s'.

Lemma on_word_samples word cols :
  Forall (fun '(a, _) => a <> elapsed /\ a <> operation) cols -> samples (on_word word cols).
Proof.
  intros Hc line fs s s'. unfold on_word. destruct (startswith line word); [|intros [= <-]; auto with perf].
  intros H. revert H. apply (for_each_inv (fun s'' => sampled s s'')); [|apply sampled_refl].
  intros s1 [a i] s2 Hin Hs H. res_inv. rewrite Forall_forall in Hc. destruct (Hc _ Hin).
  eapply sampled_trans; [exact Hs|by apply put_sampled].
Qed.

(** A chain of [put]s, the last one first. *)
#[export] Hint Extern 2 (sampled _ (put _ _ _)) =>
  eapply sampled_trans; [|apply put_sampled] : perf.

Lemma on_os_map_samples : samples on_os_map.
Proof.
  intros line fs s s'. unfold on_os_map. destruct (startswith _ _); [|intros [= <-]; auto with perf].
  intros H. res_inv. destruct (_ && _); auto with perf.
Qed.

Lemma on_jem_samples : samples on_jem.
Proof.
  intros line fs s s'. unfold on_jem. destruct (search _ _); [|intros [= <-]; auto with perf].
  intros H. res_inv. auto with perf.
Qed.

Lemma on_rocks_samples : samples on_rocks.
Proof.
  intros line fs s s'. unfold on_rocks. destruct (startswith _ _); [|intros [= <-]; auto with perf].
  intros H. res_inv. destruct (10 <=? length fs); res_inv; auto with perf.
Qed.

Lemma on_microscope_samples : samples on_microscope.
Proof.
  intros line fs s s' H. unfold on_microscope in H. apply bind_Ok in H as (mo & _ & H).
  destruct mo as [[arow label]|]; [|injection H as <-; auto with perf].
  apply bind_Ok in H as (lb & _ & H). injection H as <-.
  apply set_tables_sampled; try (by left); try (intros n x k ? ?; left; by exists x); [|done].
  intros n x k [[<- <-]|[_ Hn]]%lookup_insert_Some Hk; [|left; by exists x].
  cbn in Hk. apply insert_is_Some in Hk as [->|Hk]; [by right|].
  destruct (microscopes s !! lb) as [r|]; [left; by exists r|].
  cbn in Hk. rewrite lookup_empty in Hk. by destruct Hk.
Qed.

Lemma on_cache_samples : samples on_cache.
Proof.
  intros line fs s s' H. unfold on_cache in H.
  destruct (search _ _) as [mo|]; [|injection H as <-; auto with perf].
  res_inv. apply set_tables_sampled; try (by left); try (intros n y k ? ?; left; by exists y).
  - intros n y k. apply table_sample.
  - intros (U1 & U2 & U3 & U4 & U5). unfold uncached. cbn. split_and!; try done.
    by apply table_uncached.
Qed.

Lemma on_cgroups_stat_samples : samples on_cgroups_stat.
Proof.
  intros line fs s s' H. unfold on_cgroups_stat in H.
  destruct (startswith _ _); [|injection H as <-; auto with perf].
  res_inv. apply set_tables_sampled; try (by left); try (intros n y k ? ?; left; by exists y).
  - intros n y k. apply table_sample.
  - intros (U1 & U2 & U3 & U4 & U5). unfold uncached. cbn. split_and!; try done.
    by apply table_uncached.
Qed.

Lemma on_latency_samples : samples on_latency.
Proof.
  intros line fs s s' H. unfold on_latency in H.
  destruct (startswith _ _); [|injection H as <-; auto with perf].
  apply bind_Ok in H as (which & _ & H).
  repeat case_bool_decide; [| |done]; res_inv;
    (apply set_tables_sampled; try (by left); try (intros n y k ? ?; left; by exists y);
     [|by intros (U1 & U2 & U3 & U4)]);
    intros k [->|Hk]%insert_is_Some; auto.
Qed.

Lemma sample_handlers_sample : Forall samples sample_handlers.
Proof.
  repeat (apply Forall_cons; split); [..|apply Forall_nil_2];
    first [ apply on_os_map_samples | apply on_microscope_samples | apply on_jem_samples
          | apply on_cache_samples | apply on_rocks_samples | apply on_cgroups_stat_samples
          | apply on_latency_samples
          | apply on_word_samples; repeat (apply Forall_cons; split); try done; by constructor ].
Qed.

Lemma sample_handlers_run line fs s s' :
  for_each (fun s (h : handler) => h line fs s) sample_handlers s = Ok s' -> sampled s s'.
Proof.
  apply (for_each_inv (fun s'' => sampled s s'')); [|apply sampled_refl].
  intros s1 h s2 Hin Hs H. pose proof sample_handlers_sample as Hh. rewrite Forall_forall in Hh.
  eapply sampled_trans; [exact Hs|by eapply Hh].
Qed.

(** ** Progress *)

Lemma enter_phase_frame p s :
  cur_op (enter_phase p s) = cur_op s /\ traces (enter_phase p s) = traces s /\
  iolatency_read (enter_phase p s) = iolatency_read s /\ iolatency_write (enter_phase p s) = iolatency_write s /\
  microscopes (enter_phase p s) = microscopes s /\ accum (enter_phase p s) = accum s /\
  cgroups_stat (enter_phase p s) = cgroups_stat s.
Proof. unfold enter_phase. by case_bool_decide. Qed.

(** What a progress line leaves: the time is stored at the count before the
    line, the count at itself, and nothing else changes. *)
Record progressed (s s' : pstate) : Prop := {
  pr_operation : traces s' operation = trace_set (traces s operation) (cur_op s') (NInt (cur_op s'));
  pr_elapsed : traces s' elapsed = trace_set (traces s elapsed) (cur_op s) (cur_t s');
  pr_traces : forall a, a <> elapsed -> a <> operation -> traces s' a = traces s a;
  pr_tables : iolatency_read s' = iolatency_read s /\ iolatency_write s' = iolatency_write s /\
    microscopes s' = microscopes s /\ accum s' = accum s /\ cgroups_stat s' = cgroups_stat s
}.

Lemma process_elapsed_progress p ms op s s' : process_elapsed p ms op s = Ok s' -> progressed s s'.
Proof.
  unfold process_elapsed. destruct (enter_phase_frame p s) as (E1 & E2 & E3 & E4 & E5 & E6 & E7).
  intros H. res_inv.
  constructor; cbn [set_trace set_clock cur_op cur_t traces iolatency_read iolatency_write microscopes accum cgroups_stat];
    rewrite ?E1, ?E2, ?E3, ?E4, ?E5, ?E6, ?E7; try done.
  - intros a Ha Hb. by rewrite !fn_lookup_insert_ne by done.
Qed.

(** The two progress formats; a line never has both. *)
Definition is_progress (line : str) : bool :=
  let line := strip line in
  startswith line "elapsed" ||
  (startswith line "[step]" && bool_decide (fields line !! 3 = Some (# "progress"))).

Lemma startswith_both line a b wa wb :
  startswith line (a :: wa) = true -> startswith line (b :: wb) = true -> a = b.
Proof. rewrite !startswith_spec. intros [x ->] [y H]. by injection H. Qed.

(** A line either moves the count once or only adds samples. *)
Lemma process_line_cases s line s' :
  process_line s line = Ok s' ->
  if is_progress line then exists s1, progressed s s1 /\ sampled s1 s' else sampled s s'.
Proof.
  unfold process_line, is_progress. set (l := strip line). set (fs := fields l).
  intros H. apply bind_Ok in H as (s1 & H1 & H). apply bind_Ok in H as (s2 & H2 & H).
  apply sample_handlers_run in H. unfold on_elapsed in H1. unfold on_step in H2.
  destruct (startswith l "elapsed") eqn:Ee; cbn [orb].
  - assert (Es : startswith l "[step]" = false).
    { destruct (startswith l "[step]") eqn:Es; [|done].
      discriminate (startswith_both l _ _ _ _ Ee Es). }
    rewrite Es in H2. res_inv. exists s2. split; [by eapply process_elapsed_progress|done].
  - injection H1 as <-. destruct (startswith l "[step]"); cbn [andb]; [|by injection H2 as <-].
    apply bind_Ok in H2 as (w & Hw & H2). unfold nth_res in Hw.
    destruct (fs !! 3) as [w'|]; [|done]. injection Hw as ->.
    destruct (decide (w = # "progress")) as [->|Hn].
    + rewrite bool_decide_eq_true_2 in H2 by done. rewrite bool_decide_eq_true_2 by done.
      res_inv. exists s2. split; [by eapply process_elapsed_progress|done].
    + rewrite bool_decide_eq_false_2 in H2 by done. rewrite bool_decide_eq_false_2 by congruence.
      by injection H2 as <-.
Qed.

(** The invariant of the loop. *)
Record good (s : pstate) : Prop := {
  g_cache : uncached s;
  g_cur : cur_op s = 0%Z \/ is_Some (data (traces s operation) !! cur_op s);
  g_samples : forall k, sample_at s k -> k = 0%Z \/ is_Some (data (traces s operation) !! k);
  g_operation : forall k v, data (traces s operation) !! k = Some v -> v = NInt k
}.

Lemma sampled_good s s' : sampled s s' -> good s -> good s'.
Proof.
  intros (A1 & A2 & A3 & A4 & A5) [G1 G2 G3 G4]. constructor; rewrite ?A1, ?A3; auto.
  intros k [H| ->]%A4; auto.
Qed.

Lemma progressed_good s s' : progressed s s' -> good s -> good s'.
Proof.
  intros [P1 P2 P3 (P4 & P5 & P6 & P7 & P8)] [G1 G2 G3 G4].
  assert (Hmono : forall k, k = 0%Z \/ is_Some (data (traces s operation) !! k) ->
    k = 0%Z \/ is_Some (data (traces s' operation) !! k)).
  { intros k [|H]; [by left|right]. rewrite P1. cbn. destruct (decide (cur_op s' = k)) as [<-|Hk].
    - rewrite lookup_insert_eq. by eexists.
    - by rewrite lookup_insert_ne. }
  constructor.
  - destruct G1 as (U1 & U2). unfold uncached. rewrite P4, P5, P7, P8. split; [|exact U2].
    intros a. destruct (decide (a = operation)) as [->|Ho]; [rewrite P1; apply U1|].
    destruct (decide (a = elapsed)) as [->|He]; [rewrite P2; apply U1|]. rewrite P3 by done. apply U1.
  - right. rewrite P1. cbn. rewrite lookup_insert_eq. by eexists.
  - intros k [[a Ha]|H].
    + destruct (decide (a = operation)) as [->|Ho]; [by right|].
      destruct (decide (a = elapsed)) as [->|He].
      * rewrite P2 in Ha. apply insert_is_Some in Ha as [->|Ha]; apply Hmono; [done|].
        apply G3. left. by exists elapsed.
      * rewrite P3 in Ha by done. apply Hmono, G3. left. by exists a.
    + apply Hmono, G3. right. by rewrite P4, P5, P6, P7, P8 in H.
  - rewrite P1. cbn. intros k v [[<- <-]|[_ H]]%lookup_insert_Some; [done|by apply G4].
Qed.

Lemma init_good : good init_state.
Proof.
  assert (Hi : forall a, data (init_trace a) = ∅ /\ cache (init_trace a) = None) by by intros [].
  assert (Hs : forall k, ~ sample_at init_state k).
  { intros k [[a Ha]|[Ha|[Ha|[(n & r & Hn & _)|[(n & r & Hn & _)|(n & r & Hn & _)]]]]].
    - cbn in Ha. rewrite (proj1 (Hi a)), lookup_empty in Ha. by destruct Ha.
    - cbn in Ha. rewrite lookup_empty in Ha. by destruct Ha.
    - cbn in Ha. rewrite lookup_empty in Ha. by destruct Ha.
    - cbn in Hn. by rewrite lookup_empty in Hn.
    - cbn in Hn. by rewrite lookup_empty in Hn.
    - cbn in Hn. by rewrite lookup_empty in Hn. }
  constructor.
  - split; [intros a; apply Hi|]. split_and!; try done; intros n t H; cbn in H; by rewrite lookup_empty in H.
  - by left.
  - intros k H. by apply Hs in H.
  - intros k v H. cbn in H. by rewrite lookup_empty in H.
Qed.

Lemma parse_lines_good lines s s' : good s -> parse_lines lines s = Ok s' -> good s'.
Proof.
  intros Hg. unfold parse_lines. apply for_each_inv; [|done].
  intros s1 line s2 _ H1 H%process_line_cases. destruct (is_progress line).
  - destruct H as (s3 & H2 & H3). by eapply sampled_good, progressed_good.
  - by eapply sampled_good.
Qed.

(** Without progress lines only samples are added. *)
Lemma parse_lines_sampled lines s s' :
  forallb (fun l => negb (is_progress l)) lines = true -> parse_lines lines s = Ok s' -> sampled s s'.
Proof.
  intros Hn. apply (for_each_inv (fun s'' => sampled s s'')); [|apply sampled_refl].
  intros s1 line s2 Hin Hs H%process_line_cases.
  rewrite forallb_forall in Hn. specialize (Hn line). rewrite <- list_elem_of_In in Hn.
  specialize (Hn Hin). destruct (is_progress line); [done|]. by eapply sampled_trans.
Qed.

Lemma head_rev_sorted ks m :
  StronglySorted Z.le ks -> head (rev ks) = Some m -> m ∈ ks /\ forall k, k ∈ ks -> (k <= m)%Z.
Proof.
  intros Hs Hm. destruct (rev ks) as [|m' r] eqn:E; [done|]. injection Hm as ->.
  assert (Hk : ks = rev r ++ [m]) by (rewrite <- (rev_involutive ks), E; done). subst ks.
  split; [apply elem_of_app; right; by apply list_elem_of_singleton|].
  intros k [Hk|Hk]%elem_of_app.
  - clear E. induction (rev r) as [|x l IH]; [by apply not_elem_of_nil in Hk|].
    inversion Hs as [|? ? Hs' Hx]; subst. apply elem_of_cons in Hk as [->|Hk]; [|by apply IH].
    rewrite Forall_forall in Hx. apply Hx, elem_of_app. right. by apply list_elem_of_singleton.
  - apply list_elem_of_singleton in Hk. lia.
Qed.

Lemma keys_of_NoDup {V} (d : gmap Z V) : NoDup (keys_of d).
Proof. unfold keys_of. rewrite merge_sort_Permutation. apply NoDup_fst_map_to_list. Qed.

Lemma Experiment_init_Ok cwd fs fname nick e :
  Experiment_init cwd fs fname nick = Ok e ->
  exists contents, py_open cwd fs fname = Ok contents /\
    parse_lines (readlines contents) init_state = Ok (state e) /\
    sortedOpns e = keys_of (data (traces (state e) operation)) /\
    head (rev (sortedOpns e)) = Some (op_max e).
Proof.
  intros H. unfold Experiment_init in H. apply bind_Ok in H as (contents & Hc & H).
  apply bind_Ok in H as (s & Hs & H). apply bind_Ok in H as (m & Hm & H). injection H as <-.
  exists contents. split_and!; try done. cbn [sortedOpns op_max].
  by destruct (head (rev _)) as [m'|]; cbn in Hm; [injection Hm as ->|].
Qed.

(** C11. The object a log is parsed into: the operation trace maps every count
    to itself, its counts are listed once each in order up to [op_max], every
    sample of every trace is at one of these counts or at 0, and no trace has
    cached its keys, so that every read of them is exact. *)
Theorem experiment_samples cwd fs fname nick e :
  Experiment_init cwd fs fname nick = Ok e ->
  (forall k, data (traces (state e) operation) !! k = if decide (k ∈ sortedOpns e) then Some (NInt k) else None) /\
  NoDup (sortedOpns e) /\ StronglySorted Z.le (sortedOpns e) /\
  op_max e ∈ sortedOpns e /\ (forall k, k ∈ sortedOpns e -> (k <= op_max e)%Z) /\
  (forall k, sample_at (state e) k -> k = 0%Z \/ k ∈ sortedOpns e) /\
  uncached (state e).
Proof.
  intros (contents & _ & Hp & Hk & Hm)%Experiment_init_Ok.
  destruct (parse_lines_good _ _ _ init_good Hp) as [G1 G2 G3 G4].
  rewrite Hk in *. destruct (head_rev_sorted _ _ (keys_of_sorted _) Hm) as [M1 M2].
  split_and!; auto using keys_of_NoDup, keys_of_sorted.
  - intros k. destruct (decide (k ∈ _)) as [[v Hv]%elem_of_keys|Hn].
    + rewrite Hv. by rewrite (G4 _ _ Hv).
    + rewrite elem_of_keys in Hn. by apply eq_None_not_Some.
  - intros k Hs. rewrite elem_of_keys. auto.
Qed.

(** The time of a progress line is stored at the count of the line before
    it.  When the last progress line reaches a count above all earlier ones,
    that count is [op_max], the previous count holds its time, and reading the
    elapsed time at [op_max] gives nothing. *)
Theorem last_op_untimed cwd fs fname nick e contents l1 line l2 s1 :
  py_open cwd fs fname = Ok contents -> readlines contents = l1 ++ line :: l2 ->
  is_progress line = true -> forallb (fun l => negb (is_progress l)) l2 = true ->
  parse_lines l1 init_state = Ok s1 ->
  Experiment_init cwd fs fname nick = Ok e ->
  (0 < cur_op (state e))%Z ->
  (forall k, is_Some (data (traces s1 operation) !! k) -> (k < cur_op (state e))%Z) ->
  op_max e = cur_op (state e) /\
  is_Some (data (traces (state e) elapsed) !! cur_op s1) /\
  fst (Trace_getitem (traces (state e) elapsed) (NInt (op_max e))) = Ok None.
Proof.
  intros Hf Hl Hpr Hn2 H1 He Hpos Hmax.
  pose proof He as (contents' & Hf' & Hp & Hk & Hm)%Experiment_init_Ok.
  rewrite Hf in Hf'. injection Hf' as <-. rewrite Hl in Hp. unfold parse_lines in Hp.
  rewrite for_each_app in Hp. unfold parse_lines in H1. rewrite H1 in Hp. cbn [mbind res_bind for_each] in Hp.
  apply bind_Ok in Hp as (s3 & H3 & Hp). apply process_line_cases in H3. rewrite Hpr in H3.
  destruct H3 as (s2 & [P1 P2 _ _] & (A1 & A2 & A3 & _)).
  apply parse_lines_sampled in Hp as (B1 & B2 & B3 & _ & _); [|done].
  destruct (parse_lines_good _ _ _ init_good H1) as [G1 G2 G3 G4].
  destruct (parse_lines_good (readlines contents) init_state (state e) init_good) as [U _ _ _].
  { unfold parse_lines. apply Experiment_init_Ok in He as (c & Hc & Hp' & _).
    rewrite Hf in Hc. by injection Hc as <-. }
  set (s := state e) in *. assert (Hcur : cur_op s = cur_op s2) by congruence.
  assert (Hop : traces s operation = trace_set (traces s1 operation) (cur_op s) (NInt (cur_op s)))
    by (rewrite B3, A3, P1, Hcur; done).
  assert (Hel : traces s elapsed = trace_set (traces s1 elapsed) (cur_op s1) (cur_t s2))
    by (rewrite B2, A2, P2; done).
  assert (Hlt : forall k, is_Some (data (traces s elapsed) !! k) -> (k < cur_op s)%Z).
  { intros k. rewrite Hel. cbn. intros [->|Hs]%insert_is_Some.
    - destruct G2 as [->|G2]; [lia|auto].
    - destruct (G3 k) as [->|Hk']; [left; by exists elapsed|lia|auto]. }
  assert (Hmx : op_max e = cur_op s).
  { rewrite Hk in Hm. destruct (head_rev_sorted _ _ (keys_of_sorted _) Hm) as [M1 M2].
    assert (Hin : cur_op s ∈ keys_of (data (traces s operation))).
    { apply elem_of_keys. rewrite Hop. cbn. rewrite lookup_insert_eq. by eexists. }
    specialize (M2 _ Hin). apply elem_of_keys in M1. rewrite Hop in M1. cbn in M1.
    apply insert_is_Some in M1 as [->|M1]; [done|]. specialize (Hmax _ M1). lia. }
  split_and!; [done| |].
  - rewrite Hel. cbn. rewrite lookup_insert_eq. by eexists.
  - rewrite Hmx. destruct U as [U _].
    apply getitem_outside; [|done|].
    + unfold consistent. by rewrite U.
    + right. intros k Hs. specialize (Hlt k Hs). cbn. lia.
Qed.

Definition small_log : str :=
  "[step] ycsb load progress 1000 ms 50
stat-accounting utime 7 stime 3 vsize 900 rss 800
[step] ycsb load progress 2500 ms 120
"%string.
Definition small_fs : gmap str str := {[ # "/r/log" := small_log ]}.

Lemma experiment_samples_witness :
  exists e, Experiment_init "/r" small_fs "log" None = Ok e /\ op_max e = 120%Z /\
    (forall k, sample_at (state e) k -> k = 0%Z \/ k ∈ sortedOpns e).
Proof.
  destruct (Experiment_init "/r" small_fs "log" None) as [e|] eqn:E.
  - exists e. split; [done|]. split.
    + apply (f_equal (fun r => match r with Ok e => op_max e | _ => 0%Z end)) in E.
      rewrite <- E. vm_compute. reflexivity.
    + by destruct (experiment_samples _ _ _ _ _ E) as (_ & _ & _ & _ & _ & H & _).
  - apply (f_equal is_Ok) in E. vm_compute in E. discriminate E.
Defined.

Lemma last_op_untimed_witness :
  exists e, Experiment_init "/r" small_fs "log" None = Ok e /\ op_max e = 120%Z /\
    fst (Trace_getitem (traces (state e) elapsed) (NInt 120)) = Ok None.
Proof.
  destruct (Experiment_init "/r" small_fs "log" None) as [e|] eqn:E.
  2: { apply (f_equal is_Ok) in E. vm_compute in E. discriminate E. }
  exists e. split; [done|].
  assert (Hc : cur_op (state e) = 120%Z).
  { apply (f_equal (fun r => match r with Ok e => cur_op (state e) | _ => 0%Z end)) in E.
    rewrite <- E. vm_compute. reflexivity. }
  destruct (parse_lines (take 2 (readlines small_log)) init_state) as [s1|] eqn:E1.
  2: { apply (f_equal is_Ok) in E1. vm_compute in E1. discriminate E1. }
  destruct (last_op_untimed "/r" small_fs "log" None e small_log (take 2 (readlines small_log))
    (nth 2 (readlines small_log) []) [] s1) as (H1 & _ & H2);
    [vm_compute; reflexivity | vm_compute; reflexivity | vm_compute; reflexivity | vm_compute; reflexivity
    | exact E1 | exact E | rewrite Hc; lia | |].
  - rewrite Hc. intros k Hk. assert (Hd : keys_of (data (traces s1 operation)) = [50%Z]).
    { apply (f_equal (fun r => match r with Ok s => keys_of (data (traces s operation)) | _ => [] end)) in E1.
      rewrite <- E1. vm_compute. reflexivity. }
    apply elem_of_keys in Hk. rewrite Hd in Hk. apply list_elem_of_singleton in Hk. lia.
  - rewrite H1, Hc in H2. rewrite H1, Hc. by split.
Defined.

(** ** Rows as the allocator prints them *)

(** ["%14ld %14ld %14ld %14ld"]. *)
Definition print_row (a b c d : N) : str :=
  pad_left 14 (dec_N a) ++ " " ++ pad_left 14 (dec_N b) ++ " " ++ pad_left 14 (dec_N c) ++ " " ++ pad_left 14 (dec_N d).

Lemma lstrip_spaces m s : lstrip (repeat " "%char m ++ s) = lstrip s.
Proof. by induction m. Qed.

Lemma rev_spaces m : rev (repeat " "%char m) = repeat " "%char m.
Proof. induction m as [|m IH]; [done|]. cbn. rewrite IH. symmetry. apply repeat_cons. Qed.

Lemma py_int_padded m k n : py_int (repeat " "%char m ++ dec_N n ++ repeat " "%char k) = Ok (Z.of_N n).
Proof.
  destruct (dec_N_digits n) as [Hd Hn]. rewrite <- (py_int_dec_N n). unfold py_int.
  rewrite (strip_digits _ Hd). unfold strip. rewrite lstrip_spaces.
  assert (lstrip (dec_N n ++ repeat " "%char k) = dec_N n ++ repeat " "%char k) as ->.
  { destruct (dec_N n) as [|c ds] eqn:E; [done|]. inversion Hd; subst. cbn.
    by rewrite digit_not_space. }
  unfold rstrip. rewrite rev_app_distr, rev_spaces, lstrip_spaces.
  pose proof (strip_digits (dec_N n) Hd) as Hs. unfold strip, rstrip in Hs.
  assert (lstrip (dec_N n) = dec_N n) as Hl.
  { destruct (dec_N n) as [|c ds]; [done|]. inversion Hd; subst. cbn. by rewrite digit_not_space. }
  by rewrite Hl in Hs; rewrite Hs.
Qed.

Lemma pad_left_length w s : length s <= w -> length (pad_left w s) = w.
Proof. intros H. unfold pad_left. rewrite length_app, repeat_length. lia. Qed.

(** A row printed by the allocator is read back: the four numbers, each of
    at most fourteen digits, and the label that follows them. *)
Theorem microscope_roundtrip token a b c d (label : str) :
  Forall (fun n => length (dec_N n) <= 14) [a; b; c; d] ->
  match_arow_line token (token ++ " " ++ print_row a b c d ++ " " ++ label) =
    Ok (Some (ARowOf (Z.of_N a) (Z.of_N b) (Z.of_N c) (Z.of_N d), label)).
Proof.
  intros H. repeat (apply Forall_cons in H as [? H]).
  assert (Hl : length (print_row a b c d) = arow_width).
  { unfold print_row. rewrite !length_app, !pad_left_length by done. done. }
  unfold match_arow_line.
  assert (startswith (token ++ " " ++ print_row a b c d ++ " " ++ label) (token ++ " ") = true) as ->.
  { apply startswith_spec. eexists. by rewrite <- app_assoc. }
  cbn [negb].
  assert (Hd : forall s, drop (length token + 1) (token ++ " " ++ s) = s).
  { intros s. rewrite drop_app_add. done. }
  assert (drop (length token + 1 + arow_width + 1) (token ++ " " ++ print_row a b c d ++ " " ++ label) = label) as ->.
  { replace (length token + 1 + arow_width + 1) with (length token + 1 + (arow_width + 1)) by lia.
    rewrite <- (drop_drop _ _ (length token + 1)), Hd, <- Hl, drop_app_add. done. }
  rewrite Hd, take_app_length' by done.
  assert (parse_arow (print_row a b c d) = Ok (ARowOf (Z.of_N a) (Z.of_N b) (Z.of_N c) (Z.of_N d))) as ->; [|done].
  unfold parse_arow. rewrite bool_decide_eq_true_2 by done. cbn [py_assert]. rewrite bind_of_Ok.
  assert (Hf : forall (x y : str), length x = 14 -> take field_width (x ++ " " ++ y) = x ++ " " /\ drop field_width (x ++ " " ++ y) = y).
  { intros x y Hx. rewrite (app_assoc x " "). unfold field_width. split.
    - apply take_app_length'. rewrite length_app, Hx. done.
    - apply drop_app_length'. rewrite length_app, Hx. done. }
  unfold print_row.
  set (pa := pad_left 14 (dec_N a)). set (pb := pad_left 14 (dec_N b)).
  set (pc := pad_left 14 (dec_N c)). set (pd := pad_left 14 (dec_N d)).
  destruct (Hf pa (pb ++ " " ++ pc ++ " " ++ pd)) as [T1 D1]; [by apply pad_left_length|].
  destruct (Hf pb (pc ++ " " ++ pd)) as [T2 D2]; [by apply pad_left_length|].
  destruct (Hf pc pd) as [T3 D3]; [by apply pad_left_length|].
  change (field_width * 2) with (field_width + field_width).
  change (field_width * 3) with (field_width + (field_width + field_width)).
  rewrite T1, <- !drop_drop, D1, T2, D2, T3, D3.
  rewrite (take_ge pd) by (unfold pd; rewrite pad_left_length; [unfold field_width; lia|done]).
  unfold ARow_init, pa, pb, pc, pd, pad_left. rewrite <- !app_assoc.
  change (# " ") with (repeat " "%char 1).
  rewrite !py_int_padded. cbn [mbind res_bind].
  rewrite <- (app_nil_r (dec_N d)) at 2. change [] with (repeat " "%char 0). by rewrite py_int_padded.
Qed.

Lemma microscope_roundtrip_witness :
  match_arow_line "ma-microscope" (# "ma-microscope" ++ " " ++ print_row 12 3 4567890123 0 ++ " " ++ "any. total") =
    Ok (Some (ARowOf 12 3 4567890123 0, # "any. total")).
Proof.
  apply (microscope_roundtrip "ma-microscope" 12 3 4567890123 0 "any. total").
  repeat constructor; vm_compute; lia.
Defined.

(** A [rocks_io_model] line of ten fields passes the length test and then fails
    on the eleventh. *)
Lemma rocks_ten_fields line fs s r h :
  startswith line "rocks_io_model" = true -> length fs = 10 ->
  int_field fs 6 = Ok r -> int_field fs 8 = Ok h -> on_rocks line fs s = Raise IndexError.
Proof.
  intros Hl Hn Hr Hh. unfold on_rocks. rewrite Hl, Hr, bind_of_Ok, Hh, bind_of_Ok, Hn. cbn [Nat.leb].
  unfold int_field, nth_res. by rewrite (lookup_ge_None_2 fs 10) by lia.
Qed.
