(* ===== verification/Profile.v ===== *)
(** * Quantifier profiles (tools/dafny-profile.py, tools/profile-reader.py)

    Both scripts tally how often the prover instantiates each quantifier:
    dafny-profile.py runs Dafny and reads its output, profile-reader.py reads
    one or two logs.  Running Dafny and colouring text are parameters. *)
From S2P Require Import Prelude PyStr Argparse Regex Paths PyFloat Trace.
From Stdlib Require Import ZArith.

(** ** dafny-profile.py *)

(** A bracketed keyword, the location (no blanks), a colon, the count, a colon. *)
Definition quantifier_pattern : re :=
  seqs [Lit "[quantifier_instances] "; Grp 1 (Star (NoneOf " ")); Lit " :"; Star (Chr " ");
        Grp 2 (Plus Digit); Lit " :"].
Definition prover_error_pattern : re := Lit "Prover error:".

Record profile := Profile { by_max : gmap str Z; by_sum : gmap str Z; by_count : gmap str Z }.
Definition new_profile : profile := Profile ∅ ∅ ∅.

(** [d.get(loc, 0)]. *)
Definition get0 (d : gmap str Z) (loc : str) : Z := default 0%Z (d !! loc).

(** The location and count of a line, if the pattern matches. *)
Definition quantifier_hit (line : str) : res (option (str * Z)) :=
  match search quantifier_pattern (strip line) with
  | None => Ok None
  | Some mo =>
      loc ← of_option TypeError (group 1 mo);
      count ← of_option TypeError (group 2 mo);
      count ← py_int count;
      Ok (Some (loc, count))
  end.

Definition record_hit (p : profile) (loc : str) (count : Z) : profile :=
  Profile (<[loc := Z.max (get0 (by_max p) loc) count]> (by_max p))
    (<[loc := (get0 (by_sum p) loc + count)%Z]> (by_sum p))
    (<[loc := (get0 (by_count p) loc + 1)%Z]> (by_count p)).

(** The body of the loop of [run_dafny], and of [Profile.parse]. *)
Definition profile_line (p : profile) (line : str) : res profile :=
  hit ← quantifier_hit line;
  Ok match hit with Some (loc, count) => record_hit p loc count | None => p end.
Definition profile_lines (lines : list str) : res profile := for_each profile_line lines new_profile.

(** Lines of the output that are shown while Dafny runs. *)
Definition echoed (lines : list str) : list str :=
  List.filter (fun l => negb (searchb prover_error_pattern l) && (0 <? length l)) (map strip lines).

Record profile_args := ProfileArgs {
  timelimit : str; proc : str; a_filename : str; metric : str; dafny : str;
  extra : option (list str); freq : str; show : Z
}.

Definition profile_command (a : profile_args) : list str :=
  [dafny a; "/timeLimit:" ++ timelimit a; "/proc:" ++ proc a;
   # "/proverOpt:O:smt.qi.profile=true"; "/proverOpt:O:smt.qi.profile_freq=" ++ freq a] ++
  default [] (extra a) ++ [a_filename a].

(** The default of [--dafny], and what is said before the command is run. *)
Definition profile_dafny_default (exists_path : str -> bool) (scriptdir : str) : str :=
  let d := normpath (path_join scriptdir "../.dafny/dafny/Binaries/Dafny") in
  if exists_path d then d else normpath (path_join scriptdir "../.dafny/bin/dafny").
Definition running_command (a : profile_args) : list str :=
  [ # "Running command:"; join " " (profile_command a); []].

(** The options.  [str] of the procedure and of the frequency accepts any value,
    the default of the latter is an integer. *)
Definition metrics : list str := [ # "max"; # "sum"; # "count"].
Definition profile_parser (dafny_default : str) : parser :=
  argument_parser [] ++
  [positional "timelimit"; positional "proc"; positional "filename"; option_choice "--metric" (VStr "max") false metrics;
   option_text "--dafny" (VStr dafny_default); option_append "--arg"; option_text "--freq" (VInt 1000); option_int "--show" (VInt 30)].
Definition str_of_aval (v : aval) : res str :=
  match v with VStr s => Ok s | VInt z => Ok (dec_Z z) | VList [] => Ok (# "[]") | _ => Raise TypeError end.
Definition texts_of_aval (v : aval) : res (option (list str)) :=
  match v with
  | VNone => Ok None
  | VList l => Some <$> map_res (fun x => match x with VStr s => Ok s | _ => Raise TypeError end) l
  | _ => Raise TypeError
  end.
Definition profile_args_of (ns : gmap str aval) : res profile_args :=
  t ← attr_text ns "timelimit"; p ← attribute ns "proc"; p ← str_of_aval p; f ← attr_text ns "filename";
  m ← attr_text ns "metric"; d ← attr_text ns "dafny"; x ← attribute ns "arg"; x ← texts_of_aval x;
  q ← attribute ns "freq"; q ← str_of_aval q; n ← attr_int ns "show";
  Ok (ProfileArgs t p f m d x q n).

(** A command line of the script: the three positionals, the options that are
    given and the extra arguments, spelled as words; and what it asks for, the
    options left out having their defaults. *)
Record profile_options := ProfileOptions {
  o_timelimit : str; o_proc : str; o_filename : str;
  o_metric : option str; o_dafny : option str; o_freq : option str; o_show : option Z;
  o_args : list str
}.
Definition given_option (flag : str) (a : argument) (o : option str) : list token :=
  match o with Some v => [GiveEquals flag a v] | None => [] end.
Definition profile_tokens (dafny_default : str) (o : profile_options) : list token :=
  [GivePositional (o_timelimit o); GivePositional (o_proc o); GivePositional (o_filename o)] ++
  given_option "--metric" (option_choice "--metric" (VStr "max") false metrics) (o_metric o) ++
  given_option "--dafny" (option_text "--dafny" (VStr dafny_default)) (o_dafny o) ++
  given_option "--freq" (option_text "--freq" (VInt 1000)) (o_freq o) ++
  given_option "--show" (option_int "--show" (VInt 30)) (dec_Z <$> o_show o) ++
  map (GiveEquals "--arg" (option_append "--arg")) (o_args o).
Definition profile_words (dafny_default : str) (o : profile_options) : list str :=
  flat_map spell (profile_tokens dafny_default o).
Definition asked (dafny_default : str) (o : profile_options) : profile_args :=
  ProfileArgs (o_timelimit o) (o_proc o) (o_filename o) (default (# "max") (o_metric o)) (default dafny_default (o_dafny o))
    (match o_args o with [] => None | l => Some l end) (default (# "1000") (o_freq o)) (default 30%Z (o_show o)).

(** The positionals are words that stand alone, the metric is one of the three,
    and no value is the separator. *)
Definition options_ok (dafny_default : str) (o : profile_options) : Prop :=
  Forall (plain (profile_parser dafny_default)) [o_timelimit o; o_proc o; o_filename o] /\
  (forall m, o_metric o = Some m -> m ∈ metrics) /\
  (forall s, o_dafny o = Some s \/ o_freq o = Some s \/ s ∈ o_args o -> s <> # "--").

(** [tuples.sort(key=lambda i: (-i[1],i[0]))]. *)
Definition tuple_ltb (x y : str * Z) : bool :=
  (- snd x <? - snd y)%Z || ((snd x =? snd y)%Z && str_ltb (fst x) (fst y)).
Definition ranked (d : gmap str Z) : list (str * Z) := sort_by tuple_ltb (map_to_list d).
Definition shown (d : gmap str Z) (n : Z) : list (str * Z) :=
  let tuples := ranked d in
  if (Z.of_nat (length tuples) >? n)%Z then slice_to tuples n else tuples.

Definition is_builtin (loc : str) : bool :=
  startswith loc "DafnyPre" || startswith loc "funType" || startswith loc "unknown" ||
  startswith loc "cast:" || startswith loc "typeInv".

Section profiler.
Context (colored : str -> str -> str) (popen : list str -> list str).

Definition display_line (t : str * Z) : str :=
  let color : str := if is_builtin (fst t) then "grey" else "white" in
  pad_left 10 (dec_Z (snd t)) ++ " " ++ colored (fst t) color.
Definition Profiler_display (d : gmap str Z) (label : str) (n : Z) : list str :=
  (pad_left 10 label ++ " ") :: map display_line (shown d n).
(** [Profile.display] shows everything. *)
Definition Profile_display (d : gmap str Z) (label : str) : list str :=
  (pad_left 10 label ++ " ") :: map display_line (ranked d).

(** [Profiler.run]: the lines printed after the command. *)
Definition Profiler_run (a : profile_args) : res (list str) :=
  let out := popen (profile_command a) in
  p ← profile_lines out;
  source ← (if bool_decide (metric a = # "max") then Ok (by_max p)
            else if bool_decide (metric a = # "sum") then Ok (by_sum p)
            else if bool_decide (metric a = # "count") then Ok (by_count p)
            else Raise KeyError);
  Ok (running_command a ++ echoed out ++ Profiler_display source (metric a) (show a)).

(** The script. *)
Definition profile_script (exists_path : str -> bool) (scriptdir : str) (argv : list str) : res (list str) :=
  ns ← parse_args (profile_parser (profile_dafny_default exists_path scriptdir)) argv;
  a ← profile_args_of ns;
  Profiler_run a.
End profiler.

(** ** profile-reader.py *)

(** [ParsedQILog.__init__]. *)
Definition qi_line (m : gmap str Z) (line : str) : res (gmap str Z) :=
  let fs := fields line in
  if (length fs <? 6) || negb (bool_decide (head fs = Some (# "Prover"))) then Ok m
  else
    loc ← nth_res fs 3;
    w ← nth_res fs 5; count ← py_int w;
    let m := match m !! loc with Some _ => m | None => <[loc := 0%Z]> m end in
    Ok (if (count >? get0 m loc)%Z then <[loc := count]> m else m).
Definition ParsedQILog (lines : list str) : res (gmap str Z) := for_each qi_line lines ∅.

(** [pairs.sort()] on (count, loc), and a line per pair. *)
Definition pair_ltb (x y : str * Z) : bool :=
  (snd x <? snd y)%Z || ((snd x =? snd y)%Z && str_ltb (fst x) (fst y)).
Definition qi_display (m : gmap str Z) : list str :=
  map (fun '(loc, count) => pad_left 8 (dec_Z count) ++ " " ++ pad_right 1 loc)
    (sort_by pair_ltb (map_to_list m)).

Record compare_record := CompareRecord { loc : str; small_value : Z; big_value : Z; ratio : num }.
Definition CompareRecord_init (l : str) (small big : Z) : res compare_record :=
  r ← (if (small =? 0)%Z then Ok (NInt 99)
       else (d ← int_to_float small; x ← num_div (NInt big) d; Ok (NFloat x)));
  Ok (CompareRecord l small big r).
Definition compare_repr (c : compare_record) : res str :=
  r ← to_float (ratio c);
  Ok (pad_left 6 (fmt_fixed 1 r) ++ " " ++ pad_left 8 (dec_Z (small_value c)) ++ " " ++
      pad_left 8 (dec_Z (big_value c)) ++ " " ++ pad_right 1 (loc c)).

(** [Comparison]: [locs] is the union of two sets, in the order the set is
    iterated. *)
Definition get1 (d : gmap str Z) (l : str) : Z := default 1%Z (d !! l).
Definition compare_logs `{SetOrder} (small big : gmap str Z) : res (list compare_record) :=
  let locs := set_order (elements (dom small ∪ dom big)) in
  map_res (fun l => CompareRecord_init l (get1 small l) (get1 big l)) locs.
Definition compare_display (recs : list compare_record) : res (list str) :=
  map_res compare_repr (sort_by (fun a b => (big_value a <? big_value b)%Z) recs).

Definition profile_reader_main (cwd : str) `{SetOrder} (fs : gmap str str) (args : list str) : res (list str) :=
  let parsed f := (c ← py_open cwd fs f; ParsedQILog (readlines c)) in
  match args with
  | [f] => m ← parsed f; Ok (qi_display m)
  | [f1; f2] =>
      small ← parsed f1; big ← parsed f2;
      recs ← compare_logs small big; compare_display recs
  | _ => Ok []
  end.

(** ** Tallies *)

(** The count of a matching line is a numeral, so reading a line never fails. *)
Lemma quantifier_hit_total line : exists hit, quantifier_hit line = Ok hit.
Proof.
  unfold quantifier_hit. destruct (search quantifier_pattern (strip line)) as [mo|] eqn:E; [|by eexists].
  apply search_matches in E as (st & H & Hc). unfold quantifier_pattern in H. cbn [seqs] in H.
  inversion H as [| |? ? ? s1 ? A1 H1| | | | | | | | | | | |]; subst; clear H.
  inversion H1 as [| |? ? ? s2 ? A2 H2| | | | | | | | | | | |]; subst; clear H1.
  inversion H2 as [| |? ? ? s3 ? A3 H3| | | | | | | | | | | |]; subst; clear H2.
  inversion H3 as [| |? ? ? s4 ? A4 H4| | | | | | | | | | | |]; subst; clear H3.
  inversion H4 as [| |? ? ? s5 ? A5 A6| | | | | | | | | | | |]; subst; clear H4.
  apply matches_groupless in A1; [|reflexivity]. apply matches_groupless in A3; [|reflexivity].
  apply matches_groupless in A4; [|done]. apply matches_groupless in A6; [|reflexivity].
  apply matches_Grp_digits in A5 as (ds & Hne & Hds & Hc5).
  inversion A2 as [| | | | | | |? ? ? s2' A2'| | | | | | |]; subst.
  apply matches_groupless in A2'; [|done].
  unfold group. rewrite A6, Hc5, A4, A3. cbn. rewrite py_int_digits by done. by eexists.
Qed.

(** The counts reported for a location, in order. *)
Definition counts_of (l : str) (hits : list (option (str * Z))) : list Z :=
  omap (fun h => '(l', c) ← h; if decide (l' = l) then Some c else None) hits.

(** What a tally holds for a location after more counts. *)
Definition tally (f : list Z -> Z -> Z) (old : option Z) (cs : list Z) : option Z :=
  match cs with [] => old | _ => Some (f cs (default 0%Z old)) end.

Lemma tally_cons (g : Z -> Z -> Z) d l c cs :
  tally (fold_left g) (<[l := g (get0 d l) c]> d !! l) cs = tally (fold_left g) (d !! l) (c :: cs).
Proof. rewrite lookup_insert_eq. by destruct cs. Qed.

Lemma profile_lines_tally lines p0 :
  exists hits p, map_res quantifier_hit lines = Ok hits /\ for_each profile_line lines p0 = Ok p /\
  forall l, by_max p !! l = tally (fold_left Z.max) (by_max p0 !! l) (counts_of l hits) /\
            by_sum p !! l = tally (fold_left Z.add) (by_sum p0 !! l) (counts_of l hits) /\
            by_count p !! l = tally (fold_left (fun n _ => n + 1)%Z) (by_count p0 !! l) (counts_of l hits).
Proof.
  revert p0. induction lines as [|line lines IH]; intros p0; [by exists [], p0|].
  destruct (quantifier_hit_total line) as [hit Hh].
  set (p1 := match hit with Some (l, c) => record_hit p0 l c | None => p0 end).
  destruct (IH p1) as (hits & p & H1 & H2 & H3). exists (hit :: hits), p.
  cbn [map_res for_each].
  assert (profile_line p0 line = Ok p1) as -> by (unfold profile_line; by rewrite Hh).
  rewrite Hh, !bind_of_Ok, H1, H2. cbn [mbind res_bind].
  split; [done|]. split; [done|].
  intros l. destruct (H3 l) as (-> & -> & ->). subst p1.
  destruct hit as [[l' c]|]; [|done]. cbn [counts_of omap list_omap mbind option_bind].
  destruct (decide (l' = l)) as [->|Hne]; cbn [record_hit by_max by_sum by_count].
  - split_and!; [apply (tally_cons Z.max)|apply (tally_cons Z.add)|].
    exact (tally_cons (fun n _ => n + 1)%Z _ _ c _).
  - by rewrite !lookup_insert_ne by done.
Qed.

(** The profile of any output of Dafny: it is always produced, and for each
    location the three tables hold the largest, the sum and the number of the
    counts reported for it; a location without a report is in none of them. *)
Theorem profile_accumulates lines :
  exists hits p, map_res quantifier_hit lines = Ok hits /\ profile_lines lines = Ok p /\
  forall l, let cs := counts_of l hits in
    (cs = [] -> by_max p !! l = None /\ by_sum p !! l = None /\ by_count p !! l = None) /\
    (cs <> [] -> by_max p !! l = Some (fold_left Z.max cs 0%Z) /\ by_sum p !! l = Some (fold_left Z.add cs 0%Z) /\
                 by_count p !! l = Some (Z.of_nat (length cs))).
Proof.
  destruct (profile_lines_tally lines new_profile) as (hits & p & H1 & H2 & H3).
  exists hits, p. split; [done|]. split; [done|]. intros l cs.
  destruct (H3 l) as (-> & -> & ->). unfold new_profile. cbn [by_max by_sum by_count]. rewrite !lookup_empty.
  fold cs. split; [by intros ->|]. intros Hn. destruct cs as [|c cs]; [done|]. split_and!; [done|done|].
  unfold tally. f_equal. cbn [default length].
  assert (Hc : forall l n, fold_left (fun n _ => n + 1)%Z (l : list Z) n = (n + Z.of_nat (length l))%Z).
  { clear. induction l as [|x l IH]; intros n; cbn; [lia|]. rewrite IH. lia. }
  rewrite Hc. cbn. lia.
Qed.

(** ** The script *)

(** What each metric makes of the counts of a location. *)
Definition metric_of (m : str) (cs : list Z) : option Z :=
  if bool_decide (m = # "max") then Some (fold_left Z.max cs 0%Z)
  else if bool_decide (m = # "sum") then Some (fold_left Z.add cs 0%Z)
  else if bool_decide (m = # "count") then Some (Z.of_nat (length cs))
  else None.

(** Reading the options fails only where the separator was given as a value. *)
Lemma texts_read ns name l :
  ns !! name = Some (VList l) -> Forall (fun v => v = VList [] \/ exists s, v = VStr s) l -> reads ns (texts_of_aval (VList l)).
Proof.
  intros Hn Hl. cbn [texts_of_aval].
  assert (H : reads ns (map_res (fun x => match x with VStr s => Ok s | _ => Raise TypeError end) l)).
  { assert (Hi : forall x, x ∈ l -> x = VList [] -> separator_given ns) by (intros x Hx ->; exists name, l; auto).
    clear Hn. induction Hl as [|v l Hv Hl IH]; [done|]. cbn [map_res]. apply reads_bind.
    - destruct Hv as [->|(s & ->)]; [|done]. split; [done|]. by eapply Hi; [apply list_elem_of_here|].
    - intros s _. apply reads_bind; [|done]. apply IH. intros x Hx. by apply Hi, list_elem_of_further. }
  by destruct (map_res _ l).
Qed.

Lemma profile_args_read dafny_default ns :
  namespace_typed (profile_parser dafny_default) ns -> reads ns (profile_args_of ns).
Proof.
  intros Hns. set (p := profile_parser dafny_default) in *.
  assert (Hin : forall k a, p !! k = Some a -> a ∈ p) by (intros k a; apply list_elem_of_lookup_2).
  assert (Htext : forall k a, p !! k = Some a -> a_action a = Store -> a_int a = false ->
    a_required a = true \/ (exists s, a_default a = VStr s) -> reads ns (attr_text ns (a_dest a))).
  { intros k a Hk. by apply (reads_text p ns a Hns), (Hin k). }
  assert (Hstr : forall k a, p !! k = Some a -> a_action a = Store -> a_int a = false ->
    a_required a = true \/ (exists z, a_default a = VInt z) ->
    exists v s, attribute ns (a_dest a) = Ok v /\ str_of_aval v = Ok s).
  { intros k a Hk Hs Hi Hd. destruct (reads_attr p ns a Hns (Hin k a Hk)) as (v & Hv & _ & Hg); [by rewrite Hs|].
    exists v. unfold given, converted in Hg. rewrite Hs, Hi in Hg. destruct Hg as [[->|(s & -> & _)]|[-> Hr]]; [by eexists..|].
    destruct Hd as [Hd|(z & E)]; [congruence|]. rewrite E in *. by eexists. }
  unfold profile_args_of.
  apply reads_bind; [exact (Htext 1 (positional "timelimit") eq_refl eq_refl eq_refl (or_introl eq_refl))|]. intros t _.
  destruct (Hstr 2 (positional "proc") eq_refl eq_refl eq_refl (or_introl eq_refl)) as (v & q & Hv & Hq).
  change (a_dest (positional "proc")) with (# "proc") in Hv. rewrite Hv, bind_of_Ok, Hq, bind_of_Ok.
  apply reads_bind; [exact (Htext 3 (positional "filename") eq_refl eq_refl eq_refl (or_introl eq_refl))|]. intros f _.
  apply reads_bind; [exact (Htext 4 (option_choice "--metric" (VStr "max") false metrics) eq_refl eq_refl eq_refl
                              (or_intror (ex_intro _ _ eq_refl)))|]. intros m _.
  apply reads_bind; [exact (Htext 5 (option_text "--dafny" (VStr dafny_default)) eq_refl eq_refl eq_refl
                              (or_intror (ex_intro _ _ eq_refl)))|]. intros d _.
  destruct (reads_attr p ns (option_append "--arg") Hns (Hin 6 _ eq_refl)) as (x & Hx & Hl & Hg); [done|].
  change (a_dest (option_append "--arg")) with (# "arg") in Hx, Hl. rewrite Hx, bind_of_Ok.
  apply reads_bind.
  { destruct Hg as [(l & -> & Hg)|[-> _]]; [|done]. eapply texts_read; [exact Hl|].
    eapply Forall_impl; [exact Hg|]. intros y [->|(s & -> & _)]; [by left|right; by exists s]. }
  intros xs _. destruct (Hstr 7 (option_text "--freq" (VInt 1000)) eq_refl eq_refl eq_refl (or_intror (ex_intro _ _ eq_refl)))
    as (y & q' & Hy & Hq'). change (a_dest (option_text "--freq" (VInt 1000))) with (# "freq") in Hy.
  rewrite Hy, bind_of_Ok, Hq', bind_of_Ok.
  apply reads_bind; [|done].
  exact (reads_int p ns (option_int "--show" (VInt 30)) 30 Hns (Hin 8 _ eq_refl) eq_refl eq_refl eq_refl).
Qed.

Lemma profile_metric dafny_default argv :
  ends (fun ns => forall a, profile_args_of ns = Ok a -> metric a ∈ metrics) (parse_args (profile_parser dafny_default) argv).
Proof.
  eapply ends_weaken; [apply parse_args_typed; vm_compute; reflexivity|].
  intros ns Hns a Ha. set (m := option_choice "--metric" (VStr "max") false metrics).
  destruct (Hns m) as (v & Hv & Hg); [by do 4 apply list_elem_of_further; apply list_elem_of_here|done|].
  unfold profile_args_of in Ha. repeat (apply bind_Ok in Ha as (? & ? & Ha)). injection Ha as <-. cbn [metric].
  match goal with H : attr_text ns (# "metric") = Ok ?x |- _ => rename H into Hm end.
  unfold attr_text, attribute in Hm. change (a_dest m) with (# "metric") in Hv. rewrite Hv in Hm.
  destruct Hg as [[->|(s & -> & Hs)]|[-> _]]; [done|by injection Hm as <-|]. injection Hm as <-. apply list_elem_of_here.
Qed.

(** ** The ranking *)

#[export] Instance tuple_order : WeakOrder tuple_ltb.
Proof.
  split.
  - intros [l v] [l' v']. unfold tuple_ltb. cbn.
    rewrite orb_true_iff, orb_false_iff, andb_true_iff, andb_false_iff, Z.ltb_lt, Z.ltb_ge, Z.eqb_eq, Z.eqb_neq.
    intros [H|[H1 H2]]; [lia|]. split; [lia|]. right. by apply str_ltb_asym.
  - intros [l v] [l' v'] [l'' v'']. unfold tuple_ltb. cbn.
    rewrite !orb_false_iff, !andb_false_iff, !Z.ltb_ge, !Z.eqb_neq.
    intros [H1 H2] [H3 H4]. split; [lia|].
    destruct (decide (v'' = v)) as [->|]; [|by left]. right.
    destruct H2 as [H2|H2], H4 as [H4|H4]; [lia..|]. by eapply str_ltb_le_trans.
Qed.

(** The [n] locations with the largest values, each with its value, in
    decreasing order; all of them when there are fewer. *)
Definition largest_first (d : gmap str Z) (n : nat) (top : list (str * Z)) : Prop :=
  length top = Nat.min n (size d) /\
  (forall l v, (l, v) ∈ top -> d !! l = Some v) /\
  StronglySorted (fun a b => snd b <= snd a)%Z top /\
  (forall l v l' v', (l, v) ∈ top -> d !! l' = Some v' -> (l', v') ∉ top -> (v' <= v)%Z).

Theorem shown_are_largest (d : gmap str Z) (n : nat) : largest_first d n (shown d (Z.of_nat n)).
Proof.
  unfold largest_first. set (top := shown d (Z.of_nat n)). pose proof (sort_by_Permutation tuple_ltb (map_to_list d)) as Hp. fold (ranked d) in Hp.
  pose proof (sort_by_sorted tuple_ltb (map_to_list d)) as Hs. fold (ranked d) in Hs.
  assert (Ht : top = take n (ranked d)).
  { unfold top, shown, slice_to, slice_end. rewrite (proj2 (Z.ltb_ge (Z.of_nat n) 0)) by apply Nat2Z.is_nonneg. rewrite Nat2Z.id.
    rewrite Z.gtb_ltb. destruct (Z.of_nat n <? _)%Z eqn:E; [done|]. rewrite take_ge; [done|lia]. }
  assert (Hin : forall x, x ∈ ranked d <-> x ∈ map_to_list d) by (intros; by rewrite Hp).
  apply (StronglySorted_weaken _ (fun a b => snd b <= snd a)%Z) in Hs.
  2: { intros [l v] [l' v']. unfold tuple_ltb. cbn. rewrite orb_false_iff, Z.ltb_ge. intros [? _]. lia. }
  rewrite <- (take_drop n (ranked d)) in Hs, Hin. rewrite <- Ht in Hs, Hin.
  apply StronglySorted_app in Hs as (Hlt & Hs1 & _).
  split_and!; [| |done|].
  - rewrite Ht, length_take. f_equal. rewrite Hp. apply length_map_to_list.
  - intros l v H. apply elem_of_map_to_list, Hin, elem_of_app. by left.
  - intros l v l' v' H1 H2 H3. apply elem_of_map_to_list, Hin in H2. apply elem_of_app in H2 as [H2|H2]; [done|].
    exact (Hlt (l, v) (l', v') H1 H2).
Qed.

(** ** The report of a run *)

(** A namespace with given attributes. *)
Lemma take_append a s st :
  a_action a = Append -> a_int a = false -> a_choices a = None -> s <> # "--" ->
  take_value a s st =
    Ok (with_namespace a (<[a_dest a := VList (match namespace st !! a_dest a with Some (VList l) => l | _ => [] end ++ [VStr s])]> (namespace st)) st).
Proof.
  intros Ha Hi Hc Hs. unfold take_value, get_values, convert, perform_action.
  by rewrite bool_decide_eq_false_2, Hi, bind_of_Ok, Hc, Ha by done.
Qed.

(** An attribute that is set when there is a value for it. *)
Definition set_if (k : str) (o : option aval) (ns : gmap str aval) : gmap str aval :=
  match o with Some v => <[k := v]> ns | None => ns end.

Lemma lookup_set_if k o ns j :
  set_if k o ns !! j = if bool_decide (k = j) then match o with Some v => Some v | None => ns !! j end else ns !! j.
Proof. destruct o; cbn [set_if]; case_bool_decide; subst; by rewrite ?lookup_insert_eq, ?lookup_insert_ne. Qed.

Lemma lookup_set_if_eq k o ns : set_if k o ns !! k = match o with Some v => Some v | None => ns !! k end.
Proof. by rewrite lookup_set_if, bool_decide_eq_true_2. Qed.
Lemma lookup_set_if_ne k o ns j : bool_decide (k = j) = false -> set_if k o ns !! j = ns !! j.
Proof. intros H. by rewrite lookup_set_if, H. Qed.

Ltac lookups := repeat (rewrite lookup_set_if_eq || rewrite lookup_set_if_ne by (vm_compute; reflexivity)).

(** Reading the tokens sets the attribute and changes nothing else. *)
Definition sets (tokens : list token) (k : str) (o : option aval) (st : arg_state) : Prop :=
  exists more, for_each meaning tokens st =
    Ok (ArgState (set_if k o (namespace st)) (Argparse.seen st ++ more) (Argparse.positionals st) (extras st)).

Lemma sets_nothing k st : sets [] k None st.
Proof. exists []. rewrite app_nil_r. by destruct st. Qed.

Lemma take_given flag a o st :
  a_action a = Store -> a_int a = false -> a_choices a = None -> (forall s, o = Some s -> s <> # "--") ->
  sets (given_option flag a o) (a_dest a) (VStr <$> o) st.
Proof.
  intros Ha Hi Hc Hs. destruct o as [s|]; [|apply sets_nothing]. exists [a_dest a]. cbn [given_option for_each meaning].
  by rewrite (take_text a s st Ha Hi Hc (Hs s eq_refl)).
Qed.

Lemma take_metric d o st :
  (forall m, o = Some m -> m ∈ metrics) ->
  sets (given_option "--metric" (option_choice "--metric" d false metrics) o) "metric" (VStr <$> o) st.
Proof.
  intros Hm. destruct o as [m|]; [|apply sets_nothing]. specialize (Hm m eq_refl). exists [ # "metric"].
  cbn [given_option for_each meaning].
  unfold take_value, get_values, convert, option_choice. cbn [a_int a_choices a_action].
  rewrite (bool_decide_eq_true_2 (m ∈ metrics)) by done. rewrite bool_decide_eq_false_2; [done|].
  intros ->. unfold metrics in Hm. rewrite !elem_of_cons in Hm.
  destruct Hm as [Hm|[Hm|[Hm|Hm]]]; [discriminate Hm..|by apply not_elem_of_nil in Hm].
Qed.

Lemma take_show d o st : sets (given_option "--show" (option_int "--show" d) (dec_Z <$> o)) "show" (VInt <$> o) st.
Proof.
  destruct o as [z|]; [|apply sets_nothing]. exists [ # "show"].
  cbn [given_option fmap option_fmap option_map for_each meaning]. by rewrite take_int.
Qed.

(** Giving [--arg] several times collects the values. *)
Lemma take_args (l : list str) st old :
  Forall (fun s => s <> # "--") l -> match namespace st !! (# "arg") with Some (VList l) => l | _ => [] end = old ->
  sets (map (GiveEquals "--arg" (option_append "--arg")) l) "arg"
    (match l with [] => None | _ => Some (VList (old ++ map VStr l)) end) st.
Proof.
  intros Hl. revert st old. induction Hl as [|s l Hs Hl IH]; intros st old Hold; [apply sets_nothing|].
  unfold sets. cbn [map for_each meaning]. rewrite take_append, bind_of_Ok by done.
  change (a_dest (option_append "--arg")) with (# "arg"). rewrite Hold.
  edestruct IH as (more & ->); [cbn [namespace with_namespace]; rewrite lookup_insert_eq; reflexivity|].
  eexists. cbn [namespace with_namespace Argparse.seen Argparse.positionals extras]. f_equal.
  destruct l as [|s' l]; cbn [set_if map]; by rewrite ?insert_insert_eq, <- !app_assoc.
Qed.

Lemma next_text a ps s st :
  positionals st = a :: ps -> a_action a = Store -> a_int a = false -> a_choices a = None -> s <> # "--" ->
  next_positional s st =
    Ok (with_namespace a (<[a_dest a := VStr s]> (namespace st)) (ArgState (namespace st) (Argparse.seen st) ps (extras st))).
Proof. intros E ????. unfold next_positional. by rewrite E, take_text. Qed.

Lemma texts_of_list l : texts_of_aval (VList (map VStr l)) = Ok (Some l).
Proof.
  cbn [texts_of_aval]. enough (map_res (fun x => match x with VStr s => Ok s | _ => Raise TypeError end) (map VStr l) = Ok l) as -> by done.
  induction l as [|s l IH]; [done|]. cbn [map map_res]. by rewrite IH.
Qed.

(** A command line written out is read as what it asks for. *)
Lemma profile_words_read d o :
  options_ok d o -> exists ns, parse_args (profile_parser d) (profile_words d o) = Ok ns /\ profile_args_of ns = Ok (asked d o).
Proof.
  intros (Hp & Hm & Hs). unfold profile_words. rewrite parse_rendered; [|vm_compute; reflexivity|].
  2:{ rewrite !Forall_cons in Hp. destruct Hp as (H1 & H2 & H3 & _). unfold profile_tokens.
      rewrite !Forall_app. split; [|split_and!].
      1: apply Forall_cons_2; [exact H1|apply Forall_cons_2; [exact H2|apply Forall_cons_2; [exact H3|apply Forall_nil_2]]].
      1-4: match goal with |- Forall _ (given_option _ _ ?x) => destruct x end; repeat constructor; vm_compute; reflexivity.
      apply Forall_map, Forall_true. intros x. split; vm_compute; reflexivity. }
  rewrite !Forall_cons in Hp. destruct Hp as ([H1 _] & [H2 _] & [H3 _] & _).
  set (p := profile_parser d) in *.
  assert (Hpos : exists st, for_each meaning [GivePositional (o_timelimit o); GivePositional (o_proc o); GivePositional (o_filename o)] (initial_state p) =
      Ok st /\ namespace st = set_if "filename" (Some (VStr (o_filename o))) (set_if "proc" (Some (VStr (o_proc o)))
        (set_if "timelimit" (Some (VStr (o_timelimit o))) (defaults p))) /\
      Argparse.seen st = [ # "timelimit"; # "proc"; # "filename"] /\ extras st = []).
  { eexists. split; [cbn [for_each meaning]|].
    - rewrite (next_text (positional "timelimit") [positional "proc"; positional "filename"]), bind_of_Ok by done.
      rewrite (next_text (positional "proc") [positional "filename"]), bind_of_Ok by done.
      rewrite (next_text (positional "filename") []), bind_of_Ok by done. reflexivity.
    - split_and!; reflexivity. }
  destruct Hpos as (s0 & E0 & N0 & S0 & X0). unfold profile_tokens. rewrite for_each_app, E0, bind_of_Ok.
  rewrite for_each_app. edestruct (take_metric (VStr "max") (o_metric o) s0) as (m1 & ->); [done|]. rewrite bind_of_Ok, for_each_app.
  edestruct (take_given "--dafny" (option_text "--dafny" (VStr d)) (o_dafny o)) as (m2 & ->); [done..|intros; apply Hs; auto|].
  change (a_dest (option_text "--dafny" (VStr d))) with (# "dafny"). rewrite bind_of_Ok, for_each_app.
  edestruct (take_given "--freq" (option_text "--freq" (VInt 1000)) (o_freq o)) as (m3 & ->); [done..|intros; apply Hs; auto|].
  change (a_dest (option_text "--freq" (VInt 1000))) with (# "freq"). rewrite bind_of_Ok, for_each_app.
  edestruct (take_show (VInt 30) (o_show o)) as (m4 & ->). rewrite bind_of_Ok.
  assert (D : defaults p !! (# "metric") = Some (VStr "max") /\ defaults p !! (# "dafny") = Some (VStr d) /\
    defaults p !! (# "freq") = Some (VInt 1000) /\ defaults p !! (# "show") = Some (VInt 30) /\ defaults p !! (# "arg") = Some VNone)
    by (split_and!; vm_compute; reflexivity).
  destruct D as (D1 & D2 & D3 & D4 & D5).
  match goal with |- context [for_each meaning (map _ _) ?st] => edestruct (take_args (o_args o) st []) as (m5 & ->) end;
    [apply Forall_forall; intros; apply Hs; auto| |].
  { cbn [namespace Argparse.seen Argparse.positionals extras]. rewrite N0. lookups. by rewrite D5. }
  rewrite bind_of_Ok. unfold finish.
  assert (Hmi : forall ns more ps xs, missing p (ArgState ns ([ # "timelimit"; # "proc"; # "filename"] ++ more) ps xs) = [])
    by (intros; vm_compute; reflexivity).
  cbn [namespace Argparse.seen Argparse.positionals extras]. rewrite X0, S0, <- !app_assoc, Hmi.
  eexists. split; [reflexivity|]. cbn [namespace Argparse.seen Argparse.positionals extras]. rewrite N0.
  unfold profile_args_of, attr_text, attr_int, attribute. lookups. rewrite D1, D2, D3, D4, D5.
  assert (Et : forall (o : option str) x, match VStr <$> o with Some v => Some v | None => Some (VStr x) end = Some (VStr (default x o))) by by intros [].
  assert (Ei : forall (o : option Z) x, match VInt <$> o with Some v => Some v | None => Some (VInt x) end = Some (VInt (default x o))) by by intros [].
  assert (Ea : texts_of_aval (default VNone (match o_args o with [] => None | _ => Some (VList ([] ++ map VStr (o_args o))) end)) =
               Ok (match o_args o with [] => None | l => Some l end)) by (destruct (o_args o); [done|apply texts_of_list]).
  assert (Ed : forall (v : option aval) x, match v with Some v => Some v | None => Some x end = Some (default x v)) by by intros [].
  assert (Ef : str_of_aval (default (VInt 1000) (VStr <$> o_freq o)) = Ok (default (# "1000") (o_freq o))) by by destruct (o_freq o).
  rewrite !Et, Ei, !Ed. cbn [of_option]. repeat (rewrite bind_of_Ok; cbn [str_of_aval]).
  rewrite Ea. repeat rewrite bind_of_Ok. rewrite Ef. by repeat rewrite bind_of_Ok.
Qed.

(** What the script prints for its options [a]: the command, the lines of the
    output of Dafny that are not blank nor prover errors, and the ranking.  The
    table ranked holds, for each location of the output, what the metric makes
    of the counts reported for it, and no other location. *)
Definition prints_report (colored : str -> str -> str) (popen : list str -> list str) (a : profile_args) (printed : list str) : Prop :=
  let cmd := [dafny a; # "/timeLimit:" ++ timelimit a; # "/proc:" ++ proc a; # "/proverOpt:O:smt.qi.profile=true";
              # "/proverOpt:O:smt.qi.profile_freq=" ++ freq a] ++ default [] (extra a) ++ [a_filename a] in
  exists hits d,
    map_res quantifier_hit (popen cmd) = Ok hits /\
    (forall l, d !! l = match counts_of l hits with [] => None | cs => metric_of (metric a) cs end) /\
    (forall n, show a = Z.of_nat n -> largest_first d n (shown d (show a))) /\
    printed = [ # "Running command:"; join " " cmd; []] ++ echoed (popen cmd) ++
              (pad_left 10 (metric a) ++ " ") :: map (display_line colored) (shown d (show a)).

Lemma Profiler_run_prints colored popen a :
  metric a ∈ metrics -> exists printed, Profiler_run colored popen a = Ok printed /\ prints_report colored popen a printed.
Proof.
  intros Hm. unfold Profiler_run.
  destruct (profile_accumulates (popen (profile_command a))) as (hits & p & H1 & -> & H2). rewrite bind_of_Ok.
  assert (Hs : exists d,
    (if bool_decide (metric a = # "max") then Ok (by_max p) else if bool_decide (metric a = # "sum") then Ok (by_sum p)
     else if bool_decide (metric a = # "count") then Ok (by_count p) else Raise KeyError) = Ok d /\
    forall l, d !! l = match counts_of l hits with [] => None | cs => metric_of (metric a) cs end).
  { unfold metrics in Hm. rewrite !elem_of_cons in Hm.
    destruct Hm as [->|[->|[->|Hm]]]; [..|by apply not_elem_of_nil in Hm]; (eexists; split; [reflexivity|]); intros l;
      destruct (H2 l) as [Hn Hc]; destruct (counts_of l hits) eqn:Ec; try (by apply Hn); by apply Hc. }
  destruct Hs as (d & -> & Hd). rewrite bind_of_Ok. eexists. split; [done|]. exists hits, d. split; [exact H1|]. split; [exact Hd|]. split; [|reflexivity].
  intros n ->. apply shown_are_largest.
Qed.

(** C32. dafny-profile.py from its command line, whatever Dafny prints.  On any
    command line the script either ends on its options (help, an error message,
    or a value that is the separator) or prints the report for the options argparse
    read from it: the command with these options, the lines of Dafny's output that
    are not blank nor prover errors, and the locations ranked by the metric, which
    is the largest, the sum or the number of the counts reported for each,
    the number asked for of them, largest first.  A command line that gives the
    three positionals and any of the options is read as what it says: the time
    limit, procedure and file in that order, each option's value where it is given
    and its default where it is not, and the extra arguments in order. *)
Theorem profile_script_reports colored popen exists_path scriptdir :
  let dafny_default := profile_dafny_default exists_path scriptdir in
  (forall argv,
     match profile_script colored popen exists_path scriptdir argv with
     | Raise e => e = SystemExit \/ (exists msg, e = UsageError msg) \/
         e = TypeError /\ exists ns, parse_args (profile_parser dafny_default) argv = Ok ns /\ separator_given ns
     | Ok printed => exists ns a,
         parse_args (profile_parser dafny_default) argv = Ok ns /\ profile_args_of ns = Ok a /\
         metric a ∈ metrics /\ prints_report colored popen a printed
     end) /\
  (forall o, options_ok dafny_default o ->
     exists printed, profile_script colored popen exists_path scriptdir (profile_words dafny_default o) = Ok printed /\
       prints_report colored popen (asked dafny_default o) printed).
Proof.
  intros dafny_default. split.
  - intros argv. unfold profile_script. fold dafny_default. pose proof (profile_metric dafny_default argv) as Hm.
    destruct (parse_args _ argv) as [ns|e] eqn:E; [|by cbn in Hm |- *; naive_solver]. rewrite bind_of_Ok.
    destruct (profile_args_of ns) as [a|e] eqn:Ea; [rewrite bind_of_Ok|].
    + destruct (Profiler_run_prints colored popen a (Hm a Ea)) as (printed & -> & H). exists ns, a. split_and!; auto.
    + pose proof (parse_args_typed (profile_parser dafny_default) ltac:(vm_compute; reflexivity) argv) as Ht.
      rewrite E in Ht. apply profile_args_read in Ht. rewrite Ea in Ht. destruct Ht as [-> Hs]. right. right. split; [done|]. by exists ns.
  - intros o Ho. destruct (profile_words_read dafny_default o Ho) as (ns & E & Ea).
    unfold profile_script. fold dafny_default. rewrite E, bind_of_Ok, Ea, bind_of_Ok. apply Profiler_run_prints.
    destruct Ho as (_ & Hm & _). unfold asked. cbn [metric]. destruct (o_metric o) as [m|]; [by apply Hm|]. apply list_elem_of_here.
Qed.

(** Two locations ranked by the number of reports; Dafny is left at its default
    and given two arguments. *)
Definition demo_options : profile_options :=
  ProfileOptions "30" "Impl$$M.__default.f" "A.i.dfy" (Some (# "count")) None None (Some 1%Z) [ # "/trace"; # "--x=y"].
Definition demo_popen (cmd : list str) : list str :=
  [ # "[quantifier_instances] a.1 :  10 :"; # "[quantifier_instances] b.2 :   3 :"; # "[quantifier_instances] b.2 :   4 :"].

Example demo_words :
  profile_words "/dafny" demo_options =
  [ # "30"; # "Impl$$M.__default.f"; # "A.i.dfy"; # "--metric=count"; # "--show=1"; # "--arg=/trace"; # "--arg=--x=y"].
Proof. vm_compute. reflexivity. Qed.

Lemma profile_script_reports_witness :
  let dafny_default := profile_dafny_default (fun _ => true) "/r/tools" in
  exists printed,
    profile_script (fun s _ => s) demo_popen (fun _ => true) "/r/tools" (profile_words dafny_default demo_options) = Ok printed /\
    prints_report (fun s _ => s) demo_popen (asked dafny_default demo_options) printed /\
    List.last printed [] = # "         2 b.2".
Proof.
  intros dafny_default.
  destruct (proj2 (profile_script_reports (fun s _ => s) demo_popen (fun _ => true) "/r/tools") demo_options) as (printed & E & H).
  - split_and!.
    + repeat (apply Forall_cons_2; [split; [discriminate|vm_compute; reflexivity]|]). apply Forall_nil_2.
    + intros m [= <-]. by do 2 apply list_elem_of_further; apply list_elem_of_here.
    + intros s [Hs|[Hs|Hs]]; [discriminate Hs|discriminate Hs|].
      cbn in Hs. rewrite !elem_of_cons, elem_of_nil in Hs. by destruct Hs as [->|[->|[]]].
  - exists printed. split; [exact E|]. split; [exact H|]. vm_compute in E. injection E as <-. vm_compute. reflexivity.
Defined.

