(* ===== verification/Renaminator.v ===== *)
(** * Moving source files (tools/renaminator.py)

    The script catalogues the Dafny files below the working directory, collects
    the commands that move a file and rewrite the includes that name it, and
    runs them at the end.  [os.walk]'s answer and the files' contents are
    arguments; running a command is outside. *)
From S2P Require Import Prelude PyStr Paths.

(** ** State *)

Definition EXCLUDED_DIRS : list str := [ # ".dafny"; # "build"].

Definition cmd := list str.

Record renaminator := Renaminator {
  r_paths : list str;
  mkdirCmds : list cmd; fixCmds : list cmd; gitAddCmds : list cmd; gitCmds : list cmd
}.

(** ** Cataloguing *)

(** [root.split("/")] has the first component "."; [top[0]] fails on "". *)
Definition top_of (root : str) : res str :=
  match split_char slash root with
  | [w] => Ok w
  | ws => nth_res ws 1
  end.
Definition skipped (top : str) : res bool :=
  if bool_decide (top ∈ EXCLUDED_DIRS) then Ok true
  else c ← nth_res top 0; Ok (bool_decide (c = "."%char) && (1 <? length top)).

Definition catalog_dir (paths : list str) (entry : str * list str) : res (list str) :=
  let '(root, files) := entry in
  top ← top_of root;
  skip ← skipped top;
  Ok (if (skip : bool) then paths
      else paths ++ map (path_join root) (List.filter (fun f => endswith f ".dfy") files)).
Definition catalog (walk : list (str * list str)) : res (list str) := for_each catalog_dir walk [].

Definition Renaminator_init (walk : list (str * list str)) : res renaminator :=
  paths ← catalog walk; Ok (Renaminator paths [] [] [] []).

(** ** Collecting commands *)

Section commands.
Context (cwd : str) (fs : gmap str str).

Definition matching (paths : list str) (filename : str) : list str :=
  List.filter (fun path => endswith path ("/" ++ filename)) paths.

Definition findSourceDir (r : renaminator) (filename : str) : res str :=
  match matching (r_paths r) filename with
  | [] => Raise (PyException ("No path matches " ++ filename))
  | [path] => Ok (take (length path - (length filename + 1)) path)
  | l => Raise (PyException ("Multiple paths match " ++ filename ++ ": " ++ repr_list l))
  end.

Definition containsLine (filepath testString : str) : res bool :=
  contents ← py_open cwd fs filepath; Ok (contains testString (universal_newlines contents)).

Definition include_of (rel : str) : str := # "include " ++ ["034"%char] ++ rel ++ ["034"%char].

Definition fixReferrer (r : renaminator) (referrer sourceDir sourceFilename destDir destFilename : str)
    : res renaminator :=
  let referrerPath := dirname referrer in
  sourceRelative ← relpath cwd (path_join sourceDir sourceFilename) referrerPath;
  destRelative ← relpath cwd (path_join destDir destFilename) referrerPath;
  let expectInclude := include_of sourceRelative in
  let newInclude := include_of destRelative in
  hit ← containsLine referrer expectInclude;
  Ok (if (hit : bool) then
        Renaminator (r_paths r) (mkdirCmds r)
          (fixCmds r ++ [[ # "sed"; # "-i"; "/include/s#" ++ expectInclude ++ "#" ++ newInclude ++ "#"; referrer]])
          (gitAddCmds r ++ [[ # "git"; # "add"; referrer]]) (gitCmds r)
      else r).

Definition fix_all (r : renaminator) (sourceDir sourceFilename destDir destFilename : str) : res renaminator :=
  for_each (fun r referrer => fixReferrer r referrer sourceDir sourceFilename destDir destFilename) (r_paths r) r.

Definition relocate (r : renaminator) (filename destDir : str) : res renaminator :=
  let r := Renaminator (r_paths r) (mkdirCmds r ++ [[ # "mkdir"; destDir]]) (fixCmds r) (gitAddCmds r) (gitCmds r) in
  sourceDir ← findSourceDir r filename;
  let sourceName := path_join sourceDir filename in
  let destName := path_join destDir filename in
  let r := Renaminator (r_paths r) (mkdirCmds r) (fixCmds r) (gitAddCmds r)
             (gitCmds r ++ [[ # "git"; # "mv"; sourceName; destName]]) in
  fix_all r sourceDir filename destDir filename.

Definition renameInPlace (r : renaminator) (sourceName destName : str) : res renaminator :=
  sourceDir ← findSourceDir r sourceName;
  let sourcePath := path_join sourceDir sourceName in
  let destPath := path_join sourceDir destName in
  let r := Renaminator (r_paths r) (mkdirCmds r) (fixCmds r) (gitAddCmds r)
             (gitCmds r ++ [[ # "git"; # "mv"; sourcePath; destPath]]) in
  fix_all r sourceDir sourceName sourceDir destName.

(** [enact]: includes are rewritten before the files move. *)
Definition enact (r : renaminator) : list cmd := fixCmds r ++ mkdirCmds r ++ gitAddCmds r ++ gitCmds r.

Definition moveinto (r : renaminator) (destDir filenamesStr : str) : res renaminator :=
  for_each (fun r filename => relocate r filename destDir) (fields (strip filenamesStr)) r.

(** The script as checked in. *)
Definition renaminator_script (walk : list (str * list str)) : res (list cmd) :=
  r ← Renaminator_init walk;
  r ← moveinto r "lib/Lang" "NativeTypes.s.dfy";
  Ok (enact r).
End commands.

(** ** Where relative paths lead *)

Lemma isabs_prefix p q : p `prefix_of` q -> isabs p = true -> isabs q = true.
Proof.
  unfold isabs. rewrite !startswith_spec. intros [t ->] [u ->]. exists (u ++ t). by rewrite app_assoc.
Qed.

Lemma isabs_join a b : isabs b = false -> isabs a = false -> isabs (path_join a b) = false.
Proof.
  intros Hb Ha. unfold path_join. unfold isabs in Hb. rewrite Hb.
  destruct a as [|c a]; [done|]. rewrite bool_decide_eq_false_2 by done. cbn [orb].
  unfold isabs, startswith in *. destruct (endswith _ _); cbn in *; by rewrite !andb_false_iff in *.
Qed.

Lemma isabs_join_l a b : isabs a = true -> isabs (path_join a b) = true.
Proof.
  intros Ha. unfold path_join. destruct (startswith b "/") eqn:Hb; [done|].
  destruct (_ || _); (eapply isabs_prefix; [|exact Ha]); by eexists.
Qed.

Lemma rstrip_slashes_suffix r : exists t, r = t ++ rstrip_slashes_rev r.
Proof.
  induction r as [|c r (t & IH)]; cbn; [by exists []|].
  case_bool_decide; [exists (c :: t); cbn; by f_equal|by exists []].
Qed.

Lemma dirname_prefix p : dirname p `prefix_of` p.
Proof.
  assert (Hh : dir_head p `prefix_of` p) by (exists (drop (length p - length (basename p)) p); symmetry; apply take_drop).
  unfold dirname. destruct (forallb _ _); [done|]. etransitivity; [|exact Hh].
  destruct (rstrip_slashes_suffix (rev (dir_head p))) as (t & Ht). exists (rev t).
  rewrite <- rev_app_distr, <- Ht. by rewrite rev_involutive.
Qed.

Lemma relative_normal cwd p : normal_path cwd -> isabs p = false -> normal_path (abspath cwd p).
Proof.
  intros Hc Hp. apply abspath_is_normal; [done|]. unfold initial_slashes, isabs in *. by rewrite Hp.
Qed.

(** A relative path, followed from where it was computed, leads to its target. *)
Lemma relpath_leads cwd path start rel :
  normal_path cwd -> isabs path = false -> isabs start = false -> relpath cwd path start = Ok rel ->
  abspath cwd (path_join (abspath cwd start) rel) = abspath cwd path.
Proof.
  intros Hc Hp Hs Hr.
  pose proof (relative_normal cwd path Hc Hp) as HP. pose proof (relative_normal cwd start Hc Hs) as HS.
  rewrite <- (relpath_join cwd path start rel HP HS Hr). unfold abspath at 1.
  by rewrite isabs_join_l by (by apply normal_path_isabs).
Qed.

(** ** What moving a file collects *)

(** A rewriting of an include: the file, the include it has, the one it gets. *)
Record fix_of := Fix { f_referrer : str; f_old : str; f_new : str }.
Definition sed_of (f : fix_of) : cmd :=
  [ # "sed"; # "-i"; "/include/s#" ++ include_of (f_old f) ++ "#" ++ include_of (f_new f) ++ "#"; f_referrer f].
Definition add_of (f : fix_of) : cmd := [ # "git"; # "add"; f_referrer f].

Section fixes.
Context (cwd : str) (fs : gmap str str) (Hcwd : normal_path cwd).

(** Followed from the referrer's directory, [f_old] leads to the source and
    [f_new] to the target. *)
Definition redirects (source dest : str) (f : fix_of) : Prop :=
  abspath cwd (path_join (abspath cwd (dirname (f_referrer f))) (f_old f)) = abspath cwd source /\
  abspath cwd (path_join (abspath cwd (dirname (f_referrer f))) (f_new f)) = abspath cwd dest.

(** What is found for a catalogued file: the one spelling of the source, and of
    the target, that [relpath] gives from the file's directory, and whether the
    file's text has an include with that spelling. *)
Definition looked_up (source dest : str) (f : fix_of) (hit : bool) : Prop :=
  relpath cwd source (dirname (f_referrer f)) = Ok (f_old f) /\
  relpath cwd dest (dirname (f_referrer f)) = Ok (f_new f) /\
  redirects source dest f /\
  exists text, py_open cwd fs (f_referrer f) = Ok text /\
    hit = contains (include_of (f_old f)) (universal_newlines text).

Lemma fixReferrer_spec r referrer sd sf dd df r' :
  isabs referrer = false -> isabs (path_join sd sf) = false -> isabs (path_join dd df) = false ->
  fixReferrer cwd fs r referrer sd sf dd df = Ok r' ->
  exists f hit, f_referrer f = referrer /\ looked_up (path_join sd sf) (path_join dd df) f hit /\
    r' = Renaminator (r_paths r) (mkdirCmds r) (fixCmds r ++ if (hit : bool) then [sed_of f] else [])
           (gitAddCmds r ++ if hit then [add_of f] else []) (gitCmds r).
Proof.
  intros Hr Hs Hd H. unfold fixReferrer in H. res_inv.
  match goal with
  | H1 : relpath _ (path_join sd sf) _ = Ok ?o, H2 : relpath _ (path_join dd df) _ = Ok ?n,
    H3 : containsLine _ _ _ _ = Ok ?h |- _ =>
      exists (Fix referrer o n), h; rename H1 into Ho; rename H2 into Hn
  end.
  assert (Hdir : isabs (dirname referrer) = false).
  { destruct (isabs (dirname referrer)) eqn:E; [|done].
    by rewrite (isabs_prefix _ _ (dirname_prefix referrer) E) in Hr. }
  split_and!; [done| |].
  - unfold containsLine in *. res_inv. split_and!; [exact Ho|exact Hn|split; by apply relpath_leads|by eexists].
  - match goal with |- (if ?h then _ else _) = _ => destruct h end; [done|].
    rewrite !app_nil_r. by destruct r.
Qed.

(** The loop over the catalogue adds, in its order, a rewriting for each file
    that has the include. *)
Lemma fix_loop_spec paths r sd sf dd df r' :
  Forall (fun p => isabs p = false) paths ->
  isabs (path_join sd sf) = false -> isabs (path_join dd df) = false ->
  for_each (fun r referrer => fixReferrer cwd fs r referrer sd sf dd df) paths r = Ok r' ->
  exists fixes : list (fix_of * bool),
    map (fun x => f_referrer (fst x)) fixes = paths /\
    Forall (fun '(f, hit) => looked_up (path_join sd sf) (path_join dd df) f hit) fixes /\
    let hits := map fst (List.filter snd fixes) in
    r' = Renaminator (r_paths r) (mkdirCmds r) (fixCmds r ++ map sed_of hits) (gitAddCmds r ++ map add_of hits) (gitCmds r).
Proof.
  intros Hp Hs Hd. revert r. induction Hp as [|p paths Hp _ IH]; intros r H.
  - injection H as <-. exists []. cbn. rewrite !app_nil_r. destruct r. by split_and!.
  - cbn [for_each] in H. apply bind_Ok in H as (r1 & H1 & H).
    destruct (fixReferrer_spec _ _ _ _ _ _ _ Hp Hs Hd H1) as (f & hit & <- & Hf & ->).
    destruct (IH _ H) as (fixes & <- & Hfix & ->). exists ((f, hit) :: fixes).
    split; [done|]. split; [by constructor|]. cbn. destruct hit; cbn; by rewrite <- ?app_assoc, ?app_nil_r.
Qed.

Lemma findSourceDir_Ok r filename sd :
  findSourceDir r filename = Ok sd -> exists path, matching (r_paths r) filename = [path] /\ path = sd ++ "/" ++ filename.
Proof.
  unfold findSourceDir. destruct (matching (r_paths r) filename) as [|path [|]] eqn:E; [done| |done].
  intros [= <-]. exists path. split; [done|].
  assert (Hin : In path (matching (r_paths r) filename)) by (rewrite E; by left).
  apply filter_In in Hin as [_ (t & Ht)%endswith_spec]. rewrite Ht, !length_app. cbn [length String.list_ascii_of_string].
  replace (_ - _) with (length t) by lia. by rewrite take_app_length.
Qed.

(** C26. Moving a file by name.  It must be the only catalogued file of that
    name, otherwise the move is refused.  The commands create the directory, move
    the file once and rewrite, in exactly the catalogued files whose text has it,
    the include spelled as the path [relpath] gives from the file's directory to
    the moved file; it becomes the path [relpath] gives to the new place.  The old
    spelling leads to the file and the new one to where it goes.  An include that
    reaches the file by any other spelling is not looked for. *)
Theorem relocate_commands r filename destDir :
  Forall (fun p => isabs p = false) (r_paths r) -> isabs filename = false -> isabs destDir = false ->
  (forall r', relocate cwd fs r filename destDir = Ok r' ->
   exists sourceDir (entries : list (fix_of * bool)),
    let source := path_join sourceDir filename in
    let dest := path_join destDir filename in
    let hits := map fst (List.filter snd entries) in
    matching (r_paths r) filename = [sourceDir ++ "/" ++ filename] /\
    map (fun x => f_referrer (fst x)) entries = r_paths r /\
    Forall (fun '(f, hit) => looked_up source dest f hit) entries /\
    enact r' = (fixCmds r ++ map sed_of hits) ++ (mkdirCmds r ++ [[ # "mkdir"; destDir]]) ++
               (gitAddCmds r ++ map add_of hits) ++ (gitCmds r ++ [[ # "git"; # "mv"; source; dest]])) /\
  (length (matching (r_paths r) filename) <> 1 -> exists e, relocate cwd fs r filename destDir = Raise (PyException e)).
Proof.
  intros Hp Hf Hd. split.
  2:{ intros Hm. unfold relocate, findSourceDir. cbn [r_paths].
      destruct (matching (r_paths r) filename) as [|x [|y l]]; [by eexists|done|by eexists]. }
  intros r' H. unfold relocate in H. apply bind_Ok in H as (sd & Hsd & H).
  apply findSourceDir_Ok in Hsd as (path & Hm & ->). cbn [r_paths] in Hm.
  assert (Hs : isabs sd = false).
  { destruct (isabs sd) eqn:E; [|done]. rewrite Forall_forall in Hp.
    rewrite <- (Hp (sd ++ "/" ++ filename)); [symmetry; eapply isabs_prefix; [by eexists|exact E]|].
    assert (Hin : In (sd ++ "/" ++ filename) (matching (r_paths r) filename)) by (rewrite Hm; by left).
    apply filter_In in Hin as [Hin _]. by apply list_elem_of_In. }
  unfold fix_all in H. cbn [r_paths mkdirCmds fixCmds gitAddCmds gitCmds] in H.
  apply fix_loop_spec in H as (entries & He & Hent & ->); [|done|by apply isabs_join|by apply isabs_join].
  exists sd, entries. by split_and!.
Qed.
End fixes.

(** A source two directories use, one of them the moved file's own. *)
Definition q : str := ["034"%char].
Definition move_fs : gmap str str := list_to_map
  [ (# "/r/lib/Base/T.s.dfy", # "include " ++ q ++ "../Lang/L.s.dfy" ++ q ++ [nl]);
    (# "/r/lib/Lang/L.s.dfy", []);
    (# "/r/Impl/A.i.dfy", # "include " ++ q ++ "../lib/Base/T.s.dfy" ++ q ++ [nl]) ].
Definition move_walk : list (str * list str) :=
  [ (# ".", []); (# "./lib/Base", [ # "T.s.dfy"]); (# "./lib/Lang", [ # "L.s.dfy"; # "notes.txt"]);
    (# "./build/lib", [ # "T.s.dfy"]); (# "./Impl", [ # "A.i.dfy"]) ].
Definition move_start : renaminator :=
  Renaminator [ # "./lib/Base/T.s.dfy"; # "./lib/Lang/L.s.dfy"; # "./Impl/A.i.dfy"] [] [] [] [].

(** The catalogue skips the build directory; the one referrer is rewritten and
    the include inside the moved file is left as it was. *)
Example move_catalog : Renaminator_init move_walk = Ok move_start.
Proof. vm_compute. reflexivity. Qed.
Example own_include_kept :
  (r' ← relocate "/r" move_fs move_start "T.s.dfy" "Spec"; Ok (fixCmds r')) =
  Ok [sed_of (Fix "./Impl/A.i.dfy" "../lib/Base/T.s.dfy" "../Spec/T.s.dfy")].
Proof. vm_compute. reflexivity. Qed.

(** An include that goes out of its directory and back is left as it was,
    though it leads to the file that moves. *)
Definition betree_fs : gmap str str := list_to_map
  [ (# "/r/Betree/Betree.i.dfy", # "include " ++ q ++ "../Betree/Graph.i.dfy" ++ q ++ [nl]);
    (# "/r/Betree/Graph.i.dfy", []) ].
Example redundant_include_kept :
  (r' ← relocate "/r" betree_fs (Renaminator [ # "./Betree/Betree.i.dfy"; # "./Betree/Graph.i.dfy"] [] [] [] []) "Graph.i.dfy" "lib";
   Ok (enact r')) =
  Ok [[ # "mkdir"; # "lib"]; [ # "git"; # "mv"; # "./Betree/Graph.i.dfy"; # "lib/Graph.i.dfy"]] /\
  abspath "/r" (path_join (abspath "/r" (dirname "./Betree/Betree.i.dfy")) "../Betree/Graph.i.dfy") =
  abspath "/r" "./Betree/Graph.i.dfy".
Proof. vm_compute. split; reflexivity. Qed.

Lemma relocate_commands_witness :
  exists r', relocate "/r" move_fs move_start "T.s.dfy" "Spec" = Ok r' /\
  exists sourceDir (entries : list (fix_of * bool)),
    matching (r_paths move_start) "T.s.dfy" = [sourceDir ++ "/" ++ "T.s.dfy"] /\
    Forall (fun '(f, hit) => looked_up "/r" move_fs (path_join sourceDir "T.s.dfy") (path_join "Spec" "T.s.dfy") f hit) entries.
Proof.
  destruct (relocate "/r" move_fs move_start "T.s.dfy" "Spec") as [r'|] eqn:E.
  2: { apply (f_equal is_Ok) in E. vm_compute in E. discriminate E. }
  exists r'. split; [done|].
  destruct (proj1 (relocate_commands "/r" move_fs ltac:(by exists [ # "r"]; split; [done|]; constructor; [|constructor];
      apply (bool_decide_unpack _); vm_compute; exact I)
    move_start "T.s.dfy" "Spec" ltac:(repeat constructor) eq_refl eq_refl) r' E) as (sd & es & H1 & _ & H2 & _).
  exists sd, es. split; [exact H1|exact H2].
Defined.
