(* ===== verification/Instances.v ===== *)
(** * The worker fleet (tools/aws/describe-instances.py, scale-workers.py)

    Listing the instances of the account, selecting the workers among them,
    and choosing those to start or stop, from the command line on.  The answer of
    [describe_instances] is an argument. *)
From S2P Require Import Prelude PyStr Argparse Regex Paths PyFloat Json Report.

(** ** The answer of the service *)

Record raw_instance := RawInstance {
  r_tags : list (str * str);        (* 'Key', 'Value' *)
  r_id : str;
  r_ip : option str;                (* may be absent *)
  r_state : str
}.
Definition response := list (list raw_instance).   (* reservations *)

Record instance := Instance { Name : str; InstanceId : str; PublicIpAddress : option str; State : str }.

(** [extract_salient]: the first tag named [Name] must exist. *)
Definition extract_salient (inst : raw_instance) : res instance :=
  named ← nth_res (List.filter (fun '(k, _) => bool_decide (k = # "Name")) (r_tags inst)) 0;
  Ok (Instance (snd named) (r_id inst) (r_ip inst) (r_state inst)).

(** [insts.sort(key=lambda x: x.Name)]: stable. *)
Definition name_ltb (x y : instance) : bool := str_ltb (Name x) (Name y).
Definition sort_instances (l : list instance) : list instance := sort_by name_ltb l.

Definition worker_prefix (ssd : bool) : str := if ssd then "veri-ssd" else "veri-worker".
Definition is_worker (ssd : bool) (x : instance) : bool := startswith (Name x) (worker_prefix ssd).

(** ** describe-instances.py *)

Definition describeInstances (showAll showRunning ssd : bool) (resp : response) : res (list instance) :=
  insts ← map_res extract_salient (concat resp);
  let insts := sort_instances insts in
  let insts := if showAll then insts else List.filter (is_worker ssd) insts in
  let insts := if showRunning then List.filter (fun x => bool_decide (State x = # "running")) insts else insts in
  Ok insts.

(** The three layouts of the output. *)
Definition opt_str (o : option str) : str := default (# "None") o.
Definition tab : ascii := "009"%char.
Definition esc : ascii := "027"%char.
Definition ssh_line (x : instance) : str :=
  [esc] ++ "[1m" ++ Name x ++ [esc] ++ "[0m " ++ [esc] ++ "[34m" ++ State x ++ [esc] ++ "[0m" ++ [tab] ++
  "ssh ubuntu@" ++ opt_str (PublicIpAddress x).
Definition plain_line (x : instance) : str :=
  Name x ++ [tab] ++ InstanceId x ++ [tab] ++ opt_str (PublicIpAddress x) ++ [tab] ++ State x.
Definition instance_json (x : instance) : json :=
  JObj [ (# "Name", JStr (Name x)); (# "InstanceId", JStr (InstanceId x));
         (# "PublicIpAddress", match PublicIpAddress x with Some a => JStr a | None => JNull end);
         (# "State", JStr (State x)) ].
Definition describe_main (all_ ssh json_ ssd run_ : bool) (resp : response) : res str :=
  insts ← describeInstances all_ run_ ssd resp;
  Ok (if ssh then flat_map (fun x => line (ssh_line x)) insts
      else if json_ then line (dumps None (JArr (map instance_json insts)))
      else flat_map (fun x => line (plain_line x)) insts).

(** The options, and the script; [None] is a service that raises [ClientError],
    which is printed. *)
Record describe_args := DescribeArgs { d_all : bool; d_ssh : bool; d_json : bool; d_ssd : bool; d_running : bool }.
Definition describe_parser : parser :=
  argument_parser [] ++ map store_true [ # "--all"; # "--ssh"; # "--json"; # "--ssd"; # "--running"].
Definition describe_args_of (ns : gmap str aval) : res describe_args :=
  a ← attr_bool ns "all"; b ← attr_bool ns "ssh"; c ← attr_bool ns "json";
  d ← attr_bool ns "ssd"; e ← attr_bool ns "running"; Ok (DescribeArgs a b c d e).
Definition describe_tokens (a : describe_args) : list token :=
  let flag (f : str) := GiveFlag f (store_true f) in
  given_if (d_all a) (flag "--all") ++ given_if (d_ssh a) (flag "--ssh") ++ given_if (d_json a) (flag "--json") ++
  given_if (d_ssd a) (flag "--ssd") ++ given_if (d_running a) (flag "--running").
#[export] Program Instance describe_line : CommandLine describe_args :=
  {| cl_parser := describe_parser; cl_of := describe_args_of; cl_tokens := describe_tokens; cl_ok := fun _ => True |}.
Next Obligation. intros [[] [] [] [] []] _; vm_compute; reflexivity. Qed.

Definition describe_script (service : option response) (client_error : str) (args : list str) : res str :=
  a ← command_line args;
  match service with
  | Some resp => describe_main (d_all a) (d_ssh a) (d_json a) (d_ssd a) (d_running a) resp
  | None => Ok (line client_error)
  end.

(** ** scale-workers.py *)

Record scale_args := ScaleArgs { scale_up : option Z; scale_down : option Z; s_ssd : bool; s_dry_run : bool }.
Definition scale_parser : parser :=
  argument_parser [] ++ [option_int "--scale-up" VNone; option_int "--scale-down" VNone; store_true "--ssd"; store_true "--dry-run"].
Definition scale_args_of (ns : gmap str aval) : res scale_args :=
  up ← attr_opt_int ns "scale_up"; down ← attr_opt_int ns "scale_down";
  b ← attr_bool ns "ssd"; d ← attr_bool ns "dry_run"; Ok (ScaleArgs up down b d).
Definition scale_tokens (a : scale_args) : list token :=
  let target (f : str) (o : option Z) :=
    match o with Some n => [GiveNext f (option_int f VNone) (dec_Z n)] | None => [] end in
  target "--scale-up" (scale_up a) ++ target "--scale-down" (scale_down a) ++
  given_if (s_ssd a) (GiveFlag "--ssd" (store_true "--ssd")) ++
  given_if (s_dry_run a) (GiveFlag "--dry-run" (store_true "--dry-run")).

Lemma scale_tokens_ok a : Forall (token_ok scale_parser) (scale_tokens a).
Proof.
  unfold scale_tokens. repeat apply Forall_app_2.
  1-2: destruct (_ a) as [n|]; constructor; [|constructor]; split_and!; [vm_compute; reflexivity..|];
    apply plain_dec_Z; vm_compute; reflexivity.
  all: destruct (_ a); constructor; [split; vm_compute; reflexivity|constructor].
Qed.

#[export] Program Instance scale_line : CommandLine scale_args :=
  {| cl_parser := scale_parser; cl_of := scale_args_of; cl_tokens := scale_tokens; cl_ok := fun _ => True |}.
Next Obligation.
  intros a _. rewrite parse_rendered; [|vm_compute; reflexivity|apply scale_tokens_ok].
  destruct a as [[up|] [down|] [] []]; unfold scale_tokens; cbn [scale_up scale_down s_ssd s_dry_run app given_if for_each meaning];
    rewrite ?take_int, ?bind_of_Ok by done; rewrite ?take_int, ?bind_of_Ok by done; vm_compute; reflexivity.
Qed.

Inductive scaling :=
  | Start (ids : list str)
  | Stop (ids : list str).

Definition scale_workers (scale_up scale_down : option Z) (ssd : bool) (resp : response) : res scaling :=
  insts ← map_res extract_salient (concat resp);
  let insts := List.filter (is_worker ssd) (sort_instances insts) in
  let instance_ids := map InstanceId insts in
  match scale_up, scale_down with
  | Some n, _ => Ok (Start (slice_to instance_ids n))
  | None, Some n => Ok (Stop (slice_from instance_ids n))
  | None, None => Raise SystemExit
  end.

(** What starting and stopping does to the set of running instances; a dry run
    does nothing. *)
Definition perform (dry_run : bool) (s : scaling) (running : gset str) : gset str :=
  if dry_run then running
  else match s with
       | Start ids => running ∪ list_to_set ids
       | Stop ids => running ∖ list_to_set ids
       end.

(** The whole script: the calls that change the fleet, in order.  [None] is a
    service that raises [ClientError] when it is asked for the instances; a
    [ClientError] of the call itself is printed and changes nothing here. *)
Definition scale_script (service : option response) (args : list str) : script_of (list scaling) unit :=
  a ← lift (command_line args);
  resp ← lift (of_option SystemExit service);
  s ← lift (scale_workers (scale_up a) (scale_down a) (s_ssd a) resp);
  if s_dry_run a then mret tt else modify (fun calls => calls ++ [s]).

(** ** The listing *)

Lemma sort_instances_Permutation l : sort_instances l ≡ₚ l.
Proof. unfold sort_instances. auto with py. Qed.

Definition name_le (a b : instance) : Prop := str_ltb (Name b) (Name a) = false.

Lemma sort_instances_sorted l : StronglySorted name_le (sort_instances l).
Proof. apply (sort_by_sorted name_ltb (WeakOrder0 := key_order Name str_ltb)). Qed.

(** Instances of one name are listed in the order of the answer. *)
Lemma describe_stable showAll showRunning ssd resp insts out n :
  map_res extract_salient (concat resp) = Ok insts ->
  describeInstances showAll showRunning ssd resp = Ok out ->
  List.filter (fun x => bool_decide (Name x = n)) out =
    List.filter (fun x => bool_decide (Name x = n))
      (List.filter (fun x => (showAll || is_worker ssd x) && (negb showRunning || bool_decide (State x = # "running"))) insts).
Proof.
  intros H E. unfold describeInstances in E. rewrite H, bind_of_Ok in E. injection E as <-.
  transitivity (List.filter (fun x => bool_decide (Name x = n) && ((showAll || is_worker ssd x) && (negb showRunning || bool_decide (State x = # "running"))))
                  (sort_instances insts)).
  - destruct showAll, showRunning; cbn [orb negb andb]; rewrite ?filter_filter; apply filter_ext_eq; intros x;
      destruct (bool_decide (Name x = n)), (is_worker ssd x), (bool_decide (State x = _)); done.
  - unfold sort_instances. rewrite sort_by_stable.
    + rewrite filter_filter. apply filter_ext_eq. intros x. apply andb_comm.
    + intros a b [Ha%bool_decide_eq_true _]%andb_prop [Hb%bool_decide_eq_true _]%andb_prop.
      unfold name_ltb. rewrite Ha, Hb. destruct (str_ltb n n) eqn:E; [|done]. by rewrite (lt_asym _ _ E) in E.
Qed.

(** The listing: when every instance has a name the listing is sorted by
    name and holds, of the instances in the answer, those that are asked for:
    workers of the chosen kind unless all are shown, running ones if only these
    are wanted.  One instance without a name makes the listing fail. *)
Theorem describe_lists_workers showAll showRunning ssd resp :
  (forall insts, map_res extract_salient (concat resp) = Ok insts ->
     exists out, describeInstances showAll showRunning ssd resp = Ok out /\
       StronglySorted name_le out /\
       out ≡ₚ List.filter (fun x => (showAll || is_worker ssd x) && (negb showRunning || bool_decide (State x = # "running"))) insts) /\
  (forall inst, inst ∈ concat resp -> # "Name" ∉ map fst (r_tags inst) ->
     exists e, describeInstances showAll showRunning ssd resp = Raise e).
Proof.
  split.
  - intros insts H. unfold describeInstances. rewrite H, bind_of_Ok. eexists. split; [done|]. split.
    + destruct showAll, showRunning; repeat apply StronglySorted_filter; apply sort_instances_sorted.
    + assert (Hf : forall f l, List.filter f (sort_instances l) ≡ₚ List.filter f l).
      { intros f l. pose proof (sort_instances_Permutation l) as Hp. by apply filter_Permutation_bool. }
      destruct showAll, showRunning; cbn [orb negb andb].
      * apply Hf.
      * rewrite sort_instances_Permutation. clear. induction insts as [|x l IH]; [done|]. cbn. by rewrite <- IH.
      * rewrite filter_filter. apply Hf.
      * rewrite Hf. erewrite filter_ext; [done|]. intros x. cbn. by rewrite andb_true_r.
  - intros inst Hin Hname. unfold describeInstances.
    destruct (map_res extract_salient (concat resp)) as [insts|e] eqn:E; [|by exists e].
    exfalso. apply map_res_Forall2 in E. apply list_elem_of_lookup in Hin as (i & Hi).
    destruct (Forall2_lookup_l _ _ _ _ _ E Hi) as (y & _ & Hy).
    unfold extract_salient in Hy. apply bind_Ok in Hy as (named & Hn & _).
    unfold nth_res in Hn. destruct (List.filter _ (r_tags inst)) as [|[k v] l] eqn:Hf; [done|].
    assert (Hk : In (k, v) (List.filter (fun '(k, _) => bool_decide (k = # "Name")) (r_tags inst))) by (rewrite Hf; by left).
    apply filter_In in Hk as [Hk Hb%bool_decide_eq_true]. subst k.
    apply Hname, list_elem_of_In. change (# "Name") with (fst (# "Name", v)). by apply in_map.
Qed.

(** ** Scaling *)

(** Scaling up and down to the same target, for every integer: the
    instances started and those stopped are disjoint and together are all the
    workers, so that starting the first and stopping the second leaves exactly
    the first running among the workers. *)
Theorem scale_to_target n ssd resp insts running :
  map_res extract_salient (concat resp) = Ok insts -> NoDup (map InstanceId insts) ->
  exists up down,
    scale_workers (Some n) None ssd resp = Ok (Start up) /\
    scale_workers None (Some n) ssd resp = Ok (Stop down) /\
    up ++ down = map InstanceId (List.filter (is_worker ssd) (sort_instances insts)) /\
    (forall i, i ∈ up ++ down ->
       i ∈ perform false (Stop down) (perform false (Start up) running) <-> i ∈ up) /\
    (forall i, i ∉ up ++ down ->
       i ∈ perform false (Stop down) (perform false (Start up) running) <-> i ∈ running).
Proof.
  intros H Hnd. unfold scale_workers. rewrite H, !bind_of_Ok. set (ids := map InstanceId _).
  exists (slice_to ids n), (slice_from ids n). split; [done|]. split; [done|].
  split; [apply slice_partition|].
  assert (Hids : NoDup ids).
  { subst ids. eapply sublist_NoDup.
    - rewrite <- (sort_instances_Permutation insts) in Hnd. exact Hnd.
    - apply map_filter_sublist. }
  rewrite <- (slice_partition ids n) in Hids. apply NoDup_app in Hids as (_ & Hdisj & _).
  cbn [perform]. split; intros i Hi.
  - rewrite elem_of_difference, elem_of_union, !elem_of_list_to_set. apply elem_of_app in Hi.
    specialize (Hdisj i). naive_solver.
  - rewrite elem_of_difference, elem_of_union, !elem_of_list_to_set. rewrite elem_of_app in Hi. naive_solver.
Qed.

(** A run with the options of a record does what the record says. *)
Lemma scale_script_args a resp calls :
  scale_script (Some resp) (words_of a) calls =
    match scale_workers (scale_up a) (scale_down a) (s_ssd a) resp with
    | Ok s => (if s_dry_run a then calls else calls ++ [s], Ok tt)
    | Raise e => (calls, Raise e)
    end.
Proof.
  unfold scale_script. rewrite (script_run _ _ calls calls a).
  2:{ unfold lift. by rewrite command_line_words. }
  rewrite (script_run _ _ calls calls resp) by done. unfold lift, mbind, script_bind.
  destruct (scale_workers _ _ _ _); [|done]. by destruct (s_dry_run a).
Qed.

Lemma scale_script_bounded service args calls r :
  scale_script service args [] = (calls, r) -> length calls <= 1 /\ (r <> Ok tt -> calls = []).
Proof.
  unfold scale_script, lift, of_option, mbind, script_bind.
  destruct (command_line args) as [a|e]; [|by intros [= <- <-]; split; [cbn; lia|]].
  destruct service as [resp|]; [|by intros [= <- <-]; split; [cbn; lia|]].
  destruct (scale_workers _ _ _ resp) as [s|e]; [|by intros [= <- <-]; split; [cbn; lia|]].
  destruct (s_dry_run a); intros [= <- <-]; split; done || (cbn; lia).
Qed.

Definition target_args (up : bool) (n : Z) (ssd dry : bool) : scale_args :=
  if up then ScaleArgs (Some n) None ssd dry else ScaleArgs None (Some n) ssd dry.
Definition perform_all (calls : list scaling) (running : gset str) : gset str :=
  fold_left (fun r s => perform false s r) calls running.

(** C36. scale-workers.py from its command line, for every integer target,
    negative ones included: scaling up calls the service once to start the first
    workers in the order of names, scaling down once to stop all the others, the
    cut being where Python's slices put it; the two calls leave exactly the
    first ones running among the workers and touch nothing else; a dry run calls
    nothing.  Whatever the command line and the answer, there is at most one
    call, and none when anything is raised: bad options, no target, an instance
    without a name. *)
Theorem scale_script_calls n ssd resp insts running :
  map_res extract_salient (concat resp) = Ok insts -> NoDup (map InstanceId insts) ->
  let ids := map InstanceId (List.filter (is_worker ssd) (sort_instances insts)) in
  let cut := Z.to_nat (if (n <? 0)%Z then Z.max 0 (n + Z.of_nat (length ids)) else n) in
  let run up dry := scale_script (Some resp) (words_of (target_args up n ssd dry)) in
  run true false [] = ([Start (take cut ids)], Ok tt) /\
  run false false [] = ([Stop (drop cut ids)], Ok tt) /\
  (forall up, run up true [] = ([], Ok tt)) /\
  (forall i, i ∈ perform_all (fst (run false false (fst (run true false [])))) running <->
     if bool_decide (i ∈ ids) then i ∈ take cut ids else i ∈ running) /\
  (forall service args calls r, scale_script service args [] = (calls, r) ->
     length calls <= 1 /\ (r <> Ok tt -> calls = [])).
Proof.
  intros H Hnd ids cut run.
  destruct (scale_to_target n ssd resp insts running H Hnd) as (up & down & Hup & Hdown & Hids & Hin & Hout).
  assert (Hr : forall b dry calls, scale_script (Some resp) (words_of (target_args b n ssd dry)) calls =
    (if dry : bool then calls else calls ++ [if b : bool then Start up else Stop down], Ok tt)).
  { intros b dry calls. rewrite scale_script_args. destruct b; cbn [target_args scale_up scale_down s_ssd s_dry_run]; by rewrite ?Hup, ?Hdown. }
  assert (up = take cut ids /\ down = drop cut ids) as [<- <-].
  { unfold scale_workers in Hup, Hdown. rewrite H, bind_of_Ok in Hup, Hdown. fold ids in Hup, Hdown.
    injection Hup as <-. by injection Hdown as <-. }
  fold ids in Hids. unfold run. rewrite !Hr. split_and!; [done..| | |].
  - intros b. by rewrite Hr.
  - intros i. cbn [fst app]. rewrite ?Hr. cbn [fst app perform_all fold_left]. rewrite <- Hids. case_bool_decide; auto.
  - apply scale_script_bounded.
Qed.

(** ** Example *)

Definition demo_response : response :=
  [ [RawInstance [(# "Owner", # "x"); (# "Name", # "veri-worker-b")] "i-2" None "stopped";
     RawInstance [(# "Name", # "bastion")] "i-0" (Some (# "10.0.0.9")) "running"];
    [RawInstance [(# "Name", # "veri-worker-a")] "i-1" (Some (# "10.0.0.1")) "running"] ].
Definition demo_instances : list instance :=
  [ Instance "veri-worker-b" "i-2" None "stopped"; Instance "bastion" "i-0" (Some (# "10.0.0.9")) "running";
    Instance "veri-worker-a" "i-1" (Some (# "10.0.0.1")) "running" ].

Lemma scale_to_target_witness :
  map_res extract_salient (concat demo_response) = Ok demo_instances /\
  exists up down, scale_workers (Some 1%Z) None false demo_response = Ok (Start up) /\
    scale_workers None (Some 1%Z) false demo_response = Ok (Stop down) /\ up ++ down = [ # "i-1"; # "i-2"].
Proof.
  assert (H : map_res extract_salient (concat demo_response) = Ok demo_instances) by (vm_compute; reflexivity).
  assert (Hnd : NoDup (map InstanceId demo_instances)) by (apply (bool_decide_unpack _); vm_compute; exact I).
  split; [exact H|].
  destruct (scale_to_target 1 false demo_response demo_instances ∅ H Hnd) as (up & down & H1 & H2 & H3 & _).
  exists up, down. split; [exact H1|]. split; [exact H2|]. etransitivity; [exact H3|]. vm_compute. reflexivity.
Defined.

(** A running worker without an address is listed with the word [None]. *)
Example describe_demo :
  describe_main false false false false false demo_response =
  Ok ("veri-worker-a" ++ [tab] ++ "i-1" ++ [tab] ++ "10.0.0.1" ++ [tab] ++ "running" ++ [nl] ++
      "veri-worker-b" ++ [tab] ++ "i-2" ++ [tab] ++ "None" ++ [tab] ++ "stopped" ++ [nl]).
Proof. vm_compute. reflexivity. Qed.

Lemma scale_script_calls_witness :
  map_res extract_salient (concat demo_response) = Ok demo_instances /\
  scale_script (Some demo_response) [ # "--scale-up"; # "-1"] [] = ([Start [ # "i-1"]], Ok tt).
Proof.
  assert (H : map_res extract_salient (concat demo_response) = Ok demo_instances) by (vm_compute; reflexivity).
  assert (Hnd : NoDup (map InstanceId demo_instances)) by (apply (bool_decide_unpack _); vm_compute; exact I).
  split; [exact H|].
  exact (proj1 (scale_script_calls (-1) false demo_response demo_instances ∅ H Hnd)).
Defined.

(** Options may be abbreviated, unless two are meant; what is not an integer is
    refused. *)
Example scale_abbreviated :
  scale_script (Some demo_response) [ # "--scale-d=1"; # "--dry"] [] = ([], Ok tt) /\
  snd (scale_script (Some demo_response) [ # "--s"; # "1"] []) =
    Raise (UsageError "ambiguous option: --s could match --scale-up, --scale-down, --ssd") /\
  snd (scale_script (Some demo_response) [ # "--scale-up"; # "all"] []) =
    Raise (UsageError "argument --scale-up: invalid int value: 'all'").
Proof. vm_compute. repeat split. Qed.
