(* ===== verification/Latex.v ===== *)
(** * Constants for the papers

    Several scripts end by writing a file of LaTeX macros, one per named value;
    this file holds the values and their text. *)
From S2P Require Import Prelude PyStr PyFloat.

(** A value written to a constants file. *)
Inductive constant := CInt (z : Z) | CText (s : str).
Definition constants := dict str constant.

Definition constant_text (c : constant) : str :=
  match c with CInt z => dec_Z z | CText s => s end.

Definition backslash : ascii := "092"%char.

(** One line of the file. *)
Definition newcommand (k : str) (c : constant) : str :=
  backslash :: "newcommand{" ++ backslash :: k ++ "}{" ++ constant_text c ++ "}" ++ [nl].

Definition constants_text (header : str) (defs : constants) : str :=
  header ++ nl :: concat (map (fun '(k, v) => newcommand k v) defs).

(** ["%d\\%%" % x]. *)
Definition percent_text (x : float) : res str :=
  z ← float_trunc x; Ok (dec_Z z ++ backslash :: # "%").
