(* ===== verification/Study.v ===== *)
(** * Counting opaque definitions (tools/automation-study.py)

    The study greps the Dafny sources for definitions and the statements that
    reveal them.  Its grep reads code only: comments are cut from the lines,
    and lines inside a comment are passed over.  The lines of a file are
    cleaned once and kept in a table, and so is every line found. *)
From S2P Require Import Prelude PyStr Regex Paths PyFloat Json Deps Latex.

(** ** Comments *)

Definition lineComment : re := seqs [Lit "//"; Star Dot; Eol].
Definition blockComment : re :=
  seqs [Lit "/*";
        Star (Grp 1 (Alt (NoneOf "*") (Seq (Plus (Chr "*")) (NoneOf "/"))));
        Plus (Chr "*"); Chr "/"].
Definition startComment : re := seqs [Lit "/*"; Star Dot; Eol].
Definition endComment : re := seqs [Bol; Star Dot; Lit "*/"].

(** The four substitutions made on a line. *)
Definition clean_line (line : str) : str :=
  let line := sub lineComment "" line in
  let line := sub blockComment "" line in
  let line := sub startComment "/*" line in
  sub endComment "*/" line.

Definition opens_comment (line : str) : bool := endswith (strip line) "/*".
Definition closes_comment (line : str) : bool := startswith line "*/".

(** ** Line references

    [LineReference] compares the path and the line number. *)
Definition line_tuple (r : iref) : str * nat := (absPath r, line_num r).
Definition line_in (x : iref) (s : list iref) : bool :=
  existsb (fun y => bool_decide (line_tuple y = line_tuple x)) s.
Definition line_add (s : list iref) (x : iref) : list iref := if line_in x s then s else s ++ [x].
Definition line_union (s xs : list iref) : list iref := fold_left line_add xs s.

(** The two dictionaries of the module. *)
Record tables := Tables { refToLine : gmap (str * nat) str; refToLines : gmap str (list str) }.
Definition no_tables : tables := Tables ∅ ∅.

(** A record of [opaqueInstances]. *)
Record opaque_record := OpaqueRecord {
  rec_file : str; rec_line : nat; rec_symbol : option str; rec_reveal_count : Z
}.

(** A record as it is written to and read from the file in between. *)
Definition record_json (r : opaque_record) : json :=
  JObj [ (# "file", JStr (rec_file r)); (# "line", JInt (Z.of_nat (rec_line r)));
         (# "symbol", match rec_symbol r with Some s => JStr s | None => JNull end);
         (# "reveal_count", JInt (rec_reveal_count r)) ].
Definition record_of_json (v : json) : res opaque_record :=
  file ← json_get "file" v; line ← json_get "line" v; symbol ← json_get "symbol" v; count ← json_get "reveal_count" v;
  match file, line, symbol, count with
  | JStr f, JInt l, JStr s, JInt n => Ok (OpaqueRecord f (Z.to_nat l) (Some s) n)
  | JStr f, JInt l, JNull, JInt n => Ok (OpaqueRecord f (Z.to_nat l) None n)
  | _, _, _, _ => Raise TypeError
  end.
Definition records_text (records : list opaque_record) : str := dumps (Some 4) (JArr (map record_json records)).
Definition read_records (contents : str) : res (list opaque_record) :=
  v ← loads contents;
  match v with JArr l => map_res record_of_json l | _ => Raise TypeError end.

(** [emit_constants]: the contents of the file. *)
Definition emit_constants (defs : constants) : str :=
  constants_text "% generated by tools/automation-study.py" defs.

(** [gather_constants]: the records are those read back from the data file. *)
Definition max_list (l : list Z) : res Z :=
  match l with [] => Raise ValueError | x :: l' => Ok (fold_left Z.max l' x) end.

(** [next((i for i,x in enumerate(xs) if x > thresh))]. *)
Fixpoint first_above (thresh : Z) (i : nat) (xs : list Z) : res nat :=
  match xs with
  | [] => Raise StopIteration
  | x :: xs' => if (thresh <? x)%Z then Ok i else first_above thresh (S i) xs'
  end.

(** [[i/(len(reveals)-1.0) for i in range(len(reveals))]]. *)
Definition cumulative (n : nat) : res (list float) :=
  map_res (fun i => fdiv (float_of_Z (Z.of_nat i))
                         (fsub (float_of_Z (Z.of_nat n)) (float_of_Z 1))) (seq 0 n).

Definition gather_constants (records : list opaque_record) : res constants :=
  let reveals := sort_by Z.ltb (map rec_reveal_count records) in
  let xs := reveals in
  ys ← cumulative (length reveals);
  i5 ← first_above 5 0 xs;
  five_frac ← nth_res ys i5;
  mean ← int_div (foldr Z.add 0%Z reveals) (Z.of_nat (length reveals));
  mx ← max_list reveals;
  pct ← percent_text (fmul five_frac (float_of_Z 100));
  Ok [(# "autoOpaqueCount", CInt (Z.of_nat (length reveals)));
      (# "autoRevealCount", CInt (foldr Z.add 0%Z reveals));
      (# "autoRevealMean", CText (fmt_fixed 1 mean));
      (# "autoRevealMax", CInt mx);
      (# "autoOpaqueZeroReveals",
         CInt (Z.of_nat (length (List.filter (fun r => r =? 0)%Z reveals))));
      (# "autoOpaqueFewReveals",
         CInt (Z.of_nat (length (List.filter (fun r => (0 <? r) && (r <=? 3))%Z reveals))));
      (# "autoFivePct", CText pct)].

(** The five records printed as the top offenders. *)
Definition top_offenders (records : list opaque_record) : list opaque_record :=
  slice_from (sort_by (fun a b => rec_reveal_count a <? rec_reveal_count b)%Z records) (-5).

(** The two series [plot] draws: the histogram and its number of bins, and the
    cumulative fraction. *)
Definition plot (records : list opaque_record) : res ((list Z * Z) * list (Z * float)) :=
  let reveals := sort_by Z.ltb (map rec_reveal_count records) in
  bins ← max_list reveals;
  ys ← cumulative (length reveals);
  Ok ((reveals, bins), combine reveals ys).

Section study.
Context `{SetOrder} (cwd ROOT_PATH : str) (fs : gmap str str).

Definition relevantSources : res (list iref) :=
  depsFromDfySources cwd ROOT_PATH fs ["Impl/Bundle.i.dfy" : str].

(** The loop of [grepOne] over the lines, from the index [i]. *)
Fixpoint grep_lines (rec : re) (r : iref) (i : nat) (inComment : bool) (lines : list str)
    (output : list iref) (found : gmap (str * nat) str) : res (list iref * gmap (str * nat) str) :=
  match lines with
  | [] => Ok (output, found)
  | line :: lines' =>
      let inComment := if closes_comment line then false else inComment in
      st ← (if negb inComment && searchb rec line then
              ir ← mk_iref cwd ROOT_PATH (Some r) (i + 1) (absPath r);
              Ok (line_add output ir, <[line_tuple ir := line]> found)
            else Ok (output, found));
      let inComment := if opens_comment line then true else inComment in
      grep_lines rec r (S i) inComment lines' (fst st) (snd st)
  end.

(** The lines of a source, from the table or the file. *)
Definition cached_lines (r : iref) (t : tables) : res (list str * tables) :=
  match refToLines t !! absPath r with
  | Some lines => Ok (lines, t)
  | None => contents ← py_open cwd fs (normPath r);
            let lines := map clean_line (readlines contents) in
            Ok (lines, Tables (refToLine t) (<[absPath r := lines]> (refToLines t)))
  end.

Definition grepOne (r : iref) (rec : re) (t : tables) : res (list iref * tables) :=
  '(lines, t) ← cached_lines r t;
  '(output, found) ← grep_lines rec r 0 false lines [] (refToLine t);
  Ok (output, Tables found (refToLines t)).

Definition grep_sources (rec : re) (sources : list iref) (t : tables) : res (list iref * tables) :=
  for_each (fun '(instances, t) filename =>
              '(output, t) ← grepOne filename rec t;
              Ok (line_union instances output, t)) sources ([], t).

Definition grepAll (rec : re) (t : tables) : res (list iref * tables) :=
  sources ← relevantSources;
  grep_sources rec (set_order sources) t.

(** [lineForIref]: the line as the file has it, comments included. *)
Definition lineForIref (r : iref) : res str :=
  contents ← py_open cwd fs (normPath r);
  line ← (match line_num r with
          | O => of_option IndexError (last (readlines contents))
          | S n => nth_res (readlines contents) n
          end);
  Ok (strip line).

Definition symbol_re : re :=
  seqs [Lit "{:opaque}";
        Star (Grp 1 (Alt (Chr " ") (seqs [Chr "{"; Star (NoneOf "}"); Chr "}"])));
        Grp 2 (Plus Word); OneOf "(<"].

Definition symbolNameForOpaqueIref (r : iref) : res (option str) :=
  line ← lineForIref r;
  Ok (m ← search symbol_re line; group 2 m).

Definition reveal_re (symbolName : option str) : re :=
  Seq (Lit ("reveal_" ++ default (# "None") symbolName)) Wb.

Definition opaqueInstances (t : tables) : res (list opaque_record * tables) :=
  '(opaqueRefs, t) ← grepAll (Lit "{:opaque}") t;
  for_each (fun '(records, t) r =>
              symbolName ← symbolNameForOpaqueIref r;
              '(reveal_lines, t) ← grepAll (reveal_re symbolName) t;
              Ok (records ++ [OpaqueRecord (normPath r) (line_num r) symbolName
                                (Z.of_nat (length reveal_lines))], t))
           (set_order opaqueRefs) ([], t).

(** [totalDefinitions]: three sets of lines, so that equal lines count once. *)
Definition definition_re : re :=
  Grp 1 (Alt (Lit "function") (Alt (Lit "predicate") (Lit "method"))).

Definition totalDefinitions (defs : constants) (t : tables) : res (constants * tables) :=
  '(defRef, t) ← grepAll definition_re t;
  '(ghost, impl, all) ←
    for_each (fun '(ghost, impl, all) r =>
                line ← lineForIref r;
                let impl := if contains "method" line then str_add impl line else impl in
                let ghost := if contains "predicate" line || contains "function" line
                             then str_add ghost line else ghost in
                Ok (ghost, impl, str_add all line))
             (set_order defRef) ([], [], []);
  count ← of_option KeyError (dict_get defs "autoOpaqueCount");
  opaque ← match count with CInt z => Ok z | CText _ => Raise TypeError end;
  pct ← fdiv (fmul (float_of_Z 100) (float_of_Z opaque)) (float_of_Z (Z.of_nat (length ghost)));
  text ← percent_text pct;
  Ok (dict_update defs
        [(# "autoAllDefnCount", CInt (Z.of_nat (length all)));
         (# "autoOpaquableDefnCount", CInt (Z.of_nat (length ghost)));
         (# "autoImplDefnCount", CInt (Z.of_nat (length impl)));
         (# "autoOpaquePct", CText text)], t).

(** [find_dead_lemmas]: the names it prints. *)
Definition lemma_re : re :=
  seqs [Wb; Lit "lemma"; Wb;
        Plus (Grp 1 (Alt Space (seqs [Chr "{"; Plus (NoneOf "}"); Chr "}"])));
        Grp 2 (Plus Word)].
Definition word_re (x : str) : re := seqs [Wb; Lit x; Wb].

Definition lemma_group (line : str) : option str := m ← search lemma_re line; group 2 m.
Definition lemma_name (t : tables) (r : iref) : res str :=
  line ← of_option KeyError (refToLine t !! line_tuple r);
  of_option AttributeError (lemma_group line).

Definition find_dead_lemmas (t : tables) : res (list str * tables) :=
  '(refs, t) ← grepAll lemma_re t;
  lemmas ← map_res (lemma_name t) (set_order refs);
  for_each (fun '(printed, t) x =>
              '(uses, t) ← grepAll (word_re x) t;
              Ok (if length uses <=? 1 then printed ++ [x] else printed, t)) lemmas ([], t).

(** The two halves of the study: what [scrape] writes, and [main], which reads
    it. *)
Definition scrape (t : tables) : res (str * tables) :=
  '(records, t) ← opaqueInstances t; Ok (records_text records, t).
Definition study_main (contents : str) (t : tables) : res str :=
  records ← read_records contents;
  _ ← plot records;
  defs ← gather_constants records;
  '(defs, _) ← totalDefinitions defs t;
  Ok (emit_constants defs).
End study.

(** ** The file in between *)

Lemma record_json_wf r : json_wf (record_json r).
Proof.
  constructor; [apply (bool_decide_unpack _); vm_compute; exact I|].
  repeat constructor. by destruct (rec_symbol r); constructor.
Qed.

Lemma record_roundtrip r : record_of_json (record_json r) = Ok r.
Proof.
  destruct r as [f l [s|] n];
    [change (Ok (OpaqueRecord f (Z.to_nat (Z.of_nat l)) (Some s) n) = Ok (OpaqueRecord f l (Some s) n))
    |change (Ok (OpaqueRecord f (Z.to_nat (Z.of_nat l)) None n) = Ok (OpaqueRecord f l None n))]; by rewrite Nat2Z.id.
Qed.

(** [main] reads the records that [scrape] wrote. *)
Theorem records_come_back records : read_records (records_text records) = Ok records.
Proof.
  unfold read_records, records_text. rewrite <- (app_nil_r (dumps _ _)), loads_dumps; [| |done].
  - rewrite bind_of_Ok. apply map_res_Forall2. induction records; constructor; [apply record_roundtrip|done].
  - constructor. apply Forall_forall. intros v (r & -> & _)%list_elem_of_fmap. apply record_json_wf.
Qed.

(** ** What cleaning does to a line

    [t] is the end of the line: a newline, or nothing on the last line. *)

#[local] Arguments bool_decide : simpl never.

Definition line_end (t : str) : Prop := t = [] \/ t = [nl].

Lemma line_end_no_slash t c : line_end t -> c <> nl -> c ∉ t.
Proof. intros [->| ->] H; [apply not_elem_of_nil|]. by rewrite list_elem_of_singleton. Qed.

Lemma run_Eol_end sn t cs : line_end t -> run Eol (MSt sn t cs) = [MSt sn t cs].
Proof. by intros [->| ->]. Qed.

(** [w.*$]: from the literal to the end of the line. *)
Lemma to_eol_match w before b t :
  nl ∉ b -> line_end t ->
  exists m, match_at (seqs [Lit w; Star Dot; Eol]) before ((w ++ b) ++ t) = Some m /\ m_text m = w ++ b.
Proof.
  intros Hb Ht.
  assert (Hd : Forall (fun c => negb (bool_decide (c = nl)) = true) b).
  { apply Forall_forall. intros c Hc. rewrite bool_decide_eq_false_2; [done|]. by intros ->. }
  assert (H : flat_map (run Eol) (spans (rev b ++ rev w ++ before) [] t []) =
              [MSt (rev b ++ rev w ++ before) t []]).
  { cbn [spans flat_map]. by rewrite run_Eol_end. }
  destruct (run_Star_then_first (fun c => negb (bool_decide (c = nl))) Eol (rev w ++ before) b [] t []
              _ _ ltac:(by rewrite app_nil_r) ltac:(by destruct Ht as [->| ->]) H) as (l & Hl).
  rewrite app_nil_r in Hl.
  destruct (run_Lit_first w before (b ++ t) [] (Seq (Star Dot) Eol) _ _ Hl) as (l' & Hl').
  change (Seq (Lit w) (Seq (Star Dot) Eol)) with (seqs [Lit w; Star Dot; Eol]) in Hl'.
  rewrite app_assoc in Hl'. by eapply match_at_head.
Qed.

Lemma to_eol_sub w c w' repl a b t :
  w = c :: w' -> c ∉ a -> nl ∉ b -> line_end t -> c <> nl ->
  sub (seqs [Lit w; Star Dot; Eol]) repl (a ++ (w ++ b) ++ t) = a ++ repl ++ t.
Proof.
  intros -> Ha Hb Ht Hc. destruct (to_eol_match (c :: w') (rev a) b t Hb Ht) as (m & Hm & Hw).
  eapply sub_once; [|exact Hm|exact Hw|done|].
  - intros a1 [|x a2] -> Hne; [done|]. apply match_at_Lit_None, startswith_ne.
    cbn. intros [= ->]. apply Ha, elem_of_app. right. apply list_elem_of_here.
  - intros s1 s2 ->. apply match_at_Lit_None, startswith_ne. destruct s2 as [|x s2]; [done|].
    cbn. intros [= ->]. destruct Ht as [Ht|Ht]; destruct s1 as [|y s1]; try discriminate Ht.
    + by injection Ht.
    + injection Ht as -> Ht. by destruct s1.
Qed.

Lemma contains_sep (x : ascii) w s :
  contains (x :: w) s = true -> exists a b, s = a ++ x :: w ++ b.
Proof. intros (a & b & ->)%contains_spec. by exists a, b. Qed.

(** Lines with at most one slash: which pairs they hold. *)
Lemma one_slash_pair a r d w : slash ∉ a -> slash ∉ r -> head r <> Some d ->
  contains (slash :: d :: w) (a ++ slash :: r) = false.
Proof.
  intros Ha Hr Hd. apply not_true_iff_false. intros (a' & b & E)%contains_sep.
  destruct (app_sep _ _ _ _ _ Ha E) as [[_ ->]|(k & _ & ->)]; [done|].
  apply Hr, elem_of_app. right. apply list_elem_of_here.
Qed.

Lemma one_slash_star a r : slash ∉ a -> slash ∉ r -> "*"%char ∉ a ->
  contains "*/" (a ++ slash :: r) = false.
Proof.
  intros Ha Hr Hs. apply not_true_iff_false. intros (a' & b & E)%contains_sep.
  cbn in E. replace (a' ++ "*"%char :: "/"%char :: b) with ((a' ++ ["*"%char]) ++ slash :: b) in E
    by by rewrite <- app_assoc.
  destruct (app_sep _ _ _ _ _ Ha E) as [[-> _]|(k & _ & ->)].
  - apply Hs, elem_of_app. right. apply list_elem_of_here.
  - apply Hr, elem_of_app. right. apply list_elem_of_here.
Qed.

Lemma endComment_absent repl s : contains "*/" s = false -> sub endComment repl s = s.
Proof.
  intros H. apply sub_id. intros a b ->. apply match_at_None. intros st' Hm.
  apply not_true_iff_false in H. apply H, contains_spec. clear H.
  change endComment with (Seq Bol (Seq (Star Dot) (Lit "*/"))) in Hm.
  inversion Hm as [| |r1 r2 st0 st1 st2 Hb Hm2| | | | | | | | | | | |]; subst.
  inversion Hb; subst.
  inversion Hm2 as [| |r1 r2 st0 st2 st3 Hd Hl| | | | | | | | | | | |]; subst.
  apply (matches_Lit (# "*/")) in Hl. apply matches_consumes in Hd as (w & Hw & _). cbn in Hw.
  rewrite Hl in Hw. subst b. exists (a ++ w), (rest st').
  by rewrite <- app_assoc.
Qed.

(** [^.*[*]/]: from the start of the line to the end of the comment. *)
Lemma endComment_match a c t :
  nl ∉ a ++ c -> slash ∉ c -> line_end t ->
  exists m, match_at endComment [] ((a ++ "*/") ++ c ++ t) = Some m /\ m_text m = a ++ "*/".
Proof.
  intros Hn Hc Ht. set (p := fun x => negb (bool_decide (x = nl))).
  assert (Hd : Forall (fun x => p x = true) (a ++ # "*/" ++ c)).
  { apply Forall_forall. intros x Hx. unfold p. rewrite bool_decide_eq_false_2; [done|]. intros ->.
    assert (nl ∉ # "*/") by (apply (bool_decide_unpack _); vm_compute; exact I).
    apply Hn. rewrite !elem_of_app in *. tauto. }
  assert (Hs : slash ∉ c ++ t).
  { apply not_elem_of_app. split; [done|]. by apply line_end_no_slash. }
  assert (H : flat_map (run (Lit "*/")) (spans (rev a ++ []) (# "*/" ++ c) t []) =
              [MSt (rev (# "*/") ++ rev a ++ []) (c ++ t) []]).
  { change (# "*/" ++ c) with ("*"%char :: slash :: c). cbn [spans].
    rewrite flat_map_app, flat_map_nil.
    - cbn [app flat_map]. rewrite (run_Lit (# "*/") _ (# "*/" ++ c ++ t)), prefixb_app. done.
    - intros st Hst. apply (in_spans _ _ (slash :: c)) in Hst as (w1 & w2 & E & ->). rewrite run_Lit.
      destruct (prefixb _ (w2 ++ t)) eqn:Hp; [exfalso|done].
      apply prefixb_spec in Hp as [k Hk]. destruct w1 as [|x w1]; cbn in E.
      + subst w2. discriminate Hk.
      + injection E as _ ->. apply Hs. rewrite <- app_assoc, Hk. apply elem_of_app. right.
        apply list_elem_of_further, list_elem_of_here. }
  destruct (run_Star_then_first p (Lit "*/") [] a (# "*/" ++ c) t [] _ _ Hd ltac:(by destruct Ht as [->| ->]) H)
    as (l & Hl).
  destruct (run_Seq_first Bol (Seq (Star (Cls p)) (Lit "*/")) (MSt [] ((a ++ # "*/" ++ c) ++ t) []) _ [] _ _ eq_refl Hl)
    as (l' & Hl').
  rewrite <- !app_assoc in Hl'. rewrite (app_assoc a) in Hl'. by eapply match_at_head.
Qed.

Lemma endComment_sub repl a c t :
  nl ∉ a ++ c -> slash ∉ c -> line_end t ->
  sub endComment repl ((a ++ "*/") ++ c ++ t) = repl ++ c ++ t.
Proof.
  intros Hn Hc Ht. destruct (endComment_match a c t Hn Hc Ht) as (m & Hm & Hw).
  apply (sub_once _ _ [] _ _ m); [|exact Hm|exact Hw|by destruct a|].
  - intros a1 a2 E Hne. symmetry in E. by apply app_nil in E as [_ ->].
  - intros s1 s2 _. apply match_at_None. intros st' H. inversion H as [| |r1 r2 st0 st1 st2 Hb _| | | | | | | | | | | |]; subst.
    apply matches_Bol, (f_equal length) in Hb. cbn [seen] in Hb.
    rewrite length_rev, !length_app in Hb. cbn in Hb. lia.
Qed.

(** [/[*]([^*]|[*]+[^/])*[*]+/] on a comment without a star inside: the loop
    stops before the closing star. *)
Definition comment_item : re := Grp 1 (Alt (NoneOf "*") (Seq (Plus (Chr "*")) (NoneOf "/"))).

Lemma comment_item_char sn c s cs :
  c <> "*"%char -> run comment_item (MSt sn (c :: s) cs) = [MSt (c :: sn) s ((1, [c]) :: cs)].
Proof.
  intros Hc. unfold comment_item. cbn. unfold NoneOf, Chr in *.
  rewrite bool_decide_eq_true_2; [|by intros H%list_elem_of_singleton].
  rewrite bool_decide_eq_false_2 by done. cbn. f_equal. apply (capture_app 1 sn [c]).
Qed.

Lemma comment_item_end sn s cs : run comment_item (MSt sn (# "*/" ++ s) cs) = [].
Proof. done. Qed.

Lemma comment_loop b s sn cs fuel :
  "*"%char ∉ b -> length (b ++ # "*/" ++ s) <= fuel ->
  exists cs' l, star_loop (run comment_item) fuel (MSt sn (b ++ # "*/" ++ s) cs) =
                MSt (rev b ++ sn) (# "*/" ++ s) cs' :: l.
Proof.
  revert sn cs fuel. induction b as [|c b IH]; intros sn cs fuel Hb Hf.
  - destruct fuel as [|fuel]; [cbn in Hf; lia|]. exists cs, []. cbn [star_loop app].
    by rewrite comment_item_end.
  - apply not_elem_of_cons in Hb as [Hc Hb]. destruct fuel as [|fuel]; [cbn in Hf; lia|].
    cbn [star_loop]. change ((c :: b) ++ # "*/" ++ s) with (c :: (b ++ # "*/" ++ s)) in *.
    rewrite comment_item_char by done. cbn [flat_map rest].
    rewrite (proj2 (Nat.ltb_lt _ _)) by (cbn [length]; lia).
    destruct (IH (c :: sn) ((1, [c]) :: cs) fuel Hb) as (cs' & l & ->); [cbn [length] in Hf; lia|].
    exists cs'. eexists. cbn [app rev]. rewrite <- (app_assoc (rev b)). reflexivity.
Qed.

Lemma blockComment_match before b s :
  "*"%char ∉ b ->
  exists m, match_at blockComment before ((# "/*" ++ b ++ # "*/") ++ s) = Some m /\
            m_text m = # "/*" ++ b ++ # "*/".
Proof.
  intros Hb.
  destruct (comment_loop b s (rev (# "/*") ++ before) [] (length (b ++ # "*/" ++ s)) Hb ltac:(done))
    as (cs' & l & Hloop).
  set (tl := Seq (Plus (Chr "*")) (Chr "/")).
  assert (Htl : run tl (MSt (rev b ++ rev (# "/*") ++ before) (# "*/" ++ s) cs') =
                [MSt (rev (# "*/") ++ rev b ++ rev (# "/*") ++ before) s cs']) by done.
  destruct (run_Seq_first (Star comment_item) tl _ _ _ _ _ Hloop Htl) as (l2 & Hl2).
  destruct (run_Lit_first (# "/*") before (b ++ # "*/" ++ s) [] _ _ _ Hl2) as (l3 & Hl3).
  change (Seq (Lit (# "/*")) (Seq (Star comment_item) tl)) with blockComment in Hl3.
  replace (# "/*" ++ b ++ # "*/" ++ s) with ((# "/*" ++ b ++ # "*/") ++ s) in Hl3
    by by rewrite <- !app_assoc.
  by eapply match_at_head.
Qed.

Lemma slash_headed_copy r w a s a1 a2 :
  slash ∉ a -> a = a1 ++ a2 -> a2 <> [] -> match_at (Seq (Lit (slash :: w)) r) (rev a1) (a2 ++ s) = None.
Proof.
  intros Ha -> Hne. destruct a2 as [|x a2]; [done|]. apply match_at_Lit_None, startswith_ne.
  cbn. intros [= ->]. apply Ha, elem_of_app. right. apply list_elem_of_here.
Qed.

Lemma blockComment_sub a b s :
  slash ∉ a -> "*"%char ∉ b -> slash ∉ s ->
  sub blockComment "" (a ++ (# "/*" ++ b ++ # "*/") ++ s) = a ++ s.
Proof.
  intros Ha Hb Hs. destruct (blockComment_match (rev a) b s Hb) as (m & Hm & Hw).
  rewrite (sub_once _ _ a _ s m); [done| |exact Hm|exact Hw|done|].
  - intros a1 a2 E Hne. by apply (slash_headed_copy (seqs [Star comment_item; Plus (Chr "*"); Chr "/"]) (# "*") a).
  - intros s1 s2 ->. apply (match_at_Lit_None (# "/*")), startswith_ne. intros E. apply Hs, elem_of_app.
    right. destruct s2; [done|]. injection E as ->. apply list_elem_of_here.
Qed.

(** A comment that is not closed on the line is left alone. *)
Lemma blockComment_open a r : slash ∉ a -> slash ∉ r -> sub blockComment "" (a ++ slash :: r) = a ++ slash :: r.
Proof.
  intros Ha Hr. apply sub_id. intros a' b E. apply match_at_None. intros st' H.
  inversion H as [| |r1 r2 st0 st1 st2 H1 H2| | | | | | | | | | | |]; subst.
  apply (matches_Lit (# "/*")) in H1. cbn in H1. subst b.
  inversion H2 as [| |? ? ? st2 ? H3 H4| | | | | | | | | | | |]; subst.
  inversion H4 as [| |? ? ? st3 ? H5 H6| | | | | | | | | | | |]; subst.
  apply matches_consumes in H3 as (w3 & E3 & _). apply matches_consumes in H5 as (w5 & E5 & _).
  inversion H6 as [|? c s sn cs Hc| | | | | | | | | | | | |]; subst. apply bool_decide_eq_true in Hc as ->.
  cbn in E5. rewrite E3, E5 in E.
  destruct (app_sep _ _ _ _ _ Ha E) as [[_ ->]|(k & _ & ->)]; apply Hr; rewrite ?elem_of_app, ?elem_of_cons, ?elem_of_app, ?elem_of_cons; auto 10.
Qed.

Lemma line_end_char t c : line_end t -> c <> nl -> c ∉ t.
Proof. apply line_end_no_slash. Qed.

Lemma lineComment_absent s : contains "//" s = false -> sub lineComment "" s = s.
Proof. apply (sub_Lit_absent (# "//") (Seq (Star Dot) Eol)). Qed.

Lemma no_slash_rest s : slash ∉ s ->
  sub endComment "*/" (sub startComment "/*" (sub blockComment "" s)) = s.
Proof.
  intros H.
  assert (forall w r repl, sub (Seq (Lit (slash :: w)) r) repl s = s) as Habs.
  { intros w r repl. apply sub_Lit_absent, (contains_absent slash); [apply list_elem_of_here|done]. }
  rewrite (Habs (# "*") (seqs [Star comment_item; Plus (Chr "*"); Chr "/"])).
  rewrite (Habs (# "*") (Seq (Star Dot) Eol)). apply endComment_absent.
  apply (contains_absent slash); [|done]. apply list_elem_of_further, list_elem_of_here.
Qed.

Lemma no_slash_clean s : slash ∉ s -> clean_line s = s.
Proof.
  intros H. unfold clean_line. rewrite lineComment_absent; [by apply no_slash_rest|].
  apply (contains_absent slash); [apply list_elem_of_here|done].
Qed.

Lemma two_slashes_apart a b r :
  slash ∉ a -> slash ∉ b -> slash ∉ r -> "*"%char ∉ b ->
  contains "//" (a ++ (# "/*" ++ b ++ # "*/") ++ r) = false.
Proof.
  intros Ha Hb Hr Hs. apply not_true_iff_false. intros (a' & k & E)%contains_sep.
  change (a ++ (# "/*" ++ b ++ # "*/") ++ r) with (a ++ slash :: ("*"%char :: b ++ # "*/") ++ r) in E.
  destruct (app_sep _ _ _ _ _ Ha E) as [[_ E']|(k' & _ & E')]; [discriminate E'|].
  replace (("*"%char :: b ++ # "*/") ++ r) with (("*"%char :: b ++ ["*"%char]) ++ slash :: r) in E'
    by (cbn; by rewrite <- !app_assoc).
  assert (Hst : slash ∉ "*"%char :: b ++ ["*"%char]).
  { rewrite elem_of_cons, elem_of_app, list_elem_of_singleton. by intros [|[|]]. }
  destruct (app_sep _ _ _ _ _ Hst E') as [[_ ->]|(k2 & _ & ->)]; apply Hr;
    rewrite ?elem_of_app, ?elem_of_cons; auto.
Qed.

(** Comments are cut from a line.  A line without slashes is kept; the text
    after [//] goes; a comment closed on its line goes and what surrounds it
    stays; a comment that is opened leaves [/*] at the end of the line, one
    that is closed leaves [*/] at its start, which is what the grep looks for.
    But code between two comments is cut with them when the first closes with
    an even number of stars. *)
Theorem clean_line_cases a b c t :
  slash ∉ a -> slash ∉ b -> slash ∉ c -> nl ∉ a ++ b ++ c -> line_end t ->
  clean_line (a ++ t) = a ++ t /\
  (forall x, nl ∉ x -> clean_line (a ++ "//" ++ x ++ t) = a ++ t) /\
  ("*"%char ∉ b -> clean_line (a ++ "/*" ++ b ++ "*/" ++ c ++ t) = a ++ c ++ t) /\
  ("*"%char ∉ a -> clean_line (a ++ "/*" ++ b ++ t) = a ++ "/*" ++ t) /\
  ("*"%char ∉ c -> clean_line (a ++ "*/" ++ c ++ t) = "*/" ++ c ++ t) /\
  clean_line "/* x **/ function f() /* y */ : int" = # " : int".
Proof.
  intros Ha Hb Hc Hn Ht. assert (Hts : slash ∉ t) by by apply line_end_no_slash.
  rewrite !not_elem_of_app in Hn. destruct Hn as (Hna & Hnb & Hnc).
  assert (Hat : slash ∉ a ++ t) by by apply not_elem_of_app.
  split_and!; [by apply no_slash_clean| | | | |vm_compute; reflexivity].
  - intros x Hx. unfold clean_line. unfold lineComment. rewrite (app_assoc (# "//")).
    rewrite (to_eol_sub (# "//") slash (# "/")) by done. by apply no_slash_rest.
  - intros Hs. unfold clean_line.
    replace (a ++ # "/*" ++ b ++ # "*/" ++ c ++ t) with (a ++ (# "/*" ++ b ++ # "*/") ++ c ++ t)
      by by rewrite <- !app_assoc.
    assert (Hct : slash ∉ c ++ t) by by apply not_elem_of_app.
    rewrite lineComment_absent by by apply two_slashes_apart.
    rewrite blockComment_sub by done.
    assert (Hact : slash ∉ a ++ c ++ t) by by apply not_elem_of_app.
    rewrite (sub_Lit_absent (# "/*") (Seq (Star Dot) Eol))
      by (apply (contains_absent slash); [apply list_elem_of_here|done]).
    apply endComment_absent, (contains_absent slash); [|done]. apply list_elem_of_further, list_elem_of_here.
  - intros Hs. unfold clean_line.
    assert (Hbt : slash ∉ "*"%char :: b ++ t) by (rewrite elem_of_cons, elem_of_app; by intros [|[|]]).
    change (a ++ # "/*" ++ b ++ t) with (a ++ slash :: "*"%char :: b ++ t).
    rewrite lineComment_absent by (by apply one_slash_pair).
    rewrite blockComment_open by done.
    change (a ++ slash :: "*"%char :: b ++ t) with (a ++ (# "/*" ++ b) ++ t).
    unfold startComment. rewrite (to_eol_sub (# "/*") slash (# "*")) by done.
    apply endComment_absent, (one_slash_star a ("*"%char :: t)); [done| |done].
    rewrite elem_of_cons. by intros [|].
  - intros Hs. unfold clean_line.
    assert (Hct : slash ∉ c ++ t) by by apply not_elem_of_app.
    assert (Has : slash ∉ a ++ ["*"%char]) by (rewrite elem_of_app, list_elem_of_singleton; by intros [|]).
    replace (a ++ # "*/" ++ c ++ t) with ((a ++ ["*"%char]) ++ slash :: c ++ t) by by rewrite <- app_assoc.
    rewrite lineComment_absent.
    2:{ apply one_slash_pair; [done..|]. intros E. apply Hct. destruct (c ++ t); [done|].
        injection E as ->. apply list_elem_of_here. }
    rewrite blockComment_open by done.
    rewrite (sub_Lit_absent (# "/*") (Seq (Star Dot) Eol)).
    2:{ apply one_slash_pair; [done..|]. intros E.
        assert (Hst : "*"%char ∉ c ++ t) by (apply not_elem_of_app; split; [done|by apply line_end_char]).
        apply Hst. destruct (c ++ t); [done|]. injection E as ->. apply list_elem_of_here. }
    replace ((a ++ ["*"%char]) ++ slash :: c ++ t) with ((a ++ # "*/") ++ c ++ t) by by rewrite <- !app_assoc.
    apply endComment_sub; [by apply not_elem_of_app|done|done].
Qed.

Lemma clean_line_cases_witness :
  clean_line "lemma A() /* why */ ensures x" = # "lemma A()  ensures x".
Proof.
  destruct (clean_line_cases "lemma A() " " why " " ensures x" []) as (_ & _ & H & _);
    [apply (bool_decide_unpack _); vm_compute; exact I..|by left|].
  apply H. apply (bool_decide_unpack _); vm_compute; exact I.
Defined.

(** ** Which lines are inside a comment

    A line is inside a comment when an earlier line opens one and no line
    since, itself included, closes it. *)
Definition open_before (lines : list str) (i : nat) : Prop :=
  exists j lj, j < i /\ lines !! j = Some lj /\ opens_comment lj = true /\
    forall k lk, j < k < i -> lines !! k = Some lk -> closes_comment lk = false.

Definition commented (lines : list str) (i : nat) : Prop :=
  exists j lj, j < i /\ lines !! j = Some lj /\ opens_comment lj = true /\
    forall k lk, j < k <= i -> lines !! k = Some lk -> closes_comment lk = false.

Lemma commented_open lines i l :
  lines !! i = Some l -> commented lines i <-> open_before lines i /\ closes_comment l = false.
Proof.
  intros Hl. split.
  - intros (j & lj & Hj & Hlj & Ho & Hk). split; [|apply (Hk i); [lia|done]].
    exists j, lj. split_and!; [done..|]. intros k lk ?. apply Hk. lia.
  - intros [(j & lj & Hj & Hlj & Ho & Hk) Hc]. exists j, lj. split_and!; [done..|].
    intros k lk Hlt Hlk. destruct (decide (k = i)) as [->|]; [congruence|]. apply (Hk k); [lia|done].
Qed.

Lemma open_before_S lines i l :
  lines !! i = Some l ->
  open_before lines (S i) <-> opens_comment l = true \/ (open_before lines i /\ closes_comment l = false).
Proof.
  intros Hl. split.
  - intros (j & lj & Hj & Hlj & Ho & Hk). destruct (decide (j = i)) as [->|]; [left; congruence|]. right. split.
    + exists j, lj. split_and!; [lia|done..|]. intros k lk ?. apply Hk. lia.
    + apply (Hk i); [lia|done].
  - intros [Ho|[(j & lj & Hj & Hlj & Ho & Hk) Hc]].
    + exists i, l. split_and!; [lia|done..|]. lia.
    + exists j, lj. split_and!; [lia|done..|]. intros k lk Hlt Hlk.
      destruct (decide (k = i)) as [->|]; [congruence|]. apply (Hk k); [lia|done].
Qed.

Lemma line_in_spec x s : line_in x s = true <-> line_tuple x ∈ map line_tuple s.
Proof.
  unfold line_in. rewrite existsb_exists, list_elem_of_In, in_map_iff.
  split; intros (y & H1 & H2); exists y; rewrite bool_decide_eq_true in *; auto.
Qed.

Lemma line_add_elem k s x :
  k ∈ map line_tuple (line_add s x) <-> k ∈ map line_tuple s \/ k = line_tuple x.
Proof.
  unfold line_add. destruct (line_in x s) eqn:E.
  - apply line_in_spec in E. naive_solver.
  - rewrite map_app, elem_of_app. cbn. by rewrite list_elem_of_singleton.
Qed.

Lemma line_add_NoDup s x : NoDup (map line_tuple s) -> NoDup (map line_tuple (line_add s x)).
Proof.
  intros H. unfold line_add. destruct (line_in x s) eqn:E; [done|].
  rewrite map_app, NoDup_app. split_and!; [done| |apply NoDup_singleton].
  intros k Hk ->%list_elem_of_singleton. apply line_in_spec in Hk. congruence.
Qed.

Lemma line_union_elem k s xs :
  k ∈ map line_tuple (line_union s xs) <-> k ∈ map line_tuple s \/ k ∈ map line_tuple xs.
Proof.
  revert s. induction xs as [|x xs IH]; intros s; unfold line_union in *; cbn.
  - split; [auto|]. by intros [|?%not_elem_of_nil].
  - rewrite IH, line_add_elem, elem_of_cons. tauto.
Qed.

Lemma line_union_NoDup s xs : NoDup (map line_tuple s) -> NoDup (map line_tuple (line_union s xs)).
Proof.
  revert s. induction xs as [|x xs IH]; intros s H; unfold line_union in *; cbn; [done|].
  by apply IH, line_add_NoDup.
Qed.

Section grep.
Context `{SetOrder} (cwd ROOT_PATH : str) (fs : gmap str str).

(** A source that can be read: its reference is as the constructor makes it. *)
Definition source_text (r : iref) (lines : list str) : Prop :=
  normal_path (absPath r) /\ iref_wf cwd ROOT_PATH r /\
  exists contents, py_open cwd fs (normPath r) = Ok contents /\ lines = map clean_line (readlines contents).

(** The line of code number [n] of a source matches. *)
Definition hit (rec : re) (r : iref) (lines : list str) (k : str * nat) : Prop :=
  exists i line, k = (absPath r, S i) /\ lines !! i = Some line /\
    ~ commented lines i /\ searchb rec line = true.

(** The tables hold what the files say. *)
Definition coherent (t : tables) : Prop :=
  (forall r lines lines', source_text r lines -> refToLines t !! absPath r = Some lines' -> lines' = lines) /\
  (forall r lines i line, source_text r lines -> refToLine t !! (absPath r, S i) = Some line ->
     lines !! i = Some line).

Lemma source_text_fun r r' lines lines' :
  source_text r lines -> source_text r' lines' -> absPath r = absPath r' -> lines = lines'.
Proof.
  intros (_ & Hw & c & Hc & ->) (_ & Hw' & c' & Hc' & ->) E. unfold iref_wf in *. congruence.
Qed.

Lemma line_ref r lines n :
  source_text r lines ->
  exists ir, mk_iref cwd ROOT_PATH (Some r) n (absPath r) = Ok ir /\ line_tuple ir = (absPath r, n) /\
    normPath ir = normPath r.
Proof.
  intros (Hn & Hw & _). unfold mk_iref.
  assert (Hp : path_join (dirOf r) (absPath r) = absPath r).
  { apply normal_path_isabs in Hn. unfold path_join, isabs in *. by rewrite Hn. }
  rewrite Hp, abspath_normal by done. unfold iref_wf in Hw. rewrite Hw. cbn. eauto.
Qed.

Lemma grep_lines_spec rec r all pre lines b output found :
  source_text r all -> all = pre ++ lines -> (b = true <-> open_before all (length pre)) ->
  NoDup (map line_tuple output) ->
  exists out found', grep_lines cwd ROOT_PATH rec r (length pre) b lines output found = Ok (out, found') /\
    NoDup (map line_tuple out) /\
    (forall k, k ∈ map line_tuple out <-> k ∈ map line_tuple output \/
       exists i line, length pre <= i /\ k = (absPath r, S i) /\ all !! i = Some line /\
         ~ commented all i /\ searchb rec line = true) /\
    (forall k v, found' !! k = Some v -> found !! k = Some v \/
       exists i, k = (absPath r, S i) /\ all !! i = Some v) /\
    (forall k, is_Some (found !! k) \/ (k ∈ map line_tuple out /\ k ∉ map line_tuple output) ->
       is_Some (found' !! k)).
Proof.
  intros Hsrc. revert pre b output found.
  induction lines as [|l lines IH]; intros pre b output found Hall Hb Hnd.
  - exists output, found. cbn. split_and!; [done|done| |auto|tauto].
    intros k. split; [auto|]. intros [|(i & line & Hi & _ & Hl & _)]; [done|].
    apply lookup_lt_Some in Hl. rewrite Hall, app_nil_r in Hl. lia.
  - assert (Hl : all !! length pre = Some l) by (rewrite Hall; by apply list_lookup_middle).
    pose proof (commented_open _ _ _ Hl) as Hc. pose proof (open_before_S _ _ _ Hl) as HS.
    cbn [grep_lines]. set (b1 := if closes_comment l then false else b).
    set (b2 := if opens_comment l then true else b1).
    assert (Hb1 : b1 = true <-> commented all (length pre)).
    { rewrite Hc, <- Hb. unfold b1. destruct (closes_comment l); naive_solver. }
    assert (Hb2 : b2 = true <-> open_before all (length (pre ++ [l]))).
    { rewrite length_app, Nat.add_comm, HS, <- Hc, <- Hb1. unfold b2. destruct (opens_comment l); naive_solver. }
    assert (Hnext : all = (pre ++ [l]) ++ lines) by (by rewrite <- app_assoc).
    assert (Hlen : S (length pre) = length (pre ++ [l])) by (rewrite length_app; cbn; lia).
    destruct (line_ref r all (length pre + 1) Hsrc) as (ir & Hir & Hkey & _).
    replace (length pre + 1) with (S (length pre)) in Hkey by lia.
    destruct (negb b1 && searchb rec l) eqn:Hhit.
    + apply andb_true_iff in Hhit as [Hb1f%negb_true_iff Hs].
      rewrite Hir. cbn [mbind res_bind fst snd]. rewrite Hlen.
      destruct (IH (pre ++ [l]) b2 (line_add output ir) (<[line_tuple ir := l]> found) Hnext Hb2
                  (line_add_NoDup _ _ Hnd)) as (out & found' & Hg & Hnd' & Hel & Hfo & Hfi).
      exists out, found'. split_and!; [done|done|..].
      * intros k. rewrite Hel, line_add_elem, Hkey. rewrite <- Hlen. split.
        -- intros [[| ->]|(i & line & ? & ?)]; [auto| |right; exists i, line; split; [lia|done]].
           right. exists (length pre), l. split_and!; [done..| |done]. rewrite <- Hb1. congruence.
        -- intros [|(i & line & Hi & Hk)]; [auto|].
           destruct (decide (i = length pre)) as [->|]; [naive_solver|].
           right. exists i, line. split; [lia|done].
      * intros k v Hv. apply Hfo in Hv as [Hv|]; [|auto].
        rewrite Hkey in Hv. apply lookup_insert_Some in Hv as [[<- <-]|[_ ?]]; [|auto]. eauto.
      * intros k Hk. apply Hfi. destruct Hk as [Hk|[Hk Hno]].
        -- left. destruct (decide (line_tuple ir = k)) as [->|];
             [by rewrite lookup_insert_eq | by rewrite lookup_insert_ne].
        -- destruct (decide (k = line_tuple ir)) as [->|]; [left; by rewrite lookup_insert_eq|].
           right. split; [done|]. rewrite line_add_elem. tauto.
    + cbn [mbind res_bind fst snd]. rewrite Hlen.
      destruct (IH (pre ++ [l]) b2 output found Hnext Hb2 Hnd) as (out & found' & Hg & Hnd' & Hel & Hfo & Hfi).
      exists out, found'. split_and!; [done|done| |done|done].
      intros k. rewrite Hel. rewrite <- Hlen. split.
      * intros [|(i & line & ? & ?)]; [auto|right; exists i, line; split; [lia|done]].
      * intros [|(i & line & Hi & Hk)]; [auto|].
        destruct (decide (i = length pre)) as [->|]; [|right; exists i, line; split; [lia|done]].
        exfalso. destruct Hk as (_ & Hl' & Hnc & Hs). rewrite <- Hb1 in Hnc.
        assert (line = l) as -> by congruence. rewrite Hs in Hhit. by destruct b1.
Qed.

(** The lines a grep starts from: the table's, or the cleaned file. *)
Lemma source_lines r lines t :
  source_text r lines -> coherent t ->
  exists t', cached_lines cwd fs r t = Ok (lines, t') /\ coherent t' /\ refToLine t' = refToLine t.
Proof.
  intros Hsrc [Hls Hl]. unfold cached_lines. destruct (refToLines t !! absPath r) as [lines'|] eqn:E.
  - apply (Hls r lines) in E as ->; [|done]. by exists t.
  - pose proof Hsrc as (_ & _ & c & Hc & ->). rewrite Hc. eexists. split_and!; [done|split|done]; cbn; [|done].
    intros r' lines lines' Hr' [[E' <-]|[_ ?]]%lookup_insert_Some; [|by eapply Hls].
    by eapply (source_text_fun r r').
Qed.

Lemma grepOne_spec rec r lines t :
  source_text r lines -> coherent t ->
  exists out t', grepOne cwd ROOT_PATH fs r rec t = Ok (out, t') /\ coherent t' /\
    NoDup (map line_tuple out) /\ (forall k, k ∈ map line_tuple out <-> hit rec r lines k) /\
    (forall k, is_Some (refToLine t !! k) \/ k ∈ map line_tuple out -> is_Some (refToLine t' !! k)).
Proof.
  intros Hsrc Hco. destruct (source_lines r lines t Hsrc Hco) as (t1 & H1 & [Hls Hl] & Ht1).
  assert (Hopen : false = true <-> open_before lines 0) by (split; [done|]; intros (j & lj & Hj & _); exfalso; lia).
  destruct (grep_lines_spec rec r lines [] lines false [] (refToLine t1) Hsrc eq_refl Hopen NoDup_nil_2)
    as (out & found & Hg & Hnd & Hel & Hfo & Hfi).
  exists out, (Tables found (refToLines t1)). unfold grepOne. rewrite H1. cbn [mbind res_bind].
  cbn [length] in Hg. rewrite Hg. split_and!; [done| |done| |].
  - split; [exact Hls|]. intros r' lines' i line Hr' Hf. cbn in Hf. apply Hfo in Hf as [Hf|(j & E & Hj)].
    + by eapply Hl.
    + injection E as E ->. by rewrite (source_text_fun r' r lines' lines Hr' Hsrc E).
  - intros k. rewrite Hel. unfold hit. split.
    + intros [?%not_elem_of_nil|(i & line & _ & ?)]; [done|eauto].
    + intros (i & line & ?). right. exists i, line. split; [cbn; lia|done].
  - intros k Hk. cbn. apply Hfi. rewrite Ht1. destruct Hk; [auto|right]. split; [done|apply not_elem_of_nil].
Qed.

Definition readable (r : iref) : Prop := exists lines, source_text r lines.

Lemma grep_sources_spec rec sources instances t :
  Forall readable sources -> coherent t -> NoDup (map line_tuple instances) ->
  exists out t', for_each (fun '(instances, t) filename =>
                    '(output, t) ← grepOne cwd ROOT_PATH fs filename rec t;
                    Ok (line_union instances output, t)) sources (instances, t) = Ok (out, t') /\
    coherent t' /\ NoDup (map line_tuple out) /\
    (forall k, k ∈ map line_tuple out <->
       k ∈ map line_tuple instances \/ exists r lines, r ∈ sources /\ source_text r lines /\ hit rec r lines k) /\
    (forall k, is_Some (refToLine t !! k) \/ (k ∈ map line_tuple out /\ k ∉ map line_tuple instances) ->
       is_Some (refToLine t' !! k)).
Proof.
  intros Hs. revert instances t. induction Hs as [|r sources [lines Hr] _ IH]; intros instances t Hco Hnd.
  - exists instances, t. cbn. split_and!; [done..| |tauto].
    intros k. split; [auto|]. by intros [|(r & ? & ?%not_elem_of_nil & _)].
  - destruct (grepOne_spec rec r lines t Hr Hco) as (out1 & t1 & H1 & Hco1 & _ & Hel1 & Hf1).
    destruct (IH (line_union instances out1) t1 Hco1 (line_union_NoDup _ _ Hnd))
      as (out & t' & H2 & Hco2 & Hnd2 & Hel2 & Hf2).
    exists out, t'. cbn [for_each]. rewrite H1. cbn [mbind res_bind]. rewrite H2. split_and!; [done..| |].
    + intros k. rewrite Hel2, line_union_elem, Hel1. split.
      * intros [[|]|(r' & lines' & ? & ?)]; [auto| |].
        -- right. exists r, lines. split; [apply list_elem_of_here|done].
        -- right. exists r', lines'. split; [by apply list_elem_of_further|done].
      * intros [|(r' & lines' & Hin & Hr' & Hh)]; [auto|].
        apply elem_of_cons in Hin as [->|Hin]; [|right; eauto].
        left. right. by rewrite (source_text_fun r r lines lines' Hr Hr' eq_refl).
    + intros k Hk. apply Hf2. destruct Hk as [Hk|[Hk Hno]]; [left; apply Hf1; auto|].
      destruct (decide (k ∈ map line_tuple out1)); [left; apply Hf1; auto|].
      right. split; [done|]. rewrite line_union_elem. tauto.
Qed.

(** A line of code of one of the sources matches. *)
Definition matching_line (sources : list iref) (rec : re) (k : str * nat) (line : str) : Prop :=
  exists r lines i, r ∈ sources /\ source_text r lines /\ k = (absPath r, S i) /\
    lines !! i = Some line /\ ~ commented lines i /\ searchb rec line = true.

Lemma matching_line_fun sources rec k line line' rec' :
  matching_line sources rec k line -> matching_line sources rec' k line' -> line = line'.
Proof.
  intros (r & ls & i & _ & Hs & -> & Hl & _) (r' & ls' & i' & _ & Hs' & [= E ->] & Hl' & _).
  rewrite (source_text_fun r' r ls' ls Hs' Hs (eq_sym E)) in Hl'. congruence.
Qed.

Lemma grep_matching rec t sources :
  relevantSources cwd ROOT_PATH fs = Ok sources -> Forall readable sources -> coherent t ->
  exists out t', grepAll cwd ROOT_PATH fs rec t = Ok (out, t') /\ coherent t' /\
    NoDup (map line_tuple out) /\
    (forall k, k ∈ map line_tuple out <-> exists line, matching_line sources rec k line) /\
    (forall k line, matching_line sources rec k line -> refToLine t' !! k = Some line).
Proof.
  intros Hrel Hread Hco.
  assert (Hread' : Forall readable (set_order sources)) by by rewrite (set_order_law _ sources).
  destruct (grep_sources_spec rec (set_order sources) [] t Hread' Hco NoDup_nil_2)
    as (out & t' & H1 & Hco' & Hnd & Hel & Hf).
  assert (Hel' : forall k, k ∈ map line_tuple out <-> exists line, matching_line sources rec k line).
  { intros k. rewrite Hel. unfold hit. split.
    - intros [?%not_elem_of_nil|(r & lines & Hr%(proj1 (elem_of_set_order _ _)) & Hs & i & line & -> & ? & ? & ?)];
        [done|]. by exists line, r, lines, i.
    - intros (line & r & lines & i & Hr & Hs & -> & ? & ? & ?). right. exists r, lines.
      split; [by apply elem_of_set_order|]. split; [done|]. by exists i, line. }
  exists out, t'. unfold grepAll. rewrite Hrel. cbn [mbind res_bind]. split_and!; [exact H1|done..|].
  intros k line Hm. assert (Hk : k ∈ map line_tuple out) by (apply Hel'; by exists line).
  destruct (Hf k (or_intror (conj Hk (not_elem_of_nil _)))) as [line' Hl'].
  rewrite Hl'. f_equal. destruct Hm as (r & lines & i & _ & Hs & -> & Hl & _), Hco' as [_ Hco'].
  apply (Hco' r lines i line' Hs) in Hl'. congruence.
Qed.

(** C13. The grep reads code, and all of it: over readable sources it returns,
    each once, the numbers of exactly the lines that match after the comments
    are cut and that are not inside a comment opened on an earlier line; every
    line found is in the table with its text, and the tables, which later
    greps reuse, still hold what the files say. *)
Theorem grepAll_reads_code rec t sources :
  relevantSources cwd ROOT_PATH fs = Ok sources -> Forall readable sources -> coherent t ->
  exists out t', grepAll cwd ROOT_PATH fs rec t = Ok (out, t') /\ coherent t' /\
    NoDup (map line_tuple out) /\
    (forall k, k ∈ map line_tuple out <-> exists line, matching_line sources rec k line) /\
    (forall k line, matching_line sources rec k line -> refToLine t' !! k = Some line).
Proof. apply grep_matching. Qed.

(** The name captured in a line that declares a lemma. *)
Definition declares_lemma (line x : str) : Prop :=
  lemma_group line = Some x.

Lemma declares_some line : searchb lemma_re line = true -> exists x, declares_lemma line x.
Proof.
  unfold searchb, declares_lemma, lemma_group. destruct (search lemma_re line) as [m|] eqn:E; [|done]. intros _.
  apply search_matches in E as (st & Hm & _).
  assert (Hg : exists r st1, matches (Seq r (Grp 2 (Plus Word))) st1 (m_state m)).
  { inversion Hm as [| |r1 r2 s0 s1 s2 _ H1| | | | | | | | | | | |]; subst.
    inversion H1 as [| |r1 r2 s3 s4 s5 _ H2| | | | | | | | | | | |]; subst.
    inversion H2 as [| |r1 r2 s6 s7 s8 _ H3| | | | | | | | | | | |]; subst. eauto. }
  destruct Hg as (r & st1 & Hg). inversion Hg as [| |r1 r2 s0 s1 s2 _ H1| | | | | | | | | | | |]; subst.
  apply matches_Grp in H1 as (w & cs & E). cbn. unfold group. rewrite E. cbn. eauto.
Qed.

(** The word [x] occurs on at most one line of code. *)
Definition mentioned_once (sources : list iref) (x : str) : Prop :=
  forall k k' l l', matching_line sources (word_re x) k l -> matching_line sources (word_re x) k' l' -> k = k'.

Lemma length_le_1 {A} (l : list A) : NoDup l -> (length l <= 1 <-> forall x y, x ∈ l -> y ∈ l -> x = y).
Proof.
  intros Hnd. destruct l as [|a [|b l]].
  - split; [intros _ x y []%not_elem_of_nil|cbn; lia].
  - split; [|cbn; lia]. by intros _ x y ->%list_elem_of_singleton ->%list_elem_of_singleton.
  - split; [cbn; lia|]. intros Hall. apply NoDup_cons in Hnd as [Ha _]. exfalso. apply Ha.
    rewrite (Hall a b); [apply list_elem_of_here..|]. apply list_elem_of_further, list_elem_of_here.
Qed.

Lemma dead_loop sources names printed t :
  relevantSources cwd ROOT_PATH fs = Ok sources -> Forall readable sources -> coherent t ->
  exists out t', for_each (fun '(printed, t) x =>
              '(uses, t) ← grepAll cwd ROOT_PATH fs (word_re x) t;
              Ok (if length uses <=? 1 then printed ++ [x] else printed, t)) names (printed, t) = Ok (out, t') /\
    forall x, x ∈ out <-> x ∈ printed \/ (x ∈ names /\ mentioned_once sources x).
Proof.
  intros Hrel Hread. revert printed t. induction names as [|y names IH]; intros printed t Hco.
  - exists printed, t. split; [done|]. intros x. rewrite elem_of_nil. tauto.
  - destruct (grep_matching (word_re y) t sources Hrel Hread Hco) as (uses & t1 & H1 & Hco1 & Hnd & Hel & _).
    assert (Hdead : length uses <= 1 <-> mentioned_once sources y).
    { rewrite <- (length_map line_tuple), length_le_1 by done. unfold mentioned_once. setoid_rewrite Hel. naive_solver. }
    destruct (IH (if length uses <=? 1 then printed ++ [y] else printed) t1 Hco1) as (out & t' & H2 & Hel2).
    exists out, t'. cbn [for_each]. rewrite H1. cbn [mbind res_bind]. rewrite H2. split; [done|].
    intros x. rewrite Hel2, elem_of_cons. destruct (Nat.leb_spec (length uses) 1) as [Hle|Hgt].
    + rewrite elem_of_app, list_elem_of_singleton. apply Hdead in Hle. naive_solver.
    + assert (~ mentioned_once sources y) by (rewrite <- Hdead; lia). naive_solver.
Qed.

(** C30. Dead lemmas: the search always ends with a list, and it prints exactly
    the names of the lemmas declared on a line of code whose name occurs, as a
    whole word, on no other line of code of the sources. *)
Theorem dead_lemmas_found t sources :
  relevantSources cwd ROOT_PATH fs = Ok sources -> Forall readable sources -> coherent t ->
  exists printed t', find_dead_lemmas cwd ROOT_PATH fs t = Ok (printed, t') /\
    forall x, x ∈ printed <->
      (exists k line, matching_line sources lemma_re k line /\ declares_lemma line x) /\
      mentioned_once sources x.
Proof.
  intros Hrel Hread Hco.
  destruct (grep_matching lemma_re t sources Hrel Hread Hco) as (refs & t1 & H1 & Hco1 & _ & Hel & Hline).
  unfold find_dead_lemmas. rewrite H1. cbn [mbind res_bind].
  assert (Hname : forall r, r ∈ refs -> exists k line x, matching_line sources lemma_re k line /\
            k = line_tuple r /\ declares_lemma line x /\ lemma_name t1 r = Ok x).
  { intros r Hr. assert (Hk : line_tuple r ∈ map line_tuple refs) by by apply list_elem_of_fmap_2.
    apply Hel in Hk as [line Hm]. pose proof Hm as (_ & _ & _ & _ & _ & _ & _ & _ & Hs).
    apply declares_some in Hs as [x Hx]. exists (line_tuple r), line, x. split_and!; [done..|].
    unfold lemma_name. rewrite (Hline _ _ Hm). cbn. unfold declares_lemma in Hx. by rewrite Hx. }
  destruct (map_res (lemma_name t1) (set_order refs)) as [names|e] eqn:En.
  2:{ exfalso. apply map_res_Raise in En as (r & Hr%(proj1 (elem_of_set_order _ _)) & He).
      destruct (Hname r Hr) as (_ & _ & x & _ & _ & _ & Hx). congruence. }
  rewrite bind_of_Ok. destruct (dead_loop sources names [] t1 Hrel Hread Hco1) as (out & t' & H2 & Hout).
  exists out, t'. split; [exact H2|]. intros x. rewrite Hout.
  assert (Hn : x ∈ names <-> exists k line, matching_line sources lemma_re k line /\ declares_lemma line x).
  { rewrite (map_res_elem _ _ _ _ En). setoid_rewrite elem_of_set_order. split.
    - intros (r & Hr & Hx). destruct (Hname r Hr) as (k & line & x' & Hm & _ & Hd & Hx').
      exists k, line. split; [done|]. congruence.
    - intros (k & line & Hm & Hd). assert (Hk : k ∈ map line_tuple refs) by (apply Hel; by exists line).
      apply list_elem_of_fmap in Hk as (r & -> & Hr). exists r. split; [done|].
      destruct (Hname r Hr) as (k & line' & x' & Hm' & -> & Hd' & Hx').
      assert (line' = line) as -> by (by eapply matching_line_fun). unfold declares_lemma in *. congruence. }
  rewrite Hn. split; [|auto]. by intros [?%not_elem_of_nil|].
Qed.
End grep.

Lemma coherent_no_tables cwd ROOT fs : coherent cwd ROOT fs no_tables.
Proof. split; intros *; cbn; by rewrite lookup_empty. Qed.

(** A tree with one source. *)
Definition study_text : str :=
  # "predicate {:opaque} P()" ++ nl :: # "/* reveal_P();" ++ nl :: # "reveal_P(); */ reveal_P();" ++
  nl :: # "// reveal_P();" ++ nl :: # "lemma L() { reveal_P(); }" ++ [nl].
Definition study_fs : gmap str str := {[ # "/r/Impl/Bundle.i.dfy" := study_text ]}.

Lemma study_source (s : SetOrder) :
  exists r, relevantSources "/r" "/r" study_fs = Ok [r] /\ readable "/r" "/r" study_fs r.
Proof.
  eexists. split; [vm_compute; reflexivity|]. eexists. split; [|split].
  - apply (normpath_is_normal "/r/Impl/Bundle.i.dfy"). reflexivity.
  - reflexivity.
  - exists study_text. split; [vm_compute; reflexivity|reflexivity].
Qed.

Lemma grepAll_reads_code_witness :
  let _ := insertion_order in
  exists out t', grepAll "/r" "/r" study_fs (Lit "reveal_P") no_tables = Ok (out, t') /\
    map line_tuple out = [(# "/r/Impl/Bundle.i.dfy", 3); (# "/r/Impl/Bundle.i.dfy", 5)].
Proof.
  intros s. destruct (study_source s) as (r & Hr & Hread).
  destruct (grepAll_reads_code "/r" "/r" study_fs (Lit "reveal_P") no_tables [r] Hr
              (Forall_cons_2 _ _ _ Hread (Forall_nil_2 _)) (coherent_no_tables _ _ _))
    as (out & t' & E & _).
  exists out, t'. split; [exact E|]. apply (f_equal (fun m => match m with Ok (o, _) => map line_tuple o | _ => [] end)) in E.
  vm_compute in E. symmetry. exact E.
Defined.

Lemma dead_lemmas_found_witness :
  let _ := insertion_order in
  exists printed t', find_dead_lemmas "/r" "/r" study_fs no_tables = Ok (printed, t') /\ printed = [ # "L"].
Proof.
  intros s. destruct (study_source s) as (r & Hr & Hread).
  destruct (dead_lemmas_found "/r" "/r" study_fs no_tables [r] Hr
              (Forall_cons_2 _ _ _ Hread (Forall_nil_2 _)) (coherent_no_tables _ _ _))
    as (out & t' & E & _).
  exists out, t'. split; [exact E|]. apply (f_equal (fun m => match m with Ok (o, _) => o | _ => [] end)) in E.
  vm_compute in E. symmetry. exact E.
Defined.

(** ** The constants of the paper *)

Lemma first_above_sorted thresh i xs :
  StronglySorted (fun a b => Z.ltb b a = false) xs ->
  first_above thresh i xs =
  if existsb (fun x => thresh <? x)%Z xs
  then Ok (i + length (List.filter (fun x => x <=? thresh)%Z xs)) else Raise StopIteration.
Proof.
  intros Hs. revert i. induction Hs as [|x xs Hs IH Hx]; intros i; [done|]. cbn.
  destruct (Z.ltb_spec thresh x) as [Hlt|Hge]; cbn.
  - f_equal. rewrite (proj2 (Z.leb_gt x thresh)) by done.
    assert (List.filter (fun y => (y <=? thresh)%Z) xs = []) as ->; [|cbn; lia].
    rewrite Forall_forall in Hx. clear -Hx Hlt. induction xs as [|y xs IH]; [done|]. cbn.
    rewrite (proj2 (Z.leb_gt y thresh)).
    + apply IH. intros z Hz. by apply Hx, list_elem_of_further.
    + specialize (Hx y (list_elem_of_here _ _)). apply Z.ltb_ge in Hx. lia.
  - rewrite (proj2 (Z.leb_le x thresh)) by done. rewrite IH. cbn.
    destruct (existsb _ xs); [f_equal; lia|done].
Qed.

Lemma fold_max_list l x : fold_left Z.max l x = foldr Z.max x l.
Proof.
  revert x. induction l as [|y l IH]; intros x; cbn; [done|]. rewrite IH. clear.
  induction l as [|z l IH]; cbn; [lia|]. rewrite IH. lia.
Qed.

Lemma max_list_spec l :
  l <> [] -> exists mx, max_list l = Ok mx /\ mx ∈ l /\ Forall (fun r => (r <= mx)%Z) l.
Proof.
  destruct l as [|x l]; [done|]. intros _. exists (fold_left Z.max l x). split; [done|].
  rewrite fold_max_list. clear. induction l as [|y l [IH1 IH2]]; cbn.
  - split; [apply list_elem_of_here|repeat constructor; lia].
  - apply Forall_cons in IH2 as [Hx IH2]. split.
    + destruct (Z.max_spec y (foldr Z.max x l)) as [[_ ->]|[_ ->]];
        [|by apply list_elem_of_further, list_elem_of_here].
      apply elem_of_cons in IH1 as [->|]; [apply list_elem_of_here|]. by do 2 apply list_elem_of_further.
    + repeat constructor; [lia..|]. eapply Forall_impl; [exact IH2|]. cbn. lia.
Qed.

(** Numbers of records below 2^53 are exact floats. *)
Definition record_bound (n : nat) : Prop := (Z.of_nat n < 2 ^ fprec)%Z.

Definition denominator (n : nat) : float := fsub (float_of_Z (Z.of_nat n)) (float_of_Z 1).

Lemma denominator_nonzero n :
  2 <= n -> record_bound n -> fzero (denominator n) = false /\ fzero (float_of_Z (Z.of_nat n)) = false.
Proof.
  intros Hn Hb. unfold record_bound in Hb. split; [apply fsub_small_nonzero; lia|].
  by apply float_of_small_nonzero; lia.
Qed.

Lemma cumulative_Ok n :
  2 <= n -> record_bound n ->
  exists ys, cumulative n = Ok ys /\
    forall i, i < n -> exists y, nth_res ys i = Ok y /\ fdiv (float_of_Z (Z.of_nat i)) (denominator n) = Ok y.
Proof.
  intros Hn Hb. destruct (denominator_nonzero n Hn Hb) as [Hz _].
  unfold cumulative. fold (denominator n).
  destruct (map_res _ (seq 0 n)) as [ys|e] eqn:E.
  2:{ apply map_res_Raise in E as (i & _ & He). unfold fdiv in He. by rewrite Hz in He. }
  exists ys. split; [done|]. intros i Hi. apply map_res_Forall2 in E.
  assert (Hs : seq 0 n !! i = Some i) by by apply lookup_seq.
  destruct (Forall2_lookup_l _ _ _ _ _ E Hs) as (y & Hy & Hf). exists y. split; [|done].
  unfold nth_res. by rewrite Hy.
Qed.

Lemma sort_sum l : foldr Z.add 0%Z (sort_by Z.ltb l) = foldr Z.add 0%Z l.
Proof.
  assert (H : sort_by Z.ltb l ≡ₚ l) by apply sort_by_Permutation.
  induction H; cbn; lia.
Qed.

(** The constants of the paper.  With a single record the cumulative
    fractions divide by zero; with none above five reveals there is no
    threshold; otherwise the counts are those of the records, whatever their
    order: their number, the sum and the maximum of the reveals, how many have
    none and how many one to three.  The fraction reported for five reveals is
    the number of records with at most five over the number of records MINUS
    ONE. *)
Theorem gather_constants_cases records :
  let rs := map rec_reveal_count records in
  let count f := Z.of_nat (length (List.filter f rs)) in
  let n := length records in
  (n = 1 -> gather_constants records = Raise ZeroDivisionError) /\
  (n <> 1 -> record_bound n -> Forall (fun r => (r <= 5)%Z) rs ->
     gather_constants records = Raise StopIteration) /\
  (2 <= n -> record_bound n -> Exists (fun r => (5 < r)%Z) rs ->
     exists frac mean mx,
       fdiv (float_of_Z (count (fun r => r <=? 5)%Z)) (denominator n) = Ok frac /\
       int_div (foldr Z.add 0%Z rs) (Z.of_nat n) = Ok mean /\
       mx ∈ rs /\ Forall (fun r => (r <= mx)%Z) rs /\
       gather_constants records =
         pct ← percent_text (fmul frac (float_of_Z 100));
         Ok [(# "autoOpaqueCount", CInt (Z.of_nat n)); (# "autoRevealCount", CInt (foldr Z.add 0%Z rs));
             (# "autoRevealMean", CText (fmt_fixed 1 mean)); (# "autoRevealMax", CInt mx);
             (# "autoOpaqueZeroReveals", CInt (count (fun r => r =? 0)%Z));
             (# "autoOpaqueFewReveals", CInt (count (fun r => (0 <? r) && (r <=? 3))%Z));
             (# "autoFivePct", CText pct)]).
Proof.
  intros rs count n. unfold gather_constants. fold rs.
  pose proof (sort_by_Permutation Z.ltb rs) as Hp. pose proof (sort_by_sorted Z.ltb rs) as Hs.
  set (xs := sort_by Z.ltb rs) in *.
  assert (Hn : length xs = n) by (rewrite Hp; apply length_map).
  assert (Hcount : forall f, Z.of_nat (length (List.filter f xs)) = count f).
  { intros f. unfold count. by rewrite (filter_Permutation_bool f _ _ Hp). }
  assert (Hfirst : first_above 5 0 xs = if existsb (fun x => 5 <? x)%Z xs
            then Ok (length (List.filter (fun x => x <=? 5)%Z xs)) else Raise StopIteration)
    by by apply first_above_sorted.
  rewrite !Hn, Hfirst. split_and!.
  - intros ->. reflexivity.
  - intros H1 Hb Hle. assert (existsb (fun x => 5 <? x)%Z xs = false) as ->.
    { apply not_true_iff_false. intros (x & Hx%list_elem_of_In & Hlt%Z.ltb_lt)%existsb_exists.
      rewrite Hp in Hx. rewrite Forall_forall in Hle. specialize (Hle x Hx). lia. }
    destruct (decide (n = 0)) as [->|]; [reflexivity|].
    destruct (cumulative_Ok n ltac:(lia) Hb) as (ys & -> & _). reflexivity.
  - intros H2 Hb (x & Hx & Hlt)%Exists_exists. destruct (cumulative_Ok n H2 Hb) as (ys & -> & Hys).
    destruct (denominator_nonzero n H2 Hb) as [_ Hnz].
    assert (existsb (fun x => 5 <? x)%Z xs = true) as ->.
    { apply existsb_exists. exists x. split; [|by apply Z.ltb_lt]. by rewrite <- list_elem_of_In, Hp. }
    assert (Hlen : length (List.filter (fun x => x <=? 5)%Z xs) < n).
    { rewrite <- Hn. apply (filter_length_lt _ _ x); [by rewrite Hp|]. by apply Z.leb_gt. }
    destruct (Hys _ Hlen) as (frac & Hnth & Hdiv).
    assert (Hmean : exists mean, int_div (foldr Z.add 0%Z rs) (Z.of_nat n) = Ok mean)
      by (unfold int_div, fdiv; rewrite Hnz; eauto).
    assert (Hmx : exists mx, max_list xs = Ok mx /\ mx ∈ rs /\ Forall (fun r => (r <= mx)%Z) rs).
    { destruct (max_list_spec xs) as (mx & Hmx & Hin & Hall); [intros E; by rewrite E in Hn; cbn in Hn; lia|].
      exists mx. by rewrite <- Hp. }
    destruct Hmean as [mean Hmean], Hmx as (mx & Hmx & Hin & Hall).
    assert (Hsum : foldr Z.add 0%Z xs = foldr Z.add 0%Z rs) by apply sort_sum.
    exists frac, mean, mx. rewrite <- Hcount. split_and!; [exact Hdiv|done..|].
    rewrite !bind_of_Ok, Hnth, bind_of_Ok, Hsum, Hmean, bind_of_Ok, Hmx, bind_of_Ok, !Hcount. done.
Qed.

Lemma gather_constants_cases_witness :
  exists defs, gather_constants (map (OpaqueRecord [] 0 None) [7%Z; 0%Z; 2%Z; 9%Z]) = Ok defs /\
    dict_get defs "autoFivePct" = Some (CText (# "66" ++ backslash :: # "%")).
Proof.
  destruct (gather_constants_cases (map (OpaqueRecord [] 0 None) [7%Z; 0%Z; 2%Z; 9%Z])) as (_ & _ & H).
  destruct H as (frac & mean & mx & _ & _ & _ & _ & E);
    [vm_compute; lia|reflexivity|apply Exists_cons_hd; reflexivity|].
  destruct (gather_constants (map (OpaqueRecord [] 0 None) [7%Z; 0%Z; 2%Z; 9%Z])) as [defs|e] eqn:G.
  - exists defs. split; [reflexivity|]. apply (f_equal (fun m : res constants => match m with Ok d => dict_get d (# "autoFivePct") | _ => None end)) in G.
    vm_compute in G. symmetry. exact G.
  - apply (f_equal is_Ok) in G. vm_compute in G. discriminate G.
Defined.
