(* ===== verification/VerifPlot.v ===== *)
(** * Verification times (tools/plot/plot-verification-time.py)

    The script reads the Dafny logs of replicated runs, collects for every
    symbol the times observed, drops the samples of workers that are
    consistently slow, and computes the points of the cumulative distribution
    that the paper quotes.  [numpy] is a parameter: its median and its standard
    deviation of a list. *)
From S2P Require Import Prelude PyStr Regex Paths PyFloat Latex.

(** ** Observations *)

Record Observation := ObservationOf {
  obs_time : float; obs_worker : option str; obs_source : str
}.

Record SymbolReport := SymbolReportOf { sr_name : str; observations : list Observation }.
Definition report_add (r : SymbolReport) (o : Observation) : SymbolReport :=
  SymbolReportOf (sr_name r) (observations r ++ [o]).
Definition report_times (r : SymbolReport) : list float := map obs_time (observations r).

Record SymbolPile := SymbolPileOf {
  symbols : dict str SymbolReport; avg_times_ : option (list float)
}.
Definition empty_pile : SymbolPile := SymbolPileOf [] None.

(** [not x] of the cached list: absent, or empty. *)
Definition no_times (o : option (list float)) : bool :=
  match o with None | Some [] => true | Some _ => false end.

Definition put_replica (name : str) (o : Observation) (pile : SymbolPile) : res SymbolPile :=
  _ ← py_assert (no_times (avg_times_ pile));
  let r := default (SymbolReportOf name []) (dict_get (symbols pile) name) in
  Ok (SymbolPileOf (dict_set name (report_add r o) (symbols pile)) (avg_times_ pile)).

Definition reports (pile : SymbolPile) : list SymbolReport := map snd (symbols pile).

(** [max(observations, key=lambda obs: obs.time)]: the first largest. *)
Definition later_max (best o : Observation) : Observation :=
  if fltb (obs_time best) (obs_time o) then o else best.
Definition max_obs (l : list Observation) : res Observation :=
  match l with [] => Raise ValueError | o :: l' => Ok (fold_left later_max l' o) end.

(** ** Reading a log

    The local variables of [parse_one]; those not assigned yet are [None].
    [worker_name] is initialised to [None]. *)
Record parse_state := ParseState {
  source_filename : option str; worker_name : option str;
  current_part : option (str * str); symbol_parts : dict str (list Observation)
}.
Definition parse_start : parse_state := ParseState None None None [].

Definition verifying_re : re := seqs [Lit "Verifying "; Grp 1 (Star NonSpace); Lit " ..."].
Definition verified_re : re :=
  seqs [Lit "["; Grp 1 (Plus (OneOf "0123456789.")); Lit " s,"; Star Dot; Lit "]  verified"].

(** [line.split()[-1]]. *)
Definition last_word (line : str) : res str := of_option IndexError (last (fields line)).

Definition record_part (symbol : str) (o : Observation) (parts : dict str (list Observation))
  : dict str (list Observation) :=
  dict_set symbol (default [] (dict_get parts symbol) ++ [o]) parts.

Definition on_parsing (st : parse_state) (line : str) : res parse_state :=
  if startswith line "Parsing" then
    w ← last_word line;
    Ok (ParseState (Some w) (worker_name st) (current_part st) (symbol_parts st))
  else Ok st.

Definition on_worker (st : parse_state) (line : str) : res parse_state :=
  if startswith line "WORKER" then
    w ← last_word line;
    Ok (ParseState (source_filename st) (Some w) (current_part st) (symbol_parts st))
  else Ok st.

Definition on_verifying (st : parse_state) (line : str) : res parse_state :=
  match search verifying_re line with
  | Some mo =>
      match split_str (default [] (group 1 mo)) "$$" with
      | [part; symbol] =>
          Ok (ParseState (source_filename st) (worker_name st) (Some (part, symbol)) (symbol_parts st))
      | _ => Raise ValueError
      end
  | None => Ok st
  end.

Definition on_verified (st : parse_state) (line : str) : res parse_state :=
  match search verified_re line with
  | Some mo =>
      time ← py_float (default [] (group 1 mo));
      cur ← of_option (NameError "symbol") (current_part st);
      source ← of_option (NameError "source_filename") (source_filename st);
      Ok (ParseState (source_filename st) (worker_name st) (current_part st)
            (record_part (snd cur) (ObservationOf time (worker_name st) source) (symbol_parts st)))
  | None => Ok st
  end.

Definition parse_line (st : parse_state) (line : str) : res parse_state :=
  st ← on_parsing st line;
  st ← on_worker st line;
  st ← on_verifying st line;
  on_verified st line.

Definition put_max (pile : SymbolPile) (entry : str * list Observation) : res SymbolPile :=
  o ← max_obs (snd entry);
  put_replica (fst entry) o pile.

Definition parse_one (contents : str) (pile : SymbolPile) : res SymbolPile :=
  st ← for_each parse_line (readlines contents) parse_start;
  for_each put_max (symbol_parts st) pile.

(** The results files, as the glob or the archive gives them: names and
    contents. *)
Definition EXPERIMENT : str := "expresults/veri_time_september_bb_branch*".

Definition data_re (branch : str) : re :=
  seqs [Star Dot; Lit branch; Star Dot; Dot; Lit "data"].

Definition groups : list (str * re) :=
  [(# "dynamic-frames", data_re "branch-dynamic-frames"); (# "linear", data_re "branch-linear")].

Definition group_files (group_re : re) (files : list (str * str)) : list (str * str) :=
  List.filter (fun '(fn, _) => match rematch group_re fn with Some _ => true | None => false end) files.

Definition parse_all_group (files : list (str * str)) : res SymbolPile :=
  if length files =? 0 then Raise (PyException ("No files match " ++ EXPERIMENT))
  else for_each (fun pile '(_, contents) => parse_one contents pile) files empty_pile.

Definition parse_all (files : list (str * str)) : res (list (str * SymbolPile)) :=
  map_res (fun '(groupname, group_re) =>
             pile ← parse_all_group (group_files group_re files); Ok (groupname, pile)) groups.

(** ** Declarations *)

Record Declaration := DeclarationOf { decl_line : option str; decl_type : str; decl_repr : list str }.
Definition is_repr (d : Declaration) : bool := 0 <? length (decl_repr d).
Definition add_repr (d : Declaration) (verb : str) : Declaration :=
  DeclarationOf (decl_line d) (decl_type d)
    (if bool_decide (verb ∈ decl_repr d) then decl_repr d else decl_repr d ++ [verb]).

Definition declaration_re : re :=
  seqs [Grp 1 (Alt (Lit "method") (Alt (Lit "lemma") (Alt (Lit "function") (Lit "predicate"))));
        Star (NoneOf "("); Space; Grp 2 (Star NonSpace); Chr "("].
Definition frame_re : re :=
  seqs [Bol; Star Space; Grp 1 (Alt (Lit "modifies") (Lit "reads"))].

Definition declaration_line (st : dict str Declaration * option str) (line : str)
  : res (dict str Declaration * option str) :=
  let '(table, current_symbol) := st in
  let '(table, current_symbol) :=
    match search declaration_re line with
    | Some mo =>
        let symbol := default [] (group 2 mo) in
        (dict_set symbol (DeclarationOf (Some line) (default [] (group 1 mo)) []) table, Some symbol)
    | None => (table, current_symbol)
    end in
  match search frame_re line with
  | Some mo =>
      symbol ← of_option KeyError current_symbol;
      d ← of_option KeyError (dict_get table symbol);
      Ok (dict_set symbol (add_repr d (default [] (group 1 mo))) table, current_symbol)
  | None => Ok (table, current_symbol)
  end.

Definition parse_dfy_for_reprness (contents : str) : res (dict str Declaration) :=
  st ← for_each declaration_line (readlines contents) ([], None);
  Ok (fst st).

Definition not_repr_symbols : list str :=
  ["IndirectionTableImpl.IndirectionTable.indirectionTableToVal" : str;
   "NodeImpl.Node.CutoffNodeAndKeepLeft" : str;
   "DynamicPkv.__default.MergeToOneChild" : str;
   "IndirectionTableImpl.IndirectionTable.ComputeRefCounts" : str].
Definition yes_repr_symbols : list str := ["KMBtree.__default.SplitChildOfIndex" : str].

(** ** The figures of the paper *)

Record CdfPoint := CdfPointOf {
  tex_label : str; thresh_sec : Z; cdf_idx : Z; tThr : float; yThr : float; pct : float;
  pct_text : str; cdf_defs : constants
}.

(** [next((idx,t) for idx,t in enumerate(l) if t > thresh)]. *)
Fixpoint first_slower (thresh : float) (i : nat) (l : list float) : res nat :=
  match l with
  | [] => Raise StopIteration
  | t :: l' => if fltb thresh t then Ok i else first_slower thresh (S i) l'
  end.

Section times.
Context (median std : list float -> float) (cwd : str) (fs : gmap str str).

Definition avg (r : SymbolReport) : float := median (report_times r).
Definition stdev (r : SymbolReport) : float := std (report_times r).
(** The quotient of two numpy floats, which does not raise. *)
Definition cv (r : SymbolReport) : float := SFdiv fprec femax (stdev r) (avg r).

(** [avg_times] fills the cache. *)
Definition compute_times (pile : SymbolPile) : list float := sort_by fltb (map avg (reports pile)).
Definition avg_times (pile : SymbolPile) : list float * SymbolPile :=
  match avg_times_ pile with
  | Some l => (l, pile)
  | None => let l := compute_times pile in (l, SymbolPileOf (symbols pile) (Some l))
  end.
Definition pile_N (pile : SymbolPile) : nat := length (fst (avg_times pile)).
Definition cdist (pile : SymbolPile) (i : Z) : res float :=
  fdiv (fmul (float_of_Z i) (float_of_Z 1)) (float_of_Z (Z.of_nat (pile_N pile))).

(** [detect_bogus_workers]: the counter, then the workers above twenty. *)
Definition count_offender (offending : dict (option str) nat) (r : SymbolReport)
  : res (dict (option str) nat) :=
  if fltb (cv r) (float_of_dec 3 (-1)) then Ok offending
  else worst ← max_obs (observations r);
       Ok (dict_set (obs_worker worst) (S (default 0 (dict_get offending (obs_worker worst)))) offending).

Definition detect_bogus_workers (pile : SymbolPile) : res (list (option str)) :=
  offending ← for_each count_offender (reports pile) [];
  Ok (map fst (List.filter (fun '(_, count) => 20 <? count) offending)).

Definition reject_report (bogus : list (option str)) (newpile : SymbolPile) (entry : str * SymbolReport)
  : res SymbolPile :=
  for_each (fun newpile o =>
              if bool_decide (obs_worker o ∈ bogus) then Ok newpile
              else put_replica (fst entry) o newpile) (observations (snd entry)) newpile.

Definition reject_bogus_workers (pile : SymbolPile) (bogus : list (option str)) : res SymbolPile :=
  for_each (reject_report bogus) (symbols pile) empty_pile.

(** [get_declaration]: [None] also when the parser itself raises KeyError. *)
Definition get_declaration (source_filename symbol : str) : res (option Declaration) :=
  let needle := List.last (split_str symbol ".") [] in
  if bool_decide (symbol ∈ not_repr_symbols) then Ok (Some (DeclarationOf None "lemma" []))
  else if bool_decide (symbol ∈ yes_repr_symbols) then
    Ok (Some (add_repr (DeclarationOf None "method" []) "pseudo"))
  else
    contents ← py_open cwd fs source_filename;
    match parse_dfy_for_reprness contents with
    | Ok table => Ok (dict_get table needle)
    | Raise KeyError => Ok None
    | Raise e => Raise e
    end.

(** The loop over the reports, slowest first: how many are slow and involve
    the heap, and how many are slow and do not. *)
Fixpoint count_slow (thresh : float) (rs : list SymbolReport) (repr_count no_repr_count : nat)
  : res (nat * nat) :=
  match rs with
  | [] => Ok (repr_count, no_repr_count)
  | r :: rs' =>
      if fleb (avg r) thresh then Ok (repr_count, no_repr_count)
      else o ← of_option IndexError (head (observations r));
           decl ← get_declaration (obs_source o) (sr_name r);
           match decl with
           | Some d => if is_repr d then count_slow thresh rs' (S repr_count) no_repr_count
                       else count_slow thresh rs' repr_count (S no_repr_count)
           | None => count_slow thresh rs' repr_count (S no_repr_count)
           end
  end.

(** [reports.sort(key = lambda r: -r.avg())]. *)
Definition by_slow (pile : SymbolPile) : list SymbolReport :=
  sort_by (fun a b => fltb (fopp (avg a)) (fopp (avg b))) (reports pile).

Definition slowest_symbols (pile : SymbolPile) : list (str * float) :=
  map (fun r => (sr_name r, avg r)) (take 10 (by_slow pile)).

Definition CdfPoint_init (label : str) (thresh : Z) (pile : SymbolPile) : res CdfPoint :=
  let th := float_of_Z thresh in
  let times := fst (avg_times pile) in
  i ← first_slower th 0 times;
  let idx := (Z.of_nat i - 1)%Z in
  t ← py_index times idx;
  y ← cdist pile idx;
  let pct := fmul y (float_of_Z 100) in
  let text := fmt_fixed 1 pct in
  counts ← count_slow th (by_slow pile) 0 0;
  let all_slow_count := fst counts + snd counts in
  pct_slow ← fdiv (fmul (float_of_Z 100) (float_of_Z (Z.of_nat (fst counts))))
                  (float_of_Z (Z.of_nat all_slow_count));
  heap ← percent_text pct_slow;
  Ok (CdfPointOf label thresh idx t y pct text
        [(label ++ # "SlowThresholdSecs", CInt thresh);
         (label ++ # "NumSlowVerifications", CInt (Z.of_nat all_slow_count));
         (label ++ # "PctOfSlowVerifsInvolvingHeap", CText heap);
         (label ++ # "FasterPctile", CText (text ++ backslash :: # "%"))]).

(** [CDFStuff]: the ordinates and the two points, and their definitions. *)
Definition CDFStuff_init (pile : SymbolPile) : res (list float * CdfPoint * CdfPoint) :=
  ys ← map_res (fun i => cdist pile (Z.of_nat i)) (seq 0 (pile_N pile));
  point10s ← CdfPoint_init "tenSec" 10 pile;
  point20s ← CdfPoint_init "twentySec" 20 pile;
  Ok (ys, point10s, point20s).

Definition CDFStuff_defs (c : list float * CdfPoint * CdfPoint) : constants :=
  let '(_, point10s, point20s) := c in
  dict_update (dict_update [] (cdf_defs point10s)) (cdf_defs point20s).

Definition emit_constants (defs : constants) : str :=
  constants_text "% generated by tools/automation-study.py" defs.

(** The bogus workers of all groups. *)
Definition all_bogus (piles : list (str * SymbolPile)) : res (list (option str)) :=
  for_each (fun bogus '(_, pile) => found ← detect_bogus_workers pile; Ok (bogus ++ found)) piles [].

(** [report_slowest_symbols] and [report_sequential_time]. *)
Definition slowest_text (pile : SymbolPile) : str :=
  flat_map (fun '(name, t) => "slowest " ++ name ++ " " ++ fmt_fixed 1 t ++ "s" ++ [nl]) (slowest_symbols pile).
Definition sequential_text (pile : SymbolPile) : str :=
  "Total sequential time: " ++ fmt_fixed 1 (fold_left fadd (fst (avg_times pile)) (float_of_Z 0)) ++ "s" ++ [nl].

(** [plot_all]: the curve, for each threshold a line and a text at a place, the
    ticks and their labels, the file.  The logarithm and the powers of ten are
    arguments; [math.log10] raises unless its argument is positive. *)
Record time_figure := TimeFigure {
  tf_curve : list float * list float;
  tf_thresholds : list (list float * list float * (float * float * str));
  tf_ticks : list (nat * float);
  tf_file : str
}.

Section figure.
Context (log10 : float -> float) (pow10 : Z -> float).

Definition math_log10 (x : float) : res float := if fleb x (float_of_Z 0) then Raise ValueError else Ok (log10 x).
Definition complog (y : float) : res float := l ← math_log10 (fsub (float_of_Z 1) y); Ok (fopp l).

Definition plot_point (yOff : float) (p : CdfPoint) : res (list float * list float * (float * float * str)) :=
  ylogThr ← complog (yThr p);
  y0 ← complog (float_of_Z 0);
  Ok ([float_of_Z 0; tThr p; tThr p], [ylogThr; ylogThr; y0],
      (fmul (tThr p) (float_of_dec 101 (-2)), fmul ylogThr yOff,
       pct_text p ++ "% faster than " ++ dec_Z (thresh_sec p) ++ "s")).

Definition plot_all (groupname : str) (pile : SymbolPile) : res time_figure :=
  '(cdf_ys, point10s, point20s) ← CDFStuff_init pile;
  ys ← map_res complog cdf_ys;
  t20 ← plot_point (float_of_dec 99 (-2)) point20s;
  t10 ← plot_point (float_of_dec 80 (-2)) point10s;
  Ok (TimeFigure (fst (avg_times pile), ys) [t20; t10]
        (map (fun y => (y, fsub (float_of_Z 1) (pow10 (- Z.of_nat y)))) (seq 0 4))
        ("../veripapers/osdi2020/figures/verification-times-" ++ groupname ++ ".pdf")).

(** [main]: what is printed, the constants and the figure of each group; the
    constants are written to the same file, so its final contents are those of
    the last group. *)
Definition group_constants (bogus : list (option str)) (pile : SymbolPile) : res str :=
  pile ← reject_bogus_workers pile bogus;
  _ ← detect_bogus_workers pile;
  cdf ← CDFStuff_init pile;
  Ok (emit_constants (CDFStuff_defs cdf)).
Definition group_figure (groupname : str) (bogus : list (option str)) (pile : SymbolPile) : res (str * time_figure) :=
  pile ← reject_bogus_workers pile bogus;
  fig ← plot_all groupname pile;
  Ok (slowest_text pile ++ sequential_text pile, fig).

Definition times_main (files : list (str * str)) : res (option str * list (str * time_figure)) :=
  piles ← parse_all files;
  bogus ← all_bogus piles;
  for_each (fun '(_, figs) '(groupname, pile) =>
      text ← group_constants bogus pile; fig ← group_figure groupname bogus pile; Ok (Some text, figs ++ [fig]))
    piles (None, []).
End figure.
End times.

(** ** Well-formed piles

    Every symbol is listed once, under its own name, with at least one
    observation, and nothing is cached. *)
Definition wf_entry (e : str * SymbolReport) : Prop :=
  sr_name (snd e) = fst e /\ observations (snd e) <> [].

Record wf_pile (pile : SymbolPile) : Prop := {
  wf_keys : NoDup (dict_keys (symbols pile));
  wf_entries : Forall wf_entry (symbols pile);
  wf_fresh : avg_times_ pile = None
}.

Definition obs_of (pile : SymbolPile) (s : str) : list Observation :=
  match dict_get (symbols pile) s with Some r => observations r | None => [] end.

Lemma empty_pile_wf : wf_pile empty_pile.
Proof. split; [constructor|constructor|done]. Qed.

Lemma dict_set_Forall {K V} `{EqDecision K} (P : K * V -> Prop) k v d :
  P (k, v) -> Forall P d -> Forall P (dict_set k v d).
Proof.
  intros Hk Hd. induction Hd as [|[k1 v1] d H1 Hd IH]; cbn; [by constructor|].
  case_bool_decide; by constructor.
Qed.

Lemma dict_get_elem {K V} `{EqDecision K} (d : dict K V) k v : dict_get d k = Some v -> (k, v) ∈ d.
Proof.
  induction d as [|[k1 v1] d IH]; cbn; [done|]. case_bool_decide as E.
  - intros [= ->]. subst. apply list_elem_of_here.
  - intros H. by apply list_elem_of_further, IH.
Qed.

Lemma wf_name pile s r : wf_pile pile -> dict_get (symbols pile) s = Some r -> sr_name r = s.
Proof. intros [_ H _] Hr%dict_get_elem. rewrite Forall_forall in H. by apply H in Hr as [? _]. Qed.

(** A new observation goes to the end of its symbol's. *)
Lemma put_replica_spec s o pile :
  wf_pile pile ->
  exists pile', put_replica s o pile = Ok pile' /\ wf_pile pile' /\
    forall s', obs_of pile' s' = obs_of pile s' ++ (if bool_decide (s = s') then [o] else []).
Proof.
  intros Hwf. pose proof Hwf as [Hk He Hf]. unfold put_replica. rewrite Hf. cbn [no_times py_assert mbind res_bind].
  eexists. split; [done|]. split; [split; cbn|].
  - by apply dict_set_NoDup.
  - apply dict_set_Forall; [|done]. split; cbn.
    + destruct (dict_get (symbols pile) s) as [r|] eqn:E; cbn; [by eapply wf_name|done].
    + by destruct (observations _).
  - done.
  - intros s'. unfold obs_of. cbn. rewrite dict_get_set. case_bool_decide as E.
    + subst. cbn. by destruct (dict_get (symbols pile) s').
    + by rewrite app_nil_r.
Qed.

Lemma wf_obs_nonempty pile s r : wf_pile pile -> (s, r) ∈ symbols pile -> observations r <> [].
Proof. intros [_ H _] Hr. rewrite Forall_forall in H. by apply H in Hr as [_ ?]. Qed.

Lemma max_obs_Ok l : l <> [] -> exists o, max_obs l = Ok o /\ o ∈ l.
Proof.
  destruct l as [|o l]; [done|]. intros _. eexists. split; [done|].
  revert o. induction l as [|x l IH]; intros o; cbn; [apply list_elem_of_here|].
  destruct (elem_of_cons l (fold_left later_max l (later_max o x)) (later_max o x)) as [H _].
  destruct (H (IH _)) as [->|?]; [|by do 2 apply list_elem_of_further].
  unfold later_max at 1. destruct (fltb _ _); [apply list_elem_of_further|]; apply list_elem_of_here.
Qed.

(** The largest, with NaN-free times: nothing is larger. *)
Lemma max_obs_largest l o :
  Forall (fun o => is_nan (obs_time o) = false) l -> max_obs l = Ok o ->
  Forall (fun x => fltb (obs_time o) (obs_time x) = false) l.
Proof.
  destruct l as [|o0 l]; [done|]. intros Hn [= <-]. revert o0 Hn.
  induction l as [|x l IH]; intros o0 Hn; cbn.
  - repeat constructor. apply fltb_irrefl.
  - apply Forall_cons in Hn as [H0 Hn]. apply Forall_cons in Hn as [Hx Hn].
    assert (Hm : is_nan (obs_time (later_max o0 x)) = false) by (unfold later_max; by destruct (fltb _ _)).
    specialize (IH (later_max o0 x) ltac:(by constructor)). apply Forall_cons in IH as [Hbest IH].
    set (b := fold_left later_max l (later_max o0 x)) in *.
    assert (Hb : is_nan (obs_time b) = false).
    { destruct (max_obs_Ok (later_max o0 x :: l)) as (b' & [= <-] & Hb'); [done|].
      apply elem_of_cons in Hb' as [E|E]; [unfold b; by rewrite E|]. by eapply Forall_forall in Hn. }
    repeat constructor; [| |done].
    + eapply (not_fltb_trans _ (obs_time (later_max o0 x))); [done..| |done].
      unfold later_max. destruct (fltb (obs_time o0) (obs_time x)) eqn:E; [by apply fltb_asym|apply fltb_irrefl].
    + eapply (not_fltb_trans _ (obs_time (later_max o0 x))); [done..| |done].
      unfold later_max. destruct (fltb (obs_time o0) (obs_time x)) eqn:E; [apply fltb_irrefl|done].
Qed.

(** ** What a log adds to a pile *)

(** The parts collected so far: every symbol once, with an observation. *)
Definition wf_parts (parts : dict str (list Observation)) : Prop :=
  NoDup (dict_keys parts) /\ Forall (fun e => snd e <> []) parts.

Lemma record_part_wf s o parts : wf_parts parts -> wf_parts (record_part s o parts).
Proof.
  intros [Hk He]. split; [by apply dict_set_NoDup|]. apply dict_set_Forall; [|done].
  cbn. by destruct (default [] _).
Qed.

Lemma fields_from_nonempty cur c s : cur <> [] \/ is_space c = false -> fields_from cur (c :: s) <> [].
Proof.
  revert cur c. induction s as [|d s IH]; intros cur c H; cbn.
  - destruct (is_space c) eqn:E; [|done]. destruct H as [H|]; [|congruence]. by destruct cur.
  - destruct (is_space c) eqn:E.
    + destruct H as [H|]; [|congruence]. by destruct cur.
    + apply (IH (c :: cur) d). by left.
Qed.

Lemma last_word_Ok w c line : startswith line (c :: w) = true -> is_space c = false -> exists x, last_word line = Ok x.
Proof.
  intros [t ->]%startswith_spec Hc. unfold last_word, fields.
  assert (H : fields_from [] ((c :: w) ++ t) <> []) by (apply fields_from_nonempty; auto).
  destruct (fields_from [] ((c :: w) ++ t)) as [|x l]; [done|]. exists (List.last (x :: l) []).
  assert (Hl : forall y, last (y :: l) = Some (List.last (y :: l) [])); [|by rewrite Hl].
  clear H. induction l as [|z l IH]; intros y; [done|]. cbn [last List.last]. apply IH.
Qed.

Definition log_error (e : exn) : Prop :=
  e = ValueError \/ e = NameError "symbol" \/ e = NameError "source_filename".

Lemma on_word_lines st line :
  (exists st', on_parsing st line = Ok st' /\ symbol_parts st' = symbol_parts st) /\
  (exists st', on_worker st line = Ok st' /\ symbol_parts st' = symbol_parts st).
Proof.
  unfold on_parsing, on_worker. split.
  - destruct (startswith line "Parsing") eqn:E; [|eauto].
    destruct (last_word_Ok (# "arsing") "P"%char line E eq_refl) as (w & ->). eexists. by split.
  - destruct (startswith line "WORKER") eqn:E; [|eauto].
    destruct (last_word_Ok (# "ORKER") "W"%char line E eq_refl) as (w & ->). eexists. by split.
Qed.

Lemma on_verifying_cases st line :
  (exists st', on_verifying st line = Ok st' /\ symbol_parts st' = symbol_parts st) \/
  on_verifying st line = Raise ValueError.
Proof.
  unfold on_verifying. destruct (search verifying_re line) as [mo|]; [|eauto].
  destruct (split_str _ _) as [|a [|b [|]]]; eauto.
Qed.

Lemma py_float_error s e : py_float s = Raise e -> e = ValueError.
Proof. unfold py_float. destruct (drop_underscores _ _ ≫= _); cbn; congruence. Qed.

Lemma on_verified_cases st line :
  wf_parts (symbol_parts st) ->
  match on_verified st line with Ok st' => wf_parts (symbol_parts st') | Raise e => log_error e end.
Proof.
  intros Hwf. unfold on_verified, log_error. destruct (search verified_re line) as [mo|]; [|done].
  destruct (py_float (default [] (group 1 mo))) as [t|e] eqn:E; cbn; [|left; by apply py_float_error in E].
  destruct (current_part st) as [[a b]|]; cbn; [|auto].
  destruct (source_filename st) as [src|]; cbn; [|auto]. by apply record_part_wf.
Qed.

Lemma parse_line_cases st line :
  wf_parts (symbol_parts st) ->
  match parse_line st line with Ok st' => wf_parts (symbol_parts st') | Raise e => log_error e end.
Proof.
  intros Hwf. unfold parse_line. destruct (on_word_lines st line) as [(st1 & -> & H1) _]. cbn.
  destruct (on_word_lines st1 line) as [_ (st2 & -> & H2)]. cbn.
  destruct (on_verifying_cases st2 line) as [(st3 & -> & H3)| ->]; cbn; [|by left].
  apply on_verified_cases. congruence.
Qed.

Lemma parse_lines_cases lines st :
  wf_parts (symbol_parts st) ->
  match for_each parse_line lines st with Ok st' => wf_parts (symbol_parts st') | Raise e => log_error e end.
Proof.
  revert st. induction lines as [|line lines IH]; intros st Hwf; [done|]. cbn.
  pose proof (parse_line_cases st line Hwf) as H. destruct (parse_line st line) as [st1|e]; cbn; [by apply IH|done].
Qed.

(** Each symbol of the log gets its largest observation. *)
Lemma put_max_spec parts pile :
  wf_parts parts -> wf_pile pile ->
  exists pile', for_each put_max parts pile = Ok pile' /\ wf_pile pile' /\
    forall s, obs_of pile' s = obs_of pile s ++
      match dict_get parts s with
      | Some l => match max_obs l with Ok o => [o] | Raise _ => [] end
      | None => []
      end.
Proof.
  intros [Hk He]. revert pile. induction He as [|[s l] parts Hl He IH]; intros pile Hwf.
  - exists pile. split_and!; [done..|]. intros s. by rewrite app_nil_r.
  - cbn in Hl. apply NoDup_cons in Hk as [Hs Hk].
    destruct (max_obs_Ok l Hl) as (o & Ho & _).
    destruct (put_replica_spec s o pile Hwf) as (pile1 & H1 & Hwf1 & Hobs1).
    destruct (IH Hk pile1 Hwf1) as (pile' & H' & Hwf' & Hobs'). exists pile'. split_and!.
    + assert (Hput : put_max pile (s, l) = Ok pile1) by (unfold put_max; cbn [fst snd]; by rewrite Ho, bind_of_Ok).
      cbn [for_each]. by rewrite Hput, bind_of_Ok.
    + done.
    + intros s'. rewrite Hobs', Hobs1, <- app_assoc. f_equal. cbn. case_bool_decide as E.
      * subst s'. cbn. assert (dict_get parts s = None) as ->.
        { destruct (dict_get parts s) as [l'|] eqn:El; [|done]. destruct Hs. apply (dict_get_keys parts). eauto. }
        by rewrite Ho.
      * done.
Qed.

(** C15. Reading a log keeps a pile well-formed, or stops: the pile that comes
    out lists every symbol once, under its name, with at least one
    observation, and caches nothing; the only errors are a number or a name
    that is not in the expected form ([ValueError]) and a time that comes
    before any symbol or source ([NameError]). *)
Theorem parse_one_wf contents pile :
  wf_pile pile ->
  match parse_one contents pile with
  | Ok pile' => wf_pile pile' /\ forall s, obs_of pile s `prefix_of` obs_of pile' s /\
                  length (obs_of pile' s) <= S (length (obs_of pile s))
  | Raise e => log_error e
  end.
Proof.
  intros Hwf. unfold parse_one.
  pose proof (parse_lines_cases (readlines contents) parse_start ltac:(split; constructor)) as H.
  destruct (for_each parse_line (readlines contents) parse_start) as [st|e]; [|done]. rewrite bind_of_Ok.
  destruct (put_max_spec (symbol_parts st) pile H Hwf) as (pile' & -> & Hwf' & Hobs).
  split; [done|]. intros s. rewrite Hobs. split; [by apply prefix_app_r|]. rewrite length_app.
  destruct (dict_get _ s) as [l|]; [destruct (max_obs l)|]; cbn; lia.
Qed.

(** ** Logs as the runs print them

    One line names the worker, one the source; every verification prints two,
    its name and its outcome. *)
Record log_entry := LogEntry { le_part : str; le_symbol : str; le_time : str; le_note : str }.

Definition entry_lines (e : log_entry) : list str :=
  [ # "Verifying " ++ (le_part e ++ # "$$" ++ le_symbol e) ++ # " ...";
    # "  " ++ # "[" ++ le_time e ++ # " s," ++ (# " " ++ le_note e) ++ # "]  verified" ].
Definition log_text (worker source : str) (es : list log_entry) : str :=
  unlines ((# "WORKER " ++ worker) :: (# "Parsing " ++ source) :: flat_map entry_lines es).

Definition word (w : str) : Prop :=
  w <> [] /\ Forall (fun c => is_space c = false) w /\ "["%char ∉ w /\ cr ∉ w.

Definition good_entry (e : log_entry) : Prop :=
  word (le_part e ++ # "$$" ++ le_symbol e) /\ "$"%char ∉ le_part e /\ "$"%char ∉ le_symbol e /\
  le_time e <> [] /\ Forall (fun c => bool_decide (c ∈ # "0123456789.") = true) (le_time e) /\
  (exists t, py_float (le_time e) = Ok t) /\ "V"%char ∉ le_note e /\ nl ∉ le_note e /\ cr ∉ le_note e.

#[local] Arguments bool_decide : simpl never.

Lemma nonspace_char w c : Forall (fun c => is_space c = false) w -> is_space c = true -> c ∉ w.
Proof. intros H Hc Hin. rewrite Forall_forall in H. specialize (H c Hin). congruence. Qed.

(** The line that names a symbol. *)
Lemma verifying_match name :
  Forall (fun c => is_space c = false) name ->
  exists m, search verifying_re ((# "Verifying " ++ name ++ # " ...") ++ [nl]) = Some m /\ group 1 m = Some name.
Proof.
  intros Hn. set (tl := # " ..." ++ [nl]).
  assert (Hp : Forall (fun c => negb (is_space c) = true) name).
  { eapply Forall_impl; [exact Hn|]. intros c Hc. by rewrite Hc. }
  set (sn := rev (# "Verifying ") ++ []).
  pose proof (run_Star_Cls (fun c => negb (is_space c)) sn name tl [] Hp eq_refl) as Hrun.
  destruct (spans_head sn name tl []) as (l1 & Hl1). rewrite Hl1 in Hrun.
  destruct (run_Grp_first 1 _ _ _ _ Hrun) as (l2 & Hl2). rewrite capture_app in Hl2.
  assert (Htl : run (Lit (# " ...")) (MSt (rev name ++ sn) tl [(1, name)]) =
                [MSt (rev (# " ...") ++ rev name ++ sn) [nl] [(1, name)]]) by apply run_Lit_app.
  destruct (run_Seq_first _ _ _ _ _ _ _ Hl2 Htl) as (l3 & Hl3).
  destruct (run_Lit_first (# "Verifying ") [] (name ++ tl) [] _ _ _ Hl3) as (l4 & Hl4).
  replace ((# "Verifying " ++ name ++ # " ...") ++ [nl]) with (# "Verifying " ++ name ++ tl)
    by (unfold tl; by rewrite <- !app_assoc).
  eexists. split; [apply (search_hit verifying_re _ _ _ Hl4)|reflexivity].
Qed.

(** The line that gives the time. *)
Lemma verified_match time note :
  time <> [] -> Forall (fun c => bool_decide (c ∈ # "0123456789.") = true) time -> nl ∉ note ->
  exists m, search verified_re ((# "  " ++ # "[" ++ time ++ # " s," ++ note ++ # "]  verified") ++ [nl]) = Some m /\
    group 1 m = Some time.
Proof.
  intros Hne Ht Hn. set (fin := # "]  verified"). set (tl := # " s," ++ (note ++ fin) ++ [nl]).
  replace ((# "  " ++ # "[" ++ time ++ # " s," ++ note ++ fin) ++ [nl]) with (# "  " ++ # "[" ++ time ++ tl)
    by (unfold tl; by rewrite <- !app_assoc).
  unfold verified_re. change (seqs ?l) with (Seq (Lit (# "[")) (Seq (Grp 1 (Plus (OneOf "0123456789.")))
    (Seq (Lit (# " s,")) (Seq (Star Dot) (Lit fin))))).
  rewrite (search_Lit_after "["%char []) by notin.
  set (sn := rev (# "  ")).
  destruct (run_Plus_Cls_first (fun a => bool_decide (a ∈ # "0123456789.")) (rev (# "[") ++ sn) time tl []
              Ht Hne eq_refl) as (l1 & Hl1).
  destruct (run_Grp_first 1 _ _ _ _ Hl1) as (l2 & Hl2). rewrite capture_app in Hl2.
  set (st := rev time ++ rev (# "[") ++ sn) in *. set (cs := [(1, time)]) in *.
  set (p := fun c => negb (bool_decide (c = nl))).
  assert (Hd : Forall (fun c => p c = true) (note ++ fin)).
  { apply Forall_forall. intros c Hc. unfold p. rewrite bool_decide_eq_false_2; [done|]. intros ->.
    assert (nl ∉ fin) by notin.
    by apply elem_of_app in Hc as [|]. }
  destruct (run_Star_then_first p (Lit fin) (rev (# " s,") ++ st) note fin [nl] cs
              (MSt (rev fin ++ rev note ++ rev (# " s,") ++ st) [nl] cs) [] Hd eq_refl) as (l3 & Hl3);
    [generalize (rev note ++ rev (# " s,") ++ st); intros sn'; reflexivity|].
  destruct (run_Lit_first (# " s,") st ((note ++ fin) ++ [nl]) cs _ _ _ Hl3) as (l4 & Hl4).
  destruct (run_Seq_first _ _ _ _ _ _ _ Hl2 Hl4) as (l5 & Hl5).
  destruct (run_Lit_first (# "[") sn (time ++ tl) [] _ _ _ Hl5) as (l6 & Hl6).
  eexists. split; [apply (search_from_hit _ _ _ _ _ Hl6)|reflexivity].
Qed.

Lemma no_bracket line : "["%char ∉ line -> search verified_re line = None.
Proof.
  intros H. apply (search_Lit_absent (# "[") (seqs [Grp 1 (Plus (OneOf "0123456789.")); Lit " s,"; Star Dot; Lit "]  verified"])).
  apply (contains_absent "["%char); [apply list_elem_of_here|done].
Qed.

Lemma no_verifying_absent line : contains "Verifying " line = false -> search verifying_re line = None.
Proof. apply (search_Lit_absent (# "Verifying ") (seqs [Grp 1 (Star NonSpace); Lit " ..."])). Qed.

(** A keyword, a space and a word never read as a verification. *)
Lemma header_line kw w :
  length kw < 9 -> " "%char ∉ kw -> "["%char ∉ kw -> word w ->
  search verifying_re ((kw ++ " "%char :: w) ++ [nl]) = None /\
  search verified_re ((kw ++ " "%char :: w) ++ [nl]) = None.
Proof.
  intros Hlen Hkw Hb (Hne & Hw & Hbr & _). split.
  - apply no_verifying_absent, not_true_iff_false. intros (a & b & E)%contains_spec.
    rewrite <- app_assoc in E. cbn [app] in E.
    replace (a ++ # "Verifying " ++ b) with ((a ++ # "Verifying") ++ " "%char :: b) in E by by rewrite <- app_assoc.
    destruct (app_sep _ _ _ _ _ Hkw E) as [[-> _]|(k & _ & E')].
    + rewrite length_app in Hlen. cbn in Hlen. lia.
    + assert (Hsp : " "%char ∈ w ++ [nl]) by (rewrite E'; apply elem_of_app; right; apply list_elem_of_here).
      apply elem_of_app in Hsp as [Hsp|Hsp%list_elem_of_singleton]; [|done].
      revert Hsp. by apply nonspace_char.
  - apply no_bracket. rewrite !elem_of_app, elem_of_cons, list_elem_of_singleton. by intros [[|[|]]|].
Qed.

Lemma fields_from_word cur w s :
  Forall (fun c => is_space c = false) w -> fields_from cur (w ++ s) = fields_from (rev w ++ cur) s.
Proof.
  revert cur. induction w as [|c w IH]; intros cur H; [done|]. apply Forall_cons in H as [Hc Hw].
  cbn. rewrite Hc, IH by done. by rewrite <- app_assoc.
Qed.

Lemma last_word_of kw w :
  kw <> [] -> Forall (fun c => is_space c = false) kw -> word w ->
  last_word ((kw ++ " "%char :: w) ++ [nl]) = Ok w.
Proof.
  intros Hk Hkw (Hne & Hw & _). unfold last_word, fields. rewrite <- !app_assoc.
  rewrite fields_from_word by done. rewrite app_nil_r. cbn [app]. cbn [fields_from].
  change (is_space " ") with true. cbv iota. rewrite fields_from_word by done. rewrite app_nil_r.
  cbn [fields_from]. change (is_space nl) with true. cbv iota. rewrite !rev_involutive.
  destruct (rev kw) eqn:Ek; [apply (f_equal (@rev _)) in Ek; rewrite rev_involutive in Ek; done|].
  destruct (rev w) eqn:Ew; [apply (f_equal (@rev _)) in Ew; rewrite rev_involutive in Ew; done|]. done.
Qed.

Definition entry_obs (worker source : str) (e : log_entry) : Observation :=
  ObservationOf (match py_float (le_time e) with Ok t => t | Raise _ => S754_nan end) (Some worker) source.

Definition after_headers (worker source : str) : parse_state :=
  ParseState (Some source) (Some worker) None [].

Lemma headers_read worker source :
  word worker -> word source ->
  for_each parse_line [((# "WORKER " ++ worker) ++ [nl]); ((# "Parsing " ++ source) ++ [nl])] parse_start =
  Ok (after_headers worker source).
Proof.
  intros Hw Hs.
  destruct (header_line (# "WORKER") worker) as [W1 W2];
    [cbn; lia|by apply (bool_decide_unpack _); vm_compute..|done|].
  destruct (header_line (# "Parsing") source) as [P1 P2];
    [cbn; lia|by apply (bool_decide_unpack _); vm_compute..|done|].
  pose proof (last_word_of (# "WORKER") worker ltac:(done) ltac:(repeat constructor) Hw) as LW.
  pose proof (last_word_of (# "Parsing") source ltac:(done) ltac:(repeat constructor) Hs) as LP.
  assert (H1 : parse_line parse_start ((# "WORKER " ++ worker) ++ [nl]) =
               Ok (ParseState None (Some worker) None [])).
  { unfold parse_line, on_parsing. change (startswith _ (# "Parsing")) with false. cbn [mbind res_bind].
    unfold on_worker. change (startswith _ (# "WORKER")) with true. cbv iota.
    change (# "WORKER " ++ worker) with (# "WORKER" ++ " "%char :: worker). rewrite LW. cbn [mbind res_bind].
    unfold on_verifying. rewrite W1. cbn [mbind res_bind]. unfold on_verified. by rewrite W2. }
  assert (H2 : parse_line (ParseState None (Some worker) None []) ((# "Parsing " ++ source) ++ [nl]) =
               Ok (after_headers worker source)).
  { unfold parse_line, on_parsing. change (startswith _ (# "Parsing")) with true. cbv iota.
    change (# "Parsing " ++ source) with (# "Parsing" ++ " "%char :: source). rewrite LP. cbn [mbind res_bind].
    unfold on_worker. change (startswith _ (# "WORKER")) with false. cbv iota. cbn [mbind res_bind].
    unfold on_verifying. rewrite P1. cbn [mbind res_bind]. unfold on_verified. by rewrite P2. }
  cbn [for_each]. rewrite H1, bind_of_Ok, H2. done.
Qed.

Lemma entry_read worker source part parts e :
  good_entry e ->
  for_each parse_line (map (fun l => l ++ [nl]) (entry_lines e)) (ParseState (Some source) (Some worker) part parts) =
  Ok (ParseState (Some source) (Some worker) (Some (le_part e, le_symbol e))
        (record_part (le_symbol e) (entry_obs worker source e) parts)).
Proof.
  intros ((Hne & Hw & Hbr & _) & Hd1 & Hd2 & Htne & Htc & (t & Ht) & HV & Hnl & _).
  set (name := le_part e ++ # "$$" ++ le_symbol e) in *.
  destruct (verifying_match name Hw) as (m1 & M1 & G1).
  destruct (verified_match (le_time e) (# " " ++ le_note e) Htne Htc) as (m2 & M2 & G2).
  { apply not_elem_of_app. split; [notin|done]. }
  assert (Hsplit : split_str name (# "$$") = [le_part e; le_symbol e])
    by exact (split_str_pair "$"%char (# "$") (le_part e) (le_symbol e) Hd1 Hd2).
  set (st := ParseState (Some source) (Some worker) part parts).
  set (st1 := ParseState (Some source) (Some worker) (Some (le_part e, le_symbol e)) parts).
  assert (H1 : parse_line st ((# "Verifying " ++ name ++ # " ...") ++ [nl]) = Ok st1).
  { unfold parse_line, on_parsing. change (startswith _ (# "Parsing")) with false. cbn [mbind res_bind].
    unfold on_worker. change (startswith _ (# "WORKER")) with false. cbn [mbind res_bind].
    unfold on_verifying. rewrite M1, G1. change (default [] (Some name)) with name.
    rewrite Hsplit. cbn [mbind res_bind].
    unfold on_verified. rewrite no_bracket; [done|].
    apply not_elem_of_app; split; [|notin]. apply not_elem_of_app; split; [notin|].
    apply not_elem_of_app; split; [exact Hbr|notin]. }
  set (line2 := (# "  " ++ # "[" ++ le_time e ++ # " s," ++ (# " " ++ le_note e) ++ # "]  verified") ++ [nl]) in *.
  assert (H2 : parse_line st1 line2 =
               Ok (ParseState (Some source) (Some worker) (Some (le_part e, le_symbol e))
                     (record_part (le_symbol e) (entry_obs worker source e) parts))).
  { unfold parse_line, on_parsing. change (startswith line2 (# "Parsing")) with false. cbn [mbind res_bind].
    unfold on_worker. change (startswith line2 (# "WORKER")) with false. cbn [mbind res_bind].
    unfold on_verifying. rewrite no_verifying_absent; [cbn [mbind res_bind]|].
    - unfold on_verified. rewrite M2, G2. change (default [] (Some (le_time e))) with (le_time e). unfold entry_obs. rewrite Ht. done.
    - apply (contains_absent "V"%char); [apply list_elem_of_here|]. unfold line2.
      assert ("V"%char ∉ le_time e).
      { intros Hin. rewrite Forall_forall in Htc. specialize (Htc _ Hin). by vm_compute in Htc. }
      repeat (apply not_elem_of_app; split); [notin|notin|done|notin|notin|done|notin|notin]. }
  unfold entry_lines. cbn [map for_each]. fold name. rewrite H1, bind_of_Ok.
  change (((# "  " ++ # "[" ++ le_time e ++ # " s," ++ (# " " ++ le_note e) ++ # "]  verified") ++ [nl])) with line2.
  by rewrite H2, bind_of_Ok.
Qed.

Lemma entries_read worker source part parts es :
  Forall good_entry es ->
  exists part', for_each parse_line (map (fun l => l ++ [nl]) (flat_map entry_lines es))
                  (ParseState (Some source) (Some worker) part parts) =
    Ok (ParseState (Some source) (Some worker) part'
          (fold_left (fun parts e => record_part (le_symbol e) (entry_obs worker source e) parts) es parts)).
Proof.
  intros H. revert part parts. induction H as [|e es He _ IH]; intros part parts; [by exists part|].
  cbn [flat_map fold_left]. rewrite map_app, for_each_app, entry_read, bind_of_Ok by done. apply IH.
Qed.

Lemma record_parts_get worker source es parts s :
  dict_get (fold_left (fun parts e => record_part (le_symbol e) (entry_obs worker source e) parts) es parts) s =
  match List.filter (fun e => bool_decide (le_symbol e = s)) es with
  | [] => dict_get parts s
  | l => Some (default [] (dict_get parts s) ++ map (entry_obs worker source) l)
  end.
Proof.
  revert parts. induction es as [|e es IH]; intros parts; [done|]. cbn [fold_left List.filter]. rewrite IH.
  unfold record_part. rewrite dict_get_set. case_bool_decide as E; [|done]. subst s.
  change (default [] (Some ?x)) with x.
  destruct (List.filter _ es) as [|e' l]; cbn [map]; [done|]. by rewrite <- app_assoc.
Qed.

Lemma good_line e l : good_entry e -> l ∈ entry_lines e -> nl ∉ l /\ cr ∉ l.
Proof.
  intros ((_ & Hw & _ & Hcr) & _ & _ & _ & Htc & _ & _ & Hnl & Hcrn) Hl.
  set (name := le_part e ++ # "$$" ++ le_symbol e) in *.
  assert (Ht : forall c, bool_decide (c ∈ # "0123456789.") = false -> c ∉ le_time e).
  { intros c Hc Hin. rewrite Forall_forall in Htc. specialize (Htc _ Hin). congruence. }
  apply elem_of_cons in Hl as [->|Hl%list_elem_of_singleton].
  - fold name. split; apply not_elem_of_app; (split; [notin|]); apply not_elem_of_app;
      (split; [|notin]); [by apply nonspace_char|done].
  - subst l. split; repeat (apply not_elem_of_app; split); try notin; try done; apply Ht; vm_compute; reflexivity.
Qed.

Lemma word_line kw w : nl ∉ kw -> cr ∉ kw -> word w -> nl ∉ kw ++ w /\ cr ∉ kw ++ w.
Proof.
  intros H1 H2 (_ & Hw & _ & Hc). split; apply not_elem_of_app; split; try done. by apply nonspace_char.
Qed.

(** C14. What a log adds.  A log printed by a run is read back: for every symbol
    verified in it exactly one observation is added after those it had, the
    first of the longest among the parts of the symbol, with the run's worker
    and source; other symbols keep what they had. *)
Theorem parse_one_takes_max worker source es pile :
  word worker -> word source -> Forall good_entry es -> wf_pile pile ->
  exists pile', parse_one (log_text worker source es) pile = Ok pile' /\ wf_pile pile' /\
    forall s, obs_of pile' s = obs_of pile s ++
      match max_obs (map (entry_obs worker source)
                       (List.filter (fun e => bool_decide (le_symbol e = s)) es)) with
      | Ok o => [o]
      | Raise _ => []
      end.
Proof.
  intros Hw Hs Hes Hwf. unfold parse_one, log_text.
  assert (Hlines : Forall (fun l => nl ∉ l /\ cr ∉ l)
            ((# "WORKER " ++ worker) :: (# "Parsing " ++ source) :: flat_map entry_lines es)).
  { constructor; [apply word_line; [notin|notin|done]|]. constructor; [apply word_line; [notin|notin|done]|].
    apply Forall_forall. intros l (e & He & Hl)%list_elem_of_In%in_flat_map.
    rewrite Forall_forall in Hes. apply (good_line e); [by apply Hes, list_elem_of_In|by apply list_elem_of_In]. }
  rewrite readlines_unlines by done. cbn [map].
  change (?a :: ?b :: ?r) with ([a; b] ++ r). rewrite for_each_app, headers_read, bind_of_Ok by done.
  destruct (entries_read worker source None [] es Hes) as (part & Hread). unfold after_headers. rewrite Hread, bind_of_Ok.
  cbn [symbol_parts]. set (parts := fold_left (fun parts e => record_part (le_symbol e) (entry_obs worker source e) parts) es []).
  assert (Hp : wf_parts parts).
  { unfold parts. assert (H0 : wf_parts []) by (split; constructor). revert H0. generalize (@nil (str * list Observation)).
    clear. induction es as [|e es IH]; intros d Hd; [done|]. cbn. by apply IH, record_part_wf. }
  destruct (put_max_spec parts pile Hp Hwf) as (pile' & -> & Hwf' & Hobs).
  exists pile'. split_and!; [done|done|]. intros s. rewrite Hobs. unfold parts. rewrite record_parts_get.
  by destruct (List.filter _ es).
Qed.

Definition demo_entries : list log_entry :=
  [LogEntry "CheckWellformed" "M.P" "0.25" "1 proof obligation"; LogEntry "Impl" "M.P" "3.5" "7 proof obligations"].

Lemma parse_one_takes_max_witness :
  exists pile', parse_one (log_text "worker-a01" "Impl/M.i.dfy" demo_entries) empty_pile = Ok pile' /\
    map (fun o => fmt_fixed 1 (obs_time o)) (obs_of pile' "M.P") = [ # "3.5"].
Proof.
  assert (Hg : Forall good_entry demo_entries).
  { unfold demo_entries. repeat constructor; try notin; try done; try (eexists; vm_compute; reflexivity). }
  destruct (parse_one_takes_max "worker-a01" "Impl/M.i.dfy" demo_entries empty_pile) as (pile' & E & _ & H);
    [split_and!; [done|repeat constructor|notin|notin]..|exact Hg|apply empty_pile_wf|].
  exists pile'. split; [exact E|]. rewrite H. vm_compute. reflexivity.
Defined.

(** ** Workers that are consistently slow *)

Section bogus.
Context (median std : list float -> float).

(** The report varies by 30 percent or more, and its longest time is [w]'s. *)
Definition offends (w : option str) (r : SymbolReport) : bool :=
  negb (fltb (cv median std r) (float_of_dec 3 (-1))) &&
  match max_obs (observations r) with Ok o => bool_decide (obs_worker o = w) | Raise _ => false end.

Lemma count_offenders rs offending :
  Forall (fun r => observations r <> []) rs -> NoDup (dict_keys offending) ->
  exists off', for_each (count_offender median std) rs offending = Ok off' /\ NoDup (dict_keys off') /\
    forall w, default 0 (dict_get off' w) =
      default 0 (dict_get offending w) + length (List.filter (offends w) rs).
Proof.
  intros Hrs. revert offending. induction Hrs as [|r rs Hr _ IH]; intros off Hnd.
  - exists off. cbn. split_and!; [done..|]. intros w. lia.
  - destruct (max_obs_Ok _ Hr) as (o & Ho & _).
    assert (Hoff : forall w, offends w r =
              negb (fltb (cv median std r) (float_of_dec 3 (-1))) && bool_decide (obs_worker o = w))
      by (intros w; unfold offends; by rewrite Ho).
    set (off1 := dict_set (obs_worker o) (S (default 0 (dict_get off (obs_worker o)))) off).
    assert (Hc : count_offender median std off r =
              Ok (if fltb (cv median std r) (float_of_dec 3 (-1)) then off else off1))
      by (unfold count_offender; rewrite Ho; by destruct (fltb _ _)).
    cbn [for_each]. rewrite Hc, bind_of_Ok. destruct (fltb (cv median std r) (float_of_dec 3 (-1))).
    + destruct (IH off Hnd) as (off' & -> & Hnd' & Hget). exists off'. split_and!; [done..|].
      intros w. rewrite Hget. cbn. by rewrite Hoff.
    + destruct (IH off1 (dict_set_NoDup _ _ _ Hnd)) as (off' & -> & Hnd' & Hget).
      exists off'. split_and!; [done..|]. intros w. unfold off1 in Hget. rewrite Hget, dict_get_set. cbn [List.filter].
      rewrite Hoff. cbn [negb andb]. case_bool_decide as E; [|done]. subst w. cbn. lia.
Qed.

Lemma dict_elem_get {K V} `{EqDecision K} (d : dict K V) k v :
  NoDup (dict_keys d) -> (k, v) ∈ d <-> dict_get d k = Some v.
Proof.
  intros Hnd. split; [|apply dict_get_elem].
  induction d as [|[k1 v1] d IH]; intros H; [by apply not_elem_of_nil in H|].
  apply NoDup_cons in Hnd as [Hk Hnd]. cbn. apply elem_of_cons in H as [[= -> ->]|H].
  - by rewrite bool_decide_eq_true_2.
  - rewrite bool_decide_eq_false_2; [by apply IH|]. intros ->. apply Hk.
    apply list_elem_of_fmap. by exists (k, v).
Qed.

Lemma detect_spec pile :
  wf_pile pile ->
  exists bogus, detect_bogus_workers median std pile = Ok bogus /\
    forall w, w ∈ bogus <-> 20 < length (List.filter (offends w) (reports pile)).
Proof.
  intros [_ He _].
  assert (Hrs : Forall (fun r => observations r <> []) (reports pile)).
  { unfold reports. apply Forall_map. eapply Forall_impl; [exact He|]. by intros [s r] [_ H]. }
  destruct (count_offenders (reports pile) [] Hrs NoDup_nil_2) as (off & H1 & Hnd & Hget).
  unfold detect_bogus_workers. rewrite H1, bind_of_Ok. eexists. split; [done|].
  intros w. specialize (Hget w). cbn in Hget. rewrite <- Hget.
  rewrite list_elem_of_fmap. split.
  - intros ([w' c] & -> & [Hin%list_elem_of_In Hc%Nat.ltb_lt]%list_elem_of_In%filter_In).
    apply dict_elem_get in Hin; [|done]. cbn. by rewrite Hin.
  - intros Hlt. destruct (dict_get off w) as [c|] eqn:E; cbn in Hlt; [|lia].
    exists (w, c). split; [done|]. apply list_elem_of_In, filter_In. split; [|by apply Nat.ltb_lt].
    by apply list_elem_of_In, dict_elem_get.
Qed.

Definition kept (bogus : list (option str)) (o : Observation) : bool := negb (bool_decide (obs_worker o ∈ bogus)).

Lemma reject_obs bogus s os newpile :
  wf_pile newpile ->
  exists np, for_each (fun newpile o =>
               if bool_decide (obs_worker o ∈ bogus) then Ok newpile else put_replica s o newpile) os newpile = Ok np /\
    wf_pile np /\
    forall s', obs_of np s' = obs_of newpile s' ++ (if bool_decide (s = s') then List.filter (kept bogus) os else []).
Proof.
  revert newpile. induction os as [|o os IH]; intros newpile Hwf.
  - exists newpile. split_and!; [done..|]. intros s'. case_bool_decide; by rewrite app_nil_r.
  - cbn [for_each List.filter]. unfold kept at 1. case_bool_decide as Eb; cbn [negb].
    + rewrite bind_of_Ok. by apply IH.
    + destruct (put_replica_spec s o newpile Hwf) as (np1 & -> & Hwf1 & H1). rewrite bind_of_Ok.
      destruct (IH np1 Hwf1) as (np & -> & Hwf2 & H2). exists np. split_and!; [done..|].
      intros s'. rewrite H2, H1. case_bool_decide; rewrite <- !app_assoc; done.
Qed.

Lemma reject_spec bogus pile :
  wf_pile pile ->
  exists np, reject_bogus_workers pile bogus = Ok np /\ wf_pile np /\
    forall s, obs_of np s = List.filter (kept bogus) (obs_of pile s).
Proof.
  intros [Hk He _]. unfold reject_bogus_workers, obs_of at 2.
  assert (H : forall d newpile, NoDup (dict_keys d) -> wf_pile newpile ->
    exists np, for_each (reject_report bogus) d newpile = Ok np /\ wf_pile np /\
      forall s, obs_of np s = obs_of newpile s ++
        match dict_get d s with Some r => List.filter (kept bogus) (observations r) | None => [] end).
  { clear. induction d as [|[s r] d IH]; intros newpile Hnd Hwf.
    - exists newpile. split_and!; [done..|]. intros s. by rewrite app_nil_r.
    - apply NoDup_cons in Hnd as [Hs Hnd]. cbn [for_each].
      destruct (reject_obs bogus s (observations r) newpile Hwf) as (np1 & H1 & Hwf1 & Ho1).
      assert (Hr : reject_report bogus newpile (s, r) = Ok np1) by exact H1.
      rewrite Hr, bind_of_Ok. destruct (IH np1 Hnd Hwf1) as (np & -> & Hwf2 & Ho2).
      exists np. split_and!; [done..|]. intros s'. rewrite Ho2, Ho1. cbn [dict_get].
      case_bool_decide as E; [|by rewrite app_nil_r]. subst s'.
      assert (dict_get d s = None) as ->; [|by rewrite app_nil_r].
      destruct (dict_get d s) as [r'|] eqn:Er; [|done]. destruct Hs. apply (dict_get_keys d). eauto. }
  destruct (H (symbols pile) empty_pile Hk empty_pile_wf) as (np & -> & Hwf & Ho).
  exists np. split_and!; [done..|]. intros s. rewrite Ho. cbn. by destruct (dict_get _ s).
Qed.

(** C28. Samples of bad machines are dropped, and only those: a worker is
    bogus exactly when more than twenty symbols vary by 30 percent or more
    with their longest time on it; rejecting keeps, for every symbol and in
    order, the observations of the other workers, and leaves a well-formed
    pile in which no symbol is without an observation. *)
Theorem bogus_workers_dropped pile :
  wf_pile pile ->
  exists bogus np, detect_bogus_workers median std pile = Ok bogus /\
    reject_bogus_workers pile bogus = Ok np /\ wf_pile np /\
    (forall w, w ∈ bogus <-> 20 < length (List.filter (offends w) (reports pile))) /\
    (forall s, obs_of np s = List.filter (kept bogus) (obs_of pile s)) /\
    (forall s o, o ∈ obs_of np s -> obs_worker o ∉ bogus).
Proof.
  intros Hwf. destruct (detect_spec pile Hwf) as (bogus & Hd & Hin).
  destruct (reject_spec bogus pile Hwf) as (np & Hr & Hnp & Ho).
  exists bogus, np. split_and!; [done..|]. intros s o Hs. rewrite Ho in Hs.
  apply list_elem_of_In, filter_In in Hs as [_ Hk]. unfold kept in Hk. by case_bool_decide.
Qed.
End bogus.

(** A pile in which worker b is slow on 21 symbols; the median is taken to be
    the first time, the deviation the last. *)
Definition demo_median (l : list float) : float := List.hd S754_nan l.
Definition demo_std (l : list float) : float := List.last l S754_nan.
Definition demo_report (s : str) (slow : Z) : str * SymbolReport :=
  (s, SymbolReportOf s [ObservationOf (float_of_Z 1) (Some (# "a")) "M.i.dfy";
                        ObservationOf (float_of_Z slow) (Some (# "b")) "M.i.dfy"]).
Definition demo_pile : SymbolPile :=
  SymbolPileOf (map (fun n => demo_report ("f" ++ dec_Z (Z.of_nat n)) 10) (seq 0 21)) None.

Lemma demo_pile_wf : wf_pile demo_pile.
Proof.
  split; [apply (bool_decide_unpack _); vm_compute; exact I| |done].
  apply Forall_map, Forall_true. intros n. by split.
Qed.

Lemma bogus_workers_dropped_witness :
  exists bogus np, detect_bogus_workers demo_median demo_std demo_pile = Ok bogus /\
    reject_bogus_workers demo_pile bogus = Ok np /\ bogus = [Some (# "b")] /\
    length (obs_of np "f7") = 1.
Proof.
  destruct (bogus_workers_dropped demo_median demo_std demo_pile demo_pile_wf)
    as (bogus & np & Hd & Hr & _ & _ & Ho & _).
  exists bogus, np. split; [exact Hd|]. split; [exact Hr|].
  assert (bogus = [Some (# "b")]) as ->.
  { apply (f_equal (fun m => match m with Ok l => l | _ => [] end)) in Hd. vm_compute in Hd.
    symmetry. exact Hd. }
  split; [reflexivity|]. rewrite Ho. vm_compute. reflexivity.
Defined.

(** ** The points of the distribution *)

Section cdf.
Context (median std : list float -> float) (cwd : str) (fs : gmap str str).

Definition fast (th : float) (l : list float) : list float := List.filter (fun t => fleb t th) l.
Definition slow (th : float) (rs : list SymbolReport) : list SymbolReport :=
  List.filter (fun r => fltb th (avg median r)) rs.

(** A slow report is counted as involving the heap when its declaration does. *)
Definition heap_report (r : SymbolReport) : bool :=
  match observations r with
  | o :: _ => match get_declaration cwd fs (obs_source o) (sr_name r) with
              | Ok (Some d) => is_repr d
              | _ => false
              end
  | [] => false
  end.
Definition can_look_up (r : SymbolReport) : Prop :=
  exists o os d, observations r = o :: os /\ get_declaration cwd fs (obs_source o) (sr_name r) = Ok d.

Definition numeric (l : list float) : Prop := Forall (fun t => is_nan t = false) l.

Lemma first_slower_spec th i l :
  is_nan th = false -> numeric l -> StronglySorted (fun a b => fltb b a = false) l ->
  first_slower th i l =
  if existsb (fltb th) l then Ok (i + length (fast th l)) else Raise StopIteration.
Proof.
  intros Hth Hn Hs. revert i. induction Hs as [|x l Hs IH Hx]; intros i; [done|].
  apply Forall_cons in Hn as [Hnx Hn]. unfold fast in *. cbn. rewrite fleb_fltb by done.
  destruct (fltb th x) eqn:E; cbn.
  - f_equal. assert (List.filter (fun t => fleb t th) l = []) as ->; [|cbn; lia].
    clear IH Hs. induction l as [|y l IH]; [done|]. cbn.
    apply Forall_cons in Hn as [Hny Hn]. apply Forall_cons in Hx as [Hxy Hx].
    rewrite fleb_fltb by done. destruct (fltb th y) eqn:Ey; [by apply IH|].
    pose proof (not_fltb_trans x y th Hnx Hny Hth Hxy Ey). congruence.
  - rewrite (IH Hn). destruct (existsb (fltb th) l); [f_equal; cbn; lia|done].
Qed.

Lemma count_slow_spec th rs a b :
  is_nan th = false -> numeric (map (avg median) rs) ->
  StronglySorted (fun r s => fltb (avg median r) (avg median s) = false) rs ->
  Forall can_look_up (slow th rs) ->
  count_slow median cwd fs th rs a b =
  Ok (a + length (List.filter heap_report (slow th rs)),
      b + length (List.filter (fun r => negb (heap_report r)) (slow th rs))).
Proof.
  intros Hth Hn Hs. revert a b. induction Hs as [|r rs Hs IH Hr]; intros a b Hl.
  - cbn. by rewrite !Nat.add_0_r.
  - cbn [map] in Hn. apply Forall_cons in Hn as [Hnr Hn]. cbn [count_slow]. rewrite fleb_fltb by done.
    unfold slow in *. cbn [List.filter] in *. destruct (fltb th (avg median r)) eqn:E; cbn [negb].
    + apply Forall_cons in Hl as [(o & os & d & Ho & Hd) Hl].
      cbn [List.filter]. assert (Hh : heap_report r = match d with Some d => is_repr d | None => false end).
      { unfold heap_report. by rewrite Ho, Hd. }
      rewrite Hh, Ho. cbn [head of_option]. rewrite bind_of_Ok, Hd, bind_of_Ok.
      destruct d as [d|]; [destruct (is_repr d)|]; cbn [negb]; rewrite IH by done; f_equal; f_equal; cbn; lia.
    + assert (Hnil : List.filter (fun r => fltb th (avg median r)) rs = []).
      { clear IH Hs Hl. induction rs as [|s rs IH]; [done|]. cbn. cbn [map] in Hn.
        apply Forall_cons in Hn as [Hns Hn]. apply Forall_cons in Hr as [Hrs Hr].
        rewrite (not_fltb_trans (avg median s) (avg median r) th); [by apply IH|done..]. }
      rewrite Hnil. cbn. by rewrite !Nat.add_0_r.
Qed.

(** The label, the count and the two percentages of a point. *)
Definition point_defs (label : str) (thresh : Z) (n : nat) (heap text : str) : constants :=
  [(label ++ # "SlowThresholdSecs", CInt thresh); (label ++ # "NumSlowVerifications", CInt (Z.of_nat n));
   (label ++ # "PctOfSlowVerifsInvolvingHeap", CText heap); (label ++ # "FasterPctile", CText (text ++ backslash :: # "%"))].

Lemma by_slow_sorted pile :
  numeric (map (avg median) (reports pile)) ->
  by_slow median pile ≡ₚ reports pile /\
  StronglySorted (fun r s => fltb (avg median r) (avg median s) = false) (by_slow median pile).
Proof.
  intros Hn. unfold by_slow. split; [apply sort_by_Permutation|].
  set (P := fun r => is_nan (avg median r) = false).
  assert (Hp : Forall P (reports pile)) by by apply Forall_map in Hn.
  assert (Hopp : forall a, P a -> is_nan (fopp (avg median a)) = false) by (unfold P; intros a; by destruct (avg median a)).
  pose proof (sort_by_sorted_on P (fun a b => fltb (fopp (avg median a)) (fopp (avg median b))) (reports pile)
    ltac:(intros; apply fltb_asym; auto)
    ltac:(intros a b c ???; apply not_fltb_trans; auto) Hp) as Hs.
  assert (Hp' : Forall P (sort_by (fun a b => fltb (fopp (avg median a)) (fopp (avg median b))) (reports pile)))
    by by rewrite sort_by_Permutation.
  induction Hs as [|r l Hs IH Hr]; [constructor|]. apply Forall_cons in Hp' as [Hpr Hpl].
  constructor; [by apply IH|]. rewrite Forall_forall in *. intros s Hin. rewrite <- fltb_opp by (done || by apply Hpl).
  by apply Hr.
Qed.

Lemma py_index_pred {A} (l : list A) n :
  l <> [] -> n <= length l ->
  exists t, py_index l (Z.of_nat n - 1) = Ok t /\ (if n =? 0 then last l else l !! pred n) = Some t.
Proof.
  intros Hne Hn. unfold py_index. destruct n as [|n]; cbn [Nat.eqb pred].
  - change (Z.of_nat 0 - 1)%Z with (-1)%Z. cbn [Z.ltb Z.compare].
    assert (length l <> 0) by by destruct l. rewrite (proj2 (Z.ltb_ge _ _)) by lia.
    assert (Z.to_nat (-1 + Z.of_nat (length l)) = pred (length l)) as -> by lia.
    rewrite last_lookup. destruct (l !! pred (length l)) as [t|] eqn:E; [|apply lookup_ge_None in E; lia].
    exists t. unfold nth_res. by rewrite E.
  - replace (Z.of_nat (S n) - 1)%Z with (Z.of_nat n) by lia.
    assert (Hz : (Z.of_nat n <? 0)%Z = false) by lia. rewrite !Hz, Nat2Z.id.
    destruct (l !! n) as [t|] eqn:E; [|apply lookup_ge_None in E; lia]. exists t. unfold nth_res. by rewrite E.
Qed.

(** C29. The points of the distribution the paper quotes.  With numeric
    averages: when no symbol is slower than the threshold the script stops with
    [StopIteration]; otherwise the index of the point is the number of symbols
    within the threshold minus one, the slow ones are counted exactly, and so
    are those whose declaration involves the heap.  The point is the slowest
    symbol within the threshold; but when every symbol is slower the index is
    -1, which names the slowest symbol of all and a negative percentile. *)
Theorem cdf_point label thresh pile :
  wf_pile pile -> numeric (map (avg median) (reports pile)) -> (0 < thresh < 2 ^ fprec)%Z ->
  (Z.of_nat (length (reports pile)) < 2 ^ fprec)%Z ->
  let th := float_of_Z thresh in
  let times := compute_times median pile in
  let n := length (fast th times) in
  let slows := slow th (reports pile) in
  Forall can_look_up slows ->
  (slows = [] -> CdfPoint_init median cwd fs label thresh pile = Raise StopIteration) /\
  (slows <> [] ->
     exists t y pct_slow,
       (if n =? 0 then last times else times !! pred n) = Some t /\
       fdiv (fmul (float_of_Z (Z.of_nat n - 1)) (float_of_Z 1)) (float_of_Z (Z.of_nat (length times))) = Ok y /\
       fdiv (fmul (float_of_Z 100) (float_of_Z (Z.of_nat (length (List.filter heap_report slows)))))
            (float_of_Z (Z.of_nat (length slows))) = Ok pct_slow /\
       CdfPoint_init median cwd fs label thresh pile =
         heap ← percent_text pct_slow;
         let pct := fmul y (float_of_Z 100) in
         Ok (CdfPointOf label thresh (Z.of_nat n - 1) t y pct (fmt_fixed 1 pct)
               (point_defs label thresh (length slows) heap (fmt_fixed 1 pct)))).
Proof.
  intros [_ _ Hfresh] Hn Hth Hlen th times n slows Hlook.
  destruct (float_of_small_nonzero thresh Hth) as [_ Hthn].
  assert (Hsort : StronglySorted (fun a b => fltb b a = false) times) by by apply sort_floats_sorted.
  assert (Hperm : times ≡ₚ map (avg median) (reports pile)) by apply sort_by_Permutation.
  assert (Hnt : numeric times) by (unfold numeric; by rewrite Hperm).
  assert (Hex : existsb (fltb th) times = negb (length slows =? 0)).
  { apply eq_true_iff_eq. rewrite negb_true_iff, Nat.eqb_neq, existsb_exists. split.
    - intros (t & Ht%list_elem_of_In & Hlt). rewrite Hperm in Ht. apply list_elem_of_fmap in Ht as (r & -> & Hr).
      intros H0. apply length_zero_iff_nil in H0. apply (not_elem_of_nil r). rewrite <- H0.
      apply list_elem_of_In, filter_In. split; [by apply list_elem_of_In|done].
    - intros H0. destruct slows as [|r l] eqn:E; [done|]. exists (avg median r).
      assert (Hr : r ∈ slows) by (rewrite E; apply list_elem_of_here).
      apply list_elem_of_In, filter_In in Hr as [Hr%list_elem_of_In Hlt]. split; [|done].
      rewrite <- list_elem_of_In, Hperm. by apply list_elem_of_fmap_2. }
  assert (Htimes : fst (avg_times median pile) = times) by (unfold avg_times; by rewrite Hfresh).
  unfold CdfPoint_init. fold th. rewrite Htimes, first_slower_spec, Hex by done. split.
  - intros ->. done.
  - intros Hne. assert (length slows =? 0 = false) as -> by (apply Nat.eqb_neq; by destruct slows).
    cbn [negb]. rewrite bind_of_Ok. fold n. rewrite Nat.add_0_l.
    assert (Hlt : length times = length (reports pile)) by (rewrite Hperm; apply length_map).
    assert (Hpos : 0 < length slows <= length (reports pile)).
    { split; [destruct slows; [done|cbn; lia]|]. apply List.filter_length_le. }
    destruct (py_index_pred times n) as (t & -> & Ht).
    { intros E. rewrite E in Hlt. cbn in Hlt. lia. }
    { unfold n, fast. apply List.filter_length_le. }
    destruct (float_of_small_nonzero (Z.of_nat (length times)) ltac:(lia)) as [Hz1 _].
    destruct (float_of_small_nonzero (Z.of_nat (length slows)) ltac:(lia)) as [Hz2 _].
    pose proof (fdiv_Ok (fmul (float_of_Z (Z.of_nat n - 1)) (float_of_Z 1)) _ Hz1) as Hy.
    pose proof (fdiv_Ok (fmul (float_of_Z 100) (float_of_Z (Z.of_nat (length (List.filter heap_report slows))))) _ Hz2) as Hp.
    exists t. do 2 eexists. split; [exact Ht|]. split; [exact Hy|]. split; [exact Hp|].
    rewrite bind_of_Ok. unfold cdist, pile_N. rewrite Htimes, Hy, bind_of_Ok.
    destruct (by_slow_sorted pile Hn) as [Hbp Hbs].
    assert (Hslow : slow th (by_slow median pile) ≡ₚ slows) by by apply filter_Permutation_bool.
    rewrite count_slow_spec; [|done|unfold numeric; by rewrite Hbp|done|by rewrite Hslow].
    rewrite bind_of_Ok. cbn [fst snd]. rewrite !Nat.add_0_l.
    assert (Hh : length (List.filter heap_report (slow th (by_slow median pile))) = length (List.filter heap_report slows))
      by by rewrite (filter_Permutation_bool heap_report _ _ Hslow).
    assert (Hh' : length (List.filter (fun r => negb (heap_report r)) (slow th (by_slow median pile))) =
                  length (List.filter (fun r => negb (heap_report r)) slows))
      by by rewrite (filter_Permutation_bool (fun r => negb (heap_report r)) _ _ Hslow).
    assert (Hsum : length (List.filter heap_report slows) +
                   length (List.filter (fun r => negb (heap_report r)) slows) = length slows)
      by (rewrite Nat.add_comm, <- length_app; by rewrite filter_split_perm).
    rewrite !Hh, !Hh', !Hsum, Hp, bind_of_Ok. reflexivity.
Qed.
End cdf.

(** Three symbols, one above ten seconds and declared with a frame. *)
Definition demo_source : str := # "method {:x} Slow(y: int)" ++ nl :: # "  modifies y" ++ [nl].
Definition demo_fs : gmap str str := {[ # "/r/M.i.dfy" := demo_source ]}.
Definition demo_cdf_pile : SymbolPile :=
  SymbolPileOf (map (fun '(s, t) => (s, SymbolReportOf s [ObservationOf (float_of_Z t) None "M.i.dfy"]))
                  [(# "M.A", 3%Z); (# "M.Slow", 12%Z); (# "M.B", 7%Z)]) None.

Lemma cdf_point_witness :
  exists p, CdfPoint_init demo_median "/r" demo_fs "tenSec" 10 demo_cdf_pile = Ok p /\
    cdf_idx p = 1%Z /\ constants_text "" (cdf_defs p) =
      constants_text "" [(# "tenSecSlowThresholdSecs", CInt 10); (# "tenSecNumSlowVerifications", CInt 1);
        (# "tenSecPctOfSlowVerifsInvolvingHeap", CText (# "100" ++ backslash :: # "%"));
        (# "tenSecFasterPctile", CText (# "33.3" ++ backslash :: # "%"))].
Proof.
  destruct (cdf_point demo_median "/r" demo_fs "tenSec" 10 demo_cdf_pile) as [_ H].
  - split; [apply (bool_decide_unpack _); vm_compute; exact I|repeat constructor; done|done].
  - repeat constructor.
  - vm_compute. split; reflexivity.
  - vm_compute. reflexivity.
  - constructor; [|constructor]. eexists _, _, _. split; [reflexivity|]. vm_compute. reflexivity.
  - destruct H as (t & y & p & _ & _ & Hp & E); [discriminate|].
    destruct (CdfPoint_init demo_median "/r" demo_fs "tenSec" 10 demo_cdf_pile) as [q|e] eqn:G.
    + exists q. split; [reflexivity|].
      apply (f_equal (fun m => match m with Ok q => (cdf_idx q, constants_text "" (cdf_defs q)) | _ => (0%Z, []) end)) in G.
      split; [apply (f_equal fst) in G; symmetry; exact G|]. apply (f_equal snd) in G.
      transitivity (constants_text "" (cdf_defs q)); [reflexivity|]. etransitivity; [symmetry; exact G|].
      vm_compute. reflexivity.
    + apply (f_equal is_Ok) in G. vm_compute in G. discriminate G.
Defined.

Lemma parse_one_wf_witness :
  wf_pile demo_cdf_pile /\ is_Ok (parse_one (log_text "a" "M.i.dfy" []) demo_cdf_pile) = true /\
  parse_one ("[1.5 s, 1 proof obligation]  verified" ++ [nl]) demo_cdf_pile = Raise (NameError "symbol").
Proof.
  assert (H : wf_pile demo_cdf_pile)
    by (split; [apply (bool_decide_unpack _); vm_compute; exact I|repeat constructor; done|done]).
  split; [exact H|]. split.
  - pose proof (parse_one_wf (log_text "a" "M.i.dfy" []) demo_cdf_pile H) as H1.
    destruct (parse_one (log_text "a" "M.i.dfy" []) demo_cdf_pile) eqn:E; [reflexivity|].
    apply (f_equal is_Ok) in E. vm_compute in E. discriminate E.
  - vm_compute. reflexivity.
Defined.

(** ** All groups *)

Section groups.
Context (median std : list float -> float) (cwd : str) (fs : gmap str str) (log10 : float -> float) (pow10 : Z -> float).

Definition figure_name (groupname : str) : str :=
  "../veripapers/osdi2020/figures/verification-times-" ++ groupname ++ ".pdf".

Lemma group_figure_file g bogus pile f :
  group_figure median cwd fs log10 pow10 g bogus pile = Ok f -> tf_file (snd f) = figure_name g.
Proof.
  unfold group_figure, plot_all. intros (p & _ & H)%bind_Ok. apply bind_Ok in H as (fig & H & [= <-]).
  apply bind_Ok in H as ([[ys p10] p20] & _ & H). apply bind_Ok in H as (l & _ & H).
  apply bind_Ok in H as (t20 & _ & H). by apply bind_Ok in H as (t10 & _ & [= <-]).
Qed.

Lemma groups_run bogus piles st out :
  for_each (fun '(_, figs) '(g, pile) =>
      text ← group_constants median std cwd fs bogus pile;
      fig ← group_figure median cwd fs log10 pow10 g bogus pile; Ok (Some text, figs ++ [fig])) piles st = Ok out ->
  map (fun f => tf_file (snd f)) (snd out) = map (fun f => tf_file (snd f)) (snd st) ++ map (fun g => figure_name (fst g)) piles /\
  match last piles with
  | None => fst out = fst st
  | Some (_, pile) => exists t, fst out = Some t /\ group_constants median std cwd fs bogus pile = Ok t
  end.
Proof.
  revert out. induction piles as [|[g pile] piles IH] using rev_ind; intros out H.
  - injection H as <-. by rewrite app_nil_r.
  - rewrite for_each_app in H. apply bind_Ok in H as ([text figs] & H1 & H). destruct (IH _ H1) as [Hf _].
    cbn [for_each] in H. apply bind_Ok in H as (out' & H & [= <-]). apply bind_Ok in H as (t & Ht & H).
    apply bind_Ok in H as (fig & Hfig & [= <-]). cbn [fst snd] in *. rewrite last_snoc. split; [|by exists t].
    rewrite !map_app, Hf, app_assoc. cbn [map fst]. by rewrite (group_figure_file _ _ _ _ Hfig).
Qed.

(** The constants of every group but the last are overwritten: when the script
    ends, the file holds those of the last group, and there is one figure per
    group, in order. *)
Theorem last_group_wins files text figs :
  times_main median std cwd fs log10 pow10 files = Ok (text, figs) ->
  exists piles bogus, parse_all files = Ok piles /\ all_bogus median std piles = Ok bogus /\
    map (fun f => tf_file (snd f)) figs = map (fun g => figure_name (fst g)) piles /\
    match last piles with
    | None => text = None
    | Some (_, pile) => exists t, text = Some t /\ group_constants median std cwd fs bogus pile = Ok t
    end.
Proof.
  unfold times_main. intros (piles & Hp & H)%bind_Ok. apply bind_Ok in H as (bogus & Hb & H).
  exists piles, bogus. split; [done|]. split; [done|]. exact (groups_run bogus piles _ _ H).
Qed.
End groups.
