(* ===== verification/Bench.v ===== *)
(** * Node-replication benchmarks (concurrency/node-replication/bench.py)

    The script reads the shape of the machine from the kernel, chooses an order
    of thread counts, and runs every benchmark at every read percentage and
    thread count, combining the results after each group.  What it does is a
    list of events; the programs it runs are outside the model. *)
From S2P Require Import Prelude PyStr Regex Paths PyFloat.

(** ** The machine *)

Definition count_numa_nodes (cpuinfo : str) : res nat :=
  nids ← for_each (fun nids l =>
            if startswith l "physical id" then
              nid ← nth_res (split_str l ":") 1; Ok (str_add nids (strip nid))
            else Ok nids) (readlines cpuinfo) [];
  Ok (length nids).

Definition first_node_re : re :=
  seqs [Lit "physical id"; Star Dot; Lit ":"; Dot; Lit "0"; Eol].

Definition count_cores_per_numa_node (cpuinfo : str) : nat :=
  length (List.filter (fun l => match rematch first_node_re l with Some _ => true | None => false end)
            (readlines cpuinfo)).

(** ** The order of thread counts *)

Definition SECONDS : Z := 10.
Definition NR_BENCHES : list str := ["dafny_nr" : str; "rust_nr" : str].
Definition OTHER_BENCHES : list str :=
  ["dafny_rwlock" : str; "shfllock" : str; "mcs" : str; "cpp_shared_mutex" : str].
Definition READS_PCT : list Z := [100; 90; 0]%Z.
Definition ITERS : nat := 1.
Definition TRANSPARENT_HUGEPAGES : bool := true.

(** [reorder]: the middle element first, then the rest with its halves
    exchanged; one level of recursion per element. *)
Fixpoint reorder_fuel {A} (fuel : nat) (l : list A) : list A :=
  match fuel with
  | O => l
  | S f =>
      if length l <? 2 then l
      else let p := length l / 2 in
           match l !! p with
           | Some x => x :: reorder_fuel f (drop (p + 1) l ++ take p l)
           | None => l
           end
  end.
Definition reorder {A} (l : list A) : list A := reorder_fuel (length l) l.

Definition N_THREADS (MAX_THREADS : nat) : list nat :=
  [MAX_THREADS; 4] ++ reorder (py_range 12 MAX_THREADS 12).

(** ** Commands and files *)

Definition bench_path (n_replicas : Z) : str := "./app-" ++ dec_Z n_replicas ++ "replicas".

(** The contents of data.json, from the files of results in the order the
    directory lists them. *)
Definition combine_data_files (records : list str) : str :=
  "[" ++ nl :: join ("," ++ [nl]) records ++ nl :: # "]".

Record bench_run := BenchRun {
  br_bench : str; br_replicas : Z; br_threads : nat; br_reads : Z; br_id : str; br_policy : str
}.

Definition run_command (r : bench_run) : str :=
  bench_path (br_replicas r) ++ " " ++ br_bench r ++ " " ++ dec_nat (br_threads r) ++ " " ++
  dec_Z (br_reads r) ++ " " ++ dec_Z SECONDS ++ " " ++ br_policy r ++ " " ++ br_id r.

(** What the script does, in order. *)
Inductive event :=
  | Shell (cmd : str)
  | Mkdir (path : str)       (* errors are ignored *)
  | Run (r : bench_run)
  | CombineDataFiles.

(** [math.ceil] of a finite float. *)
Definition float_ceil (x : float) : res Z :=
  match x with
  | S754_zero _ => Ok 0%Z
  | S754_finite s m e =>
      let num := if s then Zneg m else Zpos m in
      Ok (if 0 <=? e then num * 2 ^ e else - ((- num) / 2 ^ (- e)))%Z
  | S754_infinity _ => Raise OverflowError
  | S754_nan => Raise ValueError
  end.

Section bench.
Context (CORES_PER_NODE NODES : nat) (run_id : str).

(** [min(math.ceil(n_threads / (CORES_PER_NODE / 2)), NODES)]. *)
Definition replicas_for (n_threads : nat) : res Z :=
  half ← fdiv (float_of_Z (Z.of_nat CORES_PER_NODE)) (float_of_Z 2);
  q ← fdiv (float_of_Z (Z.of_nat n_threads)) half;
  n ← float_ceil q;
  Ok (Z.min n (Z.of_nat NODES)).

Definition hugepage_commands : list event :=
  Shell ("sudo sh -c " ++ "034"%char :: "echo " ++ (if TRANSPARENT_HUGEPAGES then "always" else "never") ++
         " > /sys/kernel/mm/transparent_hugepage/enabled" ++ ["034"%char]) ::
  map (fun nid => Shell ("sudo sh -c " ++ "034"%char :: "echo 4 > /sys/devices/system/node/node" ++ dec_nat nid ++
                         "/hugepages/hugepages-1048576kB/nr_hugepages" ++ ["034"%char])) (seq 0 4).

Definition setup : list event :=
  hugepage_commands ++
  [Shell "rm data*.json *throughput*.pdf *throughput*.png"; Mkdir "runs";
   Mkdir (path_join "runs" run_id)].

(** The body of the loop over the thread counts. *)
Definition thread_group (run_id_num : str) (reads_pct : Z) (n_threads : nat) : res (list event) :=
  n_replicas ← replicas_for n_threads;
  let mode := # "fill" in
  Ok (flat_map (fun bench =>
                  if (Z.of_nat n_threads <? n_replicas)%Z then []
                  else [Run (BenchRun bench n_replicas n_threads reads_pct run_id_num mode)]) NR_BENCHES ++
      map (fun bench => Run (BenchRun bench 1 n_threads reads_pct run_id_num mode)) OTHER_BENCHES ++
      [CombineDataFiles; Shell "./plot.py"; Shell ("cp *.json *.png *.pdf *.pgf plot.py runs/" ++ run_id)]).

(** One iteration; [run_num] starts at -1 and is incremented first. *)
Definition iteration (i : nat) : res (list event) :=
  let run_id_num := run_id ++ "-" ++ dec_Z (Z.of_nat i) in
  groups ← map_res (fun reads_pct =>
             groups ← map_res (thread_group run_id_num reads_pct) (N_THREADS (NODES * CORES_PER_NODE));
             Ok (concat groups)) READS_PCT;
  Ok (concat groups).

Definition run_all : res (list event) :=
  iterations ← map_res iteration (seq 0 ITERS);
  Ok (setup ++ concat iterations).
End bench.

(** The script on the machine it runs on: without an argument it runs the
    benchmarks, with one it prints a line. *)
Definition bench_main (args : list str) (cpuinfo run_id : str) : res (str + list event) :=
  nodes ← count_numa_nodes cpuinfo;
  match args with
  | [] => events ← run_all (count_cores_per_numa_node cpuinfo) nodes run_id; Ok (inr events)
  | arg :: _ => Ok (inl (if bool_decide (arg = "--node-count") then dec_nat nodes else "Unknown option"))
  end.

(** ** Reordering *)

Lemma reorder_fuel_perm {A} fuel (l : list A) : length l <= fuel -> reorder_fuel fuel l ≡ₚ l.
Proof.
  revert l. induction fuel as [|f IH]; intros l Hl; [done|]. cbn [reorder_fuel].
  destruct (Nat.ltb_spec (length l) 2) as [|H2]; [done|].
  destruct (l !! (length l / 2)) as [x|] eqn:E; [|done].
  pose proof (lookup_lt_Some _ _ _ E) as Hp.
  rewrite IH.
  - rewrite (Permutation_app_comm (drop _ _)), Nat.add_1_r.
    transitivity (take (length l / 2) l ++ x :: drop (S (length l / 2)) l);
      [by rewrite Permutation_middle|]. by rewrite (take_drop_middle l _ x E).
  - rewrite length_app, length_drop, length_take. lia.
Qed.

Lemma reorder_perm {A} (l : list A) : reorder l ≡ₚ l.
Proof. by apply reorder_fuel_perm. Qed.

(** The unfolding of the recursion, fuel aside. *)
Lemma reorder_fuel_enough {A} fuel fuel' (l : list A) :
  length l <= fuel -> length l <= fuel' -> reorder_fuel fuel l = reorder_fuel fuel' l.
Proof.
  revert fuel' l. induction fuel as [|f IH]; intros fuel' l H H'; destruct fuel' as [|f']; cbn [reorder_fuel];
    try (destruct l; [done|cbn in *; lia]).
  destruct (Nat.ltb_spec (length l) 2) as [|H2]; [done|].
  destruct (l !! (length l / 2)) as [x|] eqn:E; [|done]. apply lookup_lt_Some in E.
  f_equal. apply IH; rewrite length_app, length_drop, length_take; lia.
Qed.

Lemma reorder_eq {A} (l : list A) x :
  2 <= length l -> l !! (length l / 2) = Some x ->
  reorder l = x :: reorder (drop (length l / 2 + 1) l ++ take (length l / 2) l).
Proof.
  intros H2 E. pose proof (lookup_lt_Some _ _ _ E) as Hp. unfold reorder at 1.
  destruct (length l) as [|n] eqn:En; [lia|]. cbn [reorder_fuel]. rewrite En.
  rewrite (proj2 (Nat.ltb_ge _ _)) by lia. rewrite E. f_equal. apply reorder_fuel_enough; [|done].
  rewrite length_app, length_drop, length_take. lia.
Qed.

(** ** Replicas

    The quotient is computed in floating point; that it rounds up to what exact
    arithmetic gives is decided by evaluation for the thread counts of a
    machine. *)
Definition exact_ceil (c n : nat) : Z := ((2 * Z.of_nat n + Z.of_nat c - 1) / Z.of_nat c)%Z.

Definition float_quotient (c n : nat) : res Z :=
  half ← fdiv (float_of_Z (Z.of_nat c)) (float_of_Z 2);
  q ← fdiv (float_of_Z (Z.of_nat n)) half;
  float_ceil q.

Definition rounds_up (c n : nat) : bool :=
  match float_quotient c n with Ok z => (z =? exact_ceil c n)%Z | Raise _ => false end.

Lemma replicas_Ok c m n :
  rounds_up c n = true -> replicas_for c m n = Ok (Z.min (exact_ceil c n) (Z.of_nat m)).
Proof.
  unfold rounds_up. destruct (float_quotient c n) as [z|] eqn:H; [|done]. intros ->%Z.eqb_eq.
  unfold replicas_for, float_quotient in *. apply bind_Ok in H as (half & -> & H).
  apply bind_Ok in H as (q & E & H). cbn [mbind res_bind]. by rewrite E, bind_of_Ok, H.
Qed.

(** ** The schedule *)

Definition runs (events : list event) : list bench_run :=
  flat_map (fun e => match e with Run r => [r] | _ => [] end) events.

Definition all_benches : list str := NR_BENCHES ++ OTHER_BENCHES.

(** The run of a benchmark at a thread count. *)
Definition scheduled (c m : nat) (id : str) (reads : Z) (threads : nat) (bench : str) : bench_run :=
  BenchRun bench (if bool_decide (bench ∈ NR_BENCHES) then Z.min (exact_ceil c threads) (Z.of_nat m) else 1%Z)
    threads reads id "fill".

Lemma exact_ceil_bounds c n :
  2 <= c -> 1 <= n -> (1 <= exact_ceil c n <= Z.of_nat n)%Z /\
  (2 * Z.of_nat n <= exact_ceil c n * Z.of_nat c)%Z.
Proof.
  intros Hc Hn. unfold exact_ceil.
  pose proof (Z.div_mod (2 * Z.of_nat n + Z.of_nat c - 1) (Z.of_nat c) ltac:(lia)) as Hdm.
  pose proof (Z.mod_pos_bound (2 * Z.of_nat n + Z.of_nat c - 1) (Z.of_nat c) ltac:(lia)) as Hm.
  set (q := ((2 * Z.of_nat n + Z.of_nat c - 1) / Z.of_nat c)%Z) in *. nia.
Qed.

Lemma runs_app a b : runs (a ++ b) = runs a ++ runs b.
Proof. apply flat_map_app. Qed.

Lemma thread_group_runs c m run_id id reads n :
  2 <= c -> 1 <= n -> rounds_up c n = true ->
  exists g, thread_group c m run_id id reads n = Ok g /\
    runs g = map (scheduled c m id reads n) all_benches.
Proof.
  intros Hc Hn Hr. unfold thread_group. rewrite replicas_Ok by done. rewrite bind_of_Ok.
  eexists. split; [done|].
  destruct (exact_ceil_bounds c n ltac:(lia) ltac:(lia)) as [Hb _].
  assert ((Z.of_nat n <? Z.min (exact_ceil c n) (Z.of_nat m))%Z = false) as -> by lia. reflexivity.
Qed.

Lemma iteration_runs c m run_id i :
  2 <= c -> 1 <= m -> Forall (fun n => rounds_up c n = true) (N_THREADS (m * c)) ->
  exists g, iteration c m run_id i = Ok g /\
    runs g = flat_map (fun reads => flat_map (fun n =>
               map (scheduled c m (run_id ++ "-" ++ dec_Z (Z.of_nat i)) reads n) all_benches)
               (N_THREADS (m * c))) READS_PCT.
Proof.
  intros Hc Hm Hround. unfold iteration.
  assert (Hbody : forall reads, exists g,
    (groups ← map_res (thread_group c m run_id (run_id ++ "-" ++ dec_Z (Z.of_nat i)) reads) (N_THREADS (m * c));
     Ok (concat groups)) = Ok g /\
    runs g = flat_map (fun n => map (scheduled c m (run_id ++ "-" ++ dec_Z (Z.of_nat i)) reads n) all_benches)
               (N_THREADS (m * c))).
  { intros reads.
    assert (Hall : Forall (fun n => 1 <= n /\ rounds_up c n = true) (N_THREADS (m * c))).
    { apply Forall_and. split; [|done]. unfold N_THREADS. constructor; [nia|]. constructor; [lia|].
      rewrite reorder_perm. apply Forall_forall.
        intros n (j & -> & Hlt)%py_range_elem; lia. }
    clear Hround. induction Hall as [|n l [Hn Hr] _ IH]; [by exists []|].
    destruct (thread_group_runs c m run_id (run_id ++ "-" ++ dec_Z (Z.of_nat i)) reads n Hc Hn Hr) as (g1 & H1 & R1).
    destruct IH as (g2 & H2 & R2). apply bind_Ok in H2 as (gs & Hgs & [= <-]).
    exists (g1 ++ concat gs). cbn [map_res]. rewrite H1, bind_of_Ok, Hgs, bind_of_Ok. split; [done|].
    rewrite runs_app, R1, R2. done. }
  cbv zeta. induction READS_PCT as [|reads l IH]; [by exists []|].
  destruct (Hbody reads) as (g1 & H1 & R1). destruct IH as (g2 & H2 & R2).
  apply bind_Ok in H2 as (gs & Hgs & [= <-]). exists (g1 ++ concat gs).
  cbn [map_res]. rewrite H1, bind_of_Ok, Hgs, bind_of_Ok. split; [done|]. rewrite runs_app, R1, R2. done.
Qed.

(** The thread counts a machine of [c] cores per node may have. *)
Definition may_count (c n : nat) : bool := (n =? 4) || (n mod 12 =? 0) || (n mod c =? 0).

(** On the machines of a usual size the quotient rounds as it should. *)
Lemma rounds_up_small c n : 2 <= c <= 48 -> 1 <= n <= 192 -> may_count c n = true -> rounds_up c n = true.
Proof.
  intros Hc Hn Hm.
  assert (H : forallb (fun c => forallb (fun n => if may_count c n then rounds_up c n else true) (seq 1 192)) (seq 2 47) = true)
    by (vm_compute; reflexivity).
  rewrite forallb_forall in H. specialize (H c). rewrite in_seq in H. specialize (H ltac:(lia)).
  rewrite forallb_forall in H. specialize (H n). rewrite in_seq, Hm in H. apply H. lia.
Qed.

(** The multiples of twelve that [range(12, MAX_THREADS, 12)] lists. *)
Lemma multiples_of_12 m : py_range 12 m 12 = map (Nat.mul 12) (seq 1 ((m - 1) / 12)).
Proof.
  unfold py_range. replace ((m - 12 + 12 - 1) / 12) with ((m - 1) / 12).
  - rewrite <- seq_shift, map_map. apply map_ext. intros i. lia.
  - destruct (Nat.le_gt_cases 12 m); [f_equal; lia|]. rewrite !Nat.div_small by lia. done.
Qed.

Lemma thread_counts_in M n :
  n ∈ N_THREADS M <-> n = M \/ n = 4 \/ exists k, 1 <= k /\ n = 12 * k /\ n < M.
Proof.
  unfold N_THREADS. cbn [app]. rewrite !elem_of_cons, reorder_perm, py_range_elem by lia.
  split; (intros [?|[?|(k & ? & ?)]]; [by left|by right; left|right; right]); [exists (S k)|exists (pred k)]; lia.
Qed.

Lemma thread_counts_NoDup M : M <> 4 -> NoDup (N_THREADS M).
Proof.
  intros HM. unfold N_THREADS. cbn [app]. rewrite !NoDup_cons, elem_of_cons, reorder_perm, !py_range_elem by lia.
  split_and!.
  - intros [?|(k & ? & ?)]; lia.
  - intros (k & ? & ?). lia.
  - rewrite multiples_of_12. apply NoDup_fmap_2; [intros x y; lia|apply NoDup_ListNoDup, seq_NoDup].
Qed.

Lemma runs_NoDup c m id threads :
  NoDup threads ->
  NoDup (flat_map (fun reads => flat_map (fun n => map (scheduled c m id reads n) all_benches) threads) READS_PCT).
Proof.
  intros Hn.
  assert (Hin : forall reads n r, r ∈ map (scheduled c m id reads n) all_benches -> br_reads r = reads /\ br_threads r = n)
    by (by intros reads n r (b & -> & _)%list_elem_of_fmap).
  apply NoDup_flat_map; [| |apply (bool_decide_unpack _); vm_compute; exact I].
  - intros x y r _ _ Hx%list_elem_of_In Hy%list_elem_of_In. apply in_flat_map in Hx as (n1 & _ & H1), Hy as (n2 & _ & H2).
    apply list_elem_of_In, Hin in H1 as [<- _], H2 as [<- _]. done.
  - intros reads _. apply NoDup_flat_map; [|intros n _|done].
    + intros x y r _ _ [_ <-]%Hin [_ <-]%Hin. done.
    + apply NoDup_fmap_2_strong; [|apply (bool_decide_unpack _); vm_compute; exact I].
      intros x y _ _ E. by injection E.
Qed.

(** C37. The schedule of the benchmarks, on a machine of [m] nodes with [c]
    cores each, at least two.  The division that gives the number of replicas is
    made in floating point; it is required to round as the exact one does at the
    thread counts used, which holds on every machine of at most 48 cores per
    node and 192 in all.  The thread counts are the maximum, four, and each
    multiple of twelve below the maximum, reordered but none lost nor repeated.
    At every read percentage and entry of this list the six benchmarks are run in
    order; the replicated ones get the least number of replicas whose half nodes
    hold the threads, but no more than there are nodes, the others one; no run is
    skipped.  So each benchmark is run exactly once per read percentage and thread
    count, except on a machine of four cores: there four is listed twice and every
    run is made twice. *)
Theorem every_benchmark_runs c m run_id :
  2 <= c -> 1 <= m ->
  (c <= 48 /\ m * c <= 192) \/ Forall (fun n => rounds_up c n = true) (N_THREADS (m * c)) ->
  exists events multiples, run_all c m run_id = Ok events /\
    runs events = flat_map (fun reads => flat_map (fun n =>
                    map (scheduled c m (run_id ++ "-0") reads n) all_benches) (N_THREADS (m * c))) READS_PCT /\
    N_THREADS (m * c) = m * c :: 4 :: multiples /\
    multiples ≡ₚ map (Nat.mul 12) (seq 1 ((m * c - 1) / 12)) /\
    (m * c <> 4 -> NoDup (N_THREADS (m * c)) /\ NoDup (runs events)) /\
    (m * c = 4 -> N_THREADS (m * c) = [4; 4]) /\
    (forall n, n ∈ N_THREADS (m * c) ->
       (1 <= exact_ceil c n /\ 2 * Z.of_nat n <= exact_ceil c n * Z.of_nat c /\
        2 * Z.of_nat n > (exact_ceil c n - 1) * Z.of_nat c)%Z).
Proof.
  intros Hc Hm Hsize.
  assert (Hpos : forall n, n ∈ N_THREADS (m * c) -> 1 <= n) by (intros n [|[|(k & ? & ? & ?)]]%thread_counts_in; nia).
  assert (Hround : Forall (fun n => rounds_up c n = true) (N_THREADS (m * c))).
  { destruct Hsize as [[? ?]|]; [|done]. apply Forall_forall. intros n Hn. pose proof (Hpos n Hn).
    apply thread_counts_in in Hn as [Hn|[Hn|(k & ? & Hn & ?)]]; (apply rounds_up_small; [lia|lia|]); subst n; unfold may_count.
    - rewrite Nat.Div0.mod_mul. by rewrite orb_true_r.
    - done.
    - rewrite (Nat.mul_comm 12 k), Nat.Div0.mod_mul. by rewrite orb_true_r. }
  destruct (iteration_runs c m run_id 0 Hc Hm Hround) as (g & Hg & Hr).
  assert (Hruns : runs (setup run_id ++ concat [g]) = flat_map (fun reads => flat_map (fun n =>
      map (scheduled c m (run_id ++ "-0") reads n) all_benches) (N_THREADS (m * c))) READS_PCT).
  { rewrite runs_app. cbn [concat]. rewrite app_nil_r, Hr. reflexivity. }
  exists (setup run_id ++ concat [g]), (reorder (py_range 12 (m * c) 12)).
  split; [unfold run_all; cbn [seq map_res ITERS]; by rewrite Hg, bind_of_Ok|]. split_and!; [exact Hruns|done| | | |].
  - by rewrite reorder_perm, multiples_of_12.
  - intros Hne. pose proof (thread_counts_NoDup _ Hne) as Hnd. split; [exact Hnd|]. rewrite Hruns. by apply runs_NoDup.
  - by intros ->.
  - intros n Hn%Hpos. destruct (exact_ceil_bounds c n Hc Hn) as [? ?]. split_and!; [lia|done|].
    unfold exact_ceil. pose proof (Z.mul_div_le (2 * Z.of_nat n + Z.of_nat c - 1) (Z.of_nat c) ltac:(lia)). lia.
Qed.

(** A machine with four nodes of 24 cores. *)
Definition demo_cpuinfo : str :=
  unlines (flat_map (fun node => repeat (# "physical id" ++ # " : " ++ dec_nat node) 24) (seq 0 4)).

Lemma every_benchmark_runs_witness :
  exists events, bench_main [] demo_cpuinfo "run1" = Ok (inr events) /\ length (runs events) = 162 /\
    head (map run_command (runs events)) = Some (# "./app-4replicas dafny_nr 96 100 10 fill run1-0").
Proof.
  destruct (every_benchmark_runs 24 4 "run1") as (events & multiples & E & H & _); [lia|lia|left; lia|].
  exists events. split; [|rewrite H; vm_compute; split; reflexivity].
  assert (Hn : count_numa_nodes demo_cpuinfo = Ok 4) by (vm_compute; reflexivity).
  assert (Hc : count_cores_per_numa_node demo_cpuinfo = 24) by (vm_compute; reflexivity).
  unfold bench_main. rewrite Hn, bind_of_Ok, Hc, E, bind_of_Ok. reflexivity.
Defined.
