(* ===== verification/Atomics.v ===== *)
(** * Generated atomic operations (concurrency/framework/gen.py)

    The script prints, for the four machine widths, Dafny functions on unsigned
    integers and the atomic operations built on them, by substituting the width
    and its bound in templates written for eight bits. *)
From S2P Require Import Prelude PyStr.

(** [upper_bound]: [0x1], then two zeros per byte, with fewer underscores. *)
Fixpoint str_times (n : nat) (s : str) : str := match n with O => [] | S n' => s ++ str_times n' s end.

Definition upper_bound (prec : nat) : str :=
  let prec := prec / 8 in
  replace ("0x1" ++ str_times prec "_00") "_00_00" "_0000".

Definition PRECISIONS : list nat := [8; 16; 32; 64].

Definition arithmetic_template : str :=
  join [nl]
    [ # "";
     # "  /*";
     # "   * uint8 arithmetic and bit operations";
     # "   */";
     # "";
     # "  function method bit_or_uint8(a: uint8, b: uint8): uint8 {";
     # "    ((a as bv8) | (b as bv8)) as uint8";
     # "  }";
     # "";
     # "  function method bit_and_uint8(a: uint8, b: uint8): uint8 {";
     # "    ((a as bv8) & (b as bv8)) as uint8";
     # "  }";
     # "";
     # "  function method bit_xor_uint8(a: uint8, b: uint8): uint8 {";
     # "    ((a as bv8) ^ (b as bv8)) as uint8";
     # "  }";
     # "";
     # "  function wrapped_add_uint8(a: uint8, b: uint8): uint8 {";
     # "    if a as int + b as int < 0x1_00 then";
     # "      a + b";
     # "    else";
     # "      (a as int + b as int - 0x1_00) as uint8";
     # "  }";
     # "";
     # "  function wrapped_sub_uint8(a: uint8, b: uint8): uint8 {";
     # "    if a as int - b as int >= 0 then";
     # "      a - b";
     # "    else";
     # "      (a as int - b as int + 0x1_00) as uint8";
     # "  }"].

Definition atomic_template : str :=
  join [nl]
    [ # "";
     # "  method {:extern} execute_atomic_fetch_OP_uint8<G>(";
     # "      a: Atomic<uint8, G>,";
     # "      operand: uint8) ";
     # "  returns (";
     # "      ret_value: uint8,";
     # "      ghost orig_value: uint8,";
     # "      ghost new_value: uint8,";
     # "      ghost linear g: G)";
     # "  ensures ret_value == orig_value";
     # "  ensures new_value == bit_OP_uint8(orig_value, operand)";
     # "  ensures atomic_inv(a, orig_value, g)"].

(** [.replace('8', str(precision))], then the bound. *)
Definition arithmetic_text (precision : nat) : str :=
  replace (replace arithmetic_template "8" (dec_nat precision)) "0x1_00" (upper_bound precision).

Definition OPS : list str := ["or" : str; "and" : str; "xor" : str; "add" : str; "sub" : str].

Definition atomic_text (precision : nat) (op : str) : str :=
  let a := replace (replace atomic_template "OP" op) "8" (dec_nat precision) in
  if bool_decide (op ∈ [ # "add"; # "sub"]) then replace a "bit" "wrapped" else a.

(** What is printed: each text followed by a newline. *)
Definition gen_output : str :=
  concat (map (fun precision =>
    arithmetic_text precision ++ [nl] ++ concat (map (fun op => atomic_text precision op ++ [nl]) OPS))
    PRECISIONS).

(** ** What the constants denote *)

(** The value of a hexadecimal numeral of Dafny: underscores are ignored. *)
Definition underscore : ascii := "_"%char.

Fixpoint hex_digits (acc : Z) (s : str) : option Z :=
  match s with
  | [] => Some acc
  | c :: s' => v ← hex_digit_val c; hex_digits (16 * acc + v) s'
  end.

Definition not_underscore (c : ascii) : bool := negb (bool_decide (c = underscore)).

Definition hex_value (s : str) : option Z :=
  if startswith s "0x" then hex_digits 0 (List.filter not_underscore (drop 2 s)) else None.

(** Replacing a text by one that differs in underscores only. *)
Lemma replace_from_filter (f : ascii -> bool) old new s :
  old <> [] -> List.filter f new = List.filter f old ->
  List.filter f (replace_from old new 0 s) = List.filter f s.
Proof.
  intros Hne Hf. remember (length s) as n eqn:En. assert (Hn : length s <= n) by lia. clear En.
  revert s Hn. induction n as [|n IH]; intros s Hn; [destruct s; [done|cbn in Hn; lia]|].
  destruct s as [|c s]; [done|]. cbn [replace_from]. destruct (prefixb old (c :: s)) eqn:Hp.
  - apply prefixb_spec in Hp as [k Hk]. destruct old as [|o old]; [done|]. cbn in Hk. injection Hk as <- ->.
    cbn [length pred]. rewrite List.filter_app.
    assert (Hskip : replace_from (c :: old) new (length old) (old ++ k) = replace_from (c :: old) new 0 k).
    { clear. generalize (c :: old). intros o'. induction old as [|x old IH]; [done|]. apply IH. }
    rewrite Hskip, IH, Hf.
    + change (c :: old ++ k) with ((c :: old) ++ k). by rewrite List.filter_app.
    + cbn in Hn. rewrite length_app in Hn. lia.
  - cbn. rewrite IH by (cbn in Hn; lia). done.
Qed.

Lemma str_times_digits k :
  List.filter not_underscore (str_times k "_00") = repeat "0"%char (2 * k).
Proof.
  induction k as [|k IH]; [done|]. cbn [str_times]. rewrite List.filter_app, IH.
  replace (2 * S k) with (S (S (2 * k))) by lia. done.
Qed.

Lemma hex_digits_zeros acc n : hex_digits acc (repeat "0"%char n) = Some (acc * 16 ^ Z.of_nat n)%Z.
Proof.
  revert acc. induction n as [|n IH]; intros acc; cbn [repeat hex_digits].
  - f_equal. lia.
  - change (hex_digit_val "0") with (Some 0%Z). cbn [mbind option_bind]. rewrite IH. f_equal.
    rewrite Nat2Z.inj_succ, Z.pow_succ_r by lia. lia.
Qed.

Lemma upper_bound_start prec : exists s, upper_bound prec = # "0x1" ++ s /\
  List.filter not_underscore s = repeat "0"%char (2 * (prec / 8)).
Proof.
  unfold upper_bound. set (k := prec / 8). unfold replace.
  exists (replace_from "_00_00" "_0000" 0 (str_times k "_00")). split; [done|].
  rewrite replace_from_filter by done. apply str_times_digits.
Qed.

(** The bound of a width.  For every number of bits that fills bytes, the
    numeral put into the generated code denotes 2 to that power, which is the
    modulus of the wrapping addition and subtraction; and the five texts
    printed for each of the four widths mention that width's types and bound
    and no other. *)
Theorem upper_bound_value k :
  hex_value (upper_bound (8 * k)) = Some (2 ^ Z.of_nat (8 * k))%Z /\
  Forall (fun p => contains ("if a as int + b as int < " ++ upper_bound p ++ " then") (arithmetic_text p) = true /\
                   contains ("(a as int - b as int + " ++ upper_bound p ++ ") as uint" ++ dec_nat p) (arithmetic_text p) = true /\
                   (forall q, q ∈ PRECISIONS -> q <> p -> contains ("uint" ++ dec_nat q) (arithmetic_text p) = false) /\
                   Forall (fun op => contains ("execute_atomic_fetch_" ++ op ++ "_uint" ++ dec_nat p) (atomic_text p op) = true) OPS)
    PRECISIONS.
Proof.
  split.
  - destruct (upper_bound_start (8 * k)) as (s & -> & Hs). unfold hex_value.
    change (startswith (# "0x1" ++ s) (# "0x")) with true. cbv iota.
    change (drop 2 (# "0x1" ++ s)) with ("1"%char :: s). cbn [List.filter].
    change (not_underscore "1") with true. cbv iota. rewrite Hs, (Nat.mul_comm 8 k), Nat.div_mul by lia.
    cbn [hex_digits]. change (hex_digit_val "1") with (Some 1%Z). cbn [mbind option_bind].
    rewrite hex_digits_zeros. f_equal. change 16%Z with (2 ^ 4)%Z. rewrite <- Z.pow_mul_r by lia.
    rewrite Z.mul_1_l. f_equal. lia.
  - assert (Hall : forallb (fun p =>
      contains ("if a as int + b as int < " ++ upper_bound p ++ " then") (arithmetic_text p) &&
      contains ("(a as int - b as int + " ++ upper_bound p ++ ") as uint" ++ dec_nat p) (arithmetic_text p) &&
      forallb (fun q => (q =? p) || negb (contains ("uint" ++ dec_nat q) (arithmetic_text p))) PRECISIONS &&
      forallb (fun op => contains ("execute_atomic_fetch_" ++ op ++ "_uint" ++ dec_nat p) (atomic_text p op)) OPS)
      PRECISIONS = true) by (vm_compute; reflexivity).
    apply Forall_forall. intros p Hp%list_elem_of_In. rewrite forallb_forall in Hall. specialize (Hall p Hp).
    apply andb_true_iff in Hall as [Hall H4]. apply andb_true_iff in Hall as [Hall H3].
    apply andb_true_iff in Hall as [H1 H2]. rewrite forallb_forall in H3, H4. split_and!; [done|done| |].
    + intros q Hq%list_elem_of_In Hne. specialize (H3 q Hq). apply orb_true_iff in H3 as [E|E].
      * by apply Nat.eqb_eq in E.
      * by apply negb_true_iff in E.
    + apply Forall_forall. intros op Hop%list_elem_of_In. by apply H4.
Qed.
