(* ===== verification/HeapPlots.v ===== *)
(** * Heap plots (malloc-exp/plot-histogram.py, malloc-exp/plot-timeseries.py)

    The first script reads histograms of allocation sizes and computes their
    cumulative distributions; the second reads the allocator's reports of a run
    and computes the curves of its figure.  Drawing is outside the model: a
    figure is the list of the curves handed to matplotlib. *)
From S2P Require Import Prelude PyStr Regex Paths PyFloat Trace PerfLog.

(** ** Histograms *)

Definition histogram := dict Z Z.

(** [l[:-1]] and [l[1:-2]]. *)
Definition but_last {A} (l : list A) : list A := take (length l - 1) l.

Definition parse_pair (histo : histogram) (pair : str) : res histogram :=
  match split_str pair ":" with
  | [a; b] => size ← py_int a; count ← py_int b;
              Ok (if (0 <? count)%Z then dict_set size count histo else histo)
  | _ => Raise ValueError
  end.

Definition parse_one_histogram (line : str) : res histogram :=
  c ← of_option IndexError (head line);
  _ ← py_assert (bool_decide (c = "{"%char));
  _ ← py_assert (bool_decide (drop (length line - 2) line = "}" ++ [nl]));
  let line := drop 1 (take (length line - 2) line) in
  for_each parse_pair (but_last (split_str line ",")) [].

(** The running totals of [cdf], and the division by the last one. *)
Fixpoint running_totals (weight : Z -> Z) (accum : Z) (sizes : list Z) : list Z :=
  match sizes with
  | [] => []
  | s :: sizes' => let accum := (accum + weight s)%Z in accum :: running_totals weight accum sizes'
  end.

Definition weight_of (histo : histogram) (by_size : bool) (size : Z) : Z :=
  let count := default 0%Z (dict_get histo size) in
  if by_size then (count * size)%Z else count.

Definition cdf (histo : histogram) (by_size : bool) : res (list Z * list float) :=
  let sizes := sort_by Z.ltb (dict_keys histo) in
  let ys := running_totals (weight_of histo by_size) 0 sizes in
  let accum := List.last ys 0%Z in
  ys ← map_res (fun y => fy ← int_to_float y; fa ← int_to_float accum; fdiv fy fa) ys;
  Ok (sizes, ys).

(** The loop of [parse]: the reports are numbered, and a histogram belongs to
    the number of the next report. *)
Record histo_state := HistoState {
  hs_t : Z; proc_heap : dict Z Z; malloc_total : dict Z Z; histos : dict Z histogram
}.

Definition histo_line (st : histo_state) (line : str) : res histo_state :=
  st ← (if startswith line "proc-heap" then
          let fs := fields line in
          a ← int_field fs 1; b ← int_field fs 3;
          Ok (HistoState (hs_t st + 1) (dict_set (hs_t st) a (proc_heap st))
                (dict_set (hs_t st) b (malloc_total st)) (histos st))
        else Ok st);
  if startswith line "{" then
    h ← parse_one_histogram line;
    Ok (HistoState (hs_t st) (proc_heap st) (malloc_total st) (dict_set (hs_t st) h (histos st)))
  else Ok st.

(** [max(keys)]. *)
Definition max_key {V} (d : dict Z V) : res Z :=
  match dict_keys d with [] => Raise ValueError | k :: ks => Ok (fold_left Z.max ks k) end.

(** The two curves drawn: by size, by allocation count. *)
Definition histogram_curves (contents : str) : res ((list Z * list float) * (list Z * list float)) :=
  st ← for_each histo_line (readlines contents) (HistoState 0 [] [] []);
  t ← max_key (histos st);
  h ← of_option KeyError (dict_get (histos st) t);
  by_size ← cdf h true;
  by_count ← cdf h false;
  Ok (by_size, by_count).

(** ** Time series *)

Record series_state := SeriesState {
  ss_t : Z;
  ss_os_map_total : dict Z Z; ss_os_map_heap : dict Z Z;
  ss_first_op : option Z; ss_ops_completed : dict Z Z;
  ss_scopes : dict str (dict Z ARow); ss_microscopes : dict str (dict Z ARow);
  ss_underlying : dict Z Z; ss_underlying_count : dict Z Z
}.
Definition series_start : series_state := SeriesState 0 [] [] None [] [] [] [] [].

Definition add_row (label : str) (t : Z) (row : ARow) (d : dict str (dict Z ARow)) : dict str (dict Z ARow) :=
  dict_set label (dict_set t row (default [] (dict_get d label))) d.

Definition series_os_map (line : str) (st : series_state) : res series_state :=
  if startswith line "os-map-total" then
    a ← int_field (fields line) 1; b ← int_field (fields line) 3;
    Ok (SeriesState (ss_t st + 1) (dict_set (ss_t st) a (ss_os_map_total st)) (dict_set (ss_t st) b (ss_os_map_heap st))
          (ss_first_op st) (ss_ops_completed st) (ss_scopes st) (ss_microscopes st) (ss_underlying st) (ss_underlying_count st))
  else Ok st.

Definition on_sync (line : str) (st : series_state) : res series_state :=
  if startswith line "veribetrkv [op] sync" then
    let first := match ss_first_op st with None => Some (ss_t st - 2)%Z | o => o end in
    n ← int_field (fields line) 4;
    Ok (SeriesState (ss_t st) (ss_os_map_total st) (ss_os_map_heap st) first (dict_set (ss_t st) n (ss_ops_completed st))
          (ss_scopes st) (ss_microscopes st) (ss_underlying st) (ss_underlying_count st))
  else Ok st.

(** plot-timeseries.py has its own copy of the reading of allocation rows, the
    same as in plot/parser.py. *)
Definition series_ARow : str -> str -> str -> str -> res ARow := ARow_init.
Definition series_parse_arow : str -> res ARow := parse_arow.
Definition series_match_arow_line : str -> str -> res (option (ARow * str)) := match_arow_line.

Definition on_scope (line : str) (st : series_state) : res series_state :=
  mo ← series_match_arow_line "ma-scope" line;
  match mo with
  | Some (row, label) =>
      Ok (SeriesState (ss_t st) (ss_os_map_total st) (ss_os_map_heap st) (ss_first_op st) (ss_ops_completed st)
            (add_row label (ss_t st) row (ss_scopes st)) (ss_microscopes st) (ss_underlying st) (ss_underlying_count st))
  | None => Ok st
  end.

Definition series_microscope (line : str) (st : series_state) : res series_state :=
  mo ← series_match_arow_line "ma-microscope" line;
  match mo with
  | Some (row, label) =>
      label ← of_option IndexError (last (fields label));
      Ok (SeriesState (ss_t st) (ss_os_map_total st) (ss_os_map_heap st) (ss_first_op st) (ss_ops_completed st)
            (ss_scopes st) (add_row label (ss_t st) row (ss_microscopes st)) (ss_underlying st) (ss_underlying_count st))
  | None => Ok st
  end.

Definition on_report (line : str) (st : series_state) : res series_state :=
  if startswith line "allocationreport stop underyling_count" then
    a ← int_field (fields line) 3; b ← int_field (fields line) 5;
    Ok (SeriesState (ss_t st) (ss_os_map_total st) (ss_os_map_heap st) (ss_first_op st) (ss_ops_completed st)
          (ss_scopes st) (ss_microscopes st) (dict_set (ss_t st) b (ss_underlying st)) (dict_set (ss_t st) a (ss_underlying_count st)))
  else Ok st.

Definition series_line (st : series_state) (line : str) : res series_state :=
  let line := strip line in
  st ← series_os_map line st; st ← on_sync line st; st ← on_scope line st;
  st ← series_microscope line st; on_report line st.

(** A curve: the axis it is drawn on, its label, its two columns.  The third
    axis has a twin.  Counts are drawn as integers, amounts as floats. *)
Inductive axis := Axis (i : nat) | Twin2.
Inductive column_of := Counts (l : list Z) | Amounts (l : list float).
Record curve := Curve { c_axis : axis; c_label : str; c_xs : list Z; c_ys : column_of }.

Definition KILO : float := float_of_Z 1000.
Definition GB : float := float_of_Z (2 ^ 30).

Definition get {V} (d : dict Z V) (t : Z) : res V := of_option KeyError (dict_get d t).
Definition get_label {V} (d : dict str V) (label : str) : res V := of_option KeyError (dict_get d label).

(** [n / GB]. *)
Definition in_GB (n : Z) : res float := x ← int_to_float n; fdiv x GB.

Definition column {V} (f : V -> res float) (d : dict Z V) (ts : list Z) : res (list float) :=
  map_res (fun t => v ← get d t; f v) ts.
Definition counts {V} (f : V -> Z) (d : dict Z V) (ts : list Z) : res (list Z) :=
  map_res (fun t => v ← get d t; Ok (f v)) ts.

(** [smoothedThroughput]. *)
Definition smoothedThroughput (ops : dict Z Z) (window : Z) : res curve :=
  let ts := List.filter (fun t => (0 <? t) && (window <=? t))%Z (dict_keys ops) in
  ys ← map_res (fun t => a ← get ops t; b ← get ops (t - window)%Z;
                         d ← int_to_float (a - b); w ← int_to_float window;
                         x ← fdiv d w; fdiv x KILO) ts;
  Ok (Curve (Axis 0) [] ts (Amounts ys)).

(** [aggregateAt]: nothing beyond the last time, else the mean rate. *)
Definition aggregateAt (ops : dict Z Z) (time : Z) : res (option (Z * float)) :=
  let ts := dict_keys ops in
  lst ← of_option IndexError (last ts);
  fst_t ← of_option IndexError (head ts);
  if (lst <? time)%Z then Ok None
  else a ← get ops time; b ← get ops fst_t;
       d ← int_to_float (a - b); w ← int_to_float (time - fst_t);
       x ← fdiv d w; y ← fdiv x KILO; Ok (Some (time, y)).

(** One layer of the stack: [item[t].open_byte + prev[i]], divided by GB.  In
    the first layer [prev] is the integer zero. *)
Definition first_layer (item : dict Z ARow) (ts : list Z) : res (list float) :=
  column (fun r => in_GB (open_byte r + 0)) item ts.
Definition next_layer (item : dict Z ARow) (ts : list Z) (prev : list float) : res (list float) :=
  map_res (fun '(t, p) => r ← get item t; b ← int_to_float (open_byte r); fdiv (fadd b p) GB) (combine ts prev).

Definition IN_AMASS : str := "in_amass.[T = unsigned char]".

(** The throughput axis. *)
Definition throughput_curves (st : series_state) : res (list curve * list (Z * float)) :=
  let ops := ss_ops_completed st in
  c10 ← smoothedThroughput ops 10;
  c100 ← smoothedThroughput ops 100;
  lst ← of_option IndexError (last (dict_keys ops));
  m1 ← aggregateAt ops lst;
  m2 ← aggregateAt ops 1000;
  Ok ([c10; c100], omap id [m1; m2]).

Definition allocation_curves (st : series_state) : res (list curve) :=
  let micro := ss_microscopes st in
  total ← get_label micro "total";
  let ts := dict_keys total in
  y1 ← column (fun r => in_GB (open_byte r)) total ts;
  small ← get_label micro "coarse-small";
  y2 ← column (fun r => in_GB (open_byte r)) small ts;
  large ← get_label micro "coarse-large";
  y3 ← map_res (fun t => a ← get small t; b ← get large t; in_GB (open_byte a + open_byte b)) ts;
  let ts' := List.filter (fun t => bool_decide (t ∈ dict_keys (ss_os_map_total st))) ts in
  y4 ← column in_GB (ss_os_map_total st) ts';
  Ok [Curve (Axis 1) "malloc total" ts (Amounts y1); Curve (Axis 1) "malloc small" ts (Amounts y2);
      Curve (Axis 1) "malloc large" ts (Amounts y3); Curve (Axis 1) "OS mapping" ts' (Amounts y4)].

(** The third axis and its twin; the amass and page-in counts are taken at the
    times of the OS mapping of the second axis but drawn over those of the
    nodes. *)
Definition scope_curves (st : series_state) (os_times : list Z) : res (list curve) :=
  bytearys ← get_label (ss_scopes st) IN_AMASS;
  let xb := dict_keys bytearys in
  y1 ← column (fun r => in_GB (open_byte r)) bytearys xb;
  y2 ← counts open_count bytearys xb;
  nodes ← get_label (ss_scopes st) ".NodeImpl_Compile::Node";
  let xn := dict_keys nodes in
  y3 ← counts open_count nodes xn;
  amass ← get_label (ss_microscopes st) "sfaLarge";
  y4 ← counts open_count amass os_times;
  pagein ← get_label (ss_microscopes st) "esLarge";
  y5 ← counts open_count pagein os_times;
  Ok [Curve (Axis 2) "[byte] bytes" xb (Amounts y1); Curve Twin2 "[byte] count" xb (Counts y2);
      Curve Twin2 "Node count" xn (Counts y3); Curve Twin2 "amass count" xn (Counts y4); Curve Twin2 "pagein count" xn (Counts y5)].

(** The stack chart. *)
Definition stack_curves (st : series_state) : res (list curve) :=
  pagein ← get_label (ss_microscopes st) "esLarge";
  amass ← get_label (ss_microscopes st) "sfaLarge";
  in_amass ← get_label (ss_scopes st) IN_AMASS;
  let ts := dict_keys pagein in
  y1 ← first_layer pagein ts;
  y2 ← next_layer amass ts y1;
  y3 ← next_layer in_amass ts y2;
  total ← get_label (ss_microscopes st) "total";
  y4 ← column (fun r => in_GB (open_byte r)) total ts;
  Ok [Curve (Axis 3) "pagein" ts (Amounts y1); Curve (Axis 3) "amass" ts (Amounts y2); Curve (Axis 3) "in_amass" ts (Amounts y3);
      Curve (Axis 3) "malloc total" ts (Amounts y4)].

Definition underlying_curves (st : series_state) : res (list curve) :=
  in_amass ← get_label (ss_scopes st) IN_AMASS;
  let ts := dict_keys (ss_underlying st) in
  y1 ← column in_GB (ss_underlying st) ts;
  y2 ← column (fun r => in_GB (open_byte r)) in_amass ts;
  let tc := dict_keys (ss_underlying_count st) in
  y3 ← counts id (ss_underlying_count st) tc;
  y4 ← counts open_count in_amass tc;
  Ok [Curve (Axis 4) "underlying sum" ts (Amounts y1); Curve (Axis 4) "amass" ts (Amounts y2);
      Curve (Axis 5) "reachable underlying allocs" tc (Counts y3); Curve (Axis 5) "amass live alloc count" tc (Counts y4)].

(** The helper [cdf] of [parse], which nothing calls: the values in order and the
    share of the total up to each. *)
Fixpoint sums_from (acc : Z) (l : list Z) : list Z :=
  match l with [] => [] | v :: l' => (acc + v)%Z :: sums_from (acc + v) l' end.
Definition series_cdf (data : list Z) : res (list Z * list float) :=
  let vals := sort_by Z.ltb data in
  let sums := sums_from 0 vals in
  total ← of_option IndexError (last sums);
  ys ← map_res (fun s => fdiv (float_of_Z s) (float_of_Z total)) sums;
  Ok (vals, ys).

(** The whole script: the end of the time axis, the marks, the curves. *)
Definition timeseries (contents : str) : res (Z * list (Z * float) * list curve) :=
  st ← for_each series_line (readlines contents) series_start;
  t_end ← max_key (ss_os_map_total st);
  '(c0, marks) ← throughput_curves st;
  c1 ← allocation_curves st;
  let os_times := match c1 with [_; _; _; c] => c_xs c | _ => [] end in
  c2 ← scope_curves st os_times;
  c3 ← stack_curves st;
  c4 ← underlying_curves st;
  Ok (t_end, marks, c0 ++ c1 ++ c2 ++ c3 ++ c4).

(** ** Reading a histogram back

    The allocator prints the buckets of a histogram in the order of their sizes,
    each followed by a comma (FineHistogram::display in
    framework/MallocAccounting.cpp); buckets may be empty. *)

Definition bucket_text (b : N * N) : str := dec_N b.1 ++ ":" ++ dec_N b.2.
Definition histogram_text (bs : list (N * N)) : str :=
  "{" ++ concat (map (fun b => bucket_text b ++ ",") bs) ++ "}" ++ [nl].

(** The buckets that hold something. *)
Definition buckets (bs : list (N * N)) : histogram :=
  map (fun '(s, c) => (Z.of_N s, Z.of_N c)) (List.filter (fun b => 0 <? b.2)%N bs).

Lemma dec_N_no_char c n : is_digit c = false -> c ∉ dec_N n.
Proof.
  intros Hc Hin. destruct (dec_N_digits n) as [H _]. rewrite Forall_forall in H.
  by rewrite (H c Hin) in Hc.
Qed.

Lemma split_from_terminated x p rest cur :
  x ∉ p -> split_from [x] 0 cur (p ++ x :: rest) = (rev cur ++ p) :: split_from [x] 0 [] rest.
Proof.
  revert cur. induction p as [|c p IH]; intros cur Hp; cbn [app split_from prefixb].
  - rewrite bool_decide_eq_true_2 by done. cbn [andb length pred]. by rewrite app_nil_r.
  - apply not_elem_of_cons in Hp as [Hc Hp]. rewrite bool_decide_eq_false_2 by done. cbn [andb].
    rewrite IH by done. cbn. by rewrite <- app_assoc.
Qed.

Lemma split_str_terminated x ps :
  Forall (fun p => x ∉ p) ps -> split_str (concat (map (fun p => p ++ [x]) ps)) [x] = ps ++ [[]].
Proof.
  unfold split_str. induction 1 as [|p ps Hp Hps IH]; [done|]. cbn [map concat].
  rewrite <- app_assoc. cbn [app]. rewrite split_from_terminated by done. by rewrite IH.
Qed.

Lemma bucket_no_comma b : ","%char ∉ bucket_text b.
Proof.
  unfold bucket_text. rewrite !not_elem_of_app. split_and!; try by apply dec_N_no_char.
  apply (bool_decide_unpack _). vm_compute. exact I.
Qed.

Lemma parse_bucket h b :
  parse_pair h (bucket_text b) = Ok (if (0 <? b.2)%N then dict_set (Z.of_N b.1) (Z.of_N b.2) h else h).
Proof.
  unfold parse_pair, bucket_text. change (# ":") with (":"%char :: []).
  rewrite split_str_pair by by apply dec_N_no_char.
  rewrite !py_int_dec_N, !bind_of_Ok. do 2 f_equal.
  destruct (N.ltb_spec 0 b.2), (Z.ltb_spec 0 (Z.of_N b.2)); try done; lia.
Qed.

Lemma parse_buckets bs h :
  NoDup (dict_keys h ++ map (fun b => Z.of_N b.1) bs) ->
  for_each parse_pair (map bucket_text bs) h = Ok (h ++ buckets bs).
Proof.
  revert h. induction bs as [|[s c] bs IH]; intros h Hnd; cbn [map for_each]; [by rewrite app_nil_r|].
  rewrite parse_bucket, bind_of_Ok. unfold buckets. cbn [List.filter fst snd map] in *.
  apply NoDup_app in Hnd as (Hh & Hdis & Hbs). apply NoDup_cons in Hbs as [Hs Hbs].
  assert (Hn : Z.of_N s ∉ dict_keys h) by (intros Hin; destruct (Hdis _ Hin); apply list_elem_of_here).
  destruct (0 <? c)%N.
  - rewrite IH.
    + unfold buckets. cbn [map]. rewrite (dict_set_new h) by done. by rewrite <- app_assoc.
    + rewrite dict_set_new by done. unfold dict_keys. rewrite map_app, <- app_assoc. cbn [map fst app].
      apply NoDup_app. split_and!; [done| |by constructor].
      intros k Hk Hk'. destruct (Hdis k Hk). done.
  - apply IH. apply NoDup_app. split_and!; [done| |done]. intros k Hk Hk'. destruct (Hdis k Hk). by right.
Qed.

(** A histogram printed by the allocator as ["{size:count,...}"] is read
    back as its buckets, in order, less the empty ones, whatever the number of
    buckets (none included). *)
Theorem histogram_read_back (bs : list (N * N)) :
  NoDup (map fst bs) -> parse_one_histogram (histogram_text bs) = Ok (buckets bs).
Proof.
  intros Hnd. unfold parse_one_histogram, histogram_text.
  set (body := concat (map (fun b => bucket_text b ++ ",") bs)).
  change (# "{" ++ body ++ # "}" ++ [nl]) with ("{"%char :: body ++ ["}"%char; nl]).
  cbn [head of_option]. rewrite bind_of_Ok, (bool_decide_eq_true_2 ("{"%char = "{"%char)) by done.
  cbn [py_assert]. rewrite bind_of_Ok.
  assert (Hlen : length ("{"%char :: body ++ ["}"%char; nl]) - 2 = S (length body))
    by (cbn [length]; rewrite length_app; cbn [length app]; lia).
  rewrite Hlen. cbn [drop take].
  rewrite drop_app_length, bool_decide_eq_true_2 by done. cbn [py_assert]. rewrite bind_of_Ok, take_app_length.
  assert (Hsplit : split_str body "," = map bucket_text bs ++ [[]]).
  { unfold body. rewrite <- (map_map bucket_text (fun p => p ++ ",")). apply split_str_terminated.
    apply Forall_fmap, Forall_true. intros b. apply bucket_no_comma. }
  rewrite drop_0, Hsplit. unfold but_last. rewrite length_app. cbn [length]. rewrite Nat.add_sub, take_app_length.
  rewrite parse_buckets; [done|]. cbn [dict_keys map app].
  rewrite <- (map_map fst Z.of_N). apply (NoDup_fmap_2 Z.of_N), Hnd.
Qed.

Lemma histogram_read_back_witness :
  NoDup (map fst [(8, 3); (16, 0); (4096, 12)]%N) /\
  parse_one_histogram ("{8:3,16:0,4096:12,}" ++ [nl]) = Ok [(8, 3); (4096, 12)]%Z.
Proof.
  assert (H : NoDup (map fst [(8, 3); (16, 0); (4096, 12)]%N)).
  { apply (bool_decide_unpack _). vm_compute. exact I. }
  split; [exact H|]. exact (histogram_read_back [(8, 3); (16, 0); (4096, 12)]%N H).
Defined.

(** ** The cumulative distribution *)

(** The weight of the sizes of a list, and of those up to a bound. *)
Definition mass (w : Z -> Z) (sizes : list Z) : Z := foldr (fun s acc => w s + acc)%Z 0%Z sizes.
Definition mass_upto (w : Z -> Z) (sizes : list Z) (x : Z) : Z :=
  mass w (List.filter (fun s => s <=? x)%Z sizes).

Lemma mass_cons w s l : mass w (s :: l) = (w s + mass w l)%Z.
Proof. done. Qed.

#[export] Instance mass_Permutation w : Proper ((≡ₚ) ==> eq) (mass w).
Proof. induction 1; rewrite ?mass_cons; lia. Qed.

#[export] Instance mass_upto_Permutation w : Proper ((≡ₚ) ==> eq ==> eq) (mass_upto w).
Proof. intros l1 l2 Hl x ? <-. unfold mass_upto. by rewrite (filter_Permutation_bool _ l1 l2 Hl). Qed.

Lemma mass_upto_none w x sizes : Forall (Z.lt x) sizes -> mass_upto w sizes x = 0%Z.
Proof.
  unfold mass_upto. induction 1 as [|s l Hs Hl IH]; cbn [List.filter]; [done|].
  by destruct (Z.leb_spec s x); [lia|].
Qed.

(** The running totals are the weights up to each size. *)
Lemma running_totals_mass w sizes acc :
  StronglySorted Z.lt sizes ->
  running_totals w acc sizes = map (fun x => acc + mass_upto w sizes x)%Z sizes.
Proof.
  intros Hs. revert acc. induction Hs as [|s l Hs IH Hl]; intros acc; cbn [running_totals map]; [done|].
  assert (Hin : forall x, (s <= x)%Z -> mass_upto w (s :: l) x = (w s + mass_upto w l x)%Z).
  { intros x Hx. unfold mass_upto. cbn [List.filter]. by rewrite (proj2 (Z.leb_le s x)). }
  f_equal.
  - rewrite Hin, mass_upto_none by done. lia.
  - rewrite IH. apply map_ext_in. intros x Hx%list_elem_of_In. rewrite Forall_forall in Hl.
    rewrite Hin by (specialize (Hl x Hx); lia). lia.
Qed.

Lemma mass_upto_all w x sizes : Forall (fun s => s <= x)%Z sizes -> mass_upto w sizes x = mass w sizes.
Proof.
  unfold mass_upto. induction 1 as [|s l Hs Hl IH]; cbn [List.filter]; [done|].
  rewrite (proj2 (Z.leb_le s x)) by done. cbn [mass foldr]. f_equal. exact IH.
Qed.

Lemma last_cons_default {A} (l : list A) x d : List.last (x :: l) d = List.last l x.
Proof.
  revert x d. induction l as [|y l IH]; intros x d; [done|].
  change (List.last (y :: l) d = List.last (y :: l) x). by rewrite !IH.
Qed.

Lemma running_totals_total w acc sizes : List.last (running_totals w acc sizes) acc = (acc + mass w sizes)%Z.
Proof.
  revert acc. induction sizes as [|s l IH]; intros acc; cbn [running_totals]; [cbn; lia|].
  rewrite mass_cons, last_cons_default, IH. lia.
Qed.

Lemma sorted_sizes (histo : histogram) :
  NoDup (dict_keys histo) -> StronglySorted Z.lt (sort_by Z.ltb (dict_keys histo)).
Proof.
  intros Hnd. rewrite <- (sort_by_Permutation Z.ltb) in Hnd.
  pose proof (sort_by_sorted Z.ltb (dict_keys histo)) as Hs.
  induction Hs as [|s l Hs IH Hl]; [constructor|]. apply NoDup_cons in Hnd as [Hn Hnd].
  constructor; [by apply IH|]. rewrite Forall_forall in *. intros x Hx. specialize (Hl x Hx).
  apply Z.ltb_ge in Hl. assert (s <> x) by (intros ->; done). lia.
Qed.

(** [y / float(accum)]. *)
Definition share (a total : Z) : res float := fa ← int_to_float a; ft ← int_to_float total; fdiv fa ft.

Lemma small_int_to_float z : (0 <= z < 2 ^ fprec)%Z -> int_to_float z = Ok (float_of_Z z).
Proof.
  intros [H0 Hz]. unfold int_to_float. destruct z as [|p|p]; [done| |lia].
  by destruct (float_of_small_int p Hz) as (m & e & -> & _).
Qed.

Lemma share_Ok a total :
  (0 <= a <= total)%Z -> (0 < total < 2 ^ fprec)%Z ->
  share a total = Ok (SFdiv fprec femax (float_of_Z a) (float_of_Z total)).
Proof.
  intros Ha Ht. unfold share. rewrite !small_int_to_float, !bind_of_Ok by lia.
  apply fdiv_Ok, float_of_small_nonzero. lia.
Qed.

Lemma mass_upto_bounds w sizes x :
  Forall (fun k => 0 <= w k)%Z sizes -> (0 <= mass_upto w sizes x <= mass w sizes)%Z.
Proof.
  unfold mass_upto. induction 1 as [|s l Hs Hl IH]; cbn [List.filter]; [done|].
  destruct (s <=? x)%Z; rewrite ?mass_cons; lia.
Qed.

(** The cumulative distribution of a histogram has as abscissae its sizes,
    each once and increasing; the ordinate of a size is the weight (allocations,
    or bytes) of the sizes up to it, divided by the whole weight.  A weight
    below 2^53 always gives a curve, except that a histogram which weighs
    nothing and is not empty divides by zero. *)
Theorem cdf_distribution (histo : histogram) by_size :
  let w := weight_of histo by_size in
  let total := mass w (dict_keys histo) in
  NoDup (dict_keys histo) -> Forall (fun k => 0 <= w k)%Z (dict_keys histo) -> (total < 2 ^ fprec)%Z ->
  if bool_decide (total = 0%Z /\ histo <> []) then cdf histo by_size = Raise ZeroDivisionError
  else exists xs ys, cdf histo by_size = Ok (xs, ys) /\ StronglySorted Z.lt xs /\ xs ≡ₚ dict_keys histo /\
         Forall2 (fun x y => share (mass_upto w (dict_keys histo) x) total = Ok y) xs ys.
Proof.
  intros w total Hnd Hw Ht. pose proof (sorted_sizes histo Hnd) as Hs.
  pose proof (sort_by_Permutation Z.ltb (dict_keys histo)) as Hp.
  assert (Hcdf : cdf histo by_size =
            ys ← map_res (fun x => share (mass_upto w (dict_keys histo) x) total) (sort_by Z.ltb (dict_keys histo));
            Ok (sort_by Z.ltb (dict_keys histo), ys)).
  { assert (Hm : mass w (sort_by Z.ltb (dict_keys histo)) = total) by by rewrite Hp.
    unfold cdf. fold w. rewrite running_totals_total, running_totals_mass, map_res_map, Hm by done.
    f_equal. apply map_res_ext. intros x _. by rewrite Hp. }
  pose proof (mass_upto_bounds w (dict_keys histo)) as Hb. rewrite Hcdf. clear Hcdf.
  revert Hs Hp. generalize (sort_by Z.ltb (dict_keys histo)). intros xs Hs Hp.
  assert (Hall : forall x, (0 <= mass_upto w (dict_keys histo) x <= total)%Z) by (intros x; by apply Hb).
  assert (Hnil : xs = [] <-> histo = []).
  { split; intros ->; [apply Permutation_nil_l in Hp; by destruct histo|by apply Permutation_nil_r in Hp]. }
  case_bool_decide as Hz.
  - destruct Hz as [Hz Hne]. destruct xs as [|x xs]; [by destruct Hne; apply Hnil|].
    cbn [map_res]. unfold share. rewrite !small_int_to_float by (specialize (Hall x); unfold fprec; lia).
    by rewrite Hz.
  - assert (Hok : map_res (fun x => share (mass_upto w (dict_keys histo) x) total) xs =
                   Ok (map (fun x => SFdiv fprec femax (float_of_Z (mass_upto w (dict_keys histo) x)) (float_of_Z total)) xs)).
    { rewrite <- map_res_pure. apply map_res_ext.
      intros x Hx. apply share_Ok; [done|]. specialize (Hall 0%Z).
      assert (total <> 0%Z); [|lia]. intros H. apply Hz. split; [done|].
      intros Hh. apply Hnil in Hh as ->. by apply not_elem_of_nil in Hx. }
    rewrite Hok, bind_of_Ok. eexists _, _. split_and!; [done..|]. by apply map_res_Forall2.
Qed.

Lemma cdf_distribution_witness :
  cdf [(0, 5)]%Z true = Raise ZeroDivisionError /\
  exists xs ys, cdf [(4096, 1); (8, 3)]%Z false = Ok (xs, ys) /\ StronglySorted Z.lt xs /\ xs ≡ₚ [4096; 8]%Z /\
    Forall2 (fun x y => share (mass_upto (weight_of [(4096, 1); (8, 3)] false) [4096; 8] x) 4 = Ok y)%Z xs ys.
Proof.
  assert (H : forall l : list Z, bool_decide (NoDup l) = true -> NoDup l) by (intros l Hl; by eapply bool_decide_eq_true_1).
  split.
  - refine (cdf_distribution [(0, 5)]%Z true (H [0%Z] eq_refl) _ _); [|done]. repeat constructor; done.
  - refine (cdf_distribution [(4096, 1); (8, 3)]%Z false (H [4096; 8]%Z eq_refl) _ _); [|done]. repeat constructor; done.
Defined.

(** ** The layers of the stack chart

    A layer after the first adds what is already in gigabytes to bytes: with one
    gibibyte in each of three layers, the curves are all at about one. *)

Example layers_do_not_stack :
  let row := ARowOf 1 1 (2 ^ 30) (2 ^ 30) in
  exists y2 y3,
    first_layer [(0%Z, row)] [0%Z] = Ok [float_of_Z 1] /\
    next_layer [(0%Z, row)] [0%Z] [float_of_Z 1] = Ok [y2] /\
    next_layer [(0%Z, row)] [0%Z] [y2] = Ok [y3] /\
    forallb (fun y => fltb y (float_of_dec 1000001 (-6))) [y2; y3] = true.
Proof. do 2 eexists. split_and!; reflexivity. Qed.
