(* ===== verification/Tladfy.v ===== *)
(** * State machine notation (examples/tladafny-log/tladfy.py)

    The script parses a Dafny file extended with [state machine], [init] and
    [step] lines, rewrites the parse tree in place and prints its text.  The
    parser is the parsy package: its trees are the data of this file, and the
    parse of a parameter list is an argument of the definitions. *)
From S2P Require Import Prelude PyStr.

(** ** Parse trees

    [mark().tag(name)] gives a pair of the name and the triple of start, value
    and end; a value is a text or a list.  Sequences without a tag are plain
    lists.  Nodes made by the script may have no positions. *)

Definition position : Type := option (nat * nat).

Inductive elem :=
  | Items (l : list elem)
  | Text (name : str) (start : position) (inner : str) (stop : position)
  | Group (name : str) (start : position) (inner : list elem) (stop : position).

Fixpoint emit_elem (text : str) (e : elem) : str :=
  match e with
  | Items l => fold_left emit_elem l text
  | Text _ _ s _ => text ++ s
  | Group _ _ l _ => fold_left emit_elem l text
  end.
Definition emit (text : str) (contents : list elem) : str := fold_left emit_elem contents text.

(** ** Editing a list in place *)

Definition pop (i : nat) (l : list elem) : res (elem * list elem) :=
  x ← nth_res l i; Ok (x, delete i l).
Definition insert_at (i : nat) (x : elem) (l : list elem) : list elem := take i l ++ x :: drop i l.

(** [n] times [inner.pop(i)]. *)
Fixpoint pops (n i : nat) (l : list elem) : res (list elem) :=
  match n with O => Ok l | S n' => '(_, l) ← pop i l; pops n' i l end.

(** Unpacking [(name, (start, value, end))], and the text of a tagged node; the
    grammar puts no plain list where the script unpacks one, and no list where
    it takes a text. *)
Definition marks (e : elem) : res (position * position) :=
  match e with Items _ => Raise ValueError | Text _ s _ e' => Ok (s, e') | Group _ s _ e' => Ok (s, e') end.
Definition text_of (e : elem) : res str :=
  match e with Text _ _ s _ => Ok s | _ => Raise TypeError end.

(** [(_, (start, _, end)) = inner.pop(i); inner.insert(i, ('tladfy', (start, code, end)))]. *)
Definition replace_at (i : nat) (code : str) (l : list elem) : res (list elem) :=
  '(x, l) ← pop i l; '(s, e) ← marks x; Ok (insert_at i (Text "tladfy" s code e) l).

(** ** The walk *)

Record walked := Walked {
  has_state_machine : bool; state_machine_indent : option elem;
  collected_steps : list (str * str); machine_step_params : str
}.
Definition walk_start (params : str) : walked := Walked false None [] params.

Definition machine_line (inner : list elem) (w : walked) : res (list elem * walked) :=
  indent ← nth_res inner 0;
  inner ← pops 4 1 inner;
  inner ← replace_at 1 "datatype Constants = Constants" inner;
  '(_, inner) ← pop 6 inner;
  inner ← replace_at 7 "datatype Variables = Variables" (insert_at 6 indent inner);
  inner ← pops 4 12 inner;
  '(p, inner) ← pop 12 inner;
  params ← text_of p;
  '(_, inner) ← pop 12 inner;
  Ok (inner, Walked true (Some indent) (collected_steps w) params).

Definition init_line (inner : list elem) (w : walked) : res (list elem * walked) :=
  inner ← replace_at 1 "predicate Init(k: Constants, s: Variables)" inner; Ok (inner, w).

(** [(', ' if s.strip() != '' else '')]. *)
Definition comma_unless_blank (s : str) : str := match strip s with [] => [] | _ => ", " end.

Definition step_line (inner : list elem) (w : walked) : res (list elem * walked) :=
  inner ← replace_at 1 "predicate" inner;
  '(p, inner) ← pop 6 inner;
  '(s, e) ← marks p;
  params ← text_of p;
  let msp := machine_step_params w in
  let code := "k: Constants, s: Variables, s': Variables" ++ comma_unless_blank msp ++ msp ++
              comma_unless_blank params ++ params in
  let inner := insert_at 6 (Text "tladfy" s code e) inner in
  ident ← nth_res inner 3;
  name ← text_of ident;
  Ok (inner, Walked (has_state_machine w) (state_machine_indent w)
               (collected_steps w ++ [(name, params)]) msp).

Definition rewrite_line (name : str) (inner : list elem) (w : walked) : res (list elem * walked) :=
  if bool_decide (name = "tla.statemachine") then machine_line inner w
  else if bool_decide (name = "tla.init") then init_line inner w
  else if bool_decide (name = "tla.step") then step_line inner w
  else Ok (inner, w).

Section walk.
(** The names of the arguments [formal_args.parse] finds in a parameter list. *)
Context (formal_args : str -> res (list str)).

(** The names, in order, separated by commas. *)
Definition arg_names (params : str) : res str :=
  names ← formal_args params; Ok (join ", " names).

Definition step_constructor (indent_str : str) (step : str * str) : str :=
  indent_str ++ "  | " ++ fst step ++ "Step(" ++ snd step ++ ")".

Definition datatype_decl (indent_str : str) (steps : list (str * str)) : str :=
  [nl] ++ indent_str ++ "datatype Step =" ++ [nl] ++
  join [nl] (map (step_constructor indent_str) steps) ++ [nl; nl].

Definition step_case (indent_str machine_step_args : str) (step : (str * str) * str) : str :=
  let '((ident, _), pnames) := step in
  indent_str ++ "    case " ++ ident ++ "Step(" ++ pnames ++ ") => " ++ ident ++ "(k, s, s'" ++
  comma_unless_blank machine_step_args ++ machine_step_args ++ comma_unless_blank pnames ++ pnames ++ ")".

Definition nextstep (indent_str params machine_step_args : str) (steps : list ((str * str) * str)) : str :=
  indent_str ++ "predicate NextStep(k: Constants, s: Variables, s': Variables" ++
    comma_unless_blank params ++ params ++ ", step: Step)" ++ [nl] ++
  indent_str ++ "{" ++ [nl] ++
  indent_str ++ "  match step {" ++ [nl] ++
  join [nl] (map (step_case indent_str machine_step_args) steps) ++ [nl] ++
  indent_str ++ "  }" ++ [nl] ++
  indent_str ++ "}" ++ [nl].

Definition predicate_next (indent_str params machine_step_args : str) : str :=
  indent_str ++ "predicate Next(k: Constants, s: Variables, s': Variables" ++
    comma_unless_blank params ++ params ++ ")" ++ [nl] ++
  indent_str ++ "{" ++ [nl] ++
  indent_str ++ "  exists step :: NextStep(k, s, s'" ++ comma_unless_blank machine_step_args ++ machine_step_args ++
    ", step)" ++ [nl] ++
  indent_str ++ "}" ++ [nl].

(** What is appended to the contents of a block with a state machine. *)
Definition declarations (w : walked) : res elem :=
  indent ← of_option TypeError (state_machine_indent w);
  indent_text ← text_of indent;
  let indent_str := replace indent_text [nl] "" in
  param_names ← map_res (fun '(_, params) => arg_names params) (collected_steps w);
  machine_step_args ← arg_names (machine_step_params w);
  let generated s := Text "tladfy" None s None in
  Ok (Group "tladfy" None
        [generated (datatype_decl indent_str (collected_steps w));
         generated (nextstep indent_str (machine_step_params w) machine_step_args
                      (combine (collected_steps w) param_names));
         generated (predicate_next indent_str (machine_step_params w) machine_step_args);
         generated [nl]] None).

(** What a nested list adds to the results so far. *)
Definition merge (w e : walked) : walked :=
  Walked (has_state_machine w || has_state_machine e)
    (match state_machine_indent w with None => state_machine_indent e | i => i end)
    (collected_steps w ++ collected_steps e)
    (match machine_step_params w with [] => machine_step_params e | p => p end).

Definition clear_params (w : walked) : walked :=
  Walked (has_state_machine w) (state_machine_indent w) (collected_steps w) [].

(** One element: the tree rewritten, and the results.  [rec] is the recursive
    call. *)
Definition walk_elem (rec : list elem -> str -> res (list elem * walked)) (e : elem) (w : walked)
  : res (elem * walked) :=
  match e with
  | Items l => '(l, ew) ← rec l (machine_step_params w); Ok (Items l, merge w ew)
  | Text name s t e' =>
      if bool_decide (name ∈ [ # "tla.statemachine"; # "tla.init"; # "tla.step"])
      then Raise AttributeError else Ok (e, w)
  | Group name s inner e' =>
      '(inner, w) ← rewrite_line name inner w;
      '(inner, iw) ← rec inner [];
      if has_state_machine iw then
        _ ← py_assert (bool_decide (name = "blockcontents"));
        d ← declarations iw;
        Ok (Group name s (inner ++ [d]) e', clear_params w)
      else Ok (Group name s inner e', w)
  end.

Fixpoint walk_list (rec : list elem -> str -> res (list elem * walked)) (contents : list elem) (w : walked)
  : res (list elem * walked) :=
  match contents with
  | [] => Ok ([], w)
  | e :: contents' =>
      '(e, w) ← walk_elem rec e w;
      '(contents', w) ← walk_list rec contents' w;
      Ok (e :: contents', w)
  end.

Fixpoint walk_fuel (fuel : nat) (contents : list elem) (params : str) : res (list elem * walked) :=
  match fuel with
  | O => Raise OutOfFuel
  | S f => walk_list (walk_fuel f) contents (walk_start params)
  end.

(** The height of a tree: what the recursion needs. *)
Fixpoint height (e : elem) : nat :=
  match e with
  | Items l => S (foldr (fun e n => Nat.max (height e) n) 0 l)
  | Text _ _ _ _ => 0
  | Group _ _ l _ => S (foldr (fun e n => Nat.max (height e) n) 0 l)
  end.
Definition heights (l : list elem) : nat := foldr (fun e n => Nat.max (height e) n) 0 l.

Definition walk (contents : list elem) (params : str) : res (list elem * walked) :=
  walk_fuel (S (heights contents)) contents params.

(** The script, from the parse tree of its input to the text printed. *)
Definition tladfy (parse_tree : list elem) : res str :=
  '(tree, _) ← walk parse_tree []; Ok (emit [] tree).
End walk.

(** ** The shape of the trees

    The lines of the notation are sequences of tagged texts: nine for a [step],
    three for an [init], twenty-three for a [state machine]; a block whose
    lines include a state machine is a blockcontents. *)

Definition tla_names : list str := [ # "tla.statemachine"; # "tla.init"; # "tla.step"].

Definition plain (e : elem) : bool :=
  match e with Text name _ _ _ => negb (bool_decide (name ∈ tla_names)) | _ => false end.
Definition tokens (n : nat) (l : list elem) : bool := (length l =? n) && forallb plain l.

(** A state machine in a list of lines, not in a block inside. *)
Fixpoint has_machine (e : elem) : bool :=
  match e with
  | Items l => existsb has_machine l
  | Text _ _ _ _ => false
  | Group name _ _ _ => bool_decide (name = "tla.statemachine")
  end.

(** A state machine line at any depth. *)
Fixpoint mentions_machine (e : elem) : bool :=
  match e with
  | Items l => existsb mentions_machine l
  | Text _ _ _ _ => false
  | Group name _ l _ => bool_decide (name = "tla.statemachine") || existsb mentions_machine l
  end.

Fixpoint well_shaped (e : elem) : bool :=
  match e with
  | Items l => forallb well_shaped l
  | Text _ _ _ _ => plain e
  | Group name _ l _ =>
      if bool_decide (name = "tla.statemachine") then tokens 23 l
      else if bool_decide (name = "tla.init") then tokens 3 l
      else if bool_decide (name = "tla.step") then tokens 9 l
      else forallb well_shaped l && (negb (existsb has_machine l) || bool_decide (name = "blockcontents"))
  end.

Lemma heights_cons e l : heights (e :: l) = Nat.max (height e) (heights l).
Proof. done. Qed.

Lemma height_Items l : height (Items l) = S (heights l).
Proof. done. Qed.

Lemma height_Group n s l e : height (Group n s l e) = S (heights l).
Proof. done. Qed.

Lemma plain_Text e : plain e = true -> exists n s t e', e = Text n s t e' /\ n ∉ tla_names.
Proof.
  destruct e as [l|n s t e'|n s l e']; try discriminate. cbn [plain].
  intros H. apply negb_true_iff, bool_decide_eq_false in H. eauto 6.
Qed.

(** Lists of plain texts are left as they are. *)
Lemma plain_list l :
  forallb plain l = true ->
  heights l = 0 /\ forallb well_shaped l = true /\ existsb has_machine l = false.
Proof.
  induction l as [|e l IH]; [done|]. cbn [forallb existsb].
  intros [He Hl]%andb_true_iff. destruct (IH Hl) as (H1 & H2 & H3).
  rewrite heights_cons, H1, H2, H3. apply plain_Text in He as (n & s & t & e' & -> & Hn).
  cbn. by rewrite (bool_decide_eq_false_2 _ Hn).
Qed.

(** A list of tokens, spelled out. *)
Ltac spell_tokens l H :=
  let Hl := fresh "Hlen" in let Hp := fresh "Hplain" in
  unfold tokens in H; apply andb_true_iff in H as [Hl Hp]; apply Nat.eqb_eq in Hl;
  repeat (destruct l as [|[?|? ? ? ?|? ? ? ?] l]; try discriminate Hl; try (exfalso; cbn in Hp; rewrite ?andb_false_r in Hp; discriminate Hp));
  try clear Hl.

Section shape.
Context (formal_args : str -> res (list str)).

(** A plain token passes through. *)
Lemma walk_elem_plain rec e w : plain e = true -> walk_elem formal_args rec e w = Ok (e, w).
Proof.
  intros (n & s & t & e' & -> & Hn)%plain_Text. cbn [walk_elem]. by rewrite bool_decide_eq_false_2.
Qed.

Lemma walk_plain f l params :
  forallb plain l = true -> walk_fuel formal_args (S f) l params = Ok (l, walk_start params).
Proof.
  intros H. cbn [walk_fuel]. generalize (walk_start params) as w. induction l as [|e l IH]; intros w; [done|].
  cbn [forallb] in H. apply andb_true_iff in H as [He Hl]. cbn [walk_list].
  by rewrite walk_elem_plain, bind_of_Ok, (IH Hl) by done.
Qed.
End shape.

(** ** The lines of the notation *)

Definition inner_text (e : elem) : str := match e with Text _ _ s _ => s | _ => [] end.
Definition token (l : list elem) (i : nat) : str := default [] (inner_text <$> l !! i).

Lemma emit_app text l1 l2 : emit text (l1 ++ l2) = emit (emit text l1) l2.
Proof. apply fold_left_app. Qed.

Lemma emit_plain text l : forallb plain l = true -> emit text l = text ++ concat (map inner_text l).
Proof.
  revert text. induction l as [|e l IH]; intros text H; [by rewrite app_nil_r|].
  cbn [forallb] in H. apply andb_true_iff in H as [He Hl]. apply plain_Text in He as (n & s & t & e' & -> & _).
  change (emit (text ++ t) l = text ++ t ++ concat (map inner_text l)). by rewrite (IH _ Hl), app_assoc.
Qed.

Ltac plain_parts Hplain :=
  revert Hplain; cbn -[tla_names bool_decide]; rewrite !andb_true_iff; intros; destruct_and?;
  split_and?; first [assumption | reflexivity].

Ltac emitted text Hplain :=
  let Hp := fresh "Hp" in
  match goal with |- forallb plain ?l' = true /\ _ =>
    assert (Hp : forallb plain l' = true) by plain_parts Hplain
  end;
  split; [exact Hp|]; rewrite emit_plain by exact Hp; unfold text; cbn [app]; f_equal.

Definition machine_text (l : list elem) : str :=
  concat [token l 0; # "datatype Constants = Constants"; token l 6; token l 7; token l 8; token l 9;
          token l 0; # "datatype Variables = Variables"; token l 12; token l 13; token l 14; token l 15; token l 22].

(** A state machine line: the tokens kept, and the results. *)
Lemma machine_line_tokens l w :
  tokens 23 l = true ->
  exists l' n s e,
    machine_line l w = Ok (l', Walked true (Some (Text n s (token l 0) e)) (collected_steps w) (token l 20)) /\
    forallb plain l' = true /\ emit [] l' = machine_text l.
Proof.
  intros H. spell_tokens l H. do 4 eexists. split; [reflexivity|].
  emitted machine_text Hplain.
Qed.

Definition init_text (l : list elem) : str :=
  concat [token l 0; # "predicate Init(k: Constants, s: Variables)"; token l 2].

Lemma init_line_tokens l w :
  tokens 3 l = true ->
  exists l', init_line l w = Ok (l', w) /\ forallb plain l' = true /\ emit [] l' = init_text l.
Proof.
  intros H. spell_tokens l H. eexists. split; [reflexivity|].
  emitted init_text Hplain.
Qed.

Definition step_text (msp : str) (l : list elem) : str :=
  concat [token l 0; # "predicate"; token l 2; token l 3; token l 4; token l 5;
          "k: Constants, s: Variables, s': Variables" ++ comma_unless_blank msp ++ msp ++
            comma_unless_blank (token l 6) ++ token l 6;
          token l 7; token l 8].

Lemma step_line_tokens l w :
  tokens 9 l = true ->
  exists l',
    step_line l w = Ok (l', Walked (has_state_machine w) (state_machine_indent w)
                              (collected_steps w ++ [(token l 3, token l 6)]) (machine_step_params w)) /\
    forallb plain l' = true /\ emit [] l' = step_text (machine_step_params w) l.
Proof.
  intros H. spell_tokens l H. eexists. split; [reflexivity|].
  emitted step_text Hplain.
Qed.

(** ** The walk ends, and fails only where a parameter list does not parse *)

(** The results hold an indentation exactly when there is a state machine. *)
Definition indent_known (w : walked) : Prop :=
  match state_machine_indent w with
  | Some i => has_state_machine w = true /\ exists t, text_of i = Ok t
  | None => has_state_machine w = false
  end.

Lemma has_machine_mentions l : existsb has_machine l = true -> existsb mentions_machine l = true.
Proof.
  assert (H : forall e, has_machine e = true -> mentions_machine e = true).
  { fix IH 1. intros [l0|n s t e'|n s l0 e']; cbn; [|done|by intros ->].
    induction l0 as [|e l0 IHl]; [done|]. cbn. intros [He|Hl]%orb_true_iff; [by rewrite (IH e He)|by rewrite (IHl Hl), orb_true_r]. }
  intros (e & Hin & He)%existsb_exists. apply existsb_exists. eauto.
Qed.

Section total.
Context (formal_args : str -> res (list str)).

(** What the walk of [contents] from [w] may give.  It fails only in a tree with
    a state machine. *)
Definition walk_fine {A} (machine deep : bool) (w : walked) (m : res (A * walked)) : Prop :=
  match m with
  | Ok (_, w') => has_state_machine w' = has_state_machine w || machine /\ (indent_known w -> indent_known w')
  | Raise e => deep = true /\ exists params, formal_args params = Raise e
  end.

Lemma walk_fine_weaken {A} machine (d d' : bool) w (m : res (A * walked)) :
  (d = true -> d' = true) -> walk_fine machine d w m -> walk_fine machine d' w m.
Proof. intros H. destruct m as [[a w']|e]; [done|]. intros [Hd Hp]. split; [by apply H|done]. Qed.

Lemma declarations_fine w :
  has_state_machine w = true -> indent_known w ->
  match declarations formal_args w with Ok _ => True | Raise e => exists params, formal_args params = Raise e end.
Proof.
  intros Hm Hi. unfold indent_known in Hi. unfold declarations.
  destruct (state_machine_indent w) as [i|]; [|by rewrite Hm in Hi]. destruct Hi as [_ [t Ht]].
  cbn [of_option]. rewrite bind_of_Ok, Ht, bind_of_Ok.
  assert (Harg : forall params, match arg_names formal_args params with
                                | Ok _ => True | Raise e => exists params, formal_args params = Raise e end).
  { intros params. unfold arg_names. destruct (formal_args params) as [?|] eqn:Ep; [done|]. by exists params. }
  destruct (map_res _ (collected_steps w)) as [names|err] eqn:Em.
  - rewrite bind_of_Ok. specialize (Harg (machine_step_params w)). by destruct (arg_names _ _).
  - apply map_res_Raise in Em as ([name params] & _ & Hp). cbn beta iota in Hp.
    specialize (Harg params). by rewrite Hp in Harg.
Qed.

Lemma plain_mentions l : forallb plain l = true -> existsb mentions_machine l = false.
Proof.
  induction l as [|e l IH]; [done|]. cbn. intros [He Hl]%andb_true_iff. rewrite (IH Hl).
  by destruct (plain_Text e He) as (n & s & t & e' & -> & _).
Qed.

Lemma rewrite_line_fine name inner w :
  well_shaped (Group name None inner None) = true ->
  exists inner' w', rewrite_line name inner w = Ok (inner', w') /\
    heights inner' <= heights inner /\ forallb well_shaped inner' = true /\
    (existsb has_machine inner' = true -> name = "blockcontents") /\
    (existsb mentions_machine inner' = true -> existsb mentions_machine inner = true) /\
    has_state_machine w' = has_state_machine w || bool_decide (name = "tla.statemachine") /\
    (indent_known w -> indent_known w').
Proof.
  cbn [well_shaped]. unfold rewrite_line. intros H.
  assert (Hplain : forall l', forallb plain l' = true -> heights l' <= heights inner /\
            forallb well_shaped l' = true /\ (existsb has_machine l' = true -> name = "blockcontents") /\
            (existsb mentions_machine l' = true -> existsb mentions_machine inner = true)).
  { intros l' Hl. destruct (plain_list l' Hl) as (-> & -> & ->). split_and!; [lia|done|done|].
    rewrite (plain_mentions l' Hl). done. }
  case_bool_decide as H1; [|case_bool_decide as H2; [|case_bool_decide as H3]].
  - destruct (machine_line_tokens inner w H) as (l' & n & s & e & -> & Hl & _).
    do 2 eexists. split; [done|]. destruct (Hplain l' Hl) as (Ha & Hb & Hc & Hd). split_and!; try done.
    + cbn. by rewrite orb_true_r.
    + intros _. cbn. eauto.
  - destruct (init_line_tokens inner w H) as (l' & -> & Hl & _).
    do 2 eexists. split; [done|]. destruct (Hplain l' Hl) as (Ha & Hb & Hc & Hd).
    split_and!; try done. by rewrite orb_false_r.
  - destruct (step_line_tokens inner w H) as (l' & -> & Hl & _).
    do 2 eexists. split; [done|]. destruct (Hplain l' Hl) as (Ha & Hb & Hc & Hd).
    split_and!; try done. cbn. by rewrite orb_false_r.
  - apply andb_true_iff in H as [Hs Hb]. exists inner, w. split_and!; try done.
    + intros Hm. rewrite Hm in Hb. cbn in Hb. by apply bool_decide_eq_true in Hb.
    + by rewrite orb_false_r.
Qed.


Lemma indent_known_start params : indent_known (walk_start params).
Proof. done. Qed.

Lemma indent_known_merge w ew : indent_known w -> indent_known ew -> indent_known (merge w ew).
Proof.
  unfold indent_known. cbn [merge state_machine_indent has_state_machine].
  destruct (state_machine_indent w) as [i|].
  - by intros [-> H] _.
  - intros -> H. by destruct (state_machine_indent ew).
Qed.

Lemma walk_elem_fine f e w :
  (forall contents params, heights contents < f -> forallb well_shaped contents = true ->
     walk_fine (existsb has_machine contents) (existsb mentions_machine contents) (walk_start params)
       (walk_fuel formal_args f contents params)) ->
  height e <= f -> well_shaped e = true ->
  walk_fine (has_machine e) (mentions_machine e) w (walk_elem formal_args (walk_fuel formal_args f) e w).
Proof.
  intros IH Hh Hs. destruct e as [l|n s t e'|n s l e'].
  - rewrite height_Items in Hh. cbn [walk_elem has_machine]. specialize (IH l (machine_step_params w) Hh Hs).
    destruct (walk_fuel _ _ _ _) as [[l' ew]|err]; [|exact IH]. rewrite bind_of_Ok. destruct IH as [H1 H2].
    cbn [walk_fine]. split; [cbn; by rewrite H1|]. intros Hw. apply indent_known_merge; [done|]. by apply H2.
  - rewrite walk_elem_plain by done. cbn. by rewrite orb_false_r.
  - rewrite height_Group in Hh. cbn [walk_elem has_machine].
    destruct (rewrite_line_fine n l w) as (l1 & w1 & -> & Hh1 & Hs1 & Hb1 & Hd1 & Hm1 & Hi1); [by destruct n|].
    rewrite bind_of_Ok. specialize (IH l1 [] ltac:(lia) Hs1). cbn [mentions_machine].
    apply (walk_fine_weaken _ _ (bool_decide (n = # "tla.statemachine") || existsb mentions_machine l)) in IH;
      [|intros H; by rewrite (Hd1 H), orb_true_r].
    destruct (walk_fuel _ _ _ _) as [[l2 iw]|err]; [|exact IH]. rewrite bind_of_Ok. destruct IH as [H1 H2].
    cbn in H1. destruct (has_state_machine iw) eqn:Hiw; [|done].
    rewrite (bool_decide_eq_true_2 (n = # "blockcontents")) by (by apply Hb1). cbn [py_assert]. rewrite bind_of_Ok.
    pose proof (declarations_fine iw Hiw (H2 (indent_known_start []))) as Hd.
    destruct (declarations formal_args iw) as [d|err]; [by rewrite bind_of_Ok|]. split; [|exact Hd].
    cbn in H1. by rewrite (Hd1 (has_machine_mentions l1 (eq_sym H1))), orb_true_r.
Qed.

Lemma walk_list_fine f l w :
  (forall contents params, heights contents < f -> forallb well_shaped contents = true ->
     walk_fine (existsb has_machine contents) (existsb mentions_machine contents) (walk_start params)
       (walk_fuel formal_args f contents params)) ->
  heights l <= f -> forallb well_shaped l = true ->
  walk_fine (existsb has_machine l) (existsb mentions_machine l) w (walk_list formal_args (walk_fuel formal_args f) l w).
Proof.
  intros IH. revert w. induction l as [|e l IHl]; intros w Hh Hs; cbn [walk_list existsb].
  { cbn. by rewrite orb_false_r. }
  rewrite heights_cons in Hh. cbn [forallb] in Hs. apply andb_true_iff in Hs as [He Hl].
  pose proof (walk_elem_fine f e w IH ltac:(lia) He) as H1.
  apply (walk_fine_weaken _ _ (mentions_machine e || existsb mentions_machine l)) in H1; [|by intros ->].
  destruct (walk_elem _ _ _ _) as [[e1 w1]|err]; [|exact H1]. rewrite bind_of_Ok. destruct H1 as [H1 H2].
  specialize (IHl w1 ltac:(lia) Hl).
  apply (walk_fine_weaken _ _ (mentions_machine e || existsb mentions_machine l)) in IHl; [|intros ->; by rewrite orb_true_r].
  destruct (walk_list _ _ _ _) as [[l2 w2]|err]; [|exact IHl].
  rewrite bind_of_Ok. destruct IHl as [H3 H4]. split; [by rewrite H3, H1, orb_assoc|]. auto.
Qed.

Lemma walk_fuel_fine f contents params :
  heights contents < f -> forallb well_shaped contents = true ->
  walk_fine (existsb has_machine contents) (existsb mentions_machine contents) (walk_start params)
    (walk_fuel formal_args f contents params).
Proof.
  revert contents params. induction f as [|f IH]; intros contents params Hh Hs; [lia|].
  cbn [walk_fuel]. apply walk_list_fine; [exact IH|lia|done].
Qed.
End total.

(** The walk of a parse tree of the grammar ends, whatever its depth: it
    raises only in a tree with a state machine, and only what the parser of
    parameter lists raises on a list it is given (no unpacking, index or assertion fails), and else it returns whether the
    list contains a state machine, with an indentation exactly in that case. *)
Theorem walk_total formal_args contents params :
  forallb well_shaped contents = true ->
  match walk formal_args contents params with
  | Ok (_, w) => has_state_machine w = existsb has_machine contents /\ indent_known w
  | Raise e => existsb mentions_machine contents = true /\ exists params, formal_args params = Raise e
  end.
Proof.
  intros Hs. pose proof (walk_fuel_fine formal_args (S (heights contents)) contents params ltac:(lia) Hs) as H.
  unfold walk. destruct (walk_fuel _ _ _ _) as [[l w]|e]; [|exact H]. destruct H as [H1 H2]. split; [exact H1|by apply H2].
Qed.

(** ** What a file becomes *)

(** An [init] line, a [step] line, or a text of Dafny. *)
Definition is_line (e : elem) : bool :=
  match e with
  | Group name _ l _ =>
      (bool_decide (name = "tla.init") && tokens 3 l) || (bool_decide (name = "tla.step") && tokens 9 l)
  | _ => plain e
  end.

Definition line_text (params : str) (e : elem) : str :=
  match e with
  | Group name _ l _ => if bool_decide (name = "tla.init") then init_text l else step_text params l
  | _ => inner_text e
  end.

Definition step_of (e : elem) : option (str * str) :=
  match e with
  | Group name _ l _ => if bool_decide (name = "tla.step") then Some (token l 3, token l 6) else None
  | _ => None
  end.

Lemma emit_split text l : emit text l = text ++ emit [] l.
Proof.
  assert (He : forall e text, emit_elem text e = text ++ emit_elem [] e).
  { fix IH 1. intros [l'|n s t e'|n s l' e'] text'; [|done|];
    cbn [emit_elem]; assert (Hl : forall text' acc, fold_left emit_elem l' (text' ++ acc) = text' ++ fold_left emit_elem l' acc);
      try (rewrite <- (app_nil_r text') at 1; apply Hl);
      (induction l' as [|e l' IHl]; intros text2 acc; [done|]; cbn [fold_left];
       rewrite (IH e (text2 ++ acc)), (IH e acc), <- app_assoc; apply IHl). }
  revert text. induction l as [|e l IHl]; intros text; [by rewrite app_nil_r|].
  change (emit (emit_elem text e) l = text ++ emit (emit_elem [] e) l).
  by rewrite IHl, (IHl (emit_elem [] e)), He, app_assoc.
Qed.

Lemma emit_cons e l : emit [] (e :: l) = emit_elem [] e ++ emit [] l.
Proof. change (emit [] (e :: l)) with (emit (emit_elem [] e) l). apply emit_split. Qed.
Lemma emit_two l1 l2 : emit [] (l1 ++ l2) = emit [] l1 ++ emit [] l2.
Proof. by rewrite emit_app, emit_split. Qed.
Lemma emit_Group n s l e : emit_elem [] (Group n s l e) = emit [] l.
Proof. done. Qed.
Lemma emit_Items l : emit_elem [] (Items l) = emit [] l.
Proof. done. Qed.

Section file.
Context (formal_args : str -> res (list str)).

Lemma walk_line f e w :
  is_line e = true ->
  exists e', walk_elem formal_args (walk_fuel formal_args (S f)) e w =
               Ok (e', Walked (has_state_machine w) (state_machine_indent w)
                         (collected_steps w ++ option_list (step_of e)) (machine_step_params w)) /\
             emit_elem [] e' = line_text (machine_step_params w) e.
Proof.
  intros H. destruct e as [l|n s t e'|n s l e']; [done| |]; cbn [is_line] in H.
  - rewrite walk_elem_plain by done. eexists. cbn. rewrite app_nil_r. by destruct w.
  - cbn [walk_elem]. unfold rewrite_line. apply orb_true_iff in H as [[->%bool_decide_eq_true H]%andb_true_iff|[->%bool_decide_eq_true H]%andb_true_iff].
    + destruct (init_line_tokens l w H) as (l' & E & Hp & He).
      change (bool_decide (# "tla.init" = # "tla.statemachine")) with false. cbn [bool_decide].
      change (bool_decide (# "tla.init" = # "tla.init")) with true. cbn beta iota.
      rewrite E, bind_of_Ok, walk_plain, bind_of_Ok by done. cbn [has_state_machine walk_start].
      eexists. split; [|rewrite emit_Group, He; reflexivity]. cbn. rewrite app_nil_r. by destruct w.
    + destruct (step_line_tokens l w H) as (l' & E & Hp & He).
      change (bool_decide (# "tla.step" = # "tla.statemachine")) with false.
      change (bool_decide (# "tla.step" = # "tla.init")) with false.
      change (bool_decide (# "tla.step" = # "tla.step")) with true. cbn beta iota.
      rewrite E, bind_of_Ok, walk_plain, bind_of_Ok by done. cbn [has_state_machine walk_start].
      eexists. split; [done|]. rewrite emit_Group, He. reflexivity.
Qed.

Lemma walk_lines f lines w :
  forallb is_line lines = true ->
  exists lines', walk_list formal_args (walk_fuel formal_args (S f)) lines w =
                   Ok (lines', Walked (has_state_machine w) (state_machine_indent w)
                                 (collected_steps w ++ omap step_of lines) (machine_step_params w)) /\
                 emit [] lines' = concat (map (line_text (machine_step_params w)) lines).
Proof.
  revert w. induction lines as [|e lines IH]; intros w H; cbn [walk_list].
  { eexists. cbn. rewrite app_nil_r. by destruct w. }
  cbn [forallb] in H. apply andb_true_iff in H as [He Hl].
  destruct (walk_line f e w He) as (e' & -> & Ee). rewrite bind_of_Ok.
  destruct (IH (Walked (has_state_machine w) (state_machine_indent w)
                  (collected_steps w ++ option_list (step_of e)) (machine_step_params w)) Hl) as (l' & -> & El).
  rewrite bind_of_Ok. eexists. split.
  - cbn. rewrite <- app_assoc. by destruct (step_of e).
  - rewrite emit_cons, Ee, El. done.
Qed.

Lemma walk_list_app rec l1 l2 w :
  walk_list formal_args rec (l1 ++ l2) w =
  '(l1', w') ← walk_list formal_args rec l1 w; '(l2', w') ← walk_list formal_args rec l2 w'; Ok (l1' ++ l2', w').
Proof.
  revert w. induction l1 as [|e l1 IH]; intros w; cbn [app walk_list].
  - rewrite bind_of_Ok. by destruct (walk_list _ _ _ _) as [[]|].
  - destruct (walk_elem _ _ _ _) as [[e' w']|]; [|done]. rewrite !bind_of_Ok, IH.
    destruct (walk_list _ _ l1 _) as [[l1' w1]|]; [|done]. rewrite !bind_of_Ok.
    by destruct (walk_list _ _ l2 _) as [[l2' w2]|].
Qed.
End file.

Lemma walk_fuel_S formal_args f l params :
  walk_fuel formal_args (S f) l params = walk_list formal_args (walk_fuel formal_args f) l (walk_start params).
Proof. done. Qed.

(** ** Files with a state machine

    The contents of a block are runs of lines, blocks and comments.  [inert]
    parts hold no line of the notation. *)

Fixpoint inert (e : elem) : bool :=
  match e with
  | Items l => forallb inert l
  | Text _ _ _ _ => plain e
  | Group name _ l _ => negb (bool_decide (name ∈ tla_names)) && forallb inert l
  end.

Definition is_chunk (e : elem) : bool := match e with Items l => forallb is_line l | _ => inert e end.

Definition chunk_text (params : str) (e : elem) : str :=
  match e with Items l => concat (map (line_text params) l) | _ => emit_elem [] e end.
Definition chunk_steps (e : elem) : list (str * str) :=
  match e with Items l => omap step_of l | _ => [] end.

Section inert.
Context (formal_args : str -> res (list str)).

(** A group that is no line of the notation, around contents without a state
    machine of their own. *)
Lemma walk_group f n s l e l' iw w :
  n ∉ tla_names -> walk_fuel formal_args f l [] = Ok (l', iw) -> has_state_machine iw = false ->
  walk_elem formal_args (walk_fuel formal_args f) (Group n s l e) w = Ok (Group n s l' e, w).
Proof.
  intros Hn E Hw. cbn [walk_elem]. unfold rewrite_line.
  assert (H : forall m : str, bool_decide (m ∈ tla_names) = true -> bool_decide (n = m) = false)
    by (intros m Hm%bool_decide_eq_true; apply bool_decide_eq_false_2; by intros ->).
  rewrite (H (# "tla.statemachine") eq_refl), (H (# "tla.init") eq_refl), (H (# "tla.step") eq_refl).
  by rewrite bind_of_Ok, E, bind_of_Ok, Hw.
Qed.

Lemma merge_start w : merge w (walk_start (machine_step_params w)) = w.
Proof.
  destruct w as [h i st p]. unfold merge, walk_start. cbn. rewrite orb_false_r, app_nil_r. by destruct i, p.
Qed.

Lemma walk_list_cons rec e e' l w :
  walk_elem formal_args rec e w = Ok (e', w) ->
  walk_list formal_args rec (e :: l) w = '(l', w') ← walk_list formal_args rec l w; Ok (e' :: l', w').
Proof. intros H. cbn [walk_list]. by rewrite H, bind_of_Ok. Qed.

(** Inert parts pass through. *)
Lemma walk_inert f l params :
  heights l < f -> forallb inert l = true -> walk_fuel formal_args f l params = Ok (l, walk_start params).
Proof.
  revert l params. induction f as [|f IH]; intros l params Hh H; [lia|]. cbn [walk_fuel].
  assert (He : forall e w, height e <= f -> inert e = true -> walk_elem formal_args (walk_fuel formal_args f) e w = Ok (e, w)).
  { intros [l0|n s t e'|n s l0 e'] w Hh0 He.
    - rewrite height_Items in Hh0. cbn [walk_elem]. rewrite IH, bind_of_Ok, merge_start; [done|lia|done].
    - by apply walk_elem_plain.
    - rewrite height_Group in Hh0. cbn [inert] in He. apply andb_true_iff in He as [Hn%negb_true_iff%bool_decide_eq_false Hl].
      apply (walk_group _ _ _ _ _ _ (walk_start [])); [done| |done]. apply IH; [lia|done]. }
  generalize (walk_start params) as w. revert Hh H. induction l as [|e l IHl]; intros Hh H w; [done|].
  rewrite heights_cons in Hh. cbn [forallb] in H. apply andb_true_iff in H as [H1 H2].
  rewrite (walk_list_cons _ e e) by (apply He; [lia|done]). rewrite IHl; [done|lia|done].
Qed.

Lemma walk_chunk f e w :
  2 <= f -> height e <= f -> is_chunk e = true ->
  exists e', walk_elem formal_args (walk_fuel formal_args f) e w =
               Ok (e', Walked (has_state_machine w) (state_machine_indent w)
                         (collected_steps w ++ chunk_steps e) (machine_step_params w)) /\
             emit_elem [] e' = chunk_text (machine_step_params w) e.
Proof.
  intros Hf Hh H.
  assert (Hin : inert e = true -> chunk_steps e = [] -> walk_elem formal_args (walk_fuel formal_args f) e w =
      Ok (e, Walked (has_state_machine w) (state_machine_indent w) (collected_steps w ++ chunk_steps e) (machine_step_params w))).
  { intros Hi ->. rewrite app_nil_r. pose proof (walk_inert (S f) [e] (machine_step_params w)) as Hw.
    destruct e as [l|n s t e'|n s l e'].
    - rewrite height_Items in Hh. cbn [walk_elem]. rewrite walk_inert, bind_of_Ok, merge_start by (lia || done). by destruct w.
    - rewrite walk_elem_plain by done. by destruct w.
    - rewrite height_Group in Hh. cbn [inert] in Hi. apply andb_true_iff in Hi as [Hn%negb_true_iff%bool_decide_eq_false Hl].
      rewrite (walk_group _ _ _ _ _ l (walk_start [])); [by destruct w|done|by apply walk_inert; [lia|]|done]. }
  destruct e as [l|n s t e'|n s l e']; cbn [is_chunk] in H; [|eexists; split; [by apply Hin|done]..].
  destruct f as [|[|f]]; [lia..|].
  destruct (walk_lines formal_args f l (walk_start (machine_step_params w)) H) as (l' & E & T).
  cbn [walk_elem]. rewrite walk_fuel_S, E, bind_of_Ok. eexists. split.
  - cbn. unfold merge. cbn. rewrite orb_false_r. destruct w as [h i st p]. cbn. by destruct i, p.
  - by rewrite emit_Items, T.
Qed.

Lemma walk_chunks f l w :
  2 <= f -> heights l <= f -> forallb is_chunk l = true ->
  exists l', walk_list formal_args (walk_fuel formal_args f) l w =
               Ok (l', Walked (has_state_machine w) (state_machine_indent w)
                         (collected_steps w ++ concat (map chunk_steps l)) (machine_step_params w)) /\
             emit [] l' = concat (map (chunk_text (machine_step_params w)) l).
Proof.
  intros Hf. revert w. induction l as [|e l IH]; intros w Hh H; cbn [walk_list].
  { eexists. cbn. rewrite app_nil_r. by destruct w. }
  rewrite heights_cons in Hh. cbn [forallb] in H. apply andb_true_iff in H as [He Hl].
  destruct (walk_chunk f e w Hf ltac:(lia) He) as (e' & -> & Ee). rewrite bind_of_Ok.
  destruct (IH (Walked (has_state_machine w) (state_machine_indent w)
                  (collected_steps w ++ chunk_steps e) (machine_step_params w)) ltac:(lia) Hl) as (l' & -> & El).
  rewrite bind_of_Ok. eexists. split.
  - cbn. by rewrite <- app_assoc.
  - rewrite emit_cons, Ee, El. done.
Qed.
End inert.


Lemma heights_app l1 l2 : heights (l1 ++ l2) = Nat.max (heights l1) (heights l2).
Proof. induction l1 as [|e l1 IH]; [done|]. cbn [app]. rewrite !heights_cons, IH. lia. Qed.

Section tokens.
Context (formal_args : str -> res (list str)).

Lemma walk_token rec e l params :
  plain e = true ->
  walk_list formal_args rec (e :: l) (walk_start params) =
  '(l', w) ← walk_list formal_args rec l (walk_start params); Ok (e :: l', w).
Proof. intros H. cbn [walk_list]. by rewrite walk_elem_plain, bind_of_Ok. Qed.

Lemma walk_tokens rec l1 l params :
  forallb plain l1 = true ->
  walk_list formal_args rec (l1 ++ l) (walk_start params) =
  '(l', w) ← walk_list formal_args rec l (walk_start params); Ok (l1 ++ l', w).
Proof.
  induction l1 as [|e l1 IH]; intros H.
  - cbn [app]. by destruct (walk_list _ _ _ _) as [[]|].
  - cbn [forallb] in H. apply andb_true_iff in H as [He Hl]. cbn [app]. rewrite (walk_token _ _ _ _ He), (IH Hl).
    by destruct (walk_list formal_args rec l (walk_start params)) as [[]|].
Qed.

Lemma plain_name (n : str) : bool_decide (n ∈ tla_names) = false -> n ∉ tla_names.
Proof. apply bool_decide_eq_false_1. Qed.

End tokens.

Section compiled.
Context (formal_args : str -> res (list str)).
Context (before white open_brace close_brace : elem) (mods1 mods2 head chunks1 chunks2 pre post toks : list elem).
Context (p1 p2 p3 p4 p5 p6 p7 p8 : position).

(** The parse tree of a file with several modules, of which one has a block with
    one state machine among its lines. *)
Definition machine_contents : list elem :=
  chunks1 ++ Items (pre ++ Group "tla.statemachine" p7 toks p8 :: post) :: chunks2.
Definition machine_module : list elem :=
  let block := Group "block" p3 [open_brace; Group "blockcontents" p5 machine_contents p6; close_brace] p4 in
  [before; Items (mods1 ++ Group "module" p1 (head ++ [block]) p2 :: mods2); white].

(** The steps of the block, in order, and the text after its last line. *)
Definition machine_steps : list (str * str) :=
  concat (map chunk_steps chunks1) ++ omap step_of (pre ++ post) ++ concat (map chunk_steps chunks2).
Definition generated_text (args : str) (names : list str) : str :=
  let indent := replace (token toks 0) [nl] "" in
  let params := token toks 20 in
  datatype_decl indent machine_steps ++ nextstep indent params args (combine machine_steps names) ++
  predicate_next indent params args ++ [nl].

Definition contents_text : str :=
  concat (map (chunk_text []) chunks1) ++ concat (map (line_text []) pre) ++ machine_text toks ++
  concat (map (line_text (token toks 20)) post) ++ concat (map (chunk_text (token toks 20)) chunks2).

Lemma walk_machine_lines f params :
  forallb is_line pre = true -> forallb is_line post = true -> tokens 23 toks = true -> 2 <= f ->
  exists l n s e, walk_fuel formal_args f (pre ++ Group "tla.statemachine" p7 toks p8 :: post) params =
      Ok (l, Walked true (Some (Text n s (token toks 0) e)) (omap step_of (pre ++ post)) (token toks 20)) /\
    emit [] l = concat (map (line_text params) pre) ++ machine_text toks ++ concat (map (line_text (token toks 20)) post).
Proof.
  intros Hpre Hpost Htoks Hf. destruct f as [|[|f]]; [lia..|].
  destruct (walk_lines formal_args f pre (walk_start params) Hpre) as (pre' & Epre & Tpre).
  destruct (machine_line_tokens toks (Walked false None (omap step_of pre) params) Htoks)
    as (toks' & n & s & e & Em & Hp & Tm).
  set (wm := Walked true (Some (Text n s (token toks 0) e)) (omap step_of pre) (token toks 20)).
  destruct (walk_lines formal_args f post wm Hpost) as (post' & Epost & Tpost).
  exists (pre' ++ Group "tla.statemachine" p7 toks' p8 :: post'), n, s, e. split.
  - rewrite walk_fuel_S, walk_list_app, Epre, bind_of_Ok.
    cbn [walk_list walk_elem walk_start has_state_machine state_machine_indent collected_steps machine_step_params app].
    unfold rewrite_line. rewrite (bool_decide_eq_true_2 (# "tla.statemachine" = # "tla.statemachine")) by done.
    rewrite Em, bind_of_Ok, walk_plain, !bind_of_Ok by done. cbn [has_state_machine walk_start collected_steps].
    rewrite bind_of_Ok. fold wm. rewrite Epost, bind_of_Ok. unfold wm. cbn. by rewrite omap_app.
  - by rewrite emit_app, emit_split, emit_cons, emit_Group, Tpre, Tm, Tpost.
Qed.

Lemma walk_contents f args names :
  forallb is_chunk chunks1 = true -> forallb is_chunk chunks2 = true ->
  forallb is_line pre = true -> forallb is_line post = true -> tokens 23 toks = true ->
  map_res (fun '(_, params) => arg_names formal_args params) machine_steps = Ok names ->
  arg_names formal_args (token toks 20) = Ok args ->
  heights machine_contents <= f -> 2 <= f ->
  exists e, walk_fuel formal_args (S (S f)) [Group "blockcontents" p5 machine_contents p6] [] = Ok ([e], walk_start []) /\
            emit_elem [] e = contents_text ++ generated_text args names.
Proof.
  intros Hc1 Hc2 Hpre Hpost Htoks Hnames Hargs Hh Hf. unfold machine_contents in Hh.
  rewrite heights_app, heights_cons, height_Items in Hh.
  destruct (walk_chunks formal_args f chunks1 (walk_start []) Hf ltac:(lia) Hc1) as (c1 & E1 & T1).
  destruct (walk_machine_lines f [] Hpre Hpost Htoks Hf) as (l & n & s & e & El & Tl).
  set (wm := Walked true (Some (Text n s (token toks 0) e))
               (concat (map chunk_steps chunks1) ++ omap step_of (pre ++ post)) (token toks 20)).
  destruct (walk_chunks formal_args f chunks2 wm Hf ltac:(lia) Hc2) as (c2 & E2 & T2).
  assert (Ec : walk_fuel formal_args (S f) machine_contents [] =
    Ok (c1 ++ Items l :: c2, Walked true (Some (Text n s (token toks 0) e)) machine_steps (token toks 20))).
  { unfold machine_contents. rewrite walk_fuel_S, walk_list_app, E1, bind_of_Ok.
    cbn [walk_list walk_elem machine_step_params walk_start]. rewrite El, !bind_of_Ok.
    unfold merge. cbn [has_state_machine state_machine_indent collected_steps machine_step_params walk_start orb app].
    fold wm. rewrite E2, !bind_of_Ok. unfold wm, machine_steps. cbn. by rewrite <- app_assoc. }
  rewrite walk_fuel_S. cbn [walk_list walk_elem]. unfold rewrite_line.
  change (bool_decide (# "blockcontents" = # "tla.statemachine")) with false.
  change (bool_decide (# "blockcontents" = # "tla.init")) with false.
  change (bool_decide (# "blockcontents" = # "tla.step")) with false. cbn beta iota. rewrite bind_of_Ok.
  rewrite Ec, bind_of_Ok. cbn [has_state_machine].
  rewrite (bool_decide_eq_true_2 (# "blockcontents" = # "blockcontents")) by done. cbn [py_assert]. rewrite bind_of_Ok.
  unfold declarations. cbn [state_machine_indent of_option text_of collected_steps machine_step_params].
  rewrite bind_of_Ok. change (text_of (Text n s (token toks 0) e)) with (Ok (token toks 0)).
  rewrite bind_of_Ok, Hnames, bind_of_Ok, Hargs, !bind_of_Ok. eexists. split; [done|].
  rewrite emit_Group, !emit_two, T1, emit_cons, emit_Items, Tl, T2.
  cbn [wm machine_step_params walk_start]. unfold contents_text, generated_text.
  cbn [emit fold_left emit_elem app]. rewrite <- !app_assoc. done.
Qed.


(** C16. A file whose modules have one state machine among them becomes: what
    comes before the machine line as it was, the steps there without machine
    parameters; the machine line as the two datatypes; after it each [init] line
    as a predicate, each [step] as a predicate over constants, two states, the
    parameters of the machine, then its own; blocks and comments between the
    lines as they were; at the end of the block the datatype of all its steps in
    order, [NextStep] with a case per step, and [Next].  Nothing else of the text
    changes. *)
Theorem machine_compiled args names :
  forallb plain ([before; white; open_brace; close_brace] ++ head) = true ->
  forallb inert mods1 = true -> forallb inert mods2 = true ->
  forallb is_chunk chunks1 = true -> forallb is_chunk chunks2 = true ->
  forallb is_line pre = true -> forallb is_line post = true -> tokens 23 toks = true ->
  map_res (fun '(_, params) => arg_names formal_args params) machine_steps = Ok names ->
  arg_names formal_args (token toks 20) = Ok args ->
  tladfy formal_args machine_module =
  Ok (inner_text before ++ emit [] mods1 ++ concat (map inner_text head) ++ inner_text open_brace ++
      contents_text ++ generated_text args names ++
      inner_text close_brace ++ emit [] mods2 ++ inner_text white).
Proof.
  intros Hplain Hm1 Hm2 Hc1 Hc2 Hpre Hpost Htoks Hnames Hargs.
  cbn [forallb app] in Hplain. rewrite !andb_true_iff in Hplain. destruct Hplain as (Hb & Hw & Ho & Hc & Hh).
  unfold tladfy, walk. set (F := heights machine_module).
  assert (HF : S (S (S (S (heights machine_contents)))) <= F /\ heights mods1 < F /\ heights mods2 < F).
  { unfold F, machine_module. cbv zeta. rewrite !heights_cons, height_Items, !heights_app, !heights_cons, height_Group,
      heights_app, heights_cons, height_Group, !heights_cons, height_Group. lia. }
  assert (HC : 2 <= heights machine_contents).
  { unfold machine_contents. rewrite heights_app, heights_cons, height_Items, heights_app, heights_cons, height_Group. lia. }
  destruct F as [|[|[|[|f]]]]; [lia..|].
  destruct (walk_contents f args names) as (e & E & T); try done; [lia..|].
  unfold machine_module. cbv zeta. set (contents := Group "blockcontents" p5 _ p6) in *.
  assert (Eblock : walk_fuel formal_args (S (S f)) [open_brace; contents; close_brace] [] =
            Ok ([open_brace; e; close_brace], walk_start [])).
  { rewrite walk_fuel_S in E. rewrite walk_fuel_S, (walk_token _ _ _ _ _ Ho).
    change [contents; close_brace] with ([contents] ++ [close_brace]). rewrite walk_list_app, E, bind_of_Ok.
    by rewrite (walk_token _ _ _ _ _ Hc). }
  assert (Emodule : walk_fuel formal_args (S (S (S f))) (head ++ [Group "block" p3 [open_brace; contents; close_brace] p4]) [] =
            Ok (head ++ [Group "block" p3 [open_brace; e; close_brace] p4], walk_start [])).
  { rewrite walk_fuel_S, (walk_tokens _ _ _ _ _ Hh). cbn [walk_list].
    by rewrite (walk_group formal_args _ (# "block") _ _ _ _ _ (walk_start []) (plain_name "block" eq_refl) Eblock eq_refl). }
  set (block := Group "block" p3 [open_brace; contents; close_brace] p4) in *.
  set (block' := Group "block" p3 [open_brace; e; close_brace] p4) in *.
  assert (Emods : walk_fuel formal_args (S (S (S (S f)))) (mods1 ++ Group "module" p1 (head ++ [block]) p2 :: mods2) [] =
            Ok (mods1 ++ Group "module" p1 (head ++ [block']) p2 :: mods2, walk_start [])).
  { pose proof (walk_inert formal_args (S (S (S (S f)))) mods1 [] ltac:(lia) Hm1) as W1.
    pose proof (walk_inert formal_args (S (S (S (S f)))) mods2 [] ltac:(lia) Hm2) as W2.
    rewrite walk_fuel_S in W1, W2. rewrite walk_fuel_S, walk_list_app, W1, bind_of_Ok.
    rewrite (walk_list_cons formal_args _ _ (Group "module" p1 (head ++ [block']) p2)), W2, !bind_of_Ok; [done|].
    by apply (walk_group formal_args _ (# "module") _ _ _ _ (walk_start []) (walk_start []) (plain_name "module" eq_refl) Emodule). }
  rewrite walk_fuel_S, (walk_token _ _ _ _ _ Hb).
  match goal with |- context [Items ?l] => change [Items l; white] with ([Items l] ++ [white]) end.
  rewrite walk_list_app. cbn [walk_list walk_elem machine_step_params walk_start]. rewrite Emods, !bind_of_Ok.
  change (merge (walk_start []) (walk_start [])) with (walk_start []).
  rewrite (walk_elem_plain _ _ white _ Hw), !bind_of_Ok. cbn [app].
  unfold block', block. rewrite !emit_cons, emit_Items, emit_two, !emit_cons, !emit_Group, !emit_two, (emit_plain [] head Hh).
  rewrite !emit_cons, emit_Group, !emit_cons, T.
  assert (Ht : forall e, plain e = true -> emit_elem [] e = inner_text e) by (intros e' (n & s & t & e2 & -> & _)%plain_Text; done).
  rewrite !Ht by done. change (emit [] []) with (# ""). rewrite !app_nil_r. cbn [app]. by rewrite <- !app_assoc.
Qed.
End compiled.

(** A machine with one parameter, an [init] and a step of two parameters of its
    own, with their bodies, between two modules without notation; parameters are
    read up to their colons. *)
Definition demo_args (params : str) : res (list str) :=
  match strip params with
  | [] => Ok []
  | _ => Ok (map (fun p => strip (hd [] (split_str p ":"))) (split_str params ","))
  end.

Definition demo_text (s : str) : elem := Text "token" None s None.
Definition demo_tokens (l : list str) : list elem := map demo_text l.

Definition demo_machine : list elem :=
  demo_tokens [ [nl]; # "state"; # " "; # "machine"; # " "; # "k"; # " "; # "("; # "n: nat"; # ")"; # " "; # "s"; # " ";
                # "("; # "x: nat"; # ")"; # " "; # "step"; # " "; # "("; # "b: bool"; # ")"; [nl]].

Definition demo_block (s : str) : elem :=
  Group "block" None (demo_tokens [ # "{"] ++ [Group "blockcontents" None (demo_tokens [s]) None] ++ demo_tokens [ # "}"]) None.
Definition demo_module (name : str) : elem :=
  Group "module" None (demo_tokens [ # "module"; # " "; name; # " "] ++ [demo_block " "]) None.

Definition demo_post : list elem := [Group "tla.init" None (demo_tokens [ # "  "; # "init"; # " "]) None].
Definition demo_chunks : list elem :=
  [demo_block " s.x == 0 ";
   Items [demo_text [nl];
          Group "tla.step" None (demo_tokens [ # "  "; # "step"; # " "; # "Add"; # " "; # "("; # "m: nat, r: nat"; # ")"; # " "]) None];
   demo_block " true "; Text "comment" None " /* last */ " None; Items [demo_text [nl]]].

Lemma machine_compiled_witness :
  forallb is_chunk demo_chunks = true /\
  tladfy demo_args
    (machine_module (demo_text []) (demo_text [nl]) (demo_text "{") (demo_text "}")
       [demo_module "A"; demo_text [nl]] [demo_text [nl]; demo_module "B"]
       (demo_tokens [ # "module"; # " "; # "M"; # " "]) [] demo_chunks [] demo_post demo_machine
       None None None None None None None None) =
  Ok (join [nl]
    [ # "module A { }";
      # "module M {";
      # "datatype Constants = Constants (n: nat)";
      # "datatype Variables = Variables (x: nat)";
      # "  predicate Init(k: Constants, s: Variables) { s.x == 0 }";
      # "  predicate Add (k: Constants, s: Variables, s': Variables, b: bool, m: nat, r: nat) { true } /* last */ ";
      # "";
      # "datatype Step =";
      # "  | AddStep(m: nat, r: nat)";
      # "";
      # "predicate NextStep(k: Constants, s: Variables, s': Variables, b: bool, step: Step)";
      # "{";
      # "  match step {";
      # "    case AddStep(m, r) => Add(k, s, s', b, m, r)";
      # "  }";
      # "}";
      # "predicate Next(k: Constants, s: Variables, s': Variables, b: bool)";
      # "{";
      # "  exists step :: NextStep(k, s, s', b, step)";
      # "}";
      # "";
      # "}";
      # "module B { }";
      # ""]).
Proof.
  split; [reflexivity|].
  rewrite (machine_compiled demo_args (demo_text []) (demo_text [nl]) (demo_text "{") (demo_text "}")
             [demo_module "A"; demo_text [nl]] [demo_text [nl]; demo_module "B"]
             (demo_tokens [ # "module"; # " "; # "M"; # " "]) [] demo_chunks [] demo_post demo_machine
             None None None None None None None None (# "b") [ # "m, r"]
             eq_refl eq_refl eq_refl eq_refl eq_refl eq_refl eq_refl eq_refl eq_refl eq_refl).
  reflexivity.
Defined.
