(* ===== verification/TladfyGrammar.v ===== *)
(** * The grammar of tladfy.py and the whole script

    The terms of lines 4 to 46 of examples/tladafny-log/tladfy.py, the parse
    trees they give and what the script makes of a file from its text to the
    text printed. *)
From S2P Require Import Prelude PyStr Regex Parsy Tladfy.

(** ** The grammar *)

Inductive generated := block | type_params.
Notation grammar := (gram generated).

(** [.mark().tag(name)]. *)
Definition marked (name : str) (g : grammar) : grammar := GTag name (GMark g).

Definition letter (c : ascii) : bool := is_word c && negb (is_digit c).

Definition whitespace : grammar := marked "whitespace" (GRegex (Star Space)).
Definition identifier : grammar := marked "identifier" (GRegex (Seq (Cls letter) (Star Word))).
Definition block_open : grammar := marked "syntax" (GString "{").
Definition block_close : grammar := marked "syntax" (GString "}").

Definition comment_line : grammar :=
  marked "comment" (GRegex (seqs [BolM; Star Space; Lit "//"; Star (NoneOf [nl])])).
Definition comment_multiline : grammar :=
  marked "comment" (GRegex (seqs [Star Space; Lit "/*"; Star (Grp 1 (Seq (NLook (Lit "*/")) (Grp 2 (Alt Dot (Chr nl)))));
                                  Lit "*/"; Star Space])).
Definition dafny_code : grammar :=
  marked "dafny_code" (GRegex (Plus (Grp 1 (Seq (NLook (Lit "/*")) (NoneOf ("{}" ++ [nl])))))).
Definition params : grammar := marked "params" (GRegex (Star (NoneOf (")" ++ [nl])))).

Definition keyword (w : str) : grammar := marked "keyword" (GString w).
Definition syntax (w : str) : grammar := marked "syntax" (GString w).

Definition state_machine_line : grammar :=
  marked "tla.statemachine" (GSeq
    [whitespace; keyword "state"; whitespace; keyword "machine"; whitespace;
     keyword "k"; whitespace; syntax "("; params; syntax ")"; whitespace;
     keyword "s"; whitespace; syntax "("; params; syntax ")"; whitespace;
     keyword "step"; whitespace; syntax "("; params; syntax ")"; whitespace]).
Definition init_line : grammar := marked "tla.init" (GSeq [whitespace; keyword "init"; whitespace]).
Definition step_line : grammar :=
  marked "tla.step" (GSeq
    [whitespace; keyword "step"; whitespace; identifier; whitespace; syntax "("; params; syntax ")"; whitespace]).
Definition block_line : grammar :=
  GAlt (GAlt (GAlt (GAlt (GAlt comment_line state_machine_line) init_line) step_line) dafny_code)
    (marked "whitespace" (GString [nl])).
Definition block_contents : grammar :=
  marked "blockcontents" (GAtLeast 1 (GAlt (GAlt (GRef block) (GAtLeast 1 block_line)) comment_multiline)).

Definition before_module : grammar :=
  marked "beforemodule" (GRegex (Star (Grp 1 (Seq (NLook (Lit "module")) (Grp 2 (Alt Dot (Chr nl))))))).
Definition module : grammar :=
  marked "module" (GSeq [whitespace; marked "keyword" (GRegex (Lit "module")); whitespace; identifier; whitespace; GRef block]).
Definition file_ : grammar := GSeq [before_module; GMany module; whitespace].

Definition type_name : grammar :=
  marked "identifier" (GRegex (Seq (Cls letter) (Star (Grp 1 (Alt Word (Chr ".")))))).
Definition formal_arg : grammar :=
  GSeq [identifier; whitespace; marked "colon" (GString ":"); whitespace; type_name; whitespace;
        GOptional (GSeq [GRef type_params; whitespace])].
Definition formal_args : grammar :=
  GSeq [GOptional formal_arg; whitespace;
        GMany (GSeq [GThen (GThen (marked "comma" (GString ",")) whitespace) formal_arg])].

Definition body (x : generated) : grammar :=
  match x with
  | block => marked "block" (GSeq [block_open; block_contents; block_close])
  | type_params =>
      GSeq [GString "<"; type_name;
            GMany (GSeq [whitespace; GString ","; whitespace; type_name; whitespace; GOptional (GRef type_params); whitespace]);
            GString ">"]
  end.

(** ** The script *)

(** A value of the grammar as the tree the script walks. *)
Fixpoint to_elem (v : value) : option elem :=
  match v with
  | VList vs => Items <$> mapM to_elem vs
  | VTagged name (VMarked s (VStr t) e) => Some (Text name (Some s) t (Some e))
  | VTagged name (VMarked s (VList vs) e) => (fun l => Group name (Some s) l (Some e)) <$> mapM to_elem vs
  | _ => None
  end.
Definition tree_of (v : value) : option (list elem) :=
  match v with VList vs => mapM to_elem vs | _ => None end.

Definition len (v : value) : res nat := match v with VList vs => Ok (length vs) | _ => Raise TypeError end.
Definition values (v : value) : res (list value) := match v with VList vs => Ok vs | _ => Raise TypeError end.

(** [x[0][1][1]]. *)
Definition arg_name (x : value) : res str :=
  y ← item x 0; y ← item y 1; y ← item y 1; the_str y.

(** [flat_parsed]. *)
Definition flat_args (parsed : value) : res (list value) :=
  p0 ← item parsed 0;
  let first := match p0 with VNone => [] | _ => [p0] end in
  n ← len parsed;
  others ← (if 2 <? n then p2 ← item parsed 2; values p2 else Ok []);
  xs ← map_res (fun x => item x 0) others;
  Ok (first ++ xs).

Section script.
Context {P : Parsy}.

Definition formal_arg_names (params : str) : res (list str) :=
  parsed ← parse body formal_args params;
  flat_parsed ← flat_args parsed;
  map_res arg_name flat_parsed.

(** From standard input to what is printed.  Python's limit on the depth of
    recursion is left out. *)
Definition translate (contents : str) : res str :=
  tree ← parse body file_ contents;
  parse_tree ← of_option TypeError (tree_of tree);
  tladfy formal_arg_names parse_tree.
End script.

(** ** The grammar is fit for the package *)

Lemma body_guarded : well_guarded body.
Proof. intros []; by vm_compute. Qed.

Lemma body_keeps x : keeps (body x) = true.
Proof. destruct x; by vm_compute. Qed.

(** ** Trees *)

Lemma to_elem_text v e : to_elem v = Some e -> emit_elem [] e = vtext v.
Proof.
  revert v e. fix IH 1. intros [|s|p|vs|s v e0|name v] e H; cbn in H; try discriminate H.
  - apply fmap_Some in H as (l & H & ->). rewrite emit_Items. cbn [vtext]. revert l H.
    induction vs as [|v vs IHvs]; intros l H; cbn in H; [by injection H as <-|].
    destruct (to_elem v) as [e|] eqn:E; [|done]. cbn in H.
    destruct (mapM to_elem vs) as [l'|]; [|done]. injection H as <-.
    rewrite emit_cons, (IH _ _ E), (IHvs _ eq_refl). done.
  - destruct v as [|t| | |s v e1|]; try discriminate H. destruct v as [|t|p|vs| |]; try discriminate H.
    + injection H as <-. done.
    + apply fmap_Some in H as (l & H & ->). rewrite emit_Group. cbn [vtext]. revert l H.
      induction vs as [|v vs IHvs]; intros l H; cbn in H; [by injection H as <-|].
      destruct (to_elem v) as [e|] eqn:E; [|done]. cbn in H.
      destruct (mapM to_elem vs) as [l'|]; [|done]. injection H as <-.
      rewrite emit_cons, (IH _ _ E), (IHvs _ eq_refl). done.
Qed.

(** The shape of trees is read off the grammar.  [leafy] grammars give tagged
    texts, [may_machine] ones may give a state machine outside a block inside,
    and [shaped] ones give well-shaped trees. *)

Definition leafy (g : grammar) : bool :=
  match g with
  | GTag name (GMark (GRegex _)) | GTag name (GMark (GString _)) => negb (bool_decide (name ∈ tla_names))
  | _ => false
  end.

Fixpoint may_machine (g : grammar) : bool :=
  match g with
  | GTag name _ => bool_decide (name = "tla.statemachine")
  | GSeq gs => existsb may_machine gs
  | GAtLeast _ g => may_machine g
  | GAlt g1 g2 => may_machine g1 || may_machine g2
  | _ => false
  end.

Definition no_line (name : str) : bool := negb (bool_decide (name ∈ tla_names)).
Definition blockish (name : str) (machine : bool) : bool := negb machine || bool_decide (name = "blockcontents").

Fixpoint shaped (g : grammar) : bool :=
  match g with
  | GTag name (GMark g1) =>
      match g1 with
      | GRegex _ | GString _ => no_line name
      | GSeq gs =>
          if bool_decide (name = "tla.statemachine") then forallb leafy gs && (length gs =? 23)
          else if bool_decide (name = "tla.init") then forallb leafy gs && (length gs =? 3)
          else if bool_decide (name = "tla.step") then forallb leafy gs && (length gs =? 9)
          else forallb shaped gs && blockish name (existsb may_machine gs)
      | GAtLeast _ g2 => no_line name && shaped g2 && blockish name (may_machine g2)
      | _ => false
      end
  | GSeq gs => forallb shaped gs
  | GAtLeast _ g => shaped g
  | GAlt g1 g2 => shaped g1 && shaped g2
  | GRef block => true
  | _ => false
  end.

(** A well-shaped element, with a state machine only where one may be. *)
Definition good (machine : bool) (oe : option elem) : Prop :=
  exists e, oe = Some e /\ well_shaped e = true /\ (has_machine e = true -> machine = true).
Definition good_list (machine : bool) (ol : option (list elem)) : Prop :=
  exists l, ol = Some l /\ forallb well_shaped l = true /\ (existsb has_machine l = true -> machine = true).

Lemma leafy_gives g st v st' :
  gives body g st v st' -> leafy g = true -> exists e, to_elem v = Some e /\ plain e = true.
Proof.
  intros H Hl. destruct g as [| | | | | | | |name g|]; try discriminate Hl. destruct g as [| | | | | | |g| |]; try discriminate Hl.
  inversion H as [| | | | | | | | | |? ? ? v1 ? H1|]; subst. inversion H1 as [| | | | | | | | |? ? v2 ? H2| |]; subst.
  destruct g; try discriminate Hl; inversion H2; subst; eexists; split; try reflexivity; exact Hl.
Qed.

Lemma leafy_gives_all gs st vs st' :
  gives_all body gs st vs st' -> forallb leafy gs = true ->
  exists l, mapM to_elem vs = Some l /\ tokens (length gs) l = true.
Proof.
  induction 1 as [st|g gs st v st1 vs st' H H1 IH]; intros Hl; [by exists []|].
  cbn in Hl. apply andb_true_iff in Hl as [Hg Hgs]. destruct (leafy_gives _ _ _ _ H Hg) as (e & Ee & Hp).
  destruct (IH Hgs) as (l & El & Ht). exists (e :: l). cbn. rewrite Ee. cbn. rewrite El. split; [done|].
  unfold tokens in *. cbn [length forallb]. rewrite Hp. exact Ht.
Qed.

(** What [shaped] promises of a value, alone and with a tag around it. *)
Definition shape_of (g : grammar) (v : value) : Prop :=
  (shaped g = true -> good (may_machine g) (to_elem v)) /\
  (forall (name : str) s e, shaped (GTag name (GMark g)) = true ->
     good (bool_decide (name = "tla.statemachine")) (to_elem (VTagged name (VMarked s v e)))) /\
  (forall (name : str), shaped (GTag name g) = true -> good (bool_decide (name = "tla.statemachine")) (to_elem (VTagged name v))).

Lemma no_line_false (name : str) : no_line name = true ->
  bool_decide (name = "tla.statemachine") = false /\ bool_decide (name = "tla.init") = false /\
  bool_decide (name = "tla.step") = false.
Proof.
  intros H%negb_true_iff%bool_decide_eq_false. split_and!; apply bool_decide_eq_false_2; intros ->; apply H; notin.
Qed.

(** A group of well-shaped parts. *)
Lemma good_group (name : str) s e machine ol :
  good_list machine ol -> bool_decide (name = "tla.statemachine") = false -> bool_decide (name = "tla.init") = false ->
  bool_decide (name = "tla.step") = false -> blockish name machine = true ->
  good (bool_decide (name = "tla.statemachine")) ((fun l => Group name (Some s) l (Some e)) <$> ol).
Proof.
  intros (l & -> & Hs & Hm) H1 H2 H3 Hb. eexists. split; [done|]. cbn [well_shaped has_machine].
  rewrite H1, H2, H3, Hs. split; [|done].
  unfold blockish in Hb. apply andb_true_iff. split; [done|].
  destruct (existsb has_machine l) eqn:E; [|done]. by rewrite (Hm eq_refl) in Hb.
Qed.

Lemma good_items machine ol : good_list machine ol -> good machine (Items <$> ol).
Proof. intros (l & -> & Hs & Hm). eexists. split; [done|]. by split. Qed.

Lemma grammar_shape :
  (forall g st v st', gives body g st v st' -> shape_of g v) /\
  (forall gs st vs st', gives_all body gs st vs st' ->
     forallb shaped gs = true -> good_list (existsb may_machine gs) (mapM to_elem vs)).
Proof.
  apply gives_both; unfold shape_of; try (intros; split_and!; intros; discriminate).
  - intros r st m Hm. split_and!; try discriminate. intros name s e H. eexists. split; [done|]. by split.
  - intros s st t E. split_and!; try discriminate. intros name s0 e H. eexists. split; [done|]. by split.
  - intros gs st vs st' Hg IH. split_and!.
    + intros H. by apply good_items, IH.
    + intros name s e H. cbn [shaped] in H. cbn [to_elem].
      assert (Hline : forall n, forallb leafy gs && (length gs =? n) = true ->
                exists l, mapM to_elem vs = Some l /\ tokens n l = true).
      { intros n [Hl <-%Nat.eqb_eq]%andb_true_iff. by eapply leafy_gives_all. }
      case_bool_decide as H1; [|case_bool_decide as H2; [|case_bool_decide as H3]].
      * destruct (Hline _ H) as (l & -> & Ht). eexists. split; [done|]. subst name. by split.
      * destruct (Hline _ H) as (l & -> & Ht). eexists. split; [done|]. subst name. by split.
      * destruct (Hline _ H) as (l & -> & Ht). eexists. split; [done|]. subst name. by split.
      * apply andb_true_iff in H as [Hs Hb].
        rewrite <- (bool_decide_eq_false_2 _ H1). eapply good_group; [by apply IH| | | |done]; by apply bool_decide_eq_false_2.
    + discriminate.
  - intros g1 g2 st v st' _ (A & _). split_and!; try discriminate. cbn. intros [H1 H2]%andb_true_iff.
    destruct (A H1) as (e & E & Hw & Hm). exists e. split_and!; try done. intros H. by rewrite Hm.
  - intros g1 g2 st v st' _ (A & _). split_and!; try discriminate. cbn. intros [H1 H2]%andb_true_iff.
    destruct (A H2) as (e & E & Hw & Hm). exists e. split_and!; try done. intros H. rewrite Hm by done. by rewrite orb_true_r.
  - intros n g st vs st' Hn Hg IH.
    assert (Hl : shaped g = true -> good_list (may_machine g) (mapM to_elem vs)).
    { intros H. destruct IH as (l & E & Hs & Hm).
      - apply forallb_forall. by intros x <-%list_elem_of_In%elem_of_replicate_inv.
      - exists l. split_and!; try done. intros (x & <-%list_elem_of_In%elem_of_replicate_inv & Hx)%Hm%existsb_exists. done. }
    split_and!; [intros H; by apply good_items, Hl| |discriminate].
    intros name s e H. cbn [shaped] in H. rewrite !andb_true_iff in H. destruct H as [[Hn1 H1] Hb].
    apply no_line_false in Hn1 as (N1 & N2 & N3). by eapply good_group; [apply Hl| | | |].
  - intros g st v st' _ (_ & B & _). split_and!; try discriminate. intros name H. by apply B.
  - intros name g st v st' _ (_ & _ & C). split_and!; try discriminate. intros H. by apply C.
  - intros [] st v st' _ (A & _); split_and!; try discriminate. intros _.
    destruct A as (e & E & Hw & Hm); [by vm_compute|]. exists e. split_and!; try done.
  - intros st _. by exists [].
  - intros g gs st v st1 vs st' _ (A & _) _ IH. cbn. intros [H1 H2]%andb_true_iff.
    destruct (A H1) as (e & E & Hw & Hm), (IH H2) as (l & El & Hwl & Hml). exists (e :: l). rewrite E. cbn. rewrite El.
    cbn. rewrite Hw, Hwl. split_and!; try done. intros [H|H]%orb_true_iff; [by rewrite Hm|rewrite Hml by done; by rewrite orb_true_r].
Qed.

(** ** Parameter lists *)

Ltac inv_gives H := inversion H; subst; clear H.

Lemma gives_marked_text name g st v st' :
  gives body (marked name g) st v st' -> (exists r, g = GRegex r) \/ (exists s, g = GString s) ->
  exists s e t, v = VTagged name (VMarked s (VStr t) e).
Proof.
  unfold marked. intros H Hg. inv_gives H. match goal with H : gives _ (GMark _) _ _ _ |- _ => inv_gives H end.
  destruct Hg as [[r ->]|[s ->]]; match goal with H : gives _ _ _ _ _ |- _ => inv_gives H end; eauto.
Qed.

(** A formal argument has a name, and is a list. *)
Lemma formal_arg_named st v st' : gives body formal_arg st v st' -> exists n vs, arg_name v = Ok n /\ v = VList vs.
Proof.
  intros (vs & -> & H)%gives_GSeq. apply gives_all_cons in H as (v & vs' & st1 & -> & H & _).
  apply gives_marked_text in H as (s & e & t & ->); [|eauto]. by exists t, (VTagged "identifier" (VMarked s (VStr t) e) :: vs').
Qed.

Lemma other_args_named st xs st' :
  gives_all body (replicate (length xs) (GSeq [GThen (GThen (marked "comma" (GString ",")) whitespace) formal_arg])) st xs st' ->
  exists ys names, map_res (fun x => item x 0) xs = Ok ys /\ map_res arg_name ys = Ok names.
Proof.
  revert st. induction xs as [|x xs IH]; intros st Hs; [by exists [], []|].
  cbn [replicate length] in Hs. apply gives_all_cons in Hs as (? & ? & st1 & [= <- <-] & Hx & Hs).
  apply IH in Hs as (ys & names & E1 & E2). apply gives_GSeq in Hx as (vs & -> & Hx).
  apply gives_all_cons in Hx as (y & ? & ? & -> & Hy & [-> _]%gives_all_nil).
  apply gives_GThen in Hy as [? (n & ? & Hn & _)%formal_arg_named].
  exists (y :: ys), (n :: names). cbn [map_res item]. change (nth_res [y] 0) with (Ok y).
  by rewrite bind_of_Ok, E1, Hn, !bind_of_Ok, E2.
Qed.

Lemma formal_args_named st v st' :
  gives body formal_args st v st' -> exists names, (flat ← flat_args v; map_res arg_name flat) = Ok names.
Proof.
  intros (vs & -> & H)%gives_GSeq. apply gives_all_cons in H as (v0 & ? & ? & -> & H0 & H).
  apply gives_all_cons in H as (v1 & ? & ? & -> & _ & H).
  apply gives_all_cons in H as (v2 & ? & ? & -> & H2 & [-> _]%gives_all_nil).
  apply gives_GAtLeast in H2 as (xs & -> & _ & Hxs). apply other_args_named in Hxs as (ys & names & E1 & E2).
  unfold flat_args. change (item (VList [v0; v1; VList xs]) 0) with (Ok v0).
  change (len (VList [v0; v1; VList xs])) with (Ok 3). change (item (VList [v0; v1; VList xs]) 2) with (Ok (VList xs)).
  rewrite !bind_of_Ok. change (2 <? 3) with true. cbn [values]. rewrite !bind_of_Ok, E1, !bind_of_Ok.
  apply gives_GOptional in H0 as [H0| ->]; [|by exists names].
  apply formal_arg_named in H0 as (n & vs & Hn & ->). exists (n :: names). cbn [app map_res].
  by rewrite Hn, !bind_of_Ok, E2.
Qed.


(** ** Names of printed parameter lists *)

Definition type_char (c : ascii) : bool := is_word c || bool_decide (c = "."%char).
Definition starts_with_letter (p : ascii -> bool) (w : str) : bool :=
  match w with c :: w' => letter c && forallb p w' | [] => false end.

(** A formal argument as one writes it: a name and a type without arguments. *)
Definition formal (a : str * str) : str := fst a ++ ":" ++ " " ++ snd a.
Definition is_formal (a : str * str) : bool :=
  starts_with_letter is_word (fst a) && starts_with_letter type_char (snd a).

(** What may follow a formal argument. *)
Definition after_formal (s : str) : Prop := s = [] \/ exists s', s = "," ++ s'.

Lemma after_formal_stops p s : after_formal s -> p ","%char = false -> stops p s.
Proof. intros [->|[s' ->]] H; [done|exact H]. Qed.

Section names.
Context (f : nat).
Notation rec := (peg body (S f)).

Lemma reads_whitespace w s : forallb is_space w = true -> stops is_space s -> reads body rec whitespace w s (fun _ => True).
Proof.
  intros Hw Hs. eapply reads_weaken; [done|]. apply reads_tag, reads_regex. intros sn.
  apply forallb_Forall_true in Hw. unfold Space. rewrite run_Star_Cls by done. destruct (spans_head sn w s []) as [l E]. eauto.
Qed.

Lemma reads_identifier n s :
  starts_with_letter is_word n = true -> stops is_word s ->
  reads body rec identifier n s (fun v => arg_name (VList [v]) = Ok n).
Proof.
  intros Hn Hs. eapply reads_weaken; [|apply reads_tag, reads_regex].
  { intros v (v0 & st & e & -> & ->). done. }
  intros sn. destruct n as [|c w]; [done|]. cbn in Hn. apply andb_true_iff in Hn as [Hc Hw%forallb_Forall_true].
  destruct (spans_head (c :: sn) w s []) as [l E].
  destruct (run_Seq_first (Cls letter) (Star Word) (MSt sn (c :: w ++ s) []) (MSt (c :: sn) (w ++ s) []) []
              (MSt (rev w ++ c :: sn) s []) l) as [l' E'].
  - cbn. by rewrite Hc.
  - unfold Word. by rewrite run_Star_Cls.
  - exists [], l'. cbn [app rev]. rewrite <- (app_assoc (rev w)). exact E'.
Qed.

Lemma run_type_char sn c s cs :
  type_char c = true -> exists cs' l, run (Grp 1 (Alt Word (Chr "."))) (MSt sn (c :: s) cs) = MSt (c :: sn) s cs' :: l.
Proof.
  intros H. cbn. unfold type_char in H. destruct (is_word c); cbn; [eauto|]. cbn in H. rewrite H. cbn. eauto.
Qed.

Lemma run_type_end sn s cs : stops type_char s -> run (Grp 1 (Alt Word (Chr "."))) (MSt sn s cs) = [].
Proof.
  destruct s as [|c s]; [done|]. intros [H1 H2]%orb_false_iff. cbn. by rewrite H1, H2.
Qed.

Lemma reads_type t s : starts_with_letter type_char t = true -> stops type_char s -> reads body rec type_name t s (fun _ => True).
Proof.
  intros Ht Hs. eapply reads_weaken; [done|]. apply reads_tag, reads_regex.
  intros sn. destruct t as [|c w]; [done|]. cbn in Ht. apply andb_true_iff in Ht as [Hc Hw%forallb_Forall_true].
  destruct (star_loop_class (run (Grp 1 (Alt Word (Chr ".")))) type_char w s run_type_char
              (fun sn cs => run_type_end sn s cs Hs) (length (w ++ s)) (c :: sn) [] Hw ltac:(lia)) as (cs & l & E).
  destruct (run_Seq_first (Cls letter) (Star (Grp 1 (Alt Word (Chr ".")))) (MSt sn (c :: w ++ s) []) (MSt (c :: sn) (w ++ s) []) []
              (MSt (rev w ++ c :: sn) s cs) l) as [l' E'].
  - cbn. by rewrite Hc.
  - exact E.
  - exists cs, l'. cbn [app rev]. rewrite <- (app_assoc (rev w)). exact E'.
Qed.

Lemma no_type_params past s :
  after_formal s -> peg_in body rec (GSeq [GRef type_params; whitespace]) (At past s) = Fails.
Proof. by intros [->|[s' ->]]. Qed.

Lemma letter_stops p w s : (forall c, letter c = true -> p c = false) -> starts_with_letter type_char w = true -> stops p (w ++ s).
Proof. intros Hp. destruct w as [|c w]; [done|]. cbn. intros [H _]%andb_true_iff. by apply Hp. Qed.

Lemma letter_no_space c : letter c = true -> is_space c = false.
Proof. destruct c as [[] [] [] [] [] [] [] []]; by vm_compute. Qed.

Lemma reads_formal a s :
  is_formal a = true -> after_formal s -> reads body rec formal_arg (formal a) s (fun v => arg_name v = Ok (fst a) /\ exists vs, v = VList vs).
Proof.
  intros [Hn Ht]%andb_true_iff Hs. destruct a as [n t]. cbn [fst snd] in *.
  replace (formal (n, t)) with (n ++ [] ++ ":" ++ " " ++ t ++ [] ++ [] ++ []).
  2:{ unfold formal. cbn [fst snd]. by rewrite !app_nil_r. }
  eapply reads_weaken; [|apply reads_seq;
    eapply reads_cons; [apply (reads_identifier n); [done|]|
    eapply reads_cons; [apply (reads_whitespace []); [done|]|
    eapply reads_cons; [apply reads_tag, (reads_string body rec ":")|
    eapply reads_cons; [apply (reads_whitespace " "); [done|]|
    eapply reads_cons; [apply (reads_type t); [done|]|
    eapply reads_cons; [apply (reads_whitespace []); [done|]|
    eapply reads_cons; [apply reads_none; intros; by apply no_type_params|apply reads_nil]]]]]]]].
  - intros v (vs & -> & v0 & vs0 & -> & H & _). split; [|eauto]. exact H.
  - done.
  - done.
  - cbn [app]. rewrite <- app_assoc. by apply letter_stops; [apply letter_no_space|].
  - cbn [app]. by apply after_formal_stops.
  - cbn [app]. by apply after_formal_stops.
Qed.

Lemma after_more l s : after_formal s -> after_formal (concat (map (fun a => "," ++ " " ++ formal a) l) ++ s).
Proof. intros Hs. destruct l as [|a l]; [done|]. right. cbn. eauto. Qed.

Lemma formal_no_space a s : is_formal a = true -> stops is_space (formal a ++ s).
Proof.
  intros [H _]%andb_true_iff. destruct a as [[|c w] t]; [done|]. cbn in H |- *. apply andb_true_iff in H as [H _].
  by apply letter_no_space.
Qed.

Lemma reads_others l :
  forallb is_formal l = true ->
  reads body rec (GMany (GSeq [GThen (GThen (marked "comma" (GString ",")) whitespace) formal_arg]))
    (concat (map (fun a => "," ++ " " ++ formal a) l)) []
    (fun v => exists vs, v = VList vs /\ Forall2 (fun a x => exists y, x = VList [y] /\ arg_name y = Ok (fst a)) l vs).
Proof.
  intros Hl. apply reads_many; [done| |done]. intros a ws' Ha%list_elem_of_In.
  rewrite forallb_forall in Hl. specialize (Hl a Ha).
  rewrite <- (app_nil_r ("," ++ _)), (app_assoc "," " ").
  eapply reads_weaken; [|apply reads_seq; eapply reads_cons; [|apply reads_nil]].
  2:{ eapply reads_then; [eapply reads_then; [apply reads_tag, (reads_string body rec ",")|apply (reads_whitespace " "); [done|]]|
                          apply (reads_formal a); [done|]].
      - cbn [app]. by apply formal_no_space.
      - cbn [app]. apply after_more. by left. }
  intros v (vs & -> & y & ? & -> & [Hy _] & ->). eauto.
Qed.

Lemma reads_formals a l :
  forallb is_formal (a :: l) = true ->
  reads body rec formal_args (formal a ++ [] ++ concat (map (fun a => "," ++ " " ++ formal a) l) ++ []) []
    (fun v => exists flat, flat_args v = Ok flat /\ map_res arg_name flat = Ok (map fst (a :: l))).
Proof.
  cbn [forallb]. intros [Ha Hl]%andb_true_iff.
  eapply reads_weaken; [|apply reads_seq;
    eapply reads_cons; [apply reads_some, (reads_formal a); [done|]|
    eapply reads_cons; [apply (reads_whitespace []); [done|]|
    eapply reads_cons; [by apply reads_others|apply reads_nil]]]].
  - intros v (vs & -> & v0 & ? & -> & [H0 [vs0 ->]] & v1 & ? & -> & _ & v2 & ? & -> & (xs & -> & Hxs) & ->).
    assert (Hm : exists ys, map_res (fun x => item x 0) xs = Ok ys /\ map_res arg_name ys = Ok (map fst l)).
    { clear Hl. induction Hxs as [|a' x l' xs' (y & -> & Hy) Hxs IH]; [by exists []|]. destruct IH as (ys & E1 & E2).
      exists (y :: ys). cbn [map_res item]. change (nth_res [y] 0) with (Ok y). by rewrite bind_of_Ok, E1, Hy, !bind_of_Ok, E2. }
    destruct Hm as (ys & E1 & E2). exists (VList vs0 :: ys). unfold flat_args.
    change (item (VList [VList vs0; v1; VList xs]) 0) with (Ok (VList vs0)).
    change (len (VList [VList vs0; v1; VList xs])) with (Ok 3).
    change (item (VList [VList vs0; v1; VList xs]) 2) with (Ok (VList xs)).
    rewrite !bind_of_Ok. change (2 <? 3) with true. cbn [values]. rewrite !bind_of_Ok, E1, !bind_of_Ok. split; [done|].
    cbn [app map_res map]. by rewrite H0, bind_of_Ok, E2.
  - cbn [app]. rewrite app_nil_r. apply after_more. by left.
  - cbn [app]. rewrite app_nil_r. apply after_formal_stops; [apply after_more; by left|done].
Qed.
End names.

Section theorems.
Context {P : Parsy}.

Lemma formal_arg_names_cases params :
  match formal_arg_names params with Ok _ => True | Raise e => e = ParseError end.
Proof.
  unfold formal_arg_names. pose proof (parse_cases body formal_args body_guarded eq_refl params) as H.
  destruct (parse body formal_args params) as [v|e]; [|exact H]. destruct H as [past H].
  apply formal_args_named in H as [names E]. by rewrite bind_of_Ok, E.
Qed.

(** The names read from a parameter list written the usual way, [x: T, y: U]
    with types without arguments, are the names written, in order: so the cases
    of [NextStep] pass each step its own parameters. *)
Theorem formal_arg_names_read l :
  forallb is_formal l = true -> formal_arg_names (join ", " (map formal l)) = Ok (map fst l).
Proof.
  intros Hl. assert (Hj : forall a l, join ", " (map formal (a :: l)) =
                       formal a ++ [] ++ concat (map (fun a => "," ++ " " ++ formal a) l) ++ []).
  { intros a l'. rewrite app_nil_r. revert a. induction l' as [|b l' IH]; intros a; [by rewrite app_nil_r|].
    cbn [map] in IH |- *. change (join ", " (formal a :: formal b :: map formal l')) with
      (formal a ++ ", " ++ join ", " (formal b :: map formal l')). by rewrite IH. }
  unfold formal_arg_names. destruct l as [|a l].
  - rewrite parse_documented by first [exact body_guarded|done]. by vm_compute.
  - rewrite Hj. destruct (parse_reads body formal_args _ _ body_guarded eq_refl (reads_formals _ a l Hl)) as (v & -> & flat & E1 & E2).
    by rewrite bind_of_Ok, E1, bind_of_Ok.
Qed.

(** The tree of a file that parses: well-shaped, and with all of the text. *)
Lemma file_tree contents v :
  parse body file_ contents = Ok v ->
  exists l, tree_of v = Some l /\ forallb well_shaped l = true /\ emit [] l = contents.
Proof.
  intros H. pose proof (parse_keeps body file_ body_guarded eq_refl contents v body_keeps eq_refl H) as Ht.
  pose proof (parse_cases body file_ body_guarded eq_refl contents) as Hc. rewrite H in Hc. destruct Hc as [past Hg].
  destruct (proj1 (proj1 grammar_shape _ _ _ _ Hg)) as (e & E & Hw & _); [by vm_compute|].
  pose proof (to_elem_text _ _ E) as Hemit. inv_gives Hg. cbn in E. apply fmap_Some in E as (l & El & ->).
  exists l. split_and!; [exact El|exact Hw|]. rewrite <- Hemit. by rewrite emit_Items.
Qed.

(** C10. From the text of a file to the text printed.  A file that parses has a
    parse tree that prints as the file itself, so the grammar loses nothing of the
    text.  Where no line of the notation was recognised the script prints the file
    unchanged; without a state machine line it prints a text; and with one the only
    thing that can stop it is the [ParseError] of a parameter list.  A file that
    does not parse raises [ParseError]. *)
Theorem parse_tree_roundtrip contents :
  match parse body file_ contents with
  | Ok v =>
      exists tree, tree_of v = Some tree /\ emit [] tree = contents /\
        (forallb inert tree = true -> translate contents = Ok contents) /\
        (existsb mentions_machine tree = false -> exists out, translate contents = Ok out) /\
        (forall e, translate contents = Raise e -> e = ParseError)
  | Raise e => e = ParseError /\ translate contents = Raise ParseError
  end.
Proof.
  pose proof (parse_cases body file_ body_guarded eq_refl contents) as Hc. unfold translate.
  destruct (parse body file_ contents) as [v|e] eqn:H; [clear Hc|by subst e].
  destruct (file_tree contents v H) as (l & El & Hw & Ht). exists l. rewrite bind_of_Ok, El. cbn [of_option]. rewrite bind_of_Ok.
  split_and!; [done|done| | |]; unfold tladfy.
  - intros Hi. unfold walk. rewrite (walk_inert _ (S (heights l)) l [] ltac:(lia) Hi), bind_of_Ok. by rewrite Ht.
  - intros Hm. pose proof (walk_total formal_arg_names l [] Hw) as Hwalk.
    destruct (walk formal_arg_names l []) as [[l' w]|e]; [by eexists|]. destruct Hwalk as [Hd _]. congruence.
  - intros e He. pose proof (walk_total formal_arg_names l [] Hw) as Hwalk.
    destruct (walk formal_arg_names l []) as [[l' w]|e']; [done|]. destruct Hwalk as [_ [params Hp]].
    injection He as <-. pose proof (formal_arg_names_cases params) as Hn. by rewrite Hp in Hn.
Qed.

End theorems.

(** ** Runs

    The source of one of the modules the script is used on, LogSpec.dfy, and
    what the script makes of it. *)

Definition log_spec : str := join [nl]
  [ # "";
  # "module LogSpec {";
  # "  type Element";
  # "  type Log = seq<Element>";
  # "";
  # "  datatype Index = Index(idx: int)";
  # "";
  # "  state machine k() s(log: Log) step()";
  # "";
  # "  init";
  # "  {";
  # "    s == Variables([]) /* == Variables([]) */";
  # "  }";
  # "";
  # "  step Query(idx: Index, result: Element)";
  # "  {";
  # "    && 0 <= idx.idx < |s.log|";
  # "    && result == s.log[idx.idx]";
  # "    && s' == s";
  # "  }";
  # "";
  # "  step Append(element: Element)";
  # "  {";
  # "    && s'.log == s.log + [element]";
  # "  }";
  # "";
  # "  step Stutter()";
  # "  {";
  # "    && s' == s";
  # "  }";
  # "}";
  # ""].

Example log_spec_translated : translate log_spec = Ok (join [nl]
  [ # "";
  # "module LogSpec {";
  # "  type Element";
  # "  type Log = seq<Element>";
  # "";
  # "  datatype Index = Index(idx: int)";
  # "";
  # "  datatype Constants = Constants()";
  # "";
  # "  datatype Variables = Variables(log: Log)";
  # "";
  # "  predicate Init(k: Constants, s: Variables)";
  # "  {";
  # "    s == Variables([]) /* == Variables([]) */";
  # "  }";
  # "";
  # "  predicate Query(k: Constants, s: Variables, s': Variables, idx: Index, result: Element)";
  # "  {";
  # "    && 0 <= idx.idx < |s.log|";
  # "    && result == s.log[idx.idx]";
  # "    && s' == s";
  # "  }";
  # "";
  # "  predicate Append(k: Constants, s: Variables, s': Variables, element: Element)";
  # "  {";
  # "    && s'.log == s.log + [element]";
  # "  }";
  # "";
  # "  predicate Stutter(k: Constants, s: Variables, s': Variables)";
  # "  {";
  # "    && s' == s";
  # "  }";
  # "";
  # "  datatype Step =";
  # "    | QueryStep(idx: Index, result: Element)";
  # "    | AppendStep(element: Element)";
  # "    | StutterStep()";
  # "";
  # "  predicate NextStep(k: Constants, s: Variables, s': Variables, step: Step)";
  # "  {";
  # "    match step {";
  # "      case QueryStep(idx, result) => Query(k, s, s', idx, result)";
  # "      case AppendStep(element) => Append(k, s, s', element)";
  # "      case StutterStep() => Stutter(k, s, s')";
  # "    }";
  # "  }";
  # "  predicate Next(k: Constants, s: Variables, s': Variables)";
  # "  {";
  # "    exists step :: NextStep(k, s, s', step)";
  # "  }";
  # "";
  # "}";
  # ""]).
Proof. vm_compute. reflexivity. Qed.

(** A line that only begins with [init] is taken for one. *)
Example init_prefix :
  translate (join [nl] [ # "module M {"; # "  initialise(s);"; # "}"]) =
  Ok (join [nl] [ # "module M {"; # "  predicate Init(k: Constants, s: Variables)ialise(s);"; # "}"]).
Proof. vm_compute. reflexivity. Qed.

(** A block without anything between its braces does not parse. *)
Example empty_block : translate "module M {}" = Raise ParseError.
Proof. vm_compute. reflexivity. Qed.

(** Of the arguments of a type all but the first may have arguments. *)
Example nested_type_arguments :
  is_Ok (formal_arg_names "x: map<int, seq<int>>") = true /\
  formal_arg_names "x: map<seq<int>, int>" = Raise ParseError.
Proof. split; vm_compute; reflexivity. Qed.

(** So a file that parses may still be refused, for a parameter list. *)
Example machine_refused :
  let file := join [nl] [ # "module M {"; # "  state machine k() s(x: int) step()"; # "  step F(x: map<seq<int>,int>) { true }"; # "}"] in
  is_Ok (parse body file_ file) = true /\ translate file = Raise ParseError.
Proof. split; vm_compute; reflexivity. Qed.

Definition plain_file : str := join [nl] [ # "include x"; # "module M { const c := 1 }"; # ""].

Lemma parse_tree_roundtrip_witness :
  is_Ok (parse body file_ plain_file) = true /\ translate plain_file = Ok plain_file.
Proof.
  split; [vm_compute; reflexivity|]. pose proof (parse_tree_roundtrip plain_file) as H.
  destruct (parse body file_ plain_file) as [v|e] eqn:E; [|vm_compute in E; discriminate E].
  destruct H as (tree & Et & _ & H & _). apply H.
  vm_compute in E. injection E as <-. vm_compute in Et. injection Et as <-. vm_compute. reflexivity.
Defined.

Lemma formal_arg_names_read_witness :
  formal_arg_names "idx: Index, result: L.Element" = Ok [ # "idx"; # "result"].
Proof. exact (formal_arg_names_read [( # "idx", # "Index"); ( # "result", # "L.Element")] eq_refl). Defined.
