(* ===== verification/Figures.v ===== *)
(** * The figures of a run (tools/plot/PlotHelper.py, perf-compare.py)

    Each plot function chooses the curves of one pair of axes; a figure here is
    the list of the curves handed to matplotlib, in the order they are drawn,
    with the right end of the time axis where the function sets it.  Titles,
    axis labels, grids, legends and vertical limits are left out. *)
From S2P Require Import Prelude PyStr PyFloat Paths Trace PerfLog.
From Stdlib Require Import ZArith.

(** ** Curves *)

(** A curve drawn: on the axes or their twin; colour, line style and legend may
    be left to matplotlib. *)
Record drawn := Drawn {
  d_twin : bool; d_points : list float * list num;
  d_color : option str; d_linestyle : option str; d_label : option str
}.

Definition spectrum_ : list str :=
  ["red" : str; "yellow" : str; "green" : str; "cyan" : str; "blue" : str; "magenta" : str;
   "#800000" : str; "#808000" : str; "#008000" : str; "#008080" : str; "#000080" : str; "#800080" : str].
Definition spectrum (idx : nat) : str := nth (idx mod length spectrum_) spectrum_ [].

(** [n*K()]. *)
Definition kops (n : Z) : float := fmul (float_of_Z n) (mult K).

(** [exp.<a>], as something to read. *)
Definition read_attr (exp : experiment) (a : attr) : reader := read_trace (traces (state exp) a).

(** The points of a curve of one run, and those of a rate. *)
Definition points (exp : experiment) (lam : Z -> res (option num)) : res (list float * list num) :=
  plotVsKop (sortedOpns exp) lam.
Definition rate_points (exp : experiment) (n d : reader) (scale : Scale) (window : float)
  : res (list float * list num) := points exp (windowedPair n d scale window).

(** [set_xlim]: the largest count of all runs, in thousands. *)
Definition set_xlim (experiments : list experiment) : res float :=
  for_each (fun xmax exp => x ← num_div (NInt (op_max exp)) (mult K);
                             Ok (if fltb xmax x then x else xmax))
    experiments (float_of_Z 0).

(** [plotManyForeach]: every run in order, with its colour. *)
Definition plotManyForeach (plotOneFunc : nat -> experiment -> res (list drawn)) (experiments : list experiment)
  : res (list drawn) :=
  ls ← map_res (fun '(i, exp) => plotOneFunc i exp) (imap pair experiments); Ok (concat ls).

Definition plotMany (plotOneFunc : nat -> experiment -> res (list drawn)) (experiments : list experiment)
  : res (list drawn * float) :=
  ls ← plotManyForeach plotOneFunc experiments;
  xmax ← set_xlim experiments;
  Ok (ls, xmax).

(** A curve in the colour of its run. *)
Definition colored (i : nat) (style : option str) (label : option str) (pts : list float * list num) : drawn :=
  Drawn false pts (Some (spectrum i)) style label.
Definition dotted : option str := Some (# "dotted").

(** ** plotThroughput *)

Definition throughput_of (i : nat) (exp : experiment) : res (list drawn) :=
  let op := read_attr exp operation in
  let t := read_attr exp elapsed in
  c1 ← rate_points exp op t K (kops 100);
  c2 ← rate_points exp op t K (kops 1000);
  c3 ← points exp (fun opn => t (NInt opn));
  Ok [colored i None (Some (nickname exp ++ " tput")) c1;
      colored i dotted None c2;
      Drawn true c3 (Some (spectrum i)) None (Some (nickname exp ++ " rate"))].

(** The names of the phases of the first run, where they begin. *)
Definition phase_marks (experiments : list experiment) : res (list (str * float)) :=
  match experiments with
  | [] => Ok []
  | exp :: _ => map_res (fun '(phase, opn) => x ← num_div (NInt opn) (mult K); Ok (phase, x))
                  (map_to_list (phase_starts (state exp)))
  end.

Definition plotThroughput (experiments : list experiment) : res (list drawn * float * list (str * float)) :=
  '(ls, xmax) ← plotMany throughput_of experiments;
  marks ← phase_marks experiments;
  Ok (ls, xmax, marks).

(** ** plotGrandUnifiedMemory *)

Definition linestyles : list str := ["solid" : str; "dashed" : str; "dotted" : str; "-." : str].

(** [ys[-1]] as ["%.2f"]. *)
Definition last_fixed (ys : list num) : res str :=
  v ← of_option IndexError (last ys); x ← to_float v; Ok (fmt_fixed 2 x).

(** [plotWithLabel]: the counter of labels moves on even if nothing is drawn. *)
Definition plotWithLabel (i : nat) (exp : experiment) (lam : Z -> res (option num)) (lbl : str) (always : bool)
    (st : nat * list drawn) : res (nat * list drawn) :=
  let '(labelidx, ls) := st in
  let style := nth (labelidx mod length linestyles) linestyles [] in
  pts ← points exp lam;
  match fst pts with
  | [] => Ok (S labelidx, ls)
  | _ =>
      label ← (if bool_decide (i = 0) || always
               then v ← last_fixed (snd pts); Ok (Some (nickname exp ++ lbl ++ " " ++ v ++ prefix Gi ++ "B"))
               else Ok None);
      Ok (S labelidx, ls ++ [colored i (Some style) label pts])
  end.

(** The quantities drawn, with their labels and whether they are labelled for
    every run. *)
Definition malloc_lam (exp : experiment) : res (Z -> res (option num)) :=
  match microscopes (state exp) !! (# "total") with
  | Some rows => t ← getTrace rows "open_byte"; Ok (singleTrace (read_trace t) Gi)
  | None => Ok (fun _ => Ok None)
  end.

Definition traceNames : list str := ["bucket-message-bytes" : str; "bucket-key-bytes" : str; "pivot-key-bytes" : str].
Definition StackFor (exp : experiment) (count : nat) : res (list reader) :=
  map_res (fun n => t ← of_option KeyError (accum (state exp) !! n); Ok (read_trace t)) (take (count + 1) traceNames).

(** The stacked trace is drawn if it can be: every exception is ignored. *)
Definition plot_stack (i : nat) (exp : experiment) (st : nat * list drawn) : nat * list drawn :=
  match (traces ← StackFor exp (length traceNames);
         plotWithLabel i exp (singleTrace (StackedTraces_getitem traces) Gi) " internal-accum-bytes" true st) with
  | Ok st => st
  | Raise _ => st
  end.

Definition memory_of (i : nat) (exp : experiment) : res (list drawn) :=
  let gi a := singleTrace (read_attr exp a) Gi in
  st ← plotWithLabel i exp (gi os_map_total) " OS mem" false (0, []);
  st ← plotWithLabel i exp (gi cgroups_memory_usage_bytes) " cgroups-usage" true st;
  st ← plotWithLabel i exp (gi jem_mapped) " jem mapped" false st;
  st ← plotWithLabel i exp (gi jem_allocated) " jem alloc" false st;
  malloc ← malloc_lam exp;
  st ← plotWithLabel i exp malloc " malloc" false st;
  st ← plotWithLabel i exp (gi kvl_underlying) " underlying" false st;
  Ok (snd (plot_stack i exp st)).

Definition plotGrandUnifiedMemory (experiments : list experiment) : res (list drawn * float) :=
  plotMany memory_of experiments.

(** ** The other figures *)

(** [LambdaTrace(lambda opn: a[opn] - b[opn])]. *)
Definition difference (a b : reader) : reader := fun op =>
  x ← a op; y ← b op; x ← of_option TypeError x; y ← of_option TypeError y; v ← num_sub x y; Ok (Some v).

Definition rocks_io_of (i : nat) (exp : experiment) : res (list drawn) :=
  let window := kops 10 in
  let hits := read_attr exp rocks_io_hits in
  let reads := read_attr exp rocks_io_reads in
  c1 ← rate_points exp hits reads Unit_scale window;
  c2 ← rate_points exp hits reads Unit_scale (fmul (float_of_Z 100) window);
  let miss := difference reads hits in
  let op := read_attr exp operation in
  c3 ← rate_points exp miss op Unit_scale (kops 100);
  c4 ← rate_points exp miss op Unit_scale (kops 1000);
  Ok [colored i None (Some (nickname exp ++ " rio_ratio")) c1; colored i dotted None c2;
      colored i None (Some (nickname exp ++ " miss_per_opn (pages)")) c3; colored i dotted None c4].
Definition plotRocksIo : list experiment -> res (list drawn * float) := plotMany rocks_io_of.

(** [LambdaTrace(lambda opn: a[opn]/ticksPerSecond)], for counts below 2^53. *)
Definition in_seconds (ticksPerSecond : Z) (a : reader) : reader := fun op =>
  v ← number (a op); n ← int_to_float ticksPerSecond; x ← num_div v n; Ok (Some (NFloat x)).

Definition cpu_time_of (ticksPerSecond : Z) (i : nat) (exp : experiment) : res (list drawn) :=
  let t := read_attr exp elapsed in
  c1 ← rate_points exp (in_seconds ticksPerSecond (read_attr exp utime)) t Unit_scale (kops 100);
  c2 ← rate_points exp (in_seconds ticksPerSecond (read_attr exp stime)) t Unit_scale (kops 100);
  Ok [colored i None (Some (nickname exp ++ " user")) c1; colored i dotted (Some (nickname exp ++ " sys")) c2].
Definition plotCpuTime (ticksPerSecond : Z) : list experiment -> res (list drawn * float) :=
  plotMany (cpu_time_of ticksPerSecond).

Definition proc_io_of (i : nat) (exp : experiment) : res (list drawn) :=
  let op := read_attr exp operation in
  c1 ← rate_points exp (read_attr exp procio_read_bytes) op Ki (kops 1000);
  c2 ← rate_points exp (read_attr exp procio_write_bytes) op Ki (kops 1000);
  Ok [colored i None (Some (nickname exp ++ " read")) c1; colored i dotted (Some (nickname exp ++ " write")) c2].
Definition plotProcIoBytes : list experiment -> res (list drawn * float) := plotMany proc_io_of.

(** [2.2*G()]. *)
Definition assumeProcCyclesPerSec : float := fmul (float_of_dec 22 (-1)) (mult G).

(** The distribution of latencies at one count, in milliseconds. *)
Definition latency_at (i : nat) (exp : experiment) (opn : Z) (src : trace CDF) (label linestyle : str)
  : res (list drawn) :=
  cdf ← fst (DiscreteTrace_getitem src (NInt opn));
  match cdf with
  | None => Ok []
  | Some cdf =>
      xs ← map_res (fun cycles => s ← fdiv cycles assumeProcCyclesPerSec; Ok (fmul s (mult K))) (PerfLog.xs cdf);
      k ← num_div (NInt opn) (mult K);
      kop ← float_trunc k;
      Ok [colored i (Some linestyle) (Some (nickname exp ++ " " ++ label ++ " @" ++ dec_Z kop ++ "Kop"))
            (xs, map NFloat (PerfLog.ys cdf))]
  end.
Definition io_latency_of (i : nat) (exp : experiment) : res (list drawn) :=
  r ← latency_at i exp 8000000 (iolatency_read (state exp)) "read" "-";
  w ← latency_at i exp 8000000 (iolatency_write (state exp)) "write" "dotted";
  Ok (r ++ w).
Definition plotIoLatencyCdf : list experiment -> res (list drawn) := plotManyForeach io_latency_of.

(** The legend of slow reads is set only if there is something to show.  The
    title needs a first run. *)
Definition slow_ios_of (i : nat) (exp : experiment) : res (list drawn) :=
  let op := read_attr exp operation in
  let label a text := if trace_empty (traces (state exp) a) then None else Some (nickname exp ++ text) in
  c1 ← rate_points exp (read_attr exp slow_reads) op Unit_scale (kops 10);
  c2 ← rate_points exp (read_attr exp slow_writes) op Unit_scale (kops 10);
  Ok [colored i None (label slow_reads " reads") c1; colored i dotted (label slow_writes " writes") c2].
Definition plotSlowIos (experiments : list experiment) : res (list drawn * float) :=
  match experiments with [] => Raise IndexError | _ => plotMany slow_ios_of experiments end.

Definition cache_stats_of (i : nat) (exp : experiment) : res (list drawn) :=
  c ← rate_points exp (read_attr exp writeback_stalls) (read_attr exp operation) Unit_scale (kops 10);
  Ok [colored i None (Some (nickname exp ++ " stalls")) c].
Definition plotCacheStats : list experiment -> res (list drawn * float) := plotMany cache_stats_of.

(** ** Comparing runs (perf-compare.py) *)

Record comparison := Comparison { output_filename : str; experiments : list experiment }.

(** One argument [nick=file]. *)
Definition compare_arg (cwd : str) (fs : gmap str str) (c : comparison) (arg : str) : res comparison :=
  match split_str arg "=" with
  | [nick; fn] =>
      if bool_decide (nick = "output") then Ok (Comparison fn (experiments c))
      else match Experiment_init cwd fs fn (Some nick) with
           | Ok exp => Ok (Comparison (output_filename c) (experiments c ++ [exp]))
           | Raise ValueError | Raise IOError => Ok c
           | Raise e => Raise e
           end
  | _ => Raise ValueError
  end.

Definition plot_perf_compare (c : comparison)
  : res (str * (list drawn * float * list (str * float)) * (list drawn * float)) :=
  let g := PlotHelper_init 4 None in
  '(_, slot) ← nextAxis g 0 2;
  tput ← plotThroughput (experiments c);
  _ ← nextAxis g slot 2;
  memory ← plotGrandUnifiedMemory (experiments c);
  Ok (output_filename c, tput, memory).

Definition perf_compare (cwd : str) (fs : gmap str str) (args : list str)
  : res (str * (list drawn * float * list (str * float)) * (list drawn * float)) :=
  c ← for_each (compare_arg cwd fs) args (Comparison "compare.png" []);
  plot_perf_compare c.

(** ** The points of a curve *)

(** What one count adds to a curve. *)
Definition point (lam : Z -> res (option num)) (opn : Z) : option (float * num) :=
  match num_div (NInt opn) (mult K), lam opn with
  | Ok x, Ok (Some y) => Some (x, y)
  | _, _ => None
  end.

Lemma plot_step_point lam pts opn pts' :
  plot_step lam pts opn = Ok pts' -> pts' = pts ++ option_list (point lam opn).
Proof.
  unfold plot_step, point. destruct (num_div (NInt opn) (mult K)) as [x|e].
  - rewrite bind_of_Ok. destruct (lam opn) as [[y|]|e].
    + rewrite bind_of_Ok. by intros [= <-].
    + rewrite bind_of_Ok. intros [= <-]. by rewrite app_nil_r.
    + change (Raise e ≫= ?f) with (@Raise (float * option num) e). destruct e; try discriminate; intros [= <-]; by rewrite app_nil_r.
  - change (Raise e ≫= ?f) with (@Raise (float * option num) e). destruct e; try discriminate; intros [= <-]; by rewrite app_nil_r.
Qed.

Lemma points_spec exp lam p :
  points exp lam = Ok p ->
  p = (map fst (omap (point lam) (sortedOpns exp)), map snd (omap (point lam) (sortedOpns exp))).
Proof.
  unfold points, plotVsKop. rewrite bind_Ok. intros (pts & H & [= <-]).
  assert (Hgen : forall acc, for_each (plot_step lam) (sortedOpns exp) acc = Ok pts ->
            pts = acc ++ omap (point lam) (sortedOpns exp)).
  { clear H. induction (sortedOpns exp) as [|opn ops IH]; intros acc; cbn [for_each].
    - intros [= ->]. by rewrite app_nil_r.
    - rewrite bind_Ok. intros (acc' & H1%plot_step_point & H2). apply IH in H2. subst.
      cbn [omap list_omap]. rewrite <- app_assoc. by destruct (point lam opn). }
  by rewrite (Hgen [] H).
Qed.

(** ** The memory figure *)

(** The quantities drawn for every run, with their labels and whether they are
    labelled for all runs; the stacked trace comes last. *)
Definition quantities (exp : experiment) (malloc : Z -> res (option num)) : list ((Z -> res (option num)) * str * bool) :=
  let gi a := singleTrace (read_attr exp a) Gi in
  [(gi os_map_total, # " OS mem", false); (gi cgroups_memory_usage_bytes, # " cgroups-usage", true);
   (gi jem_mapped, # " jem mapped", false); (gi jem_allocated, # " jem alloc", false);
   (malloc, # " malloc", false); (gi kvl_underlying, # " underlying", false)].

Definition linestyle_of (k : nat) : str := nth (k mod length linestyles) linestyles [].

(** The curve of the [k]-th quantity, if it has points. *)
Definition quantity_curve (i : nat) (exp : experiment) (k : nat) (q : (Z -> res (option num)) * str * bool) : option drawn :=
  let '(lam, lbl, always) := q in
  match omap (point lam) (sortedOpns exp) with
  | [] => None
  | p :: ps =>
      let label := match last_fixed (map snd (p :: ps)) with
                   | Ok v => if bool_decide (i = 0) || always
                             then Some (nickname exp ++ lbl ++ " " ++ v ++ prefix Gi ++ "B") else None
                   | Raise _ => None
                   end in
      Some (colored i (Some (linestyle_of k)) label (map fst (p :: ps), map snd (p :: ps)))
  end.

Lemma plotWithLabel_spec i exp lam lbl always k ls st :
  plotWithLabel i exp lam lbl always (k, ls) = Ok st ->
  st = (S k, ls ++ option_list (quantity_curve i exp k (lam, lbl, always))).
Proof.
  unfold plotWithLabel, quantity_curve. rewrite bind_Ok. intros (pts & ->%points_spec & H). cbn [fst snd] in H.
  destruct (omap (point lam) (sortedOpns exp)) as [|p ps].
  - injection H as <-. cbn. by rewrite app_nil_r.
  - cbn [map] in H. rewrite bind_Ok in H. destruct H as (label & Hl & [= <-]). cbn [option_list]. unfold linestyle_of.
    do 4 f_equal. destruct (bool_decide (i = 0) || always).
    + apply bind_Ok in Hl as (v & Hv & [= <-]). cbn [map]. by rewrite Hv.
    + injection Hl as <-. by destruct (last_fixed _).
Qed.

(** The curve of the stacked trace: in the colour of the run, labelled. *)
Definition stack_curve (i : nat) (d : drawn) : Prop :=
  d_color d = Some (spectrum i) /\ d_linestyle d = Some (linestyle_of 6) /\ d_label d <> None.

Lemma plot_stack_spec i exp ls :
  exists stack, Forall (stack_curve i) (option_list stack) /\ snd (plot_stack i exp (6, ls)) = ls ++ option_list stack.
Proof.
  unfold plot_stack. destruct (StackFor exp (length traceNames)) as [traces|e].
  2: { exists None. split; [constructor|]. cbn. by rewrite app_nil_r. }
  rewrite bind_of_Ok.
  destruct (plotWithLabel i exp (singleTrace (StackedTraces_getitem traces) Gi) " internal-accum-bytes" true (6, ls)) as [st|e] eqn:E.
  2: { exists None. split; [constructor|]. cbn. by rewrite app_nil_r. }
  pose proof (plotWithLabel_spec _ _ _ _ _ _ _ _ E) as ->. eexists. split; [|reflexivity].
  unfold plotWithLabel in E. apply bind_Ok in E as (pts & ->%points_spec & E). unfold quantity_curve. cbn [fst snd] in E.
  destruct (omap _ (sortedOpns exp)) as [|p ps]; [constructor|]. cbn [option_list]. constructor; [|constructor].
  cbn [map] in E |- *. rewrite orb_true_r in E. apply bind_Ok in E as (l & Hl & _). apply bind_Ok in Hl as (v & Hv & _).
  rewrite Hv, orb_true_r. done.
Qed.

Lemma memory_of_spec i exp ls :
  memory_of i exp = Ok ls ->
  exists malloc stack, malloc_lam exp = Ok malloc /\ Forall (stack_curve i) (option_list stack) /\
    ls = concat (imap (fun k q => option_list (quantity_curve i exp k q)) (quantities exp malloc)) ++ option_list stack.
Proof.
  unfold memory_of. intros H.
  apply bind_Ok in H as (st & ->%plotWithLabel_spec & H). apply bind_Ok in H as (st & ->%plotWithLabel_spec & H).
  apply bind_Ok in H as (st & ->%plotWithLabel_spec & H). apply bind_Ok in H as (st & ->%plotWithLabel_spec & H).
  apply bind_Ok in H as (malloc & Hm & H).
  apply bind_Ok in H as (st & ->%plotWithLabel_spec & H). apply bind_Ok in H as (st & ->%plotWithLabel_spec & H).
  injection H as <-. match goal with |- context [plot_stack i exp (6, ?l)] => destruct (plot_stack_spec i exp l) as (stack & Hs & ->) end.
  exists malloc, stack. split_and!; [done..|]. rewrite <- !app_assoc.
  unfold quantities, imap, compose. cbn [concat app]. by rewrite app_nil_r, <- !app_assoc.
Qed.

(** The memory figure of a comparison holds, for every run in order and in
    the run's colour, a curve for each quantity that has points, in a fixed
    order; the line style of a quantity is the same for all runs, whatever other
    quantities a run lacks; legends are given for the first run, and for the
    quantities labelled always; the stacked trace comes last, and a run whose
    stack cannot be computed only lacks that curve. *)
Theorem memory_figure exps ls xmax :
  plotGrandUnifiedMemory exps = Ok (ls, xmax) ->
  exists per_run, ls = concat per_run /\ length per_run = length exps /\
    forall i exp curves, exps !! i = Some exp -> per_run !! i = Some curves ->
      exists malloc stack, malloc_lam exp = Ok malloc /\ Forall (stack_curve i) (option_list stack) /\
        curves = concat (imap (fun k q => option_list (quantity_curve i exp k q)) (quantities exp malloc)) ++ option_list stack.
Proof.
  unfold plotGrandUnifiedMemory, plotMany, plotManyForeach. intros H.
  apply bind_Ok in H as (ls' & H & H2). apply bind_Ok in H2 as (xmax' & _ & [= -> ->]).
  apply bind_Ok in H as (per_run & H%map_res_Forall2 & [= <-]). exists per_run. split; [done|].
  pose proof (Forall2_length _ _ _ H) as Hlen. rewrite length_imap in Hlen. split; [done|].
  intros i exp curves He Hc. assert (Hp : imap pair exps !! i = Some (i, exp)) by (rewrite list_lookup_imap, He; done).
  apply memory_of_spec. exact (Forall2_lookup_lr _ _ _ _ _ _ H Hp Hc).
Qed.

(** ** The arguments of a comparison *)

Definition arg_text (a : str * str) : str := a.1 ++ "=" ++ a.2.

Definition is_output (a : str * str) : Prop := a.1 = # "output".
#[export] Instance is_output_dec a : Decision (is_output a).
Proof. unfold is_output. apply _. Defined.

(** The run an argument adds, if its log can be read. *)
Definition run_of (cwd : str) (fs : gmap str str) (a : str * str) : option experiment :=
  if bool_decide (a.1 = "output") then None
  else match Experiment_init cwd fs a.2 (Some a.1) with Ok exp => Some exp | Raise _ => None end.

(** A log that cannot be read for a reason the script expects. *)
Definition readable (cwd : str) (fs : gmap str str) (a : str * str) : Prop :=
  match Experiment_init cwd fs a.2 (Some a.1) with
  | Ok _ | Raise ValueError | Raise IOError => True
  | Raise _ => False
  end.

(** The arguments [nick=file] of a comparison: the runs compared are those
    whose logs can be read, in the order of the arguments, the others are left
    out; the name of the picture is that of the last [output] argument, or
    compare.png.  An argument without exactly one equals sign stops the script
    before anything is drawn. *)
Theorem compare_arguments cwd fs args :
  Forall (fun a => "="%char ∉ a.1 /\ "="%char ∉ a.2 /\ (~ is_output a -> readable cwd fs a)) args ->
  for_each (compare_arg cwd fs) (map arg_text args) (Comparison "compare.png" []) =
    Ok (Comparison (default (# "compare.png") (snd <$> last (filter is_output args)))
          (omap (run_of cwd fs) args)) /\
  (forall bad rest, length (split_str bad "=") <> 2 ->
     perf_compare cwd fs (map arg_text args ++ bad :: rest) = Raise ValueError).
Proof.
  intros H.
  assert (Hgen : forall out exps, for_each (compare_arg cwd fs) (map arg_text args) (Comparison out exps) =
            Ok (Comparison (default out (snd <$> last (filter is_output args)))
                  (exps ++ omap (run_of cwd fs) args))).
  { induction H as [|[nick fn] args (H1 & H2 & H3) Hargs IH]; intros out exps; cbn [map for_each].
    { cbn. by rewrite app_nil_r. }
    cbn [fst snd] in *.
    assert (Hsplit : split_str (arg_text (nick, fn)) "=" = [nick; fn]) by (by apply (split_str_pair "="%char [])).
    assert (Hstep : compare_arg cwd fs (Comparison out exps) (arg_text (nick, fn)) =
              if bool_decide (nick = "output") then Ok (Comparison fn exps)
              else match Experiment_init cwd fs fn (Some nick) with
                   | Ok exp => Ok (Comparison out (exps ++ [exp]))
                   | Raise ValueError | Raise IOError => Ok (Comparison out exps)
                   | Raise e => Raise e
                   end) by (unfold compare_arg; by rewrite Hsplit).
    rewrite Hstep. cbn [omap list_omap]. unfold run_of at 1. cbn [fst snd].
    rewrite filter_cons. unfold is_output in H3 |- *. cbn [fst] in *. destruct (decide (nick = # "output")) as [->|Hn].
    - rewrite !bool_decide_eq_true_2 by done. rewrite bind_of_Ok. cbn [experiments]. rewrite IH.
      do 2 f_equal. rewrite last_cons. destruct (last (filter _ args)); done.
    - rewrite !bool_decide_eq_false_2 by done. specialize (H3 Hn). unfold readable in H3. cbn [fst snd] in H3.
      destruct (Experiment_init cwd fs fn (Some nick)) as [exp|e].
      + rewrite bind_of_Ok, IH. cbn [output_filename experiments]. by rewrite <- app_assoc.
      + destruct e; try done; by rewrite bind_of_Ok, IH. }
  split; [by rewrite Hgen|]. intros bad rest Hbad. unfold perf_compare.
  assert (Hstep : forall c, compare_arg cwd fs c bad = Raise ValueError)
    by (intros c; unfold compare_arg; by destruct (split_str bad "=") as [|a [|b [|d l]]]).
  rewrite for_each_app, Hgen, bind_of_Ok. cbn [for_each]. by rewrite Hstep.
Qed.

Definition memory_log : str :=
  "[step] ycsb load progress 1000 ms 50
os-map-total 5368709120 os-map-heap 1073741824
[step] ycsb load progress 2500 ms 120
os-map-total 6442450944 os-map-heap 1073741824
"%string.
Definition figure_fs : gmap str str := {[ # "/r/log" := memory_log ]}.

Lemma compare_arguments_witness :
  exists c, for_each (compare_arg "/r" figure_fs) [ # "a=log"; # "b=missing"; # "output=x.png"] (Comparison "compare.png" []) = Ok c /\
    output_filename c = "x.png" /\ map nickname (experiments c) = [ # "a"] /\
    perf_compare "/r" figure_fs [ # "a=log"; # "b=missing"; # "output=x.png"; # "oops"] = Raise ValueError.
Proof.
  destruct (compare_arguments "/r" figure_fs [(# "a", # "log"); (# "b", # "missing"); (# "output", # "x.png")]) as [H1 H2].
  - repeat apply Forall_cons_2; [..|apply Forall_nil_2]; cbn [fst snd];
      (split; [|split; [|intros _]]); [notin|notin|vm_compute; exact I|notin|notin|vm_compute; exact I|notin|notin|vm_compute; exact I].
  - eexists. split; [exact H1|]. split_and!; [reflexivity|vm_compute; reflexivity|].
    apply (H2 (# "oops") []). vm_compute. discriminate.
Defined.

Lemma memory_figure_witness :
  exists exp ls xmax, Experiment_init "/r" figure_fs "log" (Some (# "a")) = Ok exp /\
    plotGrandUnifiedMemory [exp] = Ok (ls, xmax) /\
    map (fun d => (d_color d, d_linestyle d, d_label d)) ls = [(Some (# "red"), Some (# "solid"), Some (# "a OS mem 6.00GiB"))] /\
    exists per_run, ls = concat per_run /\ length per_run = 1.
Proof.
  destruct (Experiment_init "/r" figure_fs "log" (Some (# "a"))) as [exp|] eqn:E.
  2: { apply (f_equal is_Ok) in E. vm_compute in E. discriminate E. }
  destruct (plotGrandUnifiedMemory [exp]) as [[ls xmax]|] eqn:F.
  2: { apply (f_equal (fun r => match r with Ok e => is_Ok (plotGrandUnifiedMemory [e]) | _ => true end)) in E.
       rewrite F in E. vm_compute in E. discriminate E. }
  exists exp, ls, xmax. split_and!; [done|done| |].
  - apply (f_equal (fun r => match r with
                             | Ok e => match plotGrandUnifiedMemory [e] with
                                       | Ok (ls, _) => map (fun d => (d_color d, d_linestyle d, d_label d)) ls
                                       | _ => [] end
                             | _ => [] end)) in E.
    rewrite F in E. rewrite <- E. vm_compute. reflexivity.
  - destruct (memory_figure [exp] ls xmax F) as (per_run & H1 & H2 & _).
    exists per_run. split; [exact H1|exact H2].
Defined.
