(* ===== verification/TimeSeries.v ===== *)
(** * Curves over time (tools/plot/TimeSeries.py)

    An older way to draw a run, over a dictionary from times to the operations
    completed by then.  The class reads attributes of itself and a name of
    PlotHelper.py that a search of the object and of the module may not find, so
    both kinds of lookup are part of the model. *)
From S2P Require Import Prelude PyStr PyFloat Trace.
From Stdlib Require Import ZArith.

(** [exp.ops_completed], times in seconds, in insertion order. *)
Abbreviation ops_dict := (list (Z * Z)).

(** An instance: attributes that were never assigned are [None]. *)
Record TimeSeries := Series {
  ops_completed : ops_dict;
  opValues : option (list Z); opTimes : option (list Z); kop_end : option float
}.

(** [__init__]: the assignments of the other attributes are commented out. *)
Definition TimeSeries_init (ops : ops_dict) : TimeSeries := Series ops None None None.

Definition attribute {A} (o : option A) : res A := of_option AttributeError o.

(** What is drawn: a line, or a text at a place. *)
Inductive mark := Line (xs : list float) (ys : list float) (linestyle color label : option str)
                | Twin (xs : list float) (ys : list Z)
                | Note (x y : float) (msg : str).

Section series.
(** The name [Kilo] of the module. *)
Context (Kilo : res float) (self : TimeSeries).

Definition bisect_right (l : list Z) (x : Z) : Z := Z.of_nat (bisect (fun k => (x <? k)%Z) l).

(** [nextOpAxis]: the right end of the axis. *)
Definition nextOpAxis : res float := attribute (kop_end self).

Definition timeToOp (t : Z) : res Z :=
  times ← attribute (opTimes self);
  let idx := bisect_right times t in
  let idx := if (idx >=? Z.of_nat (length times))%Z then (Z.of_nat (length times) - 1)%Z else idx in
  values ← attribute (opValues self); py_index values idx.

Definition opToTime (op : Z) : res Z :=
  values ← attribute (opValues self);
  let idx := bisect_right values op in
  times ← attribute (opTimes self); py_index times idx.

Definition timeToKiloOp (t : Z) : res float :=
  op ← timeToOp t; k ← Kilo; num_div (NInt op) k.

Definition timesToKiloOps (ts : list Z) : res (list float) := map_res timeToKiloOp ts.

(** [makePlot]: [KeyError] and [IndexError] skip a point. *)
Definition makePlot (xSource : list Z) (lam : Z -> res float) : res (list float * list float) :=
  pts ← for_each (fun pts t =>
    match (x ← timeToKiloOp t; y ← lam t; Ok (x, y)) with
    | Ok p => Ok (pts ++ [p])
    | Raise KeyError | Raise IndexError => Ok pts
    | Raise e => Raise e
    end) xSource [];
  Ok (map fst pts, map snd pts).

(** [valueAt] of [smooth]. *)
Definition valueAt (window : Z) (fieldfunc : Z -> res Z) (divideBy : str) (scale : float) (t : Z) : res float :=
  curOpn ← timeToOp t;
  prevOpn ← timeToOp (t - window);
  a ← fieldfunc t; b ← fieldfunc (t - window)%Z;
  let denominator := if bool_decide (divideBy = # "time") then window else (curOpn - prevOpn)%Z in
  q ← int_div (a - b) denominator; fdiv q scale.

(** [smooth]: the line drawn and the last value. *)
Definition smooth (window : Z) (source : list Z) (fieldfunc : Z -> res Z) (divideBy : str) (scale : float)
    (label linestyle color : option str) : res (mark * float) :=
  '(xs, ys) ← makePlot source (valueAt window fieldfunc divideBy scale);
  Ok (Line xs ys linestyle color label, default (float_of_Z 0) (last ys)).

Definition completed (t : Z) : res Z := of_option KeyError (dict_get (ops_completed self) t).

Definition smoothedThroughput (window : Z) (label linestyle : option str) : res (mark * float) :=
  scale ← Kilo;
  smooth window (dict_keys (ops_completed self)) completed "time" scale label linestyle None.

(** [aggregateAt]: the mean rate up to a time, written beside the curve. *)
Definition aggregateAt (cur : float) (xs : list Z) (time : Z) (label : str) : res (list mark) :=
  last_x ← py_index xs (-1);
  if (time >? last_x)%Z then Ok []
  else
    a ← completed time; first_x ← py_index xs 0; b ← completed first_x;
    q ← int_div (a - b) time; k ← Kilo; aggregate ← fdiv q k;
    let msg := "mean " ++ fmt_fixed 1 aggregate ++
               (if bool_decide (label = # "end") then [nl] ++ "cur " ++ fmt_fixed 2 cur else []) in
    x ← timeToKiloOp time;
    Ok [Note x aggregate msg].

Definition plotThroughput : res (list mark) :=
  '(line10, _) ← smoothedThroughput 10 None None;
  '(line100, cur) ← smoothedThroughput 100 None None;
  let xs := dict_keys (ops_completed self) in
  last_x ← py_index xs (-1);
  notes1 ← aggregateAt cur xs last_x "end";
  t1m ← opToTime 2000000;
  notes2 ← aggregateAt cur xs t1m "op1000k";
  ops ← map_res (fun t => op ← completed t; k ← Kilo; num_div (NInt op) k) xs;
  Ok ([line10; line100] ++ notes1 ++ notes2 ++ [Twin ops xs]).
End series.

(** PlotHelper.py has scales named [K] and [Ki], and no [Kilo]. *)
Definition PlotHelper_Kilo : res float := Raise (NameError "Kilo").

(** ** As constructed *)

(** An instance as its constructor leaves it draws nothing: the throughput
    plot stops at the name [Kilo], which PlotHelper.py does not define; any other
    curve with a sample, an axis in operations and a conversion between times and
    operations stop at attributes whose assignments are commented out. *)
Theorem fresh_series_draws_nothing ops t source lam :
  let self := TimeSeries_init ops in
  plotThroughput PlotHelper_Kilo self = Raise (NameError "Kilo") /\
  (forall Kilo, makePlot Kilo self (t :: source) lam = Raise AttributeError) /\
  nextOpAxis self = Raise AttributeError /\
  timeToOp self t = Raise AttributeError /\ opToTime self t = Raise AttributeError.
Proof. done. Qed.

(** ** With its attributes *)

(** The sorted lists the constructor once made. *)
Definition indexed (ops : ops_dict) : TimeSeries :=
  Series ops (Some (merge_sort Z.le (map snd ops))) (Some (merge_sort Z.le (map fst ops))) None.

Lemma sorted_indexed (l : list Z) : StronglySorted Z.le (merge_sort Z.le l).
Proof. apply Sorted_StronglySorted; [apply _|]. apply Sorted_merge_sort, _. Qed.

(** [bisect] finds the first element above [x]. *)
Lemma bisect_right_first l x :
  StronglySorted Z.le l ->
  exists i, bisect_right l x = Z.of_nat i /\ i <= length l /\
            (forall j k, j < i -> l !! j = Some k -> (k <= x)%Z) /\ (forall k, l !! i = Some k -> (x < k)%Z).
Proof.
  intros Hl. unfold bisect_right, bisect.
  destruct (bisect_loop_spec (fun k => (x <? k)%Z) l (length l) 0 (length l)) as (H1 & H2 & H3); try lia.
  { intros i j Hij Hj Hi%Z.ltb_lt. apply Z.ltb_lt. pose proof (sorted_nth l i j Hl Hij Hj). lia. }
  set (i := bisect_loop _ _ _ _ _) in *. clearbody i. exists i. split_and!; [done|done| |].
  - intros j k Hj Hk. specialize (H2 j Hj). apply Z.ltb_ge in H2.
    apply (nth_lookup_Some _ _ 0%Z) in Hk. lia.
  - intros k Hk. pose proof (lookup_lt_Some _ _ _ Hk) as Hlt. specialize (H3 _ (le_n _) Hlt). apply Z.ltb_lt in H3.
    apply (nth_lookup_Some _ _ 0%Z) in Hk. lia.
Qed.

Lemma py_index_nat {A} (l : list A) i : py_index l (Z.of_nat i) = nth_res l i.
Proof.
  unfold py_index. assert (H : (Z.of_nat i <? 0)%Z = false) by (apply Z.ltb_ge; lia). cbv zeta.
  by rewrite !H, Nat2Z.id.
Qed.

Section lookup.
Context (self : TimeSeries) (times values : list Z).
Hypothesis (Htimes : opTimes self = Some times) (Hvalues : opValues self = Some values).
Hypothesis (Hlen : length times = length values) (Hne : times <> []).

(** The operations at a time are those of the first sample after it, and those
    of the last sample when there is none. *)
Lemma timeToOp_reads t :
  StronglySorted Z.le times ->
  exists i v, timeToOp self t = Ok v /\ values !! i = Some v /\
              (forall j k, j < i -> times !! j = Some k -> (k <= t)%Z) /\
              (i = length times - 1 \/ exists k, times !! i = Some k /\ (t < k)%Z).
Proof.
  intros Hs. unfold timeToOp. rewrite Htimes, Hvalues. cbn [attribute of_option]. rewrite !bind_of_Ok.
  destruct (bisect_right_first times t Hs) as (i & -> & Hi & Hlo & Hhi).
  assert (0 < length times) by (destruct times; [done|cbn; lia]).
  destruct (Z.geb_spec (Z.of_nat i) (Z.of_nat (length times))) as [Hge|Hlt].
  - replace (Z.of_nat (length times) - 1)%Z with (Z.of_nat (length times - 1)) by lia. rewrite py_index_nat.
    destruct (lookup_lt_is_Some_2 values (length times - 1)) as [v Hv]; [lia|].
    exists (length times - 1), v. unfold nth_res. rewrite Hv. split_and!; [done|done| |by left].
    intros j k Hj. apply Hlo. lia.
  - rewrite py_index_nat. destruct (lookup_lt_is_Some_2 values i) as [v Hv]; [lia|].
    destruct (lookup_lt_is_Some_2 times i) as [k Hk]; [lia|].
    exists i, v. unfold nth_res. rewrite Hv. split_and!; [done|done|done|]. right. eauto.
Qed.

(** The time of a count is that of the first sample above it, and [IndexError]
    is raised when the run never got above it: so a run of at most two million
    operations cannot be drawn. *)
Lemma opToTime_reads op :
  StronglySorted Z.le values ->
  (exists i t v, opToTime self op = Ok t /\ times !! i = Some t /\ values !! i = Some v /\ (op < v)%Z /\
                 (forall j k, j < i -> values !! j = Some k -> (k <= op)%Z)) \/
  (opToTime self op = Raise IndexError /\ Forall (fun v => (v <= op)%Z) values).
Proof.
  intros Hs. unfold opToTime. rewrite Htimes, Hvalues. cbn [attribute of_option]. rewrite !bind_of_Ok.
  destruct (bisect_right_first values op Hs) as (i & -> & Hi & Hlo & Hhi). rewrite py_index_nat. unfold nth_res.
  destruct (times !! i) as [t|] eqn:Ht.
  - left. pose proof (lookup_lt_Some _ _ _ Ht) as Hlt. destruct (lookup_lt_is_Some_2 values i) as [v Hv]; [lia|].
    exists i, t, v. split_and!; eauto.
  - right. split; [done|]. apply lookup_ge_None in Ht. apply Forall_lookup. intros j v Hj.
    pose proof (lookup_lt_Some _ _ _ Hj). apply (Hlo j); [lia|done].
Qed.
End lookup.

Example aggregate_labels :
  exists marks, plotThroughput (Ok (float_of_Z 1000)) (indexed [(0, 0); (10, 1000000); (100, 2500000)]%Z) = Ok marks /\
  omap (fun m => match m with Note _ _ msg => Some msg | _ => None end) marks =
  [ # "mean 25.0" ++ [nl] ++ # "cur 25.00"; # "mean 25.0"].
Proof. eexists. split; vm_compute; reflexivity. Qed.
