(* ===== verification/NrPlot.v ===== *)
(** * The throughput figure of node replication (concurrency/node-replication/plot.py)

    The script reads the results of a benchmark into a data frame of pandas,
    selects and completes its rows, and describes a figure to plotnine.  The
    frame is an instance of the class [Pandas], which promises what the
    documentation says of selections, columns and copies: rows are kept in order
    and handled one by one.  A frame has the columns of the results; the one
    pandas makes of an empty data.json has none, and the script stops with
    [KeyError] at the first of them.  The figure is a record of what plotnine is given:
    data, scales, layers, theme and the files saved. *)
From S2P Require Import Prelude PyStr PyFloat.
From Stdlib Require Import ZArith.

(** ** Rows and frames *)

(** A row of data.json with the columns the script adds; [None] is a missing
    value. *)
Record obs := Obs {
  bench_name : option str; n_threads : Z; n_replicas : option Z; reads_pct : Z; ops_per_s : float;
  config : str; write_ratio : Z
}.

Class Pandas := {
  frame : Type;
  rows : frame -> list obs;
  loc : (obs -> bool) -> frame -> frame;        (* df.loc[mask] *)
  assign : (obs -> obs) -> frame -> frame;      (* df[column] = ..., row by row *)
  rows_loc : forall p df, rows (loc p df) = List.filter p (rows df);
  rows_assign : forall f df, rows (assign f df) = map f (rows df)
}.

#[export] Instance table_pandas : Pandas := {|
  frame := list obs; rows := fun l => l; loc := @List.filter obs; assign := @map obs obs;
  rows_loc := fun _ _ => eq_refl; rows_assign := fun _ _ => eq_refl
|}.

(** ** Columns *)

Definition with_config (o : obs) (c : str) : obs :=
  Obs (bench_name o) (n_threads o) (n_replicas o) (reads_pct o) (ops_per_s o) c (write_ratio o).
Definition with_name (o : obs) (n : option str) : obs :=
  Obs n (n_threads o) (n_replicas o) (reads_pct o) (ops_per_s o) (config o) (write_ratio o).
Definition with_replicas (o : obs) (n : option Z) : obs :=
  Obs (bench_name o) (n_threads o) n (reads_pct o) (ops_per_s o) (config o) (write_ratio o).
Definition with_ratio (o : obs) (w : Z) : obs :=
  Obs (bench_name o) (n_threads o) (n_replicas o) (reads_pct o) (ops_per_s o) (config o) w.

(** [astype(CategoricalDtype(categories))]: what is no category is missing. *)
Definition categorical {A} `{EqDecision A} (categories : list A) (v : option A) : option A :=
  match v with Some x => if bool_decide (x ∈ categories) then Some x else None | None => None end.

(** [df[c].unique()]: the values in the order they first appear. *)
Fixpoint unique {A} `{EqDecision A} (l : list A) : list A :=
  match l with [] => [] | x :: l' => x :: List.filter (fun y => bool_decide (y <> x)) (unique l') end.

Definition MACHINES : list (str * Z * Z * str) := [( # "skylake4x", 192%Z, 4%Z, # "4b3c410")].

Definition all_names : list str :=
  [ # "dafny_nr"; # "rust_nr"; # "dafny_rwlock"; # "shfllock"; # "mcs"; # "cpp_shared_mutex"].
Definition nr_names : list str := [ # "dafny_nr"; # "rust_nr"].

(** The config of a row: its name with the number of its replicas. *)
Definition config_of (o : obs) : str :=
  default [] (bench_name o) ++ match n_replicas o with Some n => dec_Z n | None => # "nan" end.

(** ** The figure *)

(** One vertical segment of a facet. *)
Record segment := Segment {
  seg_config : str; seg_name : option str; seg_ratio : Z; seg_threads : float; seg_yend : float
}.

(** The size of the figure: inches, from the width of a column. *)
Definition LATEX_TEMPLATE_COLUMNWIDTH : float := float_of_dec 28 (-1).
Definition LATEX_TEMPLATE_COLUMNWDITH_UNIT : str := "in".
Definition PLOT_WIDTH : float := LATEX_TEMPLATE_COLUMNWIDTH.
Definition PLOT_SIZE_UNIT : str := LATEX_TEMPLATE_COLUMNWDITH_UNIT.
Definition PLOT_ASPECT_RATIO : res float := int_div 16 4.
Definition PLOT_HEIGHT : res float := ratio ← PLOT_ASPECT_RATIO; fdiv PLOT_WIDTH ratio.

(** A file saved, and what is drawn over the axes: sizes are in the tenths and
    hundredths the program writes. *)
Record saved := Saved { sv_file : str; sv_dpi : nat; sv_width : float; sv_height : float; sv_units : str }.
Inductive layer :=
  | Points (size : float)
  | Lines (size : float)
  | Facets (columns : list str) (scales : str)
  | Segments (color : str) (size : float) (linetypes : list str).

(** A value of a theme. *)
Inductive theme_value :=
  | SNum (x : float)
  | SStr (s : str)
  | SNone
  | SBlank
  | SElement (props : list (str * theme_value)).
Definition SInt (z : Z) : theme_value := SNum (float_of_Z z).
Definition STenth (z : Z) : theme_value := SNum (float_of_dec z (-1)).

(** [theme_my538] with the base size given. *)
Definition theme_my538 (base_size : Z) : list (str * theme_value) :=
  let bgcolor := SStr "#FFFFFF" in
  [ (# "strip_margin", SInt 0); (# "strip_margin_x", SInt 0); (# "strip_margin_y", SInt 0);
    (# "legend_box_margin", SInt 0); (# "legend_margin", SInt 0);
    (# "axis_title", SElement [(# "size", SInt base_size)]);
    (# "axis_title_y", SElement [(# "size", SInt base_size); (# "margin", SElement [(# "l", SInt 0); (# "r", SInt 0)])]);
    (# "axis_text_x", SElement [(# "size", SInt base_size); (# "margin", SElement [(# "t", SInt 12)])]);
    (# "axis_text_y", SElement [(# "size", SInt base_size); (# "margin", SElement [(# "r", SInt 12)])]);
    (# "axis_ticks_length", SInt (-10)); (# "axis_ticks", SElement [(# "size", STenth 5)]);
    (# "title", SElement [(# "color", SStr "#3C3C3C")]);
    (# "legend_text", SElement [(# "size", SInt (base_size - 1))]);
    (# "legend_background", SElement [(# "fill", SStr "None"); (# "color", SStr "#000000"); (# "size", STenth 2);
                                      (# "linetype", SStr "solid")]);
    (# "legend_key", SElement [(# "fill", SStr "#FFFFFF"); (# "colour", SNone)]);
    (# "panel_background", SElement [(# "fill", bgcolor)]);
    (# "panel_border", SElement [(# "color", SStr "#000000"); (# "linetype", SStr "solid"); (# "size", STenth 2)]);
    (# "panel_grid_major", SBlank); (# "panel_grid_minor", SBlank); (# "panel_spacing", SNum (float_of_dec 25 (-2)));
    (# "plot_background", SElement [(# "fill", bgcolor); (# "color", bgcolor); (# "size", SInt 1)]);
    (# "plot_margin", SInt 0);
    (# "strip_background", SElement [(# "fill", SStr "#FFFFFF"); (# "size", STenth 2)]) ].

(** [theme_my538()] and the theme added after it, whose settings come last. *)
Definition plot_theme : list (str * theme_value) :=
  theme_my538 7 ++ [(# "legend_position", SStr "top"); (# "legend_title", SBlank)].

Record figure (F : Type) := Figure {
  fig_data : F;
  fig_by_config : bool;                  (* lines per config, styled by replicas *)
  fig_x_breaks : list nat;
  fig_labels : list str; fig_breaks : list str;
  fig_colors : list str; fig_shapes : list str;
  fig_segments : list segment;
  fig_theme : list (str * theme_value);
  fig_layers : list layer;
  fig_saved : list saved
}.
Arguments Figure {F}.
Arguments fig_data {F}. Arguments fig_by_config {F}. Arguments fig_x_breaks {F}. Arguments fig_labels {F}.
Arguments fig_breaks {F}. Arguments fig_colors {F}. Arguments fig_shapes {F}. Arguments fig_segments {F}.
Arguments fig_theme {F}. Arguments fig_layers {F}. Arguments fig_saved {F}.

Definition colors : list str := [ # "#bf0040"; # "#0000ff"; # "#4daf4a"; # "#984ea3"; # "#ff7f00"; # "#f781bf"].
Definition shapes : list str := [ # "s"; # "o"; # "D"; # "^"; # "v"; # "*"].

(** The label of a value of the y axis: millions, without decimals, in groups of
    three digits. *)
Fixpoint group_digits (n : nat) (ds : str) : str :=
  match ds with
  | [] => []
  | d :: ds' => d :: (if (n mod 3 =? 1) && negb (n =? 1) then "," ++ group_digits (pred n) ds' else group_digits (pred n) ds')
  end.
Definition y_label (x : float) : res str :=
  q ← fdiv x (float_of_Z 1000000);
  let s := fmt_fixed 0 q in
  let '(sign, ds) := match s with
                     | c :: s' => if bool_decide (c = "-"%char) then ([c], s') else ([], s)
                     | [] => ([], [])
                     end in
  Ok (sign ++ group_digits (length ds) ds ++ "M").

(** Python's [max] of floats: the first element that no later one exceeds. *)
Definition max_float (l : list float) : res float :=
  match l with [] => Raise ValueError | x :: l' => Ok (fold_left (fun m y => if fltb m y then y else m) l' x) end.

Definition first_of {A} (l : list A) : res A := nth_res l 0.

Section plot.
Context {P : Pandas}.

(** The rows drawn, of a frame with the columns of the results: configs and
    categories, four threads and more, the share of writes. *)
Definition prepare (df : frame) : frame :=
  let df := assign (fun o => with_config o (config_of o)) df in
  let df := assign (fun o => with_name o (categorical all_names (bench_name o))) df in
  let df := loc (fun o => (4 <=? n_threads o)%Z) df in
  assign (fun o => with_ratio o (100 - reads_pct o)) df.

(** [df.loc[df['bench_name'].isin(['dafny_nr', 'rust_nr'])]] and the categories
    of that figure. *)
Definition only_nr (df : frame) : frame :=
  let df := loc (fun o => match bench_name o with Some n => bool_decide (n ∈ nr_names) | None => false end) df in
  let df := assign (fun o => with_name o (categorical nr_names (bench_name o))) df in
  assign (fun o => with_replicas o (categorical [1; 2; 4]%Z (n_replicas o))) df.

(** The segment at the number of physical cores of each share of writes, as high
    as its best result. *)
Definition annotations (machine : str * Z * Z * str) (df : frame) : res (list segment) :=
  let '(_, max_cores, _, _) := machine in
  name ← first_of (unique (map bench_name (rows df)));
  conf ← first_of (unique (map config (rows df)));
  phys_cores ← fdiv (float_of_Z max_cores) (float_of_Z 2);
  map_res (fun wr =>
      m ← max_float (map ops_per_s (rows (loc (fun o => bool_decide (write_ratio o = wr)) df)));
      Ok (Segment conf name wr phys_cores m))
    (unique (map write_ratio (rows df))).

Definition x_breaks (max_cores : Z) : res (list nat) :=
  let xskip := Z.to_nat (Z.quot max_cores 4) in
  if xskip =? 0 then Raise ValueError else Ok ([1; 4] ++ py_range xskip 513 xskip).

Definition file_names (machine_name graph : str) : list str :=
  map (fun ext => machine_name ++ "-throughput-vs-cores-" ++ graph ++ ext) [ # ".png"; # ".pdf"; # ".pgf"].

(** The layers before and after the annotations, and the files saved. *)
Definition base_layers : list layer :=
  [Points (float_of_dec 5 (-1)); Lines (float_of_dec 1 (-1)); Facets [ # "write_ratio"] "free"].
Definition segment_layer : layer := Segments "black" (float_of_dec 1 (-1)) [ # "dotted"; # "dashed"].
Definition save_all (machine_name graph : str) : res (list saved) :=
  height ← PLOT_HEIGHT;
  Ok (map (fun file => Saved file 300 PLOT_WIDTH height PLOT_SIZE_UNIT) (file_names machine_name graph)).

(** [throughput_vs_cores], for machines with at least four cores.  [breaks] is a
    local variable that only the first graph assigns. *)
Definition throughput_vs_cores (machine : str * Z * Z * str) (df : frame) (graph : str) : res (figure frame) :=
  let '(name, max_cores, _, _) := machine in
  let df := prepare df in
  let locks := bool_decide (graph = # "compare-locks") in
  let '(df, labels, breaks) :=
    if locks then
      (df, [ # "IronSync-NR"; # "Reference-NR"; # "DistRwLock"; # "Shuffle Lock"; # "MCS"; # "libstdc++ shared_mutex"],
       Ok all_names)
    else (only_nr df, [ # "Dafny NR"; # "Rust NR"], Raise (NameError "breaks")) in
  xs ← x_breaks max_cores;
  breaks ← breaks;
  segs ← annotations machine df;
  files ← save_all name graph;
  Ok (Figure df (negb locks) xs labels breaks colors shapes segs plot_theme (base_layers ++ [segment_layer]) files).

(** The script: one figure per machine, from a copy of the data. *)
Definition main (read_json : frame) : res (list (figure frame)) :=
  map_res (fun machine => throughput_vs_cores machine read_json "compare-locks") MACHINES.
End plot.

(** ** What is drawn *)

Lemma elem_of_unique {A} `{EqDecision A} (l : list A) x : x ∈ unique l <-> x ∈ l.
Proof.
  induction l as [|y l IH]; [done|]. cbn [unique]. rewrite !elem_of_cons.
  rewrite list_elem_of_In, filter_In, <- list_elem_of_In, IH.
  destruct (decide (x = y)) as [->|Hn]; [naive_solver|]. rewrite bool_decide_eq_true_2 by done. naive_solver.
Qed.

Lemma NoDup_unique {A} `{EqDecision A} (l : list A) : NoDup (unique l).
Proof.
  induction l as [|y l IH]; cbn [unique]; constructor.
  - rewrite list_elem_of_In, filter_In, <- list_elem_of_In. intros [_ H%bool_decide_eq_true]. done.
  - apply NoDup_ListNoDup, List.NoDup_filter, NoDup_ListNoDup, IH.
Qed.

(** The maximum is one of the elements, and none exceeds it. *)
Lemma max_float_spec l m :
  Forall (fun x => is_nan x = false) l -> max_float l = Ok m -> m ∈ l /\ Forall (fun y => fltb m y = false) l.
Proof.
  destruct l as [|x l]; [done|]. cbn [max_float]. intros Hn [= <-]. apply Forall_cons_1 in Hn as [Hx Hl].
  assert (Hgen : forall m seen, is_nan m = false -> m ∈ seen -> Forall (fun y => is_nan y = false) seen ->
            Forall (fun y => fltb m y = false) seen ->
            let r := fold_left (fun m y => if fltb m y then y else m) l m in
            r ∈ seen ++ l /\ Forall (fun y => fltb r y = false) (seen ++ l)).
  { clear x Hx. induction Hl as [|y l Hy Hl IH]; intros m seen Hm Hin Hns Hmax; cbn [fold_left]; [by rewrite app_nil_r|].
    specialize (IH (if fltb m y then y else m) (seen ++ [y])). rewrite <- app_assoc in IH. apply IH.
    - by destruct (fltb m y).
    - destruct (fltb m y); apply elem_of_app; [right; apply list_elem_of_here|by left].
    - apply Forall_app. split; [done|]. by constructor.
    - apply Forall_app. destruct (fltb m y) eqn:E; (split; [|constructor; [|constructor]]); [|apply fltb_irrefl|done|done].
      rewrite Forall_forall in Hmax, Hns |- *. intros z Hz. apply (not_fltb_trans z m y); auto. by apply fltb_asym. }
  apply (Hgen x [x]); [done|apply list_elem_of_here|by constructor|constructor; [apply fltb_irrefl|constructor]].
Qed.

(** A row as it is drawn. *)
Definition complete (o : obs) : obs :=
  let o := with_config o (config_of o) in
  let o := with_name o (categorical all_names (bench_name o)) in
  with_ratio o (100 - reads_pct o).

Section drawn.
Context {P : Pandas}.

Lemma rows_prepare df :
  rows (prepare df) = map complete (List.filter (fun o => (4 <=? n_threads o)%Z) (rows df)).
Proof.
  unfold prepare. rewrite rows_assign, rows_loc, !rows_assign, map_map.
  induction (rows df) as [|o l IH]; [done|]. cbn [map List.filter]. cbn [n_threads with_name with_config].
  destruct (4 <=? n_threads o)%Z; cbn [map]; by rewrite IH.
Qed.

(** A facet: the results of one share of writes. *)
Definition facet (df : frame) (wr : Z) : list float :=
  map ops_per_s (List.filter (fun o => bool_decide (write_ratio o = wr)) (rows df)).

Lemma facet_elem df wr x : x ∈ facet df wr <-> exists o, o ∈ rows df /\ write_ratio o = wr /\ ops_per_s o = x.
Proof.
  unfold facet. rewrite list_elem_of_fmap. split.
  - intros (o & -> & Ho). rewrite list_elem_of_In, filter_In, <- list_elem_of_In in Ho.
    destruct Ho as [Ho Hw%bool_decide_eq_true]. eauto.
  - intros (o & Ho & Hw & <-). exists o. split; [done|]. rewrite list_elem_of_In, filter_In, <- list_elem_of_In.
    split; [done|]. by apply bool_decide_eq_true.
Qed.

(** The segment of a facet: at half the cores, at its best result. *)
Definition tops (max_cores : Z) (df : frame) (wr : Z) (s : segment) : Prop :=
  seg_ratio s = wr /\ seg_threads s = SFdiv fprec femax (float_of_Z max_cores) (float_of_Z 2) /\
  seg_yend s ∈ facet df wr /\ Forall (fun y => fltb (seg_yend s) y = false) (facet df wr).

Lemma annotations_tops name max_cores s r df :
  Forall (fun o => is_nan (ops_per_s o) = false) (rows df) ->
  match annotations (name, max_cores, s, r) df with
  | Ok segs => rows df <> [] /\ Forall2 (tops max_cores df) (unique (map write_ratio (rows df))) segs
  | Raise e => e = IndexError /\ rows df = []
  end.
Proof.
  intros Hnan. unfold annotations.
  destruct (decide (length (rows df) = 0)) as [Hr%length_zero_iff_nil|Hr]; [by rewrite Hr|].
  assert (Hfirst : forall A (EQ : EqDecision A) (f : obs -> A), exists x, first_of (unique (map f (rows df))) = Ok x).
  { intros A EQ f. destruct (rows df) as [|o l]; [done|]. by exists (f o). }
  destruct (Hfirst _ _ bench_name) as [nm ->], (Hfirst _ _ config) as [cf ->]. rewrite !bind_of_Ok.
  rewrite fdiv_Ok, bind_of_Ok by done.
  set (wrs := unique (map write_ratio (rows df))).
  assert (Hw : forall wr, wr ∈ wrs -> exists o, o ∈ rows df /\ write_ratio o = wr).
  { intros wr (o' & -> & Ho)%elem_of_unique%list_elem_of_fmap. eauto. }
  clearbody wrs.
  assert (Hs : exists segs, map_res (fun wr =>
      m ← max_float (map ops_per_s (rows (loc (fun o => bool_decide (write_ratio o = wr)) df)));
      Ok (Segment cf nm wr (SFdiv fprec femax (float_of_Z max_cores) (float_of_Z 2)) m)) wrs = Ok segs /\
      Forall2 (tops max_cores df) wrs segs).
  { induction wrs as [|wr wrs IH]; [by exists []|]. cbn [map_res]. rewrite rows_loc. fold (facet df wr).
    destruct IH as (segs & E & IH); [intros wr' H'; apply Hw; by apply list_elem_of_further|].
    destruct (max_float (facet df wr)) as [m|e] eqn:Em.
    - rewrite !bind_of_Ok, E. eexists. split; [done|]. constructor; [|done].
      apply max_float_spec in Em as [Hin Hmax]; [|].
      + by split_and!.
      + apply Forall_forall. intros x (o' & Ho & _ & <-)%facet_elem. rewrite Forall_forall in Hnan. by apply Hnan.
    - destruct (Hw wr) as (o' & Ho & Ho'); [apply list_elem_of_here|].
      assert (ops_per_s o' ∈ facet df wr) by (apply facet_elem; eauto).
      destruct (facet df wr); [by apply not_elem_of_nil in H|done]. }
  destruct Hs as (segs & -> & Hf). split; [|done]. intros E. by rewrite E in Hr.
Qed.

Lemma x_breaks_some max_cores : (4 <= max_cores)%Z -> exists xs, x_breaks max_cores = Ok xs.
Proof.
  intros Hc. unfold x_breaks. assert (1 <= Z.quot max_cores 4)%Z.
  { rewrite Z.quot_div_nonneg by lia. apply Z.div_le_lower_bound; lia. }
  rewrite (proj2 (Nat.eqb_neq _ _)) by lia. eauto.
Qed.

(** C38. The figure that compares the locks, for a machine with four cores or
    more: it draws exactly the results with at least four threads, in the order
    of the data; each benchmark that is known has one label, colour and shape,
    the six labels standing for the six names in order; there is one segment per
    share of writes, at half the cores and as high as the best result of that
    share; it is saved in three formats, a column wide and a quarter of that
    high.  Without a result to draw the script stops with [IndexError]. *)
Theorem throughput_figure name max_cores s r df :
  (4 <= max_cores)%Z -> Forall (fun o => is_nan (ops_per_s o) = false) (rows df) ->
  let drawn := map complete (List.filter (fun o => (4 <=? n_threads o)%Z) (rows df)) in
  match throughput_vs_cores (name, max_cores, s, r) df "compare-locks" with
  | Ok fig =>
      rows (fig_data fig) = drawn /\ drawn <> [] /\
      combine (fig_breaks fig) (fig_labels fig) =
        [( # "dafny_nr", # "IronSync-NR"); ( # "rust_nr", # "Reference-NR"); ( # "dafny_rwlock", # "DistRwLock");
         ( # "shfllock", # "Shuffle Lock"); ( # "mcs", # "MCS"); ( # "cpp_shared_mutex", # "libstdc++ shared_mutex")] /\
      NoDup (fig_colors fig) /\ NoDup (fig_shapes fig) /\
      length (fig_colors fig) = length (fig_breaks fig) /\ length (fig_shapes fig) = length (fig_breaks fig) /\
      Forall2 (tops max_cores (fig_data fig)) (unique (map write_ratio drawn)) (fig_segments fig) /\
      map sv_file (fig_saved fig) = map (fun ext => name ++ "-throughput-vs-cores-compare-locks" ++ ext) [ # ".png"; # ".pdf"; # ".pgf"] /\
      Forall (fun f => sv_width f = PLOT_WIDTH /\ sv_units f = # "in" /\ fmul (float_of_Z 4) (sv_height f) = PLOT_WIDTH) (fig_saved fig)
  | Raise e => e = IndexError /\ Forall (fun o => (n_threads o < 4)%Z) (rows df)
  end.
Proof.
  intros Hc Hnan drawn. unfold throughput_vs_cores. change (bool_decide (# "compare-locks" = # "compare-locks")) with true.
  cbv iota beta. destruct (x_breaks_some max_cores Hc) as [xs ->]. rewrite !bind_of_Ok.
  assert (Hd : rows (prepare df) = drawn) by apply rows_prepare.
  assert (Hdn : Forall (fun o => is_nan (ops_per_s o) = false) drawn).
  { apply Forall_fmap, Forall_forall. intros o Ho. rewrite list_elem_of_In, filter_In, <- list_elem_of_In in Ho.
    rewrite Forall_forall in Hnan. apply (Hnan o), Ho. }
  pose proof (annotations_tops name max_cores s r (prepare df)) as Ha. rewrite Hd in Ha.
  destruct (annotations _ _) as [segs|e].
  - rewrite bind_of_Ok. assert (Hh : exists h, PLOT_HEIGHT = Ok h /\ fmul (float_of_Z 4) h = PLOT_WIDTH)
      by (eexists; split; vm_compute; reflexivity).
    destruct Hh as (h & Hh & Hw). unfold save_all. rewrite Hh, !bind_of_Ok. cbn [fig_data fig_saved fig_breaks fig_labels fig_colors fig_shapes fig_segments].
    destruct (Ha Hdn) as [Hne Hs].
    split; [exact Hd|]. split; [exact Hne|]. split; [done|].
    split; [apply (bool_decide_unpack _); vm_compute; exact I|]. split; [apply (bool_decide_unpack _); vm_compute; exact I|].
    do 2 (split; [done|]). split; [exact Hs|]. split; [done|].
    apply Forall_map, Forall_forall. intros f _. cbn [sv_width sv_units sv_height]. split; [reflexivity|]. split; [reflexivity|exact Hw].
  - cbn. destruct (Ha Hdn) as [-> Hn].
    split; [done|]. apply Forall_forall. intros o Ho. destruct (4 <=? n_threads o)%Z eqn:E; [|lia].
    assert (Hin : complete o ∈ drawn).
    { unfold drawn. apply list_elem_of_fmap. exists o. split; [done|].
      by rewrite list_elem_of_In, filter_In, <- list_elem_of_In. }
    rewrite Hn in Hin. by apply not_elem_of_nil in Hin.
Qed.

(** The other graph, whose call is commented out, cannot be drawn: the local
    [breaks] is assigned for the first graph only. *)
Lemma other_graph_unbound name max_cores s r df (graph : str) :
  (4 <= max_cores)%Z -> graph <> "compare-locks" ->
  throughput_vs_cores (name, max_cores, s, r) df graph = Raise (NameError "breaks").
Proof.
  intros Hc Hg. unfold throughput_vs_cores. rewrite (bool_decide_eq_false_2 _ Hg). cbv iota beta.
  by destruct (x_breaks_some max_cores Hc) as [xs ->].
Qed.
End drawn.

Definition demo_row (name : str) (threads reads ops : Z) : obs :=
  Obs (Some name) threads (Some 4%Z) reads (float_of_Z ops) [] 0.
Definition demo_rows : list obs :=
  [demo_row "mcs" 96 100 7; demo_row "rust_nr" 1 100 50; demo_row "rust_nr" 192 100 9; demo_row "mcs" 8 90 3].

Lemma throughput_figure_witness :
  (4 <= 192)%Z /\ exists fig,
    throughput_vs_cores (P := table_pandas) ( # "skylake4x", 192%Z, 4%Z, # "4b3c410") demo_rows "compare-locks" = Ok fig /\
    map seg_ratio (fig_segments fig) = [0; 10]%Z /\ map seg_yend (fig_segments fig) = [float_of_Z 9; float_of_Z 3] /\
    Forall2 (tops (P := table_pandas) 192 (fig_data fig)) [0; 10]%Z (fig_segments fig).
Proof.
  split; [lia|].
  pose proof (throughput_figure (P := table_pandas) (# "skylake4x") 192 4 (# "4b3c410") demo_rows ltac:(lia)
    ltac:(repeat constructor)) as H. cbv zeta in H.
  destruct (throughput_vs_cores _ _ _) as [fig|e] eqn:E; [|vm_compute in E; discriminate E].
  exists fig. split; [done|]. destruct H as (_ & _ & _ & _ & _ & _ & _ & H & _).
  vm_compute in E. injection E as <-. split_and!; [reflexivity|reflexivity|exact H].
Defined.

Example y_labels :
  map_res y_label [float_of_Z 2500000; float_of_Z 1234567000000] = Ok [ # "2M"; # "1,234,567M"].
Proof. vm_compute. reflexivity. Qed.
