(* ===== verification/BtreePlots.v ===== *)
(** * B-tree benchmark figures (tools/plot/plot-linear-experiments.py)

    The results files of a benchmark name a branch and list running times by
    mode and size; the files of one branch are merged, and each mode becomes a
    bar chart.  [np.mean] and [np.std] are arguments; a chart is the list of its
    bars. *)
From S2P Require Import Prelude PyStr Paths PyFloat Trace.
From Stdlib Require Import ZArith.

(** ** Cases and experiments *)

(** [Case]: the results at each insert size. *)
Definition case := dict Z (list float).

Definition case_get (c : case) (k : Z) : list float := default [] (dict_get c k).

Definition case_add (k : Z) (v : float) (c : case) : case := dict_set k (case_get c k ++ [v]) c.

Definition sizes (c : case) : list Z := dict_keys c.

(** [set(self.sizes()).union(other.sizes())]. *)
Definition key_union (a b : list Z) : list Z := remove_dups (a ++ b).

Record exp := Exp { metadata : dict str str; cases : dict str case }.
Definition new_exp : exp := Exp [] [(# "read", []); (# "write", [])].
Definition branch (e : exp) : res str := of_option KeyError (dict_get (metadata e) "branch").

Section scripts.
Context {order : SetOrder}.

(** [Case.update]: our results first, then the other's. *)
Definition case_update (c other : case) : case :=
  fold_left (fun d k => dict_set k (case_get d k ++ case_get other k) d)
    (set_order (key_union (sizes c) (sizes other))) c.

Definition exp_update (e other : exp) : res exp :=
  cs ← for_each (fun cs mode => c ← of_option KeyError (dict_get cs mode);
                                o ← of_option KeyError (dict_get (cases other) mode);
                                Ok (dict_set mode (case_update c o) cs))
         (dict_keys (cases e)) (cases e);
  Ok (Exp (metadata e) cs).

(** ** Reading the files *)

Definition results_line (e : exp) (line : str) : res exp :=
  let fs := fields line in
  if startswith line "METADATA" then
    key ← nth_res fs 1; Ok (Exp (dict_set key (join " " (drop 2 fs)) (metadata e)) (cases e))
  else
    size_text ← nth_res fs 0; size ← py_int size_text;
    mode ← nth_res fs 1;
    time_text ← nth_res fs 3; time_ms ← py_float time_text;
    c ← of_option KeyError (dict_get (cases e) mode);
    Ok (Exp (metadata e) (dict_set mode (case_add size time_ms c) (cases e))).

Definition parse (contents : str) : res exp := for_each results_line (readlines contents) new_exp.

(** One file of [parseSeveral]: what the branch has so far is added to it. *)
Definition parse_file (exps : dict str exp) (contents : str) : res (dict str exp) :=
  e ← parse contents;
  b ← branch e;
  e ← (match dict_get exps b with Some old => exp_update e old | None => Ok e end);
  b ← branch e;
  Ok (dict_set b e exps).

Definition parseSeveral (files : list str) : res (dict str exp) := for_each parse_file files [].

(** ** The charts *)

Context (np_mean np_std : list float -> float).

(** [size/t], and the mean and deviation of the rates. *)
Definition rates (c : case) (size : Z) : res (list float) :=
  ts ← of_option KeyError (dict_get c size);
  map_res (fun t => s ← int_to_float size; fdiv s t) ts.
Definition rate_mean (c : case) (size : Z) : res float := rs ← rates c size; Ok (np_mean rs).
Definition rate_stddev (c : case) (size : Z) : res float := rs ← rates c size; Ok (np_std rs).

(** The bars of one experiment: bar_position, height, error. *)
Record bar := Bar { bar_x : float; bar_rate : float; bar_err : float }.
Definition thousandth (x : float) : res float := fdiv x (float_of_Z 1000).
Definition width : float := float_of_dec 4 (-1).
Definition bar_position (i : nat) (expi : float) : float := fadd (float_of_Z (Z.of_nat i)) expi.

Definition bars (expi : nat) (e : exp) (mode : str) : res (list bar * str) :=
  c ← of_option KeyError (dict_get (cases e) mode);
  rs ← map_res (fun size => r ← rate_mean c size; thousandth r) (sizes c);
  errs ← map_res (fun size => r ← rate_stddev c size; thousandth r) (sizes c);
  b ← branch e;
  let shift := fmul width (float_of_Z (Z.of_nat expi)) in
  Ok (imap (fun i '(r, err) => Bar (bar_position i shift) r err) (combine rs errs), b).

(** The ticks use the sizes of the last experiment of the loop; without one
    the variables are unbound. *)
Definition ticks (exps : list exp) (mode : str) : res (list (float * str)) :=
  e ← of_option (NameError "xpos") (last exps);
  c ← of_option KeyError (dict_get (cases e) mode);
  shift ← fdiv (fmul width (float_of_Z (Z.of_nat (length exps) - 1))) (float_of_Z 2);
  labels ← map_res (fun size => s ← int_to_float size; q ← fdiv s (float_of_Z 1000000); n ← float_trunc q; Ok (dec_Z n))
             (sizes c);
  Ok (imap (fun i l => (bar_position i shift, l)) labels).

Definition plot_case (exps : list exp) (mode : str) : res (list (list bar * str) * list (float * str)) :=
  bs ← map_res (fun '(i, e) => bars i e mode) (imap pair exps);
  ts ← ticks exps mode;
  Ok (bs, ts).

Definition linear_plot (data : dict str exp) :=
  r ← plot_case (map snd data) "read"; w ← plot_case (map snd data) "write"; Ok (r, w).

Definition linear_main (files : list str) := data ← parseSeveral files; linear_plot data.
End scripts.

(** ** Merging *)

(** The results of a mode at a size. *)
Definition times (e : exp) (mode : str) (k : Z) : list float :=
  case_get (default [] (dict_get (cases e) mode)) k.

Definition modes : list str := [ # "read"; # "write"].
Definition well_formed (e : exp) : Prop := dict_keys (cases e) = modes.

Lemma dict_get_mode {V} (d : dict str V) mode : dict_keys d = modes -> mode ∈ modes -> is_Some (dict_get d mode).
Proof. intros H Hm. apply dict_get_keys. by rewrite H. Qed.

Lemma dict_set_present {V} (d : dict str V) k v : k ∈ dict_keys d -> dict_keys (dict_set k v d) = dict_keys d.
Proof. intros H. rewrite dict_set_keys. by destruct (decide _). Qed.

Section merge.
Context {order : SetOrder}.

Lemma case_get_set c k v k' : case_get (dict_set k v c) k' = if bool_decide (k = k') then v else case_get c k'.
Proof. unfold case_get. rewrite dict_get_set. by case_bool_decide. Qed.

Lemma case_update_get c other k : case_get (case_update c other) k = case_get c k ++ case_get other k.
Proof.
  unfold case_update. set (U := set_order _).
  assert (HU : U ≡ₚ key_union (sizes c) (sizes other)) by apply set_order_law.
  assert (Hnd : NoDup U) by (rewrite HU; apply NoDup_remove_dups).
  assert (Hgen : forall d, case_get (fold_left (fun d k => dict_set k (case_get d k ++ case_get other k) d) U d) k =
            if decide (k ∈ U) then case_get d k ++ case_get other k else case_get d k).
  { clear HU. induction Hnd as [|x U Hx HU IH]; intros d; cbn [fold_left]; [done|]. rewrite IH, case_get_set.
    destruct (decide (k ∈ U)) as [Hin|Hin], (decide (k ∈ x :: U)) as [Hin'|Hin'].
    - rewrite bool_decide_eq_false_2; [done|by intros ->].
    - destruct Hin'. by apply list_elem_of_further.
    - apply elem_of_cons in Hin' as [->|]; [|done]. by rewrite bool_decide_eq_true_2.
    - rewrite bool_decide_eq_false_2; [done|]. intros ->. apply Hin', list_elem_of_here. }
  rewrite Hgen. destruct (decide (k ∈ U)) as [|Hn]; [done|].
  assert (Ho : dict_get other k = None).
  { apply eq_None_not_Some. rewrite dict_get_keys. intros Hk. apply Hn. rewrite HU.
    apply elem_of_remove_dups, elem_of_app. by right. }
  unfold case_get at 3. rewrite Ho. by rewrite app_nil_r.
Qed.

Lemma exp_update_spec e other :
  well_formed e -> well_formed other ->
  exists e', exp_update e other = Ok e' /\ well_formed e' /\ metadata e' = metadata e /\
    forall mode k, mode ∈ modes -> times e' mode k = times e mode k ++ times other mode k.
Proof.
  unfold exp_update, well_formed, times. intros He Ho. rewrite He. unfold modes at 1.
  destruct (dict_get_mode (cases e) (# "read") He ltac:(notin)) as [cr Hcr].
  destruct (dict_get_mode (cases e) (# "write") He ltac:(notin)) as [cw Hcw].
  destruct (dict_get_mode (cases other) (# "read") Ho ltac:(notin)) as [or Hor].
  destruct (dict_get_mode (cases other) (# "write") Ho ltac:(notin)) as [ow How].
  cbn [for_each]. rewrite Hcr, Hor. cbn [of_option]. rewrite !bind_of_Ok, How.
  rewrite dict_get_set, bool_decide_eq_false_2, Hcw by (by apply (bool_decide_unpack _); vm_compute).
  cbn [of_option]. rewrite !bind_of_Ok. eexists. split; [done|]. cbn [cases metadata]. split_and!; [|done|].
  - by rewrite !dict_set_present; rewrite ?dict_set_present; rewrite ?He; try notin.
  - intros mode k Hm. rewrite !dict_get_set.
    apply elem_of_cons in Hm as [->|[->|Hm%not_elem_of_nil]%elem_of_cons]; [| |done].
    + rewrite (bool_decide_eq_false_2 (# "write" = # "read")) by notin.
      rewrite (bool_decide_eq_true_2 (# "read" = # "read")), Hcr, Hor by done. apply case_update_get.
    + rewrite (bool_decide_eq_true_2 (# "write" = # "write")), Hcw, How by done. apply case_update_get.
Qed.

Lemma results_line_wf e line e' : results_line e line = Ok e' -> well_formed e -> well_formed e'.
Proof.
  unfold results_line, well_formed. intros Hp He. destruct (startswith line "METADATA").
  - apply bind_Ok in Hp as (k & _ & [= <-]). done.
  - repeat (apply bind_Ok in Hp as (? & ? & Hp)). injection Hp as <-. cbn [cases].
    rewrite dict_set_present; [done|]. apply dict_get_keys.
    match goal with H : of_option KeyError ?o = Ok _ |- is_Some ?o => by destruct o end.
Qed.

Lemma parse_wf contents e : parse contents = Ok e -> well_formed e.
Proof.
  unfold parse. assert (H : well_formed new_exp) by done. revert H. generalize new_exp.
  induction (readlines contents) as [|l ls IH]; intros e0 H0; cbn [for_each]; [by intros [= ->]|].
  rewrite bind_Ok. intros (e1 & H1 & H2). apply (IH e1); [|done]. by eapply results_line_wf.
Qed.

Definition on_branch (b : str) (e : exp) : Prop := dict_get (metadata e) "branch" = Some b.
#[local] Instance on_branch_dec b e : Decision (on_branch b e).
Proof. unfold on_branch. apply _. Defined.

Lemma branch_on e b : branch e = Ok b -> on_branch b e.
Proof. unfold branch, on_branch. destruct (dict_get (metadata e) "branch"); cbn; congruence. Qed.

(** The results of the files of a branch, the latest file first. *)
Definition branch_times (es : list exp) (b mode : str) (k : Z) : list float :=
  concat (map (fun e => times e mode k) (rev (filter (on_branch b) es))).

Definition merged (es : list exp) (d : dict str exp) : Prop :=
  forall b, match dict_get d b with
            | Some e => well_formed e /\ on_branch b e /\ Exists (on_branch b) es /\
                        (forall mode k, mode ∈ modes -> times e mode k = branch_times es b mode k)
            | None => ~ Exists (on_branch b) es
            end.

Lemma branch_times_snoc es e b mode k :
  branch_times (es ++ [e]) b mode k =
  (if decide (on_branch b e) then times e mode k else []) ++ branch_times es b mode k.
Proof.
  unfold branch_times. rewrite filter_app, filter_cons, filter_nil, rev_app_distr.
  by destruct (decide (on_branch b e)).
Qed.

Lemma parse_file_merged es d contents d' :
  parse_file d contents = Ok d' -> merged es d -> exists e, parse contents = Ok e /\ merged (es ++ [e]) d'.
Proof.
  unfold parse_file. intros Hp Hm. apply bind_Ok in Hp as (e & He & Hp). exists e. split; [done|].
  apply bind_Ok in Hp as (b & Hb & Hp). pose proof (parse_wf _ _ He) as Hwf.
  assert (Hbe : on_branch b e) by by apply branch_on.
  assert (Hnew : exists e', Ok (dict_set b e' d) = Ok d' /\ well_formed e' /\ on_branch b e' /\
            forall mode k, mode ∈ modes -> times e' mode k = branch_times (es ++ [e]) b mode k).
  { apply bind_Ok in Hp as (e' & He' & Hp). apply bind_Ok in Hp as (b' & Hb' & Hp).
    specialize (Hm b). destruct (dict_get d b) as [old|].
    - destruct Hm as (Hold & _ & _ & Ht). destruct (exp_update_spec e old Hwf Hold) as (e2 & E & W & M & T).
      rewrite E in He'. injection He' as <-. unfold branch in Hb'. rewrite M in Hb'.
      assert (b' = b) as -> by (unfold on_branch in Hbe; rewrite Hbe in Hb'; cbn in Hb'; congruence).
      exists e2. split_and!; [done|done|by unfold on_branch; rewrite M|]. intros mode k Hk.
      rewrite T, branch_times_snoc, Ht by done. by destruct (decide (on_branch b e)).
    - injection He' as <-. rewrite Hb in Hb'. injection Hb' as <-. exists e. split_and!; [done..|].
      intros mode k _. rewrite branch_times_snoc. destruct (decide (on_branch b e)); [|done].
      assert (Hf : filter (on_branch b) es = []).
      { destruct (filter (on_branch b) es) as [|x l] eqn:Ef; [done|]. exfalso. apply Hm, Exists_exists. exists x.
        assert (Hx : x ∈ filter (on_branch b) es) by (rewrite Ef; apply list_elem_of_here).
        by apply list_elem_of_filter in Hx as [? ?]. }
      unfold branch_times. rewrite Hf. cbn. by rewrite app_nil_r. }
  destruct Hnew as (e' & [= <-] & Hwf' & Hb' & Ht'). intros b2. rewrite dict_get_set.
  case_bool_decide as Hbb.
  - subst b2. split_and!; [done|done|apply Exists_app; right; by constructor|done].
  - assert (Hn : ~ on_branch b2 e) by (unfold on_branch in *; congruence).
    specialize (Hm b2). destruct (dict_get d b2) as [old|].
    + destruct Hm as (H1 & H2 & H3 & H4). split_and!; [done|done|apply Exists_app; by left|].
      intros mode k Hk. rewrite branch_times_snoc. by destruct (decide (on_branch b2 e)); [|apply H4].
    + rewrite Exists_app. intros [?|Hx]; [done|]. by inversion Hx as [? ? Hy|? ? Hy]; [|inversion Hy].
Qed.
End merge.

(** C33. Merging results files: there is an entry exactly for the branches the
    files name, and it holds, for each mode and size, exactly the results the
    files of the branch list, those of the latest file first; no result is
    lost, duplicated or billed to another branch, whatever the order in which
    the sizes are visited. *)
Theorem files_merged {order : SetOrder} (files : list str) (data : dict str exp) :
  parseSeveral files = Ok data ->
  exists es, map_res parse files = Ok es /\ merged es data.
Proof.
  unfold parseSeveral.
  assert (Hgen : forall es d, merged es d -> for_each parse_file files d = Ok data ->
            exists es', map_res parse files = Ok es' /\ merged (es ++ es') data).
  { induction files as [|f files IH]; intros es d Hm; cbn [for_each map_res].
    - intros [= <-]. exists []. by rewrite app_nil_r.
    - rewrite bind_Ok. intros (d1 & H1 & H2). destruct (parse_file_merged _ _ _ _ H1 Hm) as (e & He & Hm1).
      destruct (IH _ _ Hm1 H2) as (es' & Hes & Hm2). exists (e :: es'). rewrite He, bind_of_Ok, Hes, bind_of_Ok.
      split; [done|]. by rewrite <- app_assoc in Hm2. }
  intros Hp. destruct (Hgen [] [] ltac:(intros b; cbn; by intros ?%Exists_nil) Hp) as (es & H1 & H2). by exists es.
Qed.

Definition results (branch_name : str) (rows : list str) : str :=
  unlines ((# "METADATA branch " ++ branch_name) :: rows).
Definition demo_files : list str :=
  [results "linear" [ # "1000000 read x 2.5"; # "1000000 write x 4.0"];
   results "repr" [ # "1000000 read x 8.0"];
   results "linear" [ # "2000000 read x 6.0"; # "1000000 read x 3.5"]].

Lemma files_merged_witness :
  exists data es, @parseSeveral insertion_order demo_files = Ok data /\ merged es data /\
    branch_times es "linear" "read" 1000000 = [float_of_dec 35 (-1); float_of_dec 25 (-1)].
Proof.
  destruct (@parseSeveral insertion_order demo_files) as [data|] eqn:E.
  2: { apply (f_equal is_Ok) in E. vm_compute in E. discriminate E. }
  destruct (@files_merged insertion_order demo_files data E) as (es & Hes & Hm).
  exists data, es. split; [reflexivity|]. split; [exact Hm|].
  apply (f_equal (fun r => match r with Ok es => branch_times es "linear" "read" 1000000 | _ => [] end)) in Hes.
  rewrite <- Hes. vm_compute. reflexivity.
Defined.
