(* ===== verification/Fleet.v ===== *)
(** * Commands on the fleet (tools/aws/automation.py, kill-jobs.py, ls-jobs.py,
    pull-results.py, run-all.py, shell.py)

    The one-liners select the running workers and start one command on each;
    the shell connects to the one worker its argument names.  The service's
    answer and the meaning of [re.search] are arguments. *)
From S2P Require Import Prelude PyStr Argparse Paths PyFloat Json Automation Instances.

(** ** The log *)

(** Standard output and, once set, the log file: its path and contents. *)
Record log_state := LogState { log_stdout : str; log_file : option (str * str) }.

(** The log must be new.  Its directory is taken to exist. *)
Definition set_logfile (exists_path : str -> bool) (path : str) (st : log_state) : res log_state :=
  if exists_path path then Raise SystemExit else Ok (LogState (log_stdout st) (Some (path, []))).

Definition log (msg : str) (st : log_state) : log_state :=
  LogState (log_stdout st ++ msg ++ [nl])
    (match log_file st with Some (p, c) => Some (p, c ++ msg ++ [nl]) | None => None end).

(** ** The running workers *)

Record fleet_args := FleetArgs { ssd : bool; dry_run : bool; workers_file : str }.
Definition default_workers_file : str := ".awsworkers".

(** [automation_argparser], the parent of every script's parser. *)
Definition automation_argparser : parser :=
  [store_true "--ssd"; store_true "--dry-run"; option_text "--workers-file" (VStr default_workers_file)].
Definition fleet_args_of (ns : gmap str aval) : res fleet_args :=
  b ← attr_bool ns "ssd"; d ← attr_bool ns "dry_run"; w ← attr_text ns "workers_file"; Ok (FleetArgs b d w).
Definition fleet_tokens (a : fleet_args) : list token :=
  given_if (ssd a) (GiveFlag "--ssd" (store_true "--ssd")) ++
  given_if (dry_run a) (GiveFlag "--dry-run" (store_true "--dry-run")) ++
  [GiveEquals "--workers-file" (option_text "--workers-file" (VStr default_workers_file)) (workers_file a)].

Lemma fleet_tokens_ok p a :
  (forall f b, (f, b) ∈ option_strings automation_argparser -> find_option p f = Some (f, b)) ->
  Forall (token_ok p) (fleet_tokens a).
Proof.
  intros Hp. unfold fleet_tokens. repeat apply Forall_app_2.
  1-2: destruct (_ a); constructor; [split; [apply Hp|done]|constructor].
  3: constructor; [split; [apply Hp|done]|constructor].
  all: unfold automation_argparser, option_strings; cbn -[flag_dest default_workers_file]; set_solver.
Qed.

#[export] Program Instance fleet_line : CommandLine fleet_args :=
  {| cl_parser := argument_parser [automation_argparser]; cl_of := fleet_args_of; cl_tokens := fleet_tokens;
     cl_ok := fun a => workers_file a <> # "--" |}.
Next Obligation.
  intros a Hw. rewrite parse_rendered; [|vm_compute; reflexivity|].
  2:{ apply fleet_tokens_ok. intros f b Hf. repeat (apply elem_of_cons in Hf as [[= -> ->]|Hf]; [vm_compute; reflexivity|]). by apply not_elem_of_nil in Hf. }
  destruct a as [[] [] w]; unfold fleet_tokens; cbn [ssd dry_run workers_file app given_if for_each meaning] in *;
    rewrite ?take_true, ?bind_of_Ok by done; rewrite ?take_true, ?bind_of_Ok by done; rewrite take_text, bind_of_Ok by done; vm_compute; reflexivity.
Qed.

(** run-all.py takes the text of the command as well. *)
Definition run_all_tokens (a : fleet_args * str) : list token := fleet_tokens (fst a) ++ [GivePositional (snd a)].
Definition run_all_parser : parser := argument_parser [automation_argparser] ++ [positional "command"].
#[export] Program Instance run_all_line : CommandLine (fleet_args * str) :=
  {| cl_parser := run_all_parser; cl_of ns := a ← fleet_args_of ns; c ← attr_text ns "command"; Ok (a, c);
     cl_tokens := run_all_tokens; cl_ok a := workers_file (fst a) <> # "--" /\ plain run_all_parser (snd a) |}.
Next Obligation.
  intros [a c] [Hw Hc]. rewrite parse_rendered; [|vm_compute; reflexivity|].
  2:{ apply Forall_app_2; [|by constructor]. apply fleet_tokens_ok. intros f b Hf.
      repeat (apply elem_of_cons in Hf as [[= -> ->]|Hf]; [vm_compute; reflexivity|]). by apply not_elem_of_nil in Hf. }
  destruct a as [[] [] w]; unfold run_all_tokens, fleet_tokens; cbn [fst snd ssd dry_run workers_file app given_if for_each meaning] in *;
    rewrite ?take_true, ?bind_of_Ok by done; rewrite ?take_true, ?bind_of_Ok by done; rewrite take_text, bind_of_Ok by done.
  all: destruct Hc as [Hc _].
  all: unfold next_positional, take_value, get_values; rewrite (bool_decide_eq_false_2 (c = _)) by done; vm_compute; reflexivity.
Qed.

Definition describe_command (ssd : bool) : list str :=
  fields "ssh bastion veribetrfs/tools/aws/describe-instances.py --running --json" ++ (if ssd then [ # "--ssd"] else []).

(** [json.loads] of the listing: a list of dicts, each an object of its own.
    An entry that lacks a key the scripts read is refused here, where they would
    stop at their first use of it. *)
Definition worker_of_json (iv : nat * json) : res worker :=
  name ← json_get "Name" (snd iv);
  ip ← json_get "PublicIpAddress" (snd iv);
  match name, ip with
  | JStr n, JStr a => Ok (Worker (fst iv) n (Some a))
  | JStr n, JNull => Ok (Worker (fst iv) n None)
  | _, _ => Raise TypeError
  end.
Definition workers_of_json (v : json) : res (list worker) :=
  match v with JArr l => map_res worker_of_json (imap pair l) | _ => Raise TypeError end.

Section fleet.
Context (cwd : str) (fs : gmap str str) (re_search : str -> str -> bool).
(** What a command prints. *)
Context (service : list str -> str).

Definition retrieve_running_workers (workers_file : str) (ssd : bool) : res (list worker) :=
  contents ← py_open cwd fs workers_file;
  let filter_regexes := load_worker_regex_list contents in
  obj ← loads (service (describe_command ssd));
  workers ← workers_of_json obj;
  Ok (filter_workers re_search workers filter_regexes).

(** ** The one-liners *)

Definition kill_cmd (idx : nat) (w : worker) : command :=
  Command "kill" (ssh_cmd_for_worker w false ++
    [ # "killall"; # "-q"; # "VeribetrfsYcsb"; # "RocksYcsb"; # "make"; # "z3"; # "mono"; # "dafny"]).
Definition ls_cmd (idx : nat) (w : worker) : command :=
  Command "ls" (ssh_cmd_for_worker w false ++
    [ # "ps"; # "-auxww"; # "|"; # "grep"; # "Ycsb"; # "|"; # "grep"; # "-v"; # "grep"]).
Definition pull_cmd (idx : nat) (w : worker) : command :=
  Command "pull" [ # "rsync"; # "-zrav"; # "-e"; join " " (ssh_preamble false);
                   ssh_target_for_worker w ++ ":expresults/"; # "expresults/"].
Definition run_cmd (text : str) (idx : nat) (w : worker) : command :=
  Command "run" (ssh_cmd_for_worker w false ++ [text]).

(** [main] of each: as many tasks as workers. *)
Definition on_all (cmd_for_idx : nat -> worker -> command) (args : fleet_args) : res (list monitor) :=
  workers ← retrieve_running_workers (workers_file args) (ssd args);
  launch_worker_pipes cmd_for_idx (length workers) (dry_run args) workers.

Definition kill_jobs : fleet_args -> res (list monitor) := on_all kill_cmd.
Definition ls_jobs : fleet_args -> res (list monitor) := on_all ls_cmd.
Definition pull_results : fleet_args -> res (list monitor) := on_all pull_cmd.
Definition run_all_workers (text : str) : fleet_args -> res (list monitor) := on_all (run_cmd text).

(** [shell.py]: the command run, if exactly one worker's name contains the
    target. *)
Definition shell (target : str) : res (list str) :=
  workers ← retrieve_running_workers default_workers_file false;
  match List.filter (fun w => contains target (w_Name w)) workers with
  | [w] => Ok (ssh_cmd_for_worker w true)
  | _ => Raise SystemExit
  end.

(** ** What they start *)

(** A one-liner starts exactly one command on each worker selected, in the
    order of the selection, and it is the script's command for that worker; a
    dry run starts none.  The launcher's test for too few workers never
    fires. *)
Theorem one_liners_reach_all cmd args :
  match retrieve_running_workers (workers_file args) (ssd args) with
  | Raise e => on_all cmd args = Raise e
  | Ok workers => exists ms, on_all cmd args = Ok ms /\
      if dry_run args then ms = []
      else map m_worker ms = workers /\ map m_task ms = seq 0 (length workers) /\
           Forall (fun m => m_running m = true /\ m_cmd m = cmd (m_task m) (m_worker m)) ms
  end.
Proof.
  unfold on_all. destruct (retrieve_running_workers _ _) as [workers|e]; [|done]. rewrite bind_of_Ok.
  destruct (one_task_per_worker cmd (length workers) (dry_run args) workers) as [_ H].
  destruct (H (le_n _)) as (ms & E & Hms). exists ms. split; [done|]. destruct (dry_run args); [done|].
  destruct Hms as (H1 & H2 & H3). by rewrite take_ge in H2 by done.
Qed.
End fleet.

(** ** The service

    What the command prints on the machine it is sent to: the script is the
    third word, its options follow; a script that fails prints nothing to the
    pipe. *)
Definition bastion (resp : response) (cmd : list str) : str :=
  match describe_script (Some resp) [] (drop 3 cmd) with Ok out => out | Raise _ => [] end.

Definition demo_fleet : response :=
  [[RawInstance [(# "Name", # "veri-worker-w1")] "i-1" (Some (# "10.0.0.1")) "running";
    RawInstance [(# "Name", # "veri-worker-w2")] "i-2" None "running"]].

Definition demo_workers_file : gmap str str := {[ # "/r/.awsworkers" := # "veri-worker-w1" ]}.
(** A file two lines of which match the first worker. *)
Definition twice_workers_file : gmap str str := {[ # "/r/.awsworkers" := # "veri-worker-w1" ++ [nl] ++ # "^veri-worker-w1" ]}.

(** The worker an instance is read back as. *)
Definition worker_of (i : nat) (x : instance) : worker := Worker i (Name x) (PublicIpAddress x).

Lemma instance_json_wf x : json_wf (instance_json x).
Proof.
  constructor; [apply (bool_decide_unpack _); vm_compute; exact I|].
  repeat constructor. by destruct (PublicIpAddress x); constructor.
Qed.

Lemma workers_of_instances l : workers_of_json (JArr (map instance_json l)) = Ok (imap worker_of l).
Proof.
  apply map_res_imap. intros i x. unfold worker_of_json, worker_of. cbn. by destruct (PublicIpAddress x).
Qed.

Lemma bastion_listing b resp :
  bastion resp (describe_command b) =
    match describeInstances false true b resp with
    | Ok insts => dumps None (JArr (map instance_json insts)) ++ [nl]
    | Raise _ => []
    end.
Proof.
  assert (H : command_line (drop 3 (describe_command b)) = Ok (DescribeArgs false false true b true))
    by (destruct b; vm_compute; reflexivity).
  unfold bastion, describe_script. rewrite H, bind_of_Ok. cbn [d_all d_ssh d_json d_ssd d_running].
  unfold describe_main. by destruct (describeInstances false true b resp).
Qed.

Lemma describe_raises resp b inst :
  inst ∈ concat resp -> # "Name" ∉ map fst (r_tags inst) -> exists e, describeInstances false true b resp = Raise e.
Proof. apply (describe_lists_workers false true b resp). Qed.

(** C18. What the scripts take for the running workers, through the printed
    listing.  The listing is made of the running instances of the chosen kind,
    ordered by name and, of one name, in the order of the service's answer; each
    of its workers, with the address the service gave, is taken once for every
    line of the workers file that matches its name - not at all when none does,
    twice when two do - and the copies of a worker stay together, in the order of
    the listing.  If one instance of the account has no name the listing prints
    nothing and every script stops. *)
Theorem running_workers_retrieved cwd fs re_search resp wf b contents :
  py_open cwd fs wf = Ok contents ->
  let regexes := load_worker_regex_list contents in
  (forall insts, map_res extract_salient (concat resp) = Ok insts ->
   let wanted := List.filter (fun x => is_worker b x && bool_decide (State x = # "running")) insts in
   exists listing,
     listing ≡ₚ wanted /\
     StronglySorted name_le listing /\
     (forall n, List.filter (fun x => bool_decide (Name x = n)) listing =
                List.filter (fun x => bool_decide (Name x = n)) wanted) /\
     retrieve_running_workers cwd fs re_search (bastion resp) wf b =
       Ok (concat (imap (fun i x =>
             repeat (worker_of i x) (length (List.filter (fun regex => re_search regex (Name x)) regexes))) listing))) /\
  (forall inst, inst ∈ concat resp -> # "Name" ∉ map fst (r_tags inst) ->
     retrieve_running_workers cwd fs re_search (bastion resp) wf b = Raise ValueError).
Proof.
  intros Ho regexes. unfold retrieve_running_workers. rewrite Ho, bind_of_Ok, bastion_listing. split.
  - intros insts H. destruct (proj1 (describe_lists_workers false true b resp) insts H) as (listing & E & Hs & Hp).
    exists listing. split_and!; [exact Hp|done| |].
    { intros n. exact (describe_stable _ _ _ _ _ _ n H E). }
    rewrite E, loads_dumps; [|constructor; apply Forall_forall; intros v (x & -> & _)%list_elem_of_fmap; apply instance_json_wf|done].
    rewrite bind_of_Ok, workers_of_instances, bind_of_Ok, filter_workers_repeat, flat_map_concat_map.
    f_equal. change (map ?f ?l) with (f <$> l). by rewrite fmap_imap.
  - intros inst Hin Hn. by destruct (describe_raises resp b inst Hin Hn) as (e & ->).
Qed.

(** Both instances are running and only the first is selected; it is listed
    twice, because two lines of the file match it. *)
Lemma running_workers_retrieved_witness :
  let insts := [Instance "veri-worker-w1" "i-1" (Some (# "10.0.0.1")) "running"; Instance "veri-worker-w2" "i-2" None "running"] in
  exists listing, listing ≡ₚ insts /\
    concat (imap (fun i x => repeat (worker_of i x)
      (length (List.filter (fun regex => contains (Name x) regex) (load_worker_regex_list (# "veri-worker-w1" ++ [nl] ++ # "^veri-worker-w1"))))) listing) =
    [Worker 0 "veri-worker-w1" (Some (# "10.0.0.1")); Worker 0 "veri-worker-w1" (Some (# "10.0.0.1"))].
Proof.
  intros insts.
  destruct (proj1 (running_workers_retrieved "/r" twice_workers_file
    (fun regex name => contains name regex) demo_fleet default_workers_file false (# "veri-worker-w1" ++ [nl] ++ # "^veri-worker-w1")
    ltac:(vm_compute; reflexivity)) insts ltac:(vm_compute; reflexivity)) as (listing & Hp & _ & _ & E).
  exists listing. split; [exact Hp|].
  assert (E2 : retrieve_running_workers "/r" twice_workers_file (fun regex name => contains name regex)
                 (bastion demo_fleet) default_workers_file false =
               Ok [Worker 0 "veri-worker-w1" (Some (# "10.0.0.1")); Worker 0 "veri-worker-w1" (Some (# "10.0.0.1"))])
    by (vm_compute; reflexivity).
  pose proof (eq_trans (eq_sym E2) E) as F. injection F as F. symmetry. exact F.
Defined.

Lemma one_liners_reach_all_example :
  exists ms, on_all "/r" demo_workers_file (fun regex name => contains name regex)
               (bastion demo_fleet) kill_cmd
               (FleetArgs false false default_workers_file) = Ok ms /\
    map (fun m => text_cmd_line (m_cmd m)) ms =
      [ # "ssh -T -o UserKnownHostsFile=/dev/null -o StrictHostKeyChecking=no -i ~/.ssh/veribetrfsbastion.pem ubuntu@10.0.0.1 killall -q VeribetrfsYcsb RocksYcsb make z3 mono dafny"].
Proof. eexists. split; vm_compute; reflexivity. Qed.
