(* ===== verification/Drivers.v ===== *)
(** * Running a suite on the fleet (tools/aws/automation.py, the [main] of
    launch-*.py, row-cache-experiment.py and verification-time-experiment.py)

    The launchers of [Automation] with everything they leave behind: the lines
    of the log, the index and colour of each worker, the commands started.
    [poll_refines] and [sequenced_refines] show that they take the steps of
    [Automation]; the scripts compose them with the suites of [Launch], the
    retrieval of workers of [Fleet] and the log. *)
From S2P Require Import Prelude PyStr Argparse Paths PyFloat Suite Automation Launch Renaminator VerifTime Report Instances Fleet.

(** ** Monitors with their colour *)

Definition spectrum : list str := [ # "red"; # "yellow"; # "green"; # "cyan"; # "blue"; # "magenta"].

(** A [WorkerMonitor] and its [index]. *)
Record tmonitor := TMonitor { t_monitor : monitor; t_index : nat }.
Definition t_task (m : tmonitor) : nat := m_task (t_monitor m).
Definition t_worker (m : tmonitor) : worker := m_worker (t_monitor m).
Definition t_cmd (m : tmonitor) : command := m_cmd (t_monitor m).
Definition t_running (m : tmonitor) : bool := m_running (t_monitor m).
Definition t_set_dead (m : tmonitor) : tmonitor := TMonitor (set_dead (t_monitor m)) (t_index m).

(** What the scripts say, one constructor per call of [log] or [print]. *)
Inductive entry :=
  | Message (msg : str)                     (* PLOT, VARIANTS, ... *)
  | Printed (msg : str)                     (* standard output only *)
  | Assigned (m : tmonitor)
  | Launched (m : tmonitor)
  | Output (m : tmonitor) (l : str)
  | Ends (m : tmonitor)
  | Remaining (size : nat)
  | Progress (ready running : nat)
  | Complete.

(** The log, the indices handed out (the entry [index] of each worker's dict,
    under the identity of the object), the commands started. *)
Record session := Session {
  s_log : log_state;
  s_entries : list entry;
  next_index : nat;
  index_of : gmap nat nat;
  started : list (list str)
}.

(** What [poll] reports in its [k]-th call: for each pipe nothing, or its bits
    and the lines that can be read; and the order of the reports. *)
Class Poll := {
  reports : nat -> nat -> option (bool * bool * list str);
  poll_order : nat -> list nat -> list nat;
  poll_order_perm : forall k l, poll_order k l ≡ₚ l
}.

Section sessions.
(** [termcolor.colored]. *)
Context (colored : str -> str -> str).

Definition linetag (m : tmonitor) : str :=
  colored ("[" ++ w_Name (t_worker m) ++ "]") (nth (t_index m mod length spectrum) spectrum []).

Definition size_text (n : nat) : str := dec_N (N.of_nat n).
Definition entry_text (e : entry) : str :=
  match e with
  | Message msg | Printed msg => msg
  | Assigned m => linetag m ++ " ASSIGN_CMD " ++ c_label (t_cmd m)
  | Launched m => linetag m ++ " LAUNCH_CMD " ++ text_cmd_line (t_cmd m)
  | Output m l => linetag m ++ " " ++ l
  | Ends m => linetag m ++ " WORKER_ENDS"
  | Remaining n => "PROGRESS " ++ size_text n ++ " workers remaining"
  | Progress ready n => "PROGRESS " ++ size_text ready ++ " tasks ready; " ++ size_text n ++ " tasks running"
  | Complete => "All jobs complete."
  end.

Definition log_entry (e : entry) (st : log_state) : log_state :=
  match e with
  | Printed msg => LogState (log_stdout st ++ msg ++ [nl]) (log_file st)
  | _ => log (entry_text e) st
  end.
Definition say (e : entry) (s : session) : session :=
  Session (log_entry e (s_log s)) (s_entries s ++ [e]) (next_index s) (index_of s) (started s).
Definition record (e : entry) : script_of session unit := modify (say e).

(** ** Launching *)

Definition get_index : script_of session nat := fun s =>
  (Session (s_log s) (s_entries s) (S (next_index s)) (index_of s) (started s), Ok (next_index s)).
Definition set_index (w : worker) (i : nat) (s : session) : session :=
  Session (s_log s) (s_entries s) (next_index s) (<[w_object w := i]> (index_of s)) (started s).

(** [WorkerMonitor.__init__]: a worker keeps the index it was given first. *)
Definition WorkerMonitor (idx : nat) (w : worker) (cmd : command) : script_of session tmonitor :=
  s ← get;
  i ← match index_of s !! w_object w with
      | Some i => mret i
      | None => i ← get_index; _ ← modify (set_index w i); mret i
      end;
  mret (TMonitor (Monitor idx w cmd true) i).

Definition start_process (m : tmonitor) (s : session) : session :=
  Session (s_log s) (s_entries s) (next_index s) (index_of s) (started s ++ [cmd_ary (t_cmd m)]).
Definition launch (m : tmonitor) : script_of session unit :=
  _ ← record (Launched m); modify (start_process m).

(** The task's command; [echo] is what the script prints of it. *)
Section tasks.
Context (lam : nat -> worker -> res command) (echo : command -> list str) (ntasks : nat) (dry_run : bool).

Definition assign_task (idx : nat) (w : worker) : script_of session tmonitor :=
  cmd ← lift (lam idx w);
  _ ← map_script (fun l => record (Printed l)) (echo cmd);
  m ← WorkerMonitor idx w cmd;
  _ ← record (Assigned m);
  mret m.

Definition launch_worker_pipes (workers : list worker) : script_of session (list tmonitor) :=
  if length workers <? ntasks then
    raise (PyException ("Requested " ++ size_text ntasks ++ " tasks for " ++ size_text (length workers) ++ " workers"))
  else
    ms ← map_script (fun idx => w ← lift (nth_res workers idx); assign_task idx w) (seq 0 ntasks);
    let ms := if dry_run then [] else ms in
    _ ← map_script launch ms;
    mret ms.

(** ** Polling *)

Context {PO : Poll}.

Definition running_tasks (ms : list tmonitor) : list nat := map t_task (List.filter t_running ms).
Definition kill (t : nat) (ms : list tmonitor) : list tmonitor :=
  map (fun m => if t_task m =? t then t_set_dead m else m) ms.
Definition fd_monitor (ms : list tmonitor) (t : nat) : option tmonitor := List.find (fun m => t_task m =? t) ms.

(** [readline] until it returns nothing. *)
Fixpoint read_lines (m : tmonitor) (lines : list str) : script_of session unit :=
  match lines with
  | [] | [] :: _ => mret tt
  | l :: rest => _ ← record (Output m (strip l)); read_lines m rest
  end.

(** The body of the loop over the reports. *)
Definition on_report (k t : nat) (ms : list tmonitor) : script_of session (list tmonitor) :=
  match reports k t with
  | None => mret ms
  | Some (pollin, pollhup, lines) =>
      m ← lift (of_option KeyError (fd_monitor ms t));
      if negb (t_running m) then mret ms
      else if pollin then _ ← read_lines m lines; mret ms
      else if pollhup then _ ← record (Ends m); mret (kill t ms)
      else mret ms
  end.
Fixpoint on_reports (k : nat) (ts : list nat) (ms : list tmonitor) : script_of session (list tmonitor) :=
  match ts with
  | [] => mret ms
  | t :: ts => ms ← on_report k t ms; on_reports k ts ms
  end.

(** [poll_monitors]: the monitors after the call, and those still running. *)
Definition poll_monitors (k : nat) (ms : list tmonitor) : script_of session (list tmonitor * list tmonitor) :=
  ms ← on_reports k (poll_order k (running_tasks ms)) ms;
  mret (ms, List.filter t_running ms).

(** [monitor_worker_pipes], from the [k]-th poll on. *)
Fixpoint monitor_loop (fuel k : nat) (ms : list tmonitor) (lastSize : option nat) : script_of session unit :=
  if length (List.filter t_running ms) =? 0 then record Complete
  else match fuel with
       | O => raise OutOfFuel
       | S f =>
           '(_, ms) ← poll_monitors k ms;
           let size := length (List.filter t_running ms) in
           if bool_decide (lastSize = Some size) then monitor_loop f (S k) ms lastSize
           else _ ← record (Remaining size); monitor_loop f (S k) ms (Some size)
       end.
Definition monitor_worker_pipes (fuel : nat) (ms : list tmonitor) : script_of session unit := monitor_loop fuel 0 ms None.

(** ** The queue *)

Record queue := Queue { q_idle : list worker; q_next : nat; q_monitors : list tmonitor }.

Definition dispatch_one (q : queue) : script_of session queue :=
  match rev (q_idle q) with
  | [] => raise IndexError
  | w :: rest =>
      m ← assign_task (q_next q) w;
      let q' m := Queue (rev rest) (S (q_next q)) (q_monitors q ++ [m]) in
      if dry_run then mret (q' (t_set_dead m)) else _ ← launch m; mret (q' m)
  end.
Fixpoint assign_loop (fuel : nat) (q : queue) : script_of session queue :=
  if (0 <? length (q_idle q)) && (q_next q <? ntasks) then
    match fuel with
    | O => raise OutOfFuel
    | S f => q ← dispatch_one q; assign_loop f q
    end
  else mret q.

(** One pass of the outer loop. *)
Definition queue_round (k : nat) (q : queue) : script_of session queue :=
  q ← assign_loop (length (q_idle q)) q;
  let prevSize := length (List.filter t_running (q_monitors q)) in
  '(ms, surviving) ← (if dry_run then mret (q_monitors q, []) else poll_monitors k (q_monitors q));
  let finished := List.filter (fun m => negb (existsb (fun s => t_task s =? t_task m) surviving)) ms in
  let idle := fold_left (fun idle m => t_worker m :: idle) finished (q_idle q) in
  let curSize := length (List.filter t_running surviving) in
  _ ← (if curSize =? prevSize then mret tt else record (Progress (ntasks - q_next q) curSize));
  mret (Queue idle (q_next q) surviving).

Definition queue_done (q : queue) : bool := (length (q_monitors q) =? 0) && (ntasks <=? q_next q).
Fixpoint queue_loop (fuel k : nat) (q : queue) : script_of session unit :=
  if queue_done q then record Complete
  else match fuel with
       | O => raise OutOfFuel
       | S f => q ← queue_round k q; queue_loop f (S k) q
       end.
Definition sequenced_launcher (fuel : nat) (workers : list worker) : script_of session unit :=
  queue_loop fuel 0 (Queue workers 0 []).
End tasks.

(** ** The scripts *)

Definition empty_session : session := Session (LogState [] None) [] 0 ∅ [].

Section mains.
Context (cwd : str) (fs : gmap str str) (re_search : str -> str -> bool) (service : list str -> str) {PO : Poll}.

Definition exists_path (path : str) : bool := bool_decide (is_Some (fs !! abspath cwd path)).
Definition open_log (path : str) : script_of session unit := fun s =>
  match set_logfile exists_path path (s_log s) with
  | Ok l => (Session l (s_entries s) (next_index s) (index_of s) (started s), Ok tt)
  | Raise e => (s, Raise e)
  end.

(** What the four launch scripts differ in: the suite and the commands, what is
    printed of a command, the lines logged first, the workers left out, and the
    kind of workers for the flag [--ssd]. *)
Record launch_script := LaunchScript {
  l_script : script;
  l_cmd : heap -> suite -> nat -> worker -> res command;
  l_echo : command -> list str;
  l_plot : suite -> list str;
  l_select : list worker -> list worker;
  l_ssd : bool -> bool
}.

Definition variants_text (su : suite) : str := "VARIANTS [" ++ join ", " (map label_ (variants su)) ++ "]".
Definition plot_text (su : suite) : str :=
  "PLOT tools/aws/pull-results.py && " ++ plot_command su ++ " && eog " ++ png_filename su.

Definition launch_main (l : launch_script) (args : fleet_args) (fuel : nat) : script_of session unit :=
  su ← lift (s_suite (l_script l));
  _ ← open_log (logpath su);
  _ ← map_script (fun msg => record (Message msg)) (l_plot l su ++ [variants_text su]);
  workers ← lift (retrieve_running_workers cwd fs re_search service (workers_file args) (l_ssd l (ssd args)));
  worker_pipes ← launch_worker_pipes (l_cmd l (s_heap (l_script l)) su) (l_echo l) (length (variants su)) (dry_run args)
                   (l_select l workers);
  monitor_worker_pipes fuel worker_pipes.

Definition btree_launch : launch_script :=
  LaunchScript btree_script btree_cmd (fun _ => []) (fun _ => [ # "PLOT tools/aws/pull-results.py"]) btree_workers (fun _ => false).
Definition experiments_launch : launch_script :=
  LaunchScript experiments_script experiments_cmd (fun _ => []) (fun su => [plot_text su]) id id.
Definition row_cache_launch : launch_script :=
  LaunchScript row_cache_script row_cache_cmd (fun _ => []) (fun su => [plot_text su]) id id.
Definition ycsb_launch : launch_script :=
  LaunchScript ycsb_script ycsb_cmd (fun cmd => [repr_list (cmd_ary cmd)]) (fun _ => []) id (fun _ => true).

(** kill-jobs.py, ls-jobs.py, pull-results.py and run-all.py. *)
Definition fleet_main (cmd_for_idx : nat -> worker -> command) (args : fleet_args) (fuel : nat) : script_of session unit :=
  workers ← lift (retrieve_running_workers cwd fs re_search service (workers_file args) (ssd args));
  worker_pipes ← launch_worker_pipes (fun idx w => Ok (cmd_for_idx idx w)) (fun _ => []) (length workers) (dry_run args) workers;
  monitor_worker_pipes fuel worker_pipes.

(** verification-time-experiment.py. *)
Definition vertime_main (ROOT_PATH : str) {SO : SetOrder} (args : fleet_args) (fuel : nat) : script_of session unit :=
  sc ← lift (constructSuite cwd ROOT_PATH fs N_REPLICAS);
  su ← lift (s_suite sc);
  _ ← open_log (logpath su);
  _ ← map_script (fun v => record (Message ("VARIANT " ++ label_ v))) (variants su);
  sources ← lift (listSources cwd ROOT_PATH fs);
  _ ← record (Message ("NUM_SOURCES " ++ size_text (length sources)));
  _ ← record (Message ("NUM_VARIANTS " ++ size_text (length (variants su))));
  workers ← lift (retrieve_running_workers cwd fs re_search service (workers_file args) (ssd args));
  sequenced_launcher (vertime_cmd (s_heap sc) su) (fun _ => []) (length (variants su)) (dry_run args) fuel workers.

(** The scripts read their options first. *)
Definition from_argv {A} {L : CommandLine A} (main : A -> nat -> script_of session unit) (argv : list str) (fuel : nat) :
    script_of session unit :=
  args ← lift (command_line argv); main args fuel.
Definition launch_script_main (l : launch_script) : list str -> nat -> script_of session unit := from_argv (launch_main l).
Definition fleet_script_main (cmd_for_idx : nat -> worker -> command) : list str -> nat -> script_of session unit :=
  from_argv (fleet_main cmd_for_idx).
Definition run_all_script : list str -> nat -> script_of session unit :=
  from_argv (fun '(args, command) => fleet_main (run_cmd command) args).
Definition vertime_script (ROOT_PATH : str) {SO : SetOrder} : list str -> nat -> script_of session unit :=
  from_argv (vertime_main ROOT_PATH).
End mains.
End sessions.

(** ** What scripts leave behind *)

(** Indices: every worker object has its own, and they are 0, 1, 2, ... *)
Record indices_ok (s : session) : Prop := {
  i_distinct : forall o1 o2 i, index_of s !! o1 = Some i -> index_of s !! o2 = Some i -> o1 = o2;
  i_used : forall i, i < next_index s <-> exists o, index_of s !! o = Some i
}.

(** The log is the text of what was said: all of it on standard output, all but
    what was printed in the file, from the moment it was opened. *)
Section proofs.
Context (colored : str -> str -> str).

Definition is_logged (e : entry) : bool := match e with Printed _ => false | _ => true end.
Definition entries_text (es : list entry) : str := flat_map (fun e => line (entry_text colored e)) es.
Definition log_after (es : list entry) (st : log_state) : log_state :=
  fold_left (fun st e => log_entry colored e st) es st.

Lemma log_entry_effect e st :
  log_entry colored e st =
  LogState (log_stdout st ++ line (entry_text colored e))
    (match log_file st with
     | Some (p, c) => Some (p, c ++ if is_logged e then line (entry_text colored e) else []) | None => None end).
Proof. destruct st as [o [[p c]|]], e; cbn; rewrite ?app_nil_r; reflexivity. Qed.

Lemma log_after_text es st :
  log_after es st =
  LogState (log_stdout st ++ entries_text es)
    (match log_file st with
     | Some (p, c) => Some (p, c ++ entries_text (List.filter is_logged es)) | None => None end).
Proof.
  revert st. induction es as [|e es IH]; intros st; cbn [log_after fold_left].
  - destruct st as [o [[p c]|]]; cbn; by rewrite ?app_nil_r.
  - unfold log_after in IH. rewrite IH, log_entry_effect. cbn [log_stdout log_file entries_text flat_map List.filter].
    rewrite <- !app_assoc. f_equal. destruct (log_file st) as [[p c]|]; [|done].
    by destruct (is_logged e); rewrite <- ?app_assoc.
Qed.

(** From [s] to [s'] the entries [es] were said and the commands [cmds] started;
    indices were only added. *)
Record effect (s s' : session) (es : list entry) (cmds : list (list str)) : Prop := {
  e_entries : s_entries s' = s_entries s ++ es;
  e_log : s_log s' = log_after es (s_log s);
  e_started : started s' = started s ++ cmds;
  e_index : index_of s ⊆ index_of s';
  e_ok : indices_ok s'
}.

Lemma effect_refl s : indices_ok s -> effect s s [] [].
Proof. intros H. split; try done; by rewrite app_nil_r. Qed.

Lemma effect_trans s1 s2 s3 es1 es2 c1 c2 :
  effect s1 s2 es1 c1 -> effect s2 s3 es2 c2 -> effect s1 s3 (es1 ++ es2) (c1 ++ c2).
Proof.
  intros [A1 A2 A3 A4 A5] [B1 B2 B3 B4 B5]. split.
  - by rewrite B1, A1, app_assoc.
  - rewrite B2, A2. unfold log_after. by rewrite fold_left_app.
  - by rewrite B3, A3, app_assoc.
  - by etransitivity.
  - done.
Qed.

Lemma effect_say e s : indices_ok s -> effect s (say colored e s) [e] [].
Proof. intros [H1 H2]. split; try done; cbn; by rewrite ?app_nil_r. Qed.

Lemma record_run {B} e (f : unit -> script_of session B) s : (record colored e ≫= f) s = f tt (say colored e s).
Proof. done. Qed.

Lemma record_all {A} (f : A -> entry) l s :
  indices_ok s ->
  exists s', map_script (fun x => record colored (f x)) l s = (s', Ok (map (fun _ => tt) l)) /\ effect s s' (map f l) [].
Proof.
  revert s. induction l as [|x l IH]; intros s Hs; [exists s; split; [done|by apply effect_refl]|].
  cbn [map_script map]. rewrite record_run. pose proof (effect_say (f x) s Hs) as E1.
  destruct (IH _ (e_ok _ _ _ _ E1)) as (s' & Hr & E2). rewrite (script_run _ _ _ _ _ Hr).
  exists s'. split; [done|]. exact (effect_trans _ _ _ _ _ _ _ E1 E2).
Qed.

(** ** Monitors and their indices *)

Lemma WorkerMonitor_run idx w cmd s :
  indices_ok s ->
  exists s' i, WorkerMonitor idx w cmd s = (s', Ok (TMonitor (Monitor idx w cmd true) i)) /\
    effect s s' [] [] /\ index_of s' !! w_object w = Some i.
Proof.
  intros Hok. pose proof Hok as [Hd Hu]. unfold WorkerMonitor. rewrite (script_run get _ s s s) by done.
  destruct (index_of s !! w_object w) as [i|] eqn:E.
  { exists s, i. split; [done|]. split; [by apply effect_refl|done]. }
  eexists _, _. split; [reflexivity|]. cbn. rewrite lookup_insert_eq. split; [|done].
  assert (Hn : forall o, index_of s !! o <> Some (next_index s)).
  { intros o Ho. assert (next_index s < next_index s) by (apply Hu; eauto). lia. }
  split; cbn; rewrite ?app_nil_r; try done; [by apply insert_subseteq|].
  split; cbn.
  - intros o1 o2 i. rewrite !lookup_insert. repeat case_decide; intros; simplify_eq; try done.
    + by destruct (Hn o2).
    + by destruct (Hn o1).
    + eauto.
  - intros i. split.
    + intros Hi. destruct (decide (i = next_index s)) as [->|Hne].
      * exists (w_object w). by rewrite lookup_insert_eq.
      * destruct (proj1 (Hu i)) as (o & Ho); [lia|]. exists o. rewrite lookup_insert_ne; [done|]. congruence.
    + intros (o & Ho). rewrite lookup_insert in Ho. case_decide; simplify_eq; [lia|].
      assert (i < next_index s) by (apply Hu; eauto). lia.
Qed.

(** ** Launching *)

Section launching.
Context (lam : nat -> worker -> res command) (echo : command -> list str).

(** A monitor of a task: its command, and the index of its worker. *)
Definition monitors_task (s : session) (m : tmonitor) : Prop :=
  lam (t_task m) (t_worker m) = Ok (t_cmd m) /\ index_of s !! w_object (t_worker m) = Some (t_index m).

Lemma monitors_task_mono s s' es cmds m : effect s s' es cmds -> monitors_task s m -> monitors_task s' m.
Proof. intros E [H1 H2]. split; [done|]. eapply lookup_weaken; [done|apply E]. Qed.

Definition assignment (m : tmonitor) : list entry := map Printed (echo (t_cmd m)) ++ [Assigned m].

Lemma assign_task_run idx w cmd s :
  indices_ok s -> lam idx w = Ok cmd ->
  exists s' m, assign_task colored lam echo idx w s = (s', Ok m) /\ t_monitor m = Monitor idx w cmd true /\
    monitors_task s' m /\ effect s s' (assignment m) [].
Proof.
  intros Hs Hl. unfold assign_task. rewrite (script_run (lift (lam idx w)) _ s s cmd) by (unfold lift; by rewrite Hl).
  destruct (record_all Printed (echo cmd) s Hs) as (s1 & R1 & E1). rewrite (script_run _ _ _ _ _ R1).
  destruct (WorkerMonitor_run idx w cmd s1 (e_ok _ _ _ _ E1)) as (s2 & i & R2 & E2 & Hi).
  rewrite (script_run _ _ _ _ _ R2), record_run. set (m := TMonitor _ i).
  pose proof (effect_say (Assigned m) s2 (e_ok _ _ _ _ E2)) as E3.
  eexists _, m. split; [done|]. split; [done|]. split; [by split|].
  exact (effect_trans _ _ _ _ _ _ _ E1 (effect_trans _ _ _ _ _ _ _ E2 E3)).
Qed.

Lemma launch_all ms s :
  indices_ok s ->
  exists s', map_script (launch colored) ms s = (s', Ok (map (fun _ => tt) ms)) /\
    effect s s' (map Launched ms) (map (fun m => cmd_ary (t_cmd m)) ms).
Proof.
  revert s. induction ms as [|m ms IH]; intros s Hs; [exists s; split; [done|by apply effect_refl]|].
  assert (E1 : effect s (start_process m (say colored (Launched m) s)) [Launched m] [cmd_ary (t_cmd m)]).
  { destruct Hs as [H1 H2]. by split. }
  destruct (IH _ (e_ok _ _ _ _ E1)) as (s' & Hr & E2). exists s'. cbn [map_script map].
  rewrite (script_run (launch colored m) _ s (start_process m (say colored (Launched m) s)) tt) by done.
  rewrite (script_run _ _ _ _ _ Hr). split; [done|]. exact (effect_trans _ _ _ _ _ _ _ E1 E2).
Qed.
(** The commands of the tasks, in order. *)
Definition task_commands (workers : list worker) (k n : nat) : res (list command) :=
  map_res (fun idx => w ← nth_res workers idx; lam idx w) (seq k n).

Lemma assign_all workers n : forall k s,
  indices_ok s -> k + n <= length workers ->
  match task_commands workers k n with
  | Ok cmds =>
      exists s' ms, map_script (fun idx => w ← lift (nth_res workers idx); assign_task colored lam echo idx w) (seq k n) s = (s', Ok ms) /\
        map t_task ms = seq k n /\ map t_worker ms = take n (drop k workers) /\ map t_cmd ms = cmds /\
        Forall (fun m => monitors_task s' m /\ t_running m = true) ms /\ effect s s' (flat_map assignment ms) []
  | Raise e =>
      exists s' es, map_script (fun idx => w ← lift (nth_res workers idx); assign_task colored lam echo idx w) (seq k n) s = (s', Raise e) /\
        effect s s' es []
  end.
Proof.
  induction n as [|n IH]; intros k s Hs Hn; unfold task_commands in *; cbn [seq map_res map_script].
  { exists s, []. split_and!; try done. by apply effect_refl. }
  destruct (lookup_lt_is_Some_2 workers k) as (w & Hw); [lia|].
  assert (Hnth : nth_res workers k = Ok w) by (unfold nth_res; by rewrite Hw).
  assert (Hlift : forall s, (w0 ← lift (Ok w); assign_task colored lam echo k w0) s = assign_task colored lam echo k w s) by done.
  rewrite Hnth, bind_of_Ok. destruct (lam k w) as [cmd|e] eqn:Hl.
  - rewrite bind_of_Ok. destruct (assign_task_run k w cmd s Hs Hl) as (s1 & m & R1 & Hm & Hi & E1).
    rewrite <- Hlift in R1. specialize (IH (S k) s1 (e_ok _ _ _ _ E1) ltac:(lia)).
    destruct (map_res _ (seq (S k) n)) as [cmds|e].
    + destruct IH as (s2 & ms & R2 & H1 & H2 & H3 & H4 & E2). rewrite bind_of_Ok.
      exists s2, (m :: ms). rewrite (script_run _ _ _ _ _ R1), (script_run _ _ _ _ _ R2).
      unfold t_task, t_worker, t_cmd, t_running in *. cbn [map]. rewrite Hm, H1, H2, H3. cbn [m_task m_worker m_cmd].
      rewrite (drop_S _ _ _ Hw). cbn [take]. split_and!; try done.
      * constructor; [|done]. rewrite Hm. split; [by eapply monitors_task_mono|done].
      * exact (effect_trans _ _ _ _ _ _ _ E1 E2).
    + destruct IH as (s2 & es & R2 & E2). cbn [mbind res_bind]. eexists s2, _.
      rewrite (script_run _ _ _ _ _ R1), (script_stop _ _ _ _ _ R2). split; [done|].
      exact (effect_trans _ _ _ _ _ _ _ E1 E2).
  - cbn [mbind res_bind]. exists s, []. split; [|by apply effect_refl]. apply script_stop. rewrite Hlift.
    unfold assign_task. apply script_stop. unfold lift. by rewrite Hl.
Qed.

(** Starting one task per worker, on every branch: with too few workers nothing
    is said or started; when a command cannot be built nothing is started;
    otherwise every task is assigned to its worker and, unless the run is dry,
    all commands are started, in order, after the last assignment. *)
Lemma launch_effect ntasks dry_run workers s :
  indices_ok s ->
  if length workers <? ntasks then
    exists msg, launch_worker_pipes colored lam echo ntasks dry_run workers s = (s, Raise (PyException msg))
  else match task_commands workers 0 ntasks with
       | Raise e => exists s' es, launch_worker_pipes colored lam echo ntasks dry_run workers s = (s', Raise e) /\ effect s s' es []
       | Ok cmds =>
           exists s' ms, let live := if dry_run then [] else ms in
             launch_worker_pipes colored lam echo ntasks dry_run workers s = (s', Ok live) /\
             map t_task ms = seq 0 ntasks /\ map t_worker ms = take ntasks workers /\ map t_cmd ms = cmds /\
             Forall (fun m => monitors_task s' m /\ t_running m = true) ms /\
             effect s s' (flat_map assignment ms ++ map Launched live) (map (fun m => cmd_ary (t_cmd m)) live)
       end.
Proof.
  intros Hs. unfold launch_worker_pipes. destruct (Nat.ltb_spec (length workers) ntasks) as [_|Hn]; [by eexists|].
  pose proof (assign_all workers ntasks 0 s Hs Hn) as H. destruct (task_commands workers 0 ntasks) as [cmds|e].
  - destruct H as (s1 & ms & R1 & H1 & H2 & H3 & H4 & E1). rewrite drop_0 in H2.
    destruct (launch_all (if dry_run then [] else ms) s1 (e_ok _ _ _ _ E1)) as (s2 & R2 & E2).
    exists s2, ms. rewrite (script_run _ _ _ _ _ R1), (script_run _ _ _ _ _ R2). split_and!; try done.
    + eapply Forall_impl; [exact H4|]. intros m [? ?]. split; [by eapply monitors_task_mono|done].
    + exact (effect_trans _ _ _ _ _ _ _ E1 E2).
  - destruct H as (s1 & es & R1 & E1). exists s1, es. by rewrite (script_stop _ _ _ _ _ R1).
Qed.
End launching.
(** ** Polling *)

Section polling.
Context {PO : Poll}.

(** What [Automation] takes for the reports. *)
Definition poll_env (k t : nat) : poll_event := fst <$> reports k t.
Definition t_poll (k : nat) (m : tmonitor) : tmonitor := TMonitor (poll_one (poll_env k) (t_monitor m)) (t_index m).
Definition hangs_up (k t : nat) : bool := match poll_env k t with Some (false, true) => true | _ => false end.
(** The tasks whose end was logged, in order. *)
Definition ends (es : list entry) : list nat :=
  omap (fun e => match e with Ends m => Some (t_task m) | _ => None end) es.

Lemma ends_app es1 es2 : ends (es1 ++ es2) = ends es1 ++ ends es2.
Proof. apply omap_app. Qed.

(** What polling says. *)
Definition poll_entry (e : entry) : Prop := match e with Output _ _ | Ends _ => True | _ => False end.

Lemma read_lines_run m lines s :
  indices_ok s ->
  exists s' es, read_lines colored m lines s = (s', Ok tt) /\ effect s s' es [] /\ ends es = [] /\ Forall poll_entry es.
Proof.
  revert s. induction lines as [|[|c l] lines IH]; intros s Hs;
    [exists s, []; split; [done|split; [by apply effect_refl|done]]..|].
  cbn [read_lines]. rewrite record_run. set (e := Output m _). pose proof (effect_say e s Hs) as E1.
  destruct (IH _ (e_ok _ _ _ _ E1)) as (s' & es & R & E2 & Hn & Hp). exists s', (e :: es). split; [done|].
  split; [exact (effect_trans _ _ _ _ _ _ _ E1 E2)|]. split; [done|by constructor].
Qed.

Lemma fd_monitor_found ms m : NoDup (map t_task ms) -> m ∈ ms -> fd_monitor ms (t_task m) = Some m.
Proof.
  unfold fd_monitor. induction ms as [|m' ms IH]; intros Hnd Hm; [by apply not_elem_of_nil in Hm|].
  cbn [map List.find] in *. apply NoDup_cons in Hnd as [Hn Hnd]. destruct (Nat.eqb_spec (t_task m') (t_task m)) as [E|Hne].
  - apply elem_of_cons in Hm as [->|Hm]; [done|]. exfalso. apply Hn. rewrite E. by apply list_elem_of_fmap_2.
  - apply elem_of_cons in Hm as [->|Hm]; [done|]. by apply IH.
Qed.

Lemma running_task ms t : t ∈ running_tasks ms <-> exists m, m ∈ ms /\ t_running m = true /\ t_task m = t.
Proof.
  unfold running_tasks. rewrite list_elem_of_fmap. split.
  - intros (m & -> & Hm). apply list_elem_of_In, filter_In in Hm as [?%list_elem_of_In ?]. eauto.
  - intros (m & Hm & Hr & <-). exists m. split; [done|]. apply list_elem_of_In, filter_In. by rewrite <- list_elem_of_In.
Qed.

Definition poll_at (k t : nat) (m : tmonitor) : tmonitor := if t_task m =? t then t_poll k m else m.

Lemma t_poll_task k m : t_task (t_poll k m) = t_task m.
Proof. unfold t_task, t_poll. cbn. apply (poll_worker (poll_env k)). Qed.

Lemma poll_at_task k t m : t_task (poll_at k t m) = t_task m.
Proof. unfold poll_at. case_match; [apply t_poll_task|done]. Qed.

Lemma on_report_run k t ms s :
  indices_ok s -> NoDup (map t_task ms) -> t ∈ running_tasks ms ->
  exists s' es, on_report colored k t ms s = (s', Ok (map (poll_at k t) ms)) /\ effect s s' es [] /\
    ends es = (if hangs_up k t then [t] else []) /\ Forall poll_entry es.
Proof.
  intros Hs Hnd (m & Hm & Hr & Ht)%running_task.
  assert (Hsame : poll_one (poll_env k) (t_monitor m) = t_monitor m -> map (poll_at k t) ms = ms).
  { intros E. rewrite <- (map_id ms) at 2. apply map_ext_in. intros x Hx%list_elem_of_In. unfold poll_at.
    destruct (Nat.eqb_spec (t_task x) t) as [Ex|]; [|done].
    assert (x = m) as ->. { pose proof (fd_monitor_found ms x Hnd Hx). pose proof (fd_monitor_found ms m Hnd Hm). congruence. }
    unfold t_poll. rewrite E. by destruct m. }
  assert (Hpoll : poll_one (poll_env k) (t_monitor m) =
    match poll_env k t with Some (i, h) => if i then t_monitor m else if h then set_dead (t_monitor m) else t_monitor m
                       | None => t_monitor m end).
  { unfold poll_one. unfold t_running in Hr. unfold t_task in Ht. by rewrite Hr, Ht. }
  assert (Hfd : fd_monitor ms t = Some m) by (subst t; by apply fd_monitor_found).
  unfold on_report, hangs_up. assert (He : poll_env k t = fst <$> reports k t) by done. rewrite He in *. destruct (reports k t) as [[[pollin hup] lines]|]; cbn [fmap option_fmap option_map fst] in Hpoll |- *.
  2: { exists s, []. rewrite Hsame by done. split; [done|split; [by apply effect_refl|done]]. }
  rewrite (script_run _ _ s s m) by (unfold lift; by rewrite Hfd). rewrite Hr. cbn [negb]. destruct pollin.
  - destruct (read_lines_run m lines s Hs) as (s' & es & R & E & Hn & Hp). rewrite (script_run _ _ _ _ _ R), Hsame by done.
    exists s', es. by split_and!.
  - destruct hup.
    + rewrite record_run. eexists _, [Ends m]. split; [|split; [by apply effect_say|split; [cbn; by rewrite Ht|by repeat constructor]]].
      unfold mret, script_ret. do 2 f_equal. unfold kill. apply map_ext_in. intros x Hx%list_elem_of_In. unfold poll_at.
      destruct (Nat.eqb_spec (t_task x) t) as [Ex|]; [|done].
      assert (x = m) as ->. { pose proof (fd_monitor_found ms x Hnd Hx). congruence. }
      unfold t_set_dead, t_poll. by rewrite Hpoll.
    + exists s, []. rewrite Hsame by done. split; [done|split; [by apply effect_refl|done]].
Qed.

Lemma on_reports_run k ts : forall ms s,
  indices_ok s -> NoDup (map t_task ms) -> NoDup ts -> (forall t, t ∈ ts -> t ∈ running_tasks ms) ->
  exists s' es,
    on_reports colored k ts ms s = (s', Ok (map (fun m => if bool_decide (t_task m ∈ ts) then t_poll k m else m) ms)) /\
    effect s s' es [] /\ ends es = List.filter (hangs_up k) ts /\ Forall poll_entry es.
Proof.
  induction ts as [|t ts IH]; intros ms s Hs Hnd Hts Hsub.
  { exists s, []. cbn [on_reports]. split; [|split; [by apply effect_refl|done]]. unfold mret, script_ret. do 2 f_equal. symmetry. apply map_id. }
  apply NoDup_cons in Hts as [Hn Hts].
  destruct (on_report_run k t ms s Hs Hnd (Hsub t (list_elem_of_here _ _))) as (s1 & es1 & R1 & E1 & X1 & P1).
  assert (Htasks : map t_task (map (poll_at k t) ms) = map t_task ms).
  { rewrite map_map. apply map_ext. intros m. apply poll_at_task. }
  destruct (IH (map (poll_at k t) ms) s1 (e_ok _ _ _ _ E1)) as (s2 & es2 & R2 & E2 & X2 & P2); [by rewrite Htasks|done|..].
  { intros t' Ht'. destruct (proj1 (running_task _ _) (Hsub t' (list_elem_of_further _ _ _ Ht'))) as (m & Hm & Hr & Ht).
    apply running_task. exists m. split_and!; [|done|done]. apply list_elem_of_fmap. exists m. split; [|done].
    unfold poll_at. destruct (Nat.eqb_spec (t_task m) t) as [E|]; [congruence|done]. }
  exists s2, (es1 ++ es2). cbn [on_reports]. rewrite (script_run _ _ _ _ _ R1), R2. split_and!.
  - do 2 f_equal. rewrite map_map. apply map_ext_in. intros m _. rewrite poll_at_task. unfold poll_at.
    destruct (Nat.eqb_spec (t_task m) t) as [E|Hne].
    + rewrite (bool_decide_eq_false_2 (t_task m ∈ ts)) by congruence. rewrite bool_decide_eq_true_2; [done|]. rewrite E. left.
    + apply (f_equal (fun b : bool => if b then _ else _)). apply bool_decide_ext. rewrite elem_of_cons. naive_solver.
  - exact (effect_trans _ _ _ _ _ _ _ E1 E2).
  - rewrite ends_app, X1, X2. cbn [List.filter]. by destruct (hangs_up k t).
  - by apply Forall_app.
Qed.

Lemma NoDup_running ms : NoDup (map t_task ms) -> NoDup (running_tasks ms).
Proof. intros H. eapply sublist_NoDup; [exact H|]. apply map_filter_sublist. Qed.

Lemma map_running ms : map t_monitor (List.filter t_running ms) = List.filter m_running (map t_monitor ms).
Proof.
  induction ms as [|m ms IH]; [done|]. cbn [map List.filter]. change (m_running (t_monitor m)) with (t_running m).
  destruct (t_running m); cbn [map]; by rewrite IH.
Qed.

(** A poll takes the step of [Automation.poll_monitors] on the monitors
    underneath; the tasks whose end it logs are those that hang up, once each. *)
Lemma poll_refines k ms s :
  indices_ok s -> NoDup (map t_task ms) ->
  let ms' := map (t_poll k) ms in
  exists s' es,
    poll_monitors colored k ms s = (s', Ok (ms', List.filter t_running ms')) /\
    (map t_monitor ms', map t_monitor (List.filter t_running ms')) = Automation.poll_monitors (poll_env k) (map t_monitor ms) /\
    effect s s' es [] /\ ends es ≡ₚ List.filter (hangs_up k) (running_tasks ms) /\ Forall poll_entry es.
Proof.
  intros Hs Hnd ms'.
  destruct (on_reports_run k (poll_order k (running_tasks ms)) ms s Hs Hnd) as (s' & es & R & E & X & P).
  { rewrite poll_order_perm. by apply NoDup_running. }
  { intros t. by rewrite poll_order_perm. }
  assert (Hms : map (fun m => if bool_decide (t_task m ∈ poll_order k (running_tasks ms)) then t_poll k m else m) ms = ms').
  { apply map_ext_in. intros m Hm%list_elem_of_In. case_bool_decide as Hd; [done|]. rewrite poll_order_perm in Hd.
    assert (Hr : t_running m = false).
    { destruct (t_running m) eqn:Hr; [|done]. exfalso. apply Hd, running_task. eauto. }
    unfold t_poll, poll_one. unfold t_running in Hr. rewrite Hr. by destruct m. }
  rewrite Hms in R. exists s', es. unfold poll_monitors. rewrite (script_run _ _ _ _ _ R). split; [done|]. split.
  - unfold Automation.poll_monitors, running. f_equal.
    + unfold ms'. by rewrite !map_map.
    + rewrite map_running. f_equal. unfold ms'. by rewrite !map_map.
  - split; [done|]. split; [|done]. rewrite X. apply filter_Permutation_bool. apply poll_order_perm.
Qed.

(** ** Waiting for all *)

Lemma running_after k ms :
  running_tasks (map (t_poll k) ms) = List.filter (fun t => negb (hangs_up k t)) (running_tasks ms).
Proof.
  unfold running_tasks. induction ms as [|m ms IH]; [done|]. cbn [map List.filter].
  assert (E : t_running (t_poll k m) = t_running m && negb (hangs_up k (t_task m))).
  { unfold t_running, t_poll, poll_one, hangs_up. cbn [t_monitor]. destruct (m_running (t_monitor m)) eqn:Hm; [|done].
    change (m_task (t_monitor m)) with (t_task m). by destruct (poll_env k (t_task m)) as [[[] []]|]. }
  rewrite E. destruct (t_running m); [|done]. cbn [map List.filter andb].
  destruct (hangs_up k (t_task m)); cbn [map negb]; [done|]. by rewrite t_poll_task, IH.
Qed.

Lemma filter_partition {A} (p : A -> bool) l : List.filter p l ++ List.filter (fun x => negb (p x)) l ≡ₚ l.
Proof.
  induction l as [|x l IH]; [done|]. cbn. destruct (p x); cbn; [by rewrite IH|]. by rewrite <- Permutation_middle, IH.
Qed.

(** The sizes announced. *)
Definition sizes (es : list entry) : list nat := omap (fun e => match e with Remaining n => Some n | _ => None end) es.

Lemma sizes_app es1 es2 : sizes (es1 ++ es2) = sizes es1 ++ sizes es2.
Proof. apply omap_app. Qed.

Lemma poll_entries_sizes es : Forall poll_entry es -> sizes es = [].
Proof. induction 1 as [|[] es H _ IH]; try done. Qed.

(** One poll, as the loop sees it. *)
Lemma poll_step k ms s :
  indices_ok s -> NoDup (map t_task ms) ->
  let ms' := List.filter t_running (map (t_poll k) ms) in
  exists s' es,
    poll_monitors colored k ms s = (s', Ok (map (t_poll k) ms, ms')) /\ effect s s' es [] /\ Forall poll_entry es /\
    ends es ++ running_tasks ms' ≡ₚ running_tasks ms /\ NoDup (map t_task ms') /\
    running_tasks ms' = List.filter (fun t => negb (hangs_up k t)) (running_tasks ms).
Proof.
  intros Hs Hnd ms'. destruct (poll_refines k ms s Hs Hnd) as (s' & es & R & _ & E & X & P).
  exists s', es. split; [exact R|]. split; [done|].
  assert (Hr : running_tasks ms' = List.filter (fun t => negb (hangs_up k t)) (running_tasks ms)).
  { rewrite <- running_after. unfold running_tasks, ms'. f_equal. rewrite filter_filter.
    apply filter_ext. intros m. apply andb_diag. }
  split_and!; [done|by rewrite Hr, X, filter_partition| |done].
  unfold ms'. eapply sublist_NoDup; [|apply map_filter_sublist]. rewrite map_map.
    by rewrite (map_ext _ _ (t_poll_task k)).
Qed.

Definition decreasing_from (n : nat) (l : list nat) : Prop := StronglySorted gt l /\ Forall (fun m => m <= n) l.

Lemma length_running ms : length (List.filter t_running ms) = length (running_tasks ms).
Proof. unfold running_tasks. by rewrite length_map. Qed.

(** What the loop says from a state on: the end of every running task once, then
    that all is complete; sizes below the last one said. *)
Definition waits (k : nat) (ms : list tmonitor) (last_ : option nat) (s : session) : Prop :=
  exists fuel s' es, monitor_loop colored fuel k ms last_ s = (s', Ok tt) /\ effect s s' (es ++ [Complete]) [] /\
    ends es ≡ₚ running_tasks ms /\ StronglySorted gt (sizes es) /\
    Forall (fun m => m <= length (running_tasks ms) /\ Some m <> last_) (sizes es) /\
    (running_tasks ms <> [] -> last (sizes es) = Some 0).

Lemma waits_step k ms last_ s s1 es1 ms1 :
  running_tasks ms <> [] -> NoDup (map t_task ms) -> (last_ = None \/ last_ = Some (length (running_tasks ms))) ->
  poll_monitors colored k ms s = (s1, Ok (map (t_poll k) ms, ms1)) -> effect s s1 es1 [] -> Forall poll_entry es1 ->
  ends es1 ++ running_tasks ms1 ≡ₚ running_tasks ms ->
  (forall s2, indices_ok s2 -> waits (S k) ms1 (Some (length (running_tasks ms1))) s2) ->
  waits k ms last_ s.
Proof.
  intros Hr Hnd Hlast R E1 Z1%poll_entries_sizes X1 Hnext.
  assert (Hle : length (running_tasks ms1) <= length (running_tasks ms)).
  { apply Permutation_length in X1. rewrite length_app in X1. lia. }
  assert (Hloop : forall fuel, monitor_loop colored (S fuel) k ms last_ s =
    if bool_decide (last_ = Some (length (running_tasks ms1))) then monitor_loop colored fuel (S k) ms1 last_ s1
    else monitor_loop colored fuel (S k) ms1 (Some (length (running_tasks ms1)))
           (say colored (Remaining (length (running_tasks ms1))) s1)).
  { intros fuel. cbn [monitor_loop]. rewrite !length_running. destruct (running_tasks ms) as [|t ts]; [done|]. cbn [length Nat.eqb].
    rewrite (script_run _ _ _ _ _ R). cbn beta iota. rewrite !length_running. by case_bool_decide. }
  case_bool_decide as Hsame.
  - rewrite Hsame in *. destruct (Hnext s1 (e_ok _ _ _ _ E1)) as (fuel & s' & es & L & E & X & Hd & Hb & H0).
    exists (S fuel), s', (es1 ++ es). rewrite Hloop. split; [done|].
    rewrite <- app_assoc, ends_app, sizes_app, Z1. cbn [app].
    split_and!; [exact (effect_trans _ _ _ _ _ _ _ E1 E)|by rewrite X|done| |].
    + eapply Forall_impl; [exact Hb|]. cbn. intros m [? ?]. split; [lia|done].
    + intros _. apply H0. intros Hnil. destruct Hlast as [|Hl]; [done|]. injection Hl as Hl. rewrite Hnil in Hl.
      destruct (running_tasks ms); done.
  - pose proof (effect_say (Remaining (length (running_tasks ms1))) s1 (e_ok _ _ _ _ E1)) as E2.
    destruct (Hnext _ (e_ok _ _ _ _ E2)) as (fuel & s' & es & L & E & X & Hd & Hb & H0).
    exists (S fuel), s', (es1 ++ Remaining (length (running_tasks ms1)) :: es). rewrite Hloop. split; [done|].
    rewrite <- app_assoc, ends_app, sizes_app, Z1. cbn [app].
    assert (Hs : sizes (Remaining (length (running_tasks ms1)) :: es) = length (running_tasks ms1) :: sizes es) by done.
    rewrite Hs. split_and!.
    + exact (effect_trans _ _ _ _ _ _ _ E1 (effect_trans _ _ _ _ _ _ _ E2 E)).
    + change (ends (Remaining _ :: es)) with (ends es). by rewrite X.
    + constructor; [done|]. eapply Forall_impl; [exact Hb|]. cbn. intros m [? ?]. assert (m <> length (running_tasks ms1)) by congruence. lia.
    + constructor; [split; [done|congruence]|]. eapply Forall_impl; [exact Hb|]. cbn. intros m [? Hm]. split; [lia|].
      destruct Hlast as [-> | ->]; [done|]. intros [= ->]. assert (length (running_tasks ms) <> length (running_tasks ms1)) by congruence. lia.
    + intros _. destruct (running_tasks ms1) as [|t ts] eqn:Ems.
      * cbn [length]. destruct (sizes es) as [|z l]; [done|]. exfalso.
        inversion Hb as [|? ? [? Hz] ?]; subst. cbn in *. assert (z = 0) by lia. by subst.
      * rewrite <- Ems in *. destruct (sizes es) as [|z l] eqn:El; [specialize (H0 ltac:(congruence)); done|].
        change (last (length (running_tasks ms1) :: z :: l)) with (last (z :: l)). apply H0. congruence.
Qed.

Lemma waits_done k ms last_ s : indices_ok s -> running_tasks ms = [] -> waits k ms last_ s.
Proof.
  intros Hs Hr. exists 0, (say colored Complete s), []. cbn [monitor_loop]. rewrite length_running, Hr.
  split; [done|]. split_and!; try done; [by apply effect_say|constructor].
Qed.

Lemma waits_always : fair poll_env -> forall n k ms last_ s,
  length (running_tasks ms) <= n -> indices_ok s -> NoDup (map t_task ms) ->
  (last_ = None \/ last_ = Some (length (running_tasks ms))) -> waits k ms last_ s.
Proof.
  intros Hfair. induction n as [|n IH]; intros k ms last_ s Hn Hs Hnd Hlast.
  { apply waits_done; [done|]. by destruct (running_tasks ms); [|cbn in Hn; lia]. }
  destruct (running_tasks ms) as [|t ts] eqn:Er; [by apply waits_done|]. rewrite <- Er in *.
  destruct (Hfair k t) as (k' & Hk & Hfire).
  assert (Ht : t ∈ running_tasks ms) by (rewrite Er; left). clear Er.
  remember (k' - k) as d eqn:Hd. revert k ms last_ s Hn Hs Hnd Hlast Hk Ht Hd.
  induction d as [|d IHd]; intros k ms last_ s Hn Hs Hnd Hlast Hk Ht Hd;
    destruct (poll_step k ms s Hs Hnd) as (s1 & es1 & R & E1 & Z1 & X1 & Hnd1 & Hrun);
    (eapply waits_step; [intros Hnil; rewrite Hnil in Ht; by apply not_elem_of_nil in Ht|done|done|exact R|exact E1|done|done|]);
    intros s2 Hs2; set (ms1 := List.filter t_running _) in *.
  - assert (k' = k) as -> by lia. apply IH; auto. apply Permutation_length in X1 as Hl. rewrite length_app in Hl.
    assert (ends es1 <> []); [|destruct (ends es1); [done|cbn in Hl; lia]].
    intros Hnil. rewrite Hnil in X1. cbn [app] in X1. rewrite <- X1, Hrun in Ht.
    apply list_elem_of_In, filter_In in Ht as [_ Hh]. unfold hangs_up in Hh. by rewrite Hfire in Hh.
  - destruct (decide (length (running_tasks ms1) <= n)) as [Hle|Hgt]; [by apply IH; auto|].
    apply Permutation_length in X1 as Hl. rewrite length_app in Hl.
    assert (ends es1 = []) as Hnil by (destruct (ends es1); [done|cbn in Hl; lia]).
    rewrite Hnil in X1. cbn [app] in X1. apply IHd; auto; try lia. by rewrite X1.
Qed.

(** C31. Waiting for the workers: whatever is reported in between, if every job
    hangs up some time, the loop ends; the end of every job is logged exactly
    once, the numbers of workers remaining that are announced fall strictly
    down to 0, the last line says that all is complete, and no command is
    started. *)
Theorem monitor_completes ms s :
  fair poll_env -> indices_ok s -> NoDup (map t_task ms) ->
  exists fuel s' es, monitor_worker_pipes colored fuel ms s = (s', Ok tt) /\
    s_entries s' = s_entries s ++ es ++ [Complete] /\ s_log s' = log_after (es ++ [Complete]) (s_log s) /\
    started s' = started s /\ ends es ≡ₚ running_tasks ms /\ StronglySorted gt (sizes es) /\
    (running_tasks ms <> [] -> last (sizes es) = Some 0).
Proof.
  intros Hf Hs Hnd. destruct (waits_always Hf _ 0 ms None s (le_n _) Hs Hnd (or_introl eq_refl))
    as (fuel & s' & es & L & E & X & Hd & _ & H0).
  exists fuel, s', es. split; [done|]. destruct E as [E1 E2 E3 _ _]. rewrite app_nil_r in E3. by split_and!.
Qed.

(** ** The queue *)

Section sequencing.
Context (lam : nat -> worker -> res command) (lam' : nat -> worker -> command) (echo : command -> list str)
  (ntasks : nat) (dry_run : bool).
Hypothesis lam_defined : forall idx w, idx < ntasks -> lam idx w = Ok (lam' idx w).

(** The tasks whose assignment was logged. *)
Definition assigns (es : list entry) : list (nat * worker) :=
  omap (fun e => match e with Assigned m => Some (t_task m, t_worker m) | _ => None end) es.
Definition command_of (iw : nat * worker) : list str := cmd_ary (lam' (fst iw) (snd iw)).

(** The queue and the session follow the abstract launcher. *)
Record tracks (s0 s : session) (q : queue) (st : lstate) : Prop := {
  tr_effect : exists es, effect s0 s es (map command_of (launched st)) /\ assigns es = assigned st;
  tr_idle : q_idle q = idle_resources st;
  tr_next : q_next q = next_task_idx st;
  tr_monitors : map t_monitor (q_monitors q) = monitors st
}.

Lemma assigns_app es1 es2 : assigns (es1 ++ es2) = assigns es1 ++ assigns es2.
Proof. apply omap_app. Qed.

Lemma assigns_assignment m : assigns (assignment echo m) = [(t_task m, t_worker m)].
Proof. unfold assignment. rewrite assigns_app. cbn. induction (echo (t_cmd m)); [done|]. done. Qed.

Lemma dispatch_tracks s0 s q st st' :
  tracks s0 s q st -> next_task_idx st < ntasks -> Automation.dispatch_one lam' dry_run st = Ok st' ->
  exists s' q', dispatch_one colored lam echo dry_run q s = (s', Ok q') /\ tracks s0 s' q' st'.
Proof.
  intros [(es & E & X) Hi Hn Hm] Hlt H. unfold Automation.dispatch_one in H. unfold dispatch_one. rewrite Hi.
  destruct (rev (idle_resources st)) as [|w rest]; [done|]. injection H as <-.
  rewrite Hn. destruct (assign_task_run lam echo (next_task_idx st) w _ s (e_ok _ _ _ _ E) (lam_defined _ w Hlt))
    as (s1 & m & R & Ht & _ & E1). rewrite (script_run _ _ _ _ _ R).
  pose proof (effect_trans _ _ _ _ _ _ _ E E1) as E2. rewrite app_nil_r in E2.
  assert (Ha : assigns (es ++ assignment echo m) = assigned st ++ [(next_task_idx st, w)]).
  { rewrite assigns_app, assigns_assignment, X. unfold t_task, t_worker. by rewrite Ht. }
  destruct dry_run.
  - eexists _, _. split; [done|]. split; cbn [launched idle_resources next_task_idx monitors assigned q_idle q_next q_monitors]; try done.
    + by exists (es ++ assignment echo m).
    + rewrite map_app, Hm. cbn. by rewrite Ht.
  - assert (E3 : effect s1 (start_process m (say colored (Launched m) s1)) [Launched m] [cmd_ary (t_cmd m)]).
    { destruct (e_ok _ _ _ _ E1). by split. }
    eexists _, _. split; [reflexivity|]. split; cbn [launched idle_resources next_task_idx monitors assigned q_idle q_next q_monitors]; try done.
    + exists ((es ++ assignment echo m) ++ [Launched m]). split.
      * rewrite map_app. replace (map command_of [(next_task_idx st, w)]) with [cmd_ary (t_cmd m)]; [exact (effect_trans _ _ _ _ _ _ _ E2 E3)|].
        unfold t_cmd. by rewrite Ht.
      * by rewrite assigns_app, Ha, app_nil_r.
    + rewrite map_app, Hm. cbn. by rewrite Ht.
Qed.

Lemma assign_loop_tracks s0 fuel : forall s q st st',
  tracks s0 s q st -> Automation.assign_loop lam' ntasks dry_run fuel st = Ok st' ->
  exists s' q', assign_loop colored lam echo ntasks dry_run fuel q s = (s', Ok q') /\ tracks s0 s' q' st'.
Proof.
  induction fuel as [|fuel IH]; intros s q st st' T H; cbn [Automation.assign_loop assign_loop] in *;
    rewrite (tr_idle _ _ _ _ T), (tr_next _ _ _ _ T);
    destruct ((0 <? length (idle_resources st)) && (next_task_idx st <? ntasks)) eqn:Hc; try done;
    try (injection H as <-; by exists s, q).
  apply andb_true_iff in Hc as [_ Hlt%Nat.ltb_lt]. apply bind_Ok in H as (st1 & H1 & H2).
  destruct (dispatch_tracks s0 s q st st1 T Hlt H1) as (s1 & q1 & R1 & T1).
  destruct (IH s1 q1 st1 st' T1 H2) as (s2 & q2 & R2 & T2). exists s2, q2. by rewrite (script_run _ _ _ _ _ R1).
Qed.

Lemma survives_map surviving m :
  existsb (fun s => t_task s =? t_task m) surviving = survives (map t_monitor surviving) (t_monitor m).
Proof. unfold survives. induction surviving as [|x l IH]; [done|]. cbn. by rewrite IH. Qed.

Lemma finished_map surviving ms :
  map t_monitor (List.filter (fun m => negb (existsb (fun s => t_task s =? t_task m) surviving)) ms) =
  List.filter (fun m => negb (survives (map t_monitor surviving) m)) (map t_monitor ms).
Proof.
  induction ms as [|m ms IH]; [done|]. cbn [map List.filter]. rewrite survives_map. by destruct (survives _ _); cbn [negb map]; rewrite IH.
Qed.

Lemma returned_map ms idle :
  fold_left (fun idle m => t_worker m :: idle) ms idle = fold_left (fun idle m => m_worker m :: idle) (map t_monitor ms) idle.
Proof. revert idle. induction ms as [|m ms IH]; intros idle; [done|]. apply IH. Qed.

Lemma tracks_more s0 s s' es q st :
  tracks s0 s q st -> effect s s' es [] -> assigns es = [] -> tracks s0 s' q st.
Proof.
  intros [(es0 & E & X) H1 H2 H3] E1 X1. split; try done. exists (es0 ++ es). rewrite assigns_app, X, X1, app_nil_r.
  split; [|done]. rewrite <- (app_nil_r (map _ _)). exact (effect_trans _ _ _ _ _ _ _ E E1).
Qed.

Lemma poll_entries_assigns es : Forall poll_entry es -> assigns es = [].
Proof. induction 1 as [|[] es H _ IH]; try done. Qed.

(** The line on progress, said or not. *)
Lemma progress_run (b : bool) e s :
  indices_ok s -> assigns [e] = [] ->
  exists s' es, (if b then mret tt else record colored e) s = (s', Ok tt) /\ effect s s' es [] /\ assigns es = [].
Proof.
  intros Hs He. destruct b; [exists s, []|exists (say colored e s), [e]]; (split; [done|split; [|done]]).
  - by apply effect_refl.
  - by apply effect_say.
Qed.

Lemma tracked_ok s0 s q st : tracks s0 s q st -> indices_ok s.
Proof. intros [(es & E & _) _ _ _]. apply E. Qed.

(** The monitors of a pass, before and after polling. *)
Lemma pass_run k s q st :
  indices_ok s -> map t_monitor (q_monitors q) = monitors st -> NoDup (map m_task (monitors st)) ->
  let '(ms, surviving) := if dry_run then (monitors st, []) else Automation.poll_monitors (poll_env k) (monitors st) in
  exists s' es ms' surviving',
    (if dry_run then mret (q_monitors q, []) else poll_monitors colored k (q_monitors q)) s = (s', Ok (ms', surviving')) /\
    map t_monitor ms' = ms /\ map t_monitor surviving' = surviving /\ effect s s' es [] /\ assigns es = [].
Proof.
  intros Hs Hm Hnd. destruct dry_run.
  { exists s, [], (q_monitors q), []. split_and!; try done. by apply effect_refl. }
  assert (Hnd' : NoDup (map t_task (q_monitors q))) by (rewrite <- Hm, map_map in Hnd; exact Hnd).
  destruct (poll_refines k (q_monitors q) s Hs Hnd') as (s' & es & R & Hp & E & _ & P).
  rewrite Hm in Hp. rewrite <- Hp. eexists s', es, _, _. split_and!; [exact R|done|done|done|by apply poll_entries_assigns].
Qed.

Lemma round_tracks workers s0 k s q st st' :
  queue_ok ntasks dry_run workers st -> tracks s0 s q st ->
  Automation.round lam' ntasks dry_run (poll_env k) st = Ok st' ->
  exists s' q', queue_round colored lam echo ntasks dry_run k q s = (s', Ok q') /\ tracks s0 s' q' st'.
Proof.
  intros Hq T H. unfold Automation.round in H. apply bind_Ok in H as (st1 & Ha & H).
  destruct (assign_ok lam' ntasks dry_run workers _ st Hq (le_n _)) as (st1' & Ha' & Hq1 & _).
  assert (st1' = st1) as -> by (unfold assign in Ha; congruence).
  unfold assign in Ha. rewrite <- (tr_idle _ _ _ _ T) in Ha.
  destruct (assign_loop_tracks s0 _ s q st st1 T Ha) as (s1 & q1 & R1 & T1).
  unfold queue_round. rewrite (script_run _ _ _ _ _ R1).
  assert (Hnd : NoDup (map m_task (monitors st1))).
  { eapply sublist_NoDup; [|exact (Automation.q_monitors _ _ _ _ Hq1)]. apply NoDup_ListNoDup, seq_NoDup. }
  pose proof (pass_run k s1 q1 st1 (tracked_ok _ _ _ _ T1) (tr_monitors _ _ _ _ T1) Hnd) as Hpass.
  destruct (if dry_run then (monitors st1, []) else _) as [ms surviving]. injection H as <-.
  destruct Hpass as (s2 & es2 & ms' & surviving' & R2 & <- & <- & E2 & X2). rewrite (script_run _ _ _ _ _ R2). cbn beta iota.
  pose proof (tracks_more _ _ _ _ _ _ T1 E2 X2) as T2.
  destruct (progress_run (length (List.filter t_running surviving') =? length (List.filter t_running (q_monitors q1)))
    (Progress (ntasks - q_next q1) (length (List.filter t_running surviving'))) s2 (tracked_ok _ _ _ _ T2) eq_refl)
    as (s3 & es3 & R3 & E3 & X3). rewrite (script_run _ _ _ _ _ R3).
  eexists s3, _. split; [done|]. pose proof (tracks_more _ _ _ _ _ _ T2 E3 X3) as [H1 H2 H3 H4].
  split; cbn [launched assigned idle_resources next_task_idx monitors q_idle q_next q_monitors]; try done.
  by rewrite returned_map, finished_map, H2.
Qed.

Lemma loop_tracks workers s0 fuel : forall k s q st st',
  queue_ok ntasks dry_run workers st -> tracks s0 s q st ->
  sequenced_loop lam' ntasks dry_run poll_env fuel k st = Ok st' ->
  exists s' es, queue_loop colored lam echo ntasks dry_run fuel k q s = (s', Ok tt) /\
    effect s0 s' (es ++ [Complete]) (map command_of (launched st')) /\ assigns es = assigned st'.
Proof.
  induction fuel as [|fuel IH]; intros k s q st st' Hq T H; cbn [sequenced_loop queue_loop] in *;
    assert (Hd : queue_done ntasks q = loop_done ntasks st)
      by (unfold queue_done, loop_done; by rewrite (tr_next _ _ _ _ T), <- (tr_monitors _ _ _ _ T), length_map);
    rewrite Hd; destruct (loop_done ntasks st).
  2: done.
  1, 2: injection H as <-; destruct T as [(es & E & X) _ _ _]; eexists _, es; split; [done|]; split; [|done];
    rewrite <- (app_nil_r (map _ _)); exact (effect_trans _ _ _ _ _ _ _ E (effect_say Complete s (e_ok _ _ _ _ E))).
  apply bind_Ok in H as (st1 & H1 & H2). destruct (round_tracks workers s0 k s q st st1 Hq T H1) as (s1 & q1 & R & T1).
  rewrite (script_run _ _ _ _ _ R). apply (IH (S k) s1 q1 st1); try done.
  destruct (round_ok lam' ntasks dry_run workers (poll_env k) st Hq) as (? & st2 & _ & _ & _ & _ & _ & H1' & Hq2 & _).
  by assert (st2 = st1) as <- by congruence.
Qed.

(** C17. The queue with its log refines the launcher of [Automation] under the same
    reports, and ends: with a worker and jobs that all hang up some time, every
    task is assigned exactly once, in order, as the log says; the commands
    started are exactly those of the tasks in that order, or none in a dry
    run; the last line says that all is complete. *)
Theorem sequenced_completes workers s :
  indices_ok s -> workers <> [] -> dry_run = true \/ fair poll_env ->
  exists fuel s' es st, sequenced_launcher colored lam echo ntasks dry_run fuel workers s = (s', Ok tt) /\
    Automation.sequenced_launcher lam' ntasks dry_run poll_env fuel workers = Ok st /\
    s_entries s' = s_entries s ++ es ++ [Complete] /\ assigns es = assigned st /\
    map fst (assigned st) = seq 0 ntasks /\
    started s' = started s ++ (if dry_run then [] else map command_of (assigned st)).
Proof.
  intros Hs Hne Hfair.
  destruct (ends_always lam' ntasks dry_run workers poll_env 0 (start workers) Hne Hfair (start_ok ntasks dry_run workers))
    as (fuel & st & Hl & Hq & Hd).
  assert (T : tracks s s (Queue workers 0 []) (start workers)).
  { split; try done. exists []. split; [by apply effect_refl|done]. }
  destruct (loop_tracks workers s fuel 0 s _ _ st (start_ok ntasks dry_run workers) T Hl) as (s' & es & R & [E1 _ E3 _ _] & X).
  exists fuel, s', es, st. split_and!; try done.
  - unfold loop_done in Hd. apply andb_true_iff in Hd as [_ Hn%Nat.leb_le]. rewrite (q_tasks _ _ _ _ Hq). f_equal.
    pose proof (q_bound _ _ _ _ Hq). lia.
  - rewrite E3, (q_launched _ _ _ _ Hq). by destruct dry_run.
Qed.
End sequencing.
End polling.
(** ** The scripts *)

Section scripts.
Context (cwd : str) (fs : gmap str str) (re_search : str -> str -> bool) (service : list str -> str) {PO : Poll}.

Lemma empty_ok : indices_ok empty_session.
Proof.
  split; cbn; [intros o1 o2 i; by rewrite lookup_empty|]. intros i. split; [lia|]. intros (o & Ho). by rewrite lookup_empty in Ho.
Qed.

(** A script whose commands exist for every variant on every worker. *)
Definition commands_defined (l : launch_script) : Prop :=
  exists su, s_suite (l_script l) = Ok su /\
    forall idx w, idx < length (variants su) -> exists c, l_cmd l (s_heap (l_script l)) su idx w = Ok c.

Lemma all_commands_defined l n :
  (forall w, exists cs, all_commands (l_cmd l) (l_script l) w = Ok cs /\ length cs = n) -> commands_defined l.
Proof.
  intros H. destruct (H (Worker 0 [] None)) as (cs0 & Hcs0 & _). unfold all_commands in Hcs0.
  apply bind_Ok in Hcs0 as (su & Hsu & _). exists su. split; [done|]. intros idx w Hi.
  destruct (H w) as (cs & Hcs & _). unfold all_commands in Hcs. rewrite Hsu, bind_of_Ok in Hcs.
  apply map_res_Forall2 in Hcs. destruct (Forall2_lookup_l _ _ _ idx idx Hcs) as (c & _ & Hc); [|by exists c].
  by apply lookup_seq.
Qed.

Lemma launch_scripts_defined l :
  l ∈ [btree_launch; experiments_launch; row_cache_launch; ycsb_launch] -> commands_defined l.
Proof.
  pose proof (proj2 launch_outputs_distinct) as H. rewrite !elem_of_cons.
  intros [-> | [-> | [-> | [-> | []%not_elem_of_nil]]]].
  - apply (all_commands_defined btree_launch 12). intros w. exact (proj1 (H w)).
  - apply (all_commands_defined experiments_launch 4). intros w. exact (proj1 (proj2 (H w))).
  - apply (all_commands_defined row_cache_launch 12). intros w. exact (proj1 (proj2 (proj2 (H w)))).
  - apply (all_commands_defined ycsb_launch 12). intros w. exact (proj2 (proj2 (proj2 (H w)))).
Qed.

Lemma task_commands_defined (l : nat -> worker -> res command) workers n k :
  (forall idx w, idx < k + n -> exists c, l idx w = Ok c) -> k + n <= length workers ->
  exists cmds, task_commands l workers k n = Ok cmds.
Proof.
  intros Hl Hn. destruct (task_commands l workers k n) as [cmds|e] eqn:E; [by exists cmds|]. exfalso.
  unfold task_commands in E. revert k Hl Hn E. induction n as [|n IH]; intros k Hl Hn E; [done|].
  cbn [seq map_res] in E. destruct (lookup_lt_is_Some_2 workers k) as (w & Hw); [lia|].
  assert (Hnth : nth_res workers k = Ok w) by (unfold nth_res; by rewrite Hw). rewrite Hnth, bind_of_Ok in E.
  destruct (Hl k w) as (c & Hc); [lia|]. rewrite Hc, bind_of_Ok in E.
  apply bind_Raise in E as [E|(? & _ & E)]; [|done]. eapply (IH (S k)); [|lia|exact E]. intros idx w' Hi. apply Hl. lia.
Qed.

Lemma ends_none es : (forall e, e ∈ es -> match e with Ends _ => False | _ => True end) -> ends es = [].
Proof.
  induction es as [|e es IH]; intros H; [done|]. pose proof (H e (list_elem_of_here _ _)) as He.
  unfold ends in *. destruct e; try done; cbn; apply IH; intros e' He'; apply H; by right.
Qed.

Lemma ends_assignments echo ms : ends (flat_map (assignment echo) ms) = [].
Proof.
  apply ends_none. intros e He%list_elem_of_In. apply in_flat_map in He as (m & _ & He). unfold assignment in He.
  apply in_app_iff in He as [(x & <- & _)%in_map_iff|[<-|[]]]; done.
Qed.

Lemma ends_map {A} (f : A -> entry) l : (forall x, ends [f x] = []) -> ends (map f l) = [].
Proof. intros H. induction l as [|x l IH]; [done|]. cbn [map]. change (f x :: map f l) with ([f x] ++ map f l). by rewrite ends_app, H, IH. Qed.

Lemma running_all ms : Forall (fun m => t_running m = true) ms -> running_tasks ms = map t_task ms.
Proof. intros H. unfold running_tasks. induction H as [|m ms Hm _ IH]; [done|]. cbn. by rewrite Hm; cbn; rewrite IH. Qed.

(** Launching and waiting, after the messages. *)
Lemma launch_and_wait lam echo n dry workers s :
  fair poll_env -> indices_ok s -> n <= length workers -> (forall idx w, idx < n -> exists c, lam idx w = Ok c) ->
  exists fuel s' es cmds,
    (ms ← launch_worker_pipes colored lam echo n dry workers; monitor_worker_pipes colored fuel ms) s = (s', Ok tt) /\
    Forall2 (fun idx c => exists w, workers !! idx = Some w /\ lam idx w = Ok c) (seq 0 n) cmds /\
    effect s s' es (if dry then [] else map cmd_ary cmds) /\ ends es ≡ₚ (if dry then [] else seq 0 n).
Proof.
  intros Hfair Hs Hn Hl. pose proof (launch_effect lam echo n dry workers s Hs) as H.
  apply Nat.ltb_ge in Hn as Hlt. rewrite Hlt in H. destruct (task_commands_defined lam workers n 0 Hl Hn) as (cmds & Hcmds).
  rewrite Hcmds in H. destruct H as (s1 & ms & R & H1 & H2 & H3 & H4 & E1). cbn beta zeta in *.
  set (live := if dry then [] else ms) in *.
  assert (Hlive : running_tasks live = if dry then [] else seq 0 n).
  { unfold live. destruct dry; [done|]. rewrite running_all; [done|]. eapply Forall_impl; [exact H4|]. by intros m [_ ?]. }
  assert (Hnd : NoDup (map t_task live)).
  { unfold live. destruct dry; [constructor|]. rewrite H1. apply NoDup_ListNoDup, seq_NoDup. }
  destruct (waits_always Hfair _ 0 live None s1 (le_n _) (e_ok _ _ _ _ E1) Hnd (or_introl eq_refl))
    as (fuel & s' & es & L & E2 & X & _).
  exists fuel, s'. eexists _, cmds. rewrite (script_run _ _ _ _ _ R). split; [exact L|]. split; [|split].
  - apply map_res_Forall2 in Hcmds. eapply Forall2_impl; [exact Hcmds|]. cbn. intros idx c Hc.
    apply bind_Ok in Hc as (w & Hw & Hc). exists w. split; [|done]. unfold nth_res in Hw. by destruct (workers !! idx); [injection Hw as ->|].
  - assert (Hst : (if dry then [] else map cmd_ary cmds) = map (fun m => cmd_ary (t_cmd m)) live ++ []).
    { unfold live. rewrite app_nil_r. destruct dry; [done|]. by rewrite <- H3, map_map. }
    rewrite Hst. exact (effect_trans _ _ _ _ _ _ _ E1 E2).
  - rewrite !ends_app, ends_assignments, ends_map by done. rewrite Hlive in X. cbn [app]. by rewrite X, app_nil_r.
Qed.

(** The session once the log is open. *)
Definition with_log (path : str) : session := Session (LogState [] (Some (path, []))) [] 0 ∅ [].

Lemma with_log_ok path : indices_ok (with_log path).
Proof. destruct empty_ok. by split. Qed.

Notation main l args fuel := (launch_main colored cwd fs re_search service l args fuel empty_session).

Lemma main_refused l args fuel su :
  s_suite (l_script l) = Ok su -> exists_path cwd fs (logpath su) = true -> main l args fuel = (empty_session, Raise SystemExit).
Proof.
  intros Hsu Hp. unfold launch_main. rewrite (script_run _ _ _ _ su) by (unfold lift; by rewrite Hsu).
  apply script_stop. unfold open_log, set_logfile. by rewrite Hp.
Qed.

(** The script up to the retrieval of the workers. *)
Lemma main_opened l args su :
  s_suite (l_script l) = Ok su -> exists_path cwd fs (logpath su) = false ->
  exists s es, effect (with_log (logpath su)) s es [] /\ ends es = [] /\
    forall fuel, main l args fuel =
      (workers ← lift (retrieve_running_workers cwd fs re_search service (workers_file args) (l_ssd l (ssd args)));
       ms ← launch_worker_pipes colored (l_cmd l (s_heap (l_script l)) su) (l_echo l) (length (variants su)) (dry_run args)
              (l_select l workers);
       monitor_worker_pipes colored fuel ms) s.
Proof.
  intros Hsu Hp. destruct (record_all Message (l_plot l su ++ [variants_text su]) _ (with_log_ok (logpath su))) as (s & R & E).
  exists s. eexists. split; [exact E|]. split; [by apply ends_map|]. intros fuel. unfold launch_main.
  rewrite (script_run _ _ _ _ su) by (unfold lift; by rewrite Hsu).
  rewrite (script_run (open_log cwd fs (logpath su)) _ _ (with_log (logpath su)) tt)
    by (unfold open_log, set_logfile; by rewrite Hp).
  by rewrite (script_run _ _ _ _ _ R).
Qed.

(** The scripts once their options are read. *)
Lemma launch_main_runs l args :
  l ∈ [btree_launch; experiments_launch; row_cache_launch; ycsb_launch] -> fair poll_env ->
  exists su, s_suite (l_script l) = Ok su /\ let n := length (variants su) in
  (exists_path cwd fs (logpath su) = true -> forall fuel, main l args fuel = (empty_session, Raise SystemExit)) /\
  (exists_path cwd fs (logpath su) = false ->
   match retrieve_running_workers cwd fs re_search service (workers_file args) (l_ssd l (ssd args)) with
   | Raise e => forall fuel, exists s', main l args fuel = (s', Raise e) /\ started s' = []
   | Ok found =>
       let workers := l_select l found in
       if length workers <? n then
         forall fuel, exists s' msg, main l args fuel = (s', Raise (PyException msg)) /\ started s' = []
       else
         exists fuel s' cmds, main l args fuel = (s', Ok tt) /\
           Forall2 (fun i c => exists w, workers !! i = Some w /\ l_cmd l (s_heap (l_script l)) su i w = Ok c) (seq 0 n) cmds /\
           started s' = (if dry_run args then [] else map cmd_ary cmds) /\
           ends (s_entries s') ≡ₚ (if dry_run args then [] else seq 0 n) /\ indices_ok s' /\
           log_file (s_log s') = Some (logpath su, entries_text (List.filter is_logged (s_entries s')))
   end).
Proof.
  intros Hl Hfair. destruct (launch_scripts_defined l Hl) as (su & Hsu & Hcmd). clear Hl. exists su. split; [done|]. intros n.
  split; [intros Hp fuel; by eapply main_refused|]. intros Hp.
  destruct (main_opened l args su Hsu Hp) as (s & es & E & Hends & Hmain).
  destruct (retrieve_running_workers _ _ _ _ _ _) as [found|e] eqn:Hret.
  2: { intros fuel. exists s. rewrite Hmain. split; [done|]. by rewrite (e_started _ _ _ _ E). }
  assert (Hrun : forall fuel, main l args fuel =
    (ms ← launch_worker_pipes colored (l_cmd l (s_heap (l_script l)) su) (l_echo l) n (dry_run args) (l_select l found);
     monitor_worker_pipes colored fuel ms) s) by (intros fuel; by rewrite Hmain).
  intros workers. fold workers in Hrun. destruct (Nat.ltb_spec (length workers) n) as [Hlt|Hge].
  - intros fuel. pose proof (launch_effect (l_cmd l (s_heap (l_script l)) su) (l_echo l) n (dry_run args) workers s (e_ok _ _ _ _ E)) as H.
    apply Nat.ltb_lt in Hlt. rewrite Hlt in H. destruct H as (msg & R). exists s, msg.
    rewrite Hrun, (script_stop _ _ _ _ _ R). split; [done|]. by rewrite (e_started _ _ _ _ E).
  - destruct (launch_and_wait (l_cmd l (s_heap (l_script l)) su) (l_echo l) n (dry_run args) workers s Hfair (e_ok _ _ _ _ E) Hge Hcmd)
      as (fuel & s' & es' & cmds & R & Hc & E' & X).
    exists fuel, s', cmds. rewrite Hrun. split; [exact R|]. split; [exact Hc|].
    pose proof (effect_trans _ _ _ _ _ _ _ E E') as [F1 F2 F3 _ F5]. cbn [with_log s_entries s_log started app] in *.
    split_and!; [exact F3| |exact F5|].
    + by rewrite F1, ends_app, Hends.
    + by rewrite F2, F1, log_after_text.
Qed.

Notation script l argv fuel := (launch_script_main colored cwd fs re_search service l argv fuel empty_session).

(** C9. The four launch scripts from their command line, on every branch.  Bad
    options stop the script before anything else.  If the log of the suite exists
    the script stops before anything is logged or started.  If the workers
    cannot be retrieved, or there are fewer than variants after those left
    out, it stops and nothing is started.  Otherwise, when every job hangs up
    some time, the script ends; exactly one command per variant was started, in
    order, that of variant [i] on the [i]-th worker (none in a dry run); the end
    of every job is logged once; workers with the same index are the same
    object; and the log file holds exactly what was logged. *)
Theorem launch_scripts_run l argv :
  l ∈ [btree_launch; experiments_launch; row_cache_launch; ycsb_launch] -> fair poll_env ->
  match command_line argv with
  | Raise e => forall fuel, script l argv fuel = (empty_session, Raise e)
  | Ok args =>
      exists su, s_suite (l_script l) = Ok su /\ let n := length (variants su) in
      (exists_path cwd fs (logpath su) = true -> forall fuel, script l argv fuel = (empty_session, Raise SystemExit)) /\
      (exists_path cwd fs (logpath su) = false ->
       match retrieve_running_workers cwd fs re_search service (workers_file args) (l_ssd l (ssd args)) with
       | Raise e => forall fuel, exists s', script l argv fuel = (s', Raise e) /\ started s' = []
       | Ok found =>
           let workers := l_select l found in
           if length workers <? n then
             forall fuel, exists s' msg, script l argv fuel = (s', Raise (PyException msg)) /\ started s' = []
           else
             exists fuel s' cmds, script l argv fuel = (s', Ok tt) /\
               Forall2 (fun i c => exists w, workers !! i = Some w /\ l_cmd l (s_heap (l_script l)) su i w = Ok c) (seq 0 n) cmds /\
               started s' = (if dry_run args then [] else map cmd_ary cmds) /\
               ends (s_entries s') ≡ₚ (if dry_run args then [] else seq 0 n) /\ indices_ok s' /\
               log_file (s_log s') = Some (logpath su, entries_text (List.filter is_logged (s_entries s')))
       end)
  end.
Proof.
  intros Hl Hfair. destruct (command_line argv) as [args|e] eqn:Ha.
  - assert (Hm : forall fuel, script l argv fuel = main l args fuel).
    { intros fuel. unfold launch_script_main, from_argv.
      by rewrite (script_run _ _ empty_session empty_session args) by (unfold lift; by rewrite Ha). }
    destruct (launch_main_runs l args Hl Hfair) as (su & Hsu & H1 & H2). exists su. split; [exact Hsu|]. cbn zeta in *. split.
    + intros Hp fuel. rewrite Hm. auto.
    + intros Hp. specialize (H2 Hp). destruct (retrieve_running_workers _ _ _ _ _ _).
      * destruct (_ <? _); [intros fuel; rewrite Hm; apply H2|].
        destruct H2 as (fuel & s' & cmds & H2 & H3). exists fuel, s', cmds. rewrite Hm. by split.
      * intros fuel. rewrite Hm. apply H2.
  - intros fuel. apply script_stop. unfold lift. by rewrite Ha.
Qed.
End scripts.
End proofs.

(** ** Examples *)

(** A [termcolor] that shows the colour; jobs that write a line and hang up at
    every other poll, reported in order. *)
Definition demo_colored (text color : str) : str := "<" ++ color ++ ">" ++ text.
#[export] Instance demo_poll : Poll := {|
  reports k t := if Nat.even k then Some (false, true, []) else Some (true, true, [ # "working"]);
  poll_order _ l := l;
  poll_order_perm _ l := Permutation_refl l
|}.

Lemma demo_poll_fair : fair poll_env.
Proof.
  intros k t. destruct (demo_fair k t) as (k' & Hk & E). exists k'. split; [done|].
  unfold demo_env in E. unfold poll_env. cbn. by destruct (Nat.even k').
Qed.

Definition demo_tmonitors : list tmonitor :=
  [TMonitor (Monitor 0 (Worker 0 "w0" None) (Command "a" []) true) 0;
   TMonitor (Monitor 1 (Worker 1 "w1" None) (Command "b" []) true) 1].

Lemma monitor_completes_witness :
  exists fuel s' es, monitor_worker_pipes demo_colored fuel demo_tmonitors empty_session = (s', Ok tt) /\
    s_entries s' = es ++ [Complete] /\ ends es ≡ₚ [0; 1].
Proof.
  destruct (monitor_completes demo_colored demo_tmonitors empty_session demo_poll_fair empty_ok
    ltac:(apply (bool_decide_unpack _); vm_compute; exact I)) as (fuel & s' & es & H1 & H2 & _ & _ & H3 & _).
  exists fuel, s', es. split; [exact H1|]. split; [exact H2|exact H3].
Defined.

(** The lines of that run. *)
Example monitor_lines :
  log_stdout (s_log (fst (monitor_worker_pipes demo_colored 2 demo_tmonitors empty_session))) =
  line "<red>[w0] WORKER_ENDS" ++ line "<yellow>[w1] WORKER_ENDS" ++ line "PROGRESS 0 workers remaining" ++
  line "All jobs complete.".
Proof. vm_compute. reflexivity. Qed.

Lemma sequenced_completes_witness :
  exists fuel s' es st, sequenced_launcher demo_colored (fun i w => Ok (demo_lam i w)) (fun _ => []) 3 false fuel demo_workers empty_session =
      (s', Ok tt) /\
    Automation.sequenced_launcher demo_lam 3 false poll_env fuel demo_workers = Ok st /\
    s_entries s' = es ++ [Complete] /\ assigns es = assigned st /\ length (started s') = 3.
Proof.
  destruct (sequenced_completes demo_colored (fun i w => Ok (demo_lam i w)) demo_lam (fun _ => []) 3 false
    (fun i w _ => eq_refl) demo_workers empty_session empty_ok ltac:(discriminate) (or_intror demo_poll_fair))
    as (fuel & s' & es & st & H1 & H2 & H3 & H4 & H5 & H6).
  exists fuel, s', es, st. split; [exact H1|]. split; [exact H2|]. split; [exact H3|]. split; [exact H4|].
  rewrite H6. cbn [empty_session started app]. rewrite length_map. apply (f_equal (@length _)) in H5. rewrite length_map in H5. exact H5.
Defined.

(** Four workers for the four variants of launch-experiments.py. *)
Definition demo_fleet4 : response :=
  [map (fun i => RawInstance [(# "Name", "veri-worker-" ++ i)] ("i-" ++ i) (Some ("10.0.0." ++ i)) "running")
     [ # "1"; # "2"; # "3"; # "4"]].
Definition demo_fs4 : gmap str str := {[ # "/r/.awsworkers" := # "veri-worker-.*" ]}.
Definition demo_args : fleet_args := FleetArgs false false default_workers_file.

Lemma launch_scripts_run_witness :
  exists su fuel s' cmds, s_suite (l_script experiments_launch) = Ok su /\
    launch_script_main demo_colored "/r" demo_fs4 (fun _ _ => true) (bastion demo_fleet4) experiments_launch [ # "--workers=.awsworkers"]
      fuel empty_session =
      (s', Ok tt) /\
    started s' = map cmd_ary cmds /\ length cmds = 4 /\ ends (s_entries s') ≡ₚ [0; 1; 2; 3].
Proof.
  pose proof (launch_scripts_run demo_colored "/r" demo_fs4 (fun _ _ => true) (bastion demo_fleet4) experiments_launch
    [ # "--workers=.awsworkers"] ltac:(do 1 right; left) demo_poll_fair) as H.
  assert (Ha : command_line [ # "--workers=.awsworkers"] = Ok demo_args) by (vm_compute; reflexivity).
  rewrite Ha in H. destruct H as (su & Hsu & _ & H).
  assert (Hret : exists found, retrieve_running_workers "/r" demo_fs4 (fun _ _ => true) (bastion demo_fleet4)
    (workers_file demo_args) (l_ssd experiments_launch (ssd demo_args)) = Ok found /\ length found = 4).
  { eexists. split; [vm_compute; reflexivity|reflexivity]. }
  destruct Hret as (found & Hret & Hlen).
  assert (Hn : length (variants su) = 4 /\ exists_path "/r" demo_fs4 (logpath su) = false).
  { clear -Hsu. vm_compute in Hsu. injection Hsu as <-. split; vm_compute; reflexivity. }
  destruct Hn as [Hn Hp]. specialize (H Hp). rewrite Hret, Hn in H. cbn [l_select experiments_launch id] in H.
  rewrite Hlen in H. destruct H as (fuel & s' & cmds & H1 & H2 & H3 & H4 & _).
  exists su, fuel, s', cmds. split; [exact Hsu|]. split; [exact H1|]. split; [exact H3|].
  split; [by apply Forall2_length in H2|exact H4].
Defined.
