(* ===== verification/Snapshots.v ===== *)
(** * Snapshots and drivers (tools/capture_timeout.py,
    tools/continuous-integration.py, bench/quadratic-disjointness/quadratic-test.py)

    Scripts that mostly run commands: what they write and run is a list of
    events or the files they leave; the programs they call and the clock are
    arguments. *)
From S2P Require Import Prelude PyStr Paths Deps.

(** ** capture_timeout.py *)

Section capture.
Context (cwd ROOT_PATH : str) (fs : gmap str str) {order : SetOrder}.
(** Whether a path exists, what Dafny prints for its version, the time. *)
Context (exists_path : str -> bool) (version : str -> str) (now : Z).

Definition dafny_default (scriptdir : str) : str :=
  let d := normpath (path_join scriptdir "../.dafny/dafny/Binaries/Dafny") in
  if exists_path d then d else normpath (path_join scriptdir "../.dafny/bin/dafny").

Definition capture_tmp : str := "capture_tmp".

(** [shutil.copyfile] into the directory, under the last component of the
    path; a file of that name is overwritten. *)
Definition copy_dep (tmp : dict str str) (dep : iref) : res (dict str str) :=
  contents ← of_option IOError (fs !! absPath dep);
  Ok (dict_set (basename (absPath dep)) contents tmp).

(** The archive: its name and the files in it. *)
Definition capture_timeout (scriptdir root_fn : str) : res (str * dict str str) :=
  deps ← depsFromDfySources cwd ROOT_PATH fs [root_fn];
  if exists_path capture_tmp then Raise IOError else
  files ← for_each copy_dep (set_order deps) [];
  let files := dict_set (# "dafny-version") (version (dafny_default scriptdir)) files in
  Ok ("timeout-snapshot-" ++ dec_Z now ++ ".tgz", files).
End capture.

(** ** continuous-integration.py *)

Inductive ci_step :=
  | Chdir (dir : str)
  | Call (cmd : list str)
  | MakeDir (dir : str)
  | CopyTo (source dir : str).

(** [callOrDie]: the steps done, and the exception if a call failed. *)
Fixpoint perform_steps (rc : list str -> Z) (steps : list ci_step) : list ci_step * option exn :=
  match steps with
  | [] => ([], None)
  | step :: steps' =>
      let fails := match step with Call cmd => negb (rc cmd =? 0)%Z | _ => false end in
      if fails then ([step], Some (PyException "call failed"))
      else let '(done, e) := perform_steps rc steps' in (step :: done, e)
  end.

Definition ci_steps (githash : str) : list ci_step :=
  [Call [ # "make"; # "-C"; # "../disk-betree"; # "status"];
   MakeDir githash; CopyTo "../build/disk-betree/Bundle.i.status.pdf" githash;
   Call [ # "git"; # "add"; githash]; Call [ # "git"; # "commit"; # "-m"; # "CI Status Report"];
   Call [ # "git"; # "push"]].

(** The output of [git status] and of [git rev-parse HEAD] are arguments. *)
Definition continuous_integration (status head : str) (rc : list str -> Z) : list ci_step * option exn :=
  if negb (contains "nothing to commit, working tree clean" status)
  then ([Chdir "../continuous-integration"],
        Some (PyException "Git unclean; git commit hash label would be a lie."))
  else let '(done, e) := perform_steps rc (ci_steps (strip head)) in
       (Chdir "../continuous-integration" :: done, e).

(** ** quadratic-test.py *)

Definition chain (n : nat) (fmt : str -> str) : str := concat (map (fun i => fmt (dec_nat i)) (seq 0 n)).

Definition name_file (n : nat) : str := "quadratic-" ++ dec_nat n ++ ".dfy".

Definition emit_test (n : nat) : str :=
  let lines before after := chain n (fun i => before ++ i ++ after ++ [nl]) in
  let inline before after := chain n (fun i => before ++ i ++ after) in
  let disjoint := "{this} !! x.Repr " ++ inline (# " !! a") (# ".Repr") in
  unlines
    [ # "include " ++ [dquote] ++ # "quadratic-A.dfy" ++ [dquote];
      # "";
      # "class Owner {";
      # "  var x : A;    // the mutating field";
      # "  // the non-conflicting fields:";
      lines (# "  var a") (# " : A;");
      # "  ghost var Repr : set<object>;";
      # "";
      # "  predicate Inv()";
      # "    reads this, this.Repr";
      # "  {";
      # "    && x in Repr";
      lines (# "    && a") (# " in Repr");
      # "    && Repr == {this}";
      # "      + x.Repr";
      lines (# "      + a") (# ".Repr");
      # "    && {this}";
      # "      !! x.Repr " ++ inline (# " !! a") (# ".Repr");
      # "    && x.Inv()";
      lines (# "    && a") (# ".Inv()");
      # "  }";
      # "";
      # "  constructor()";
      # "    ensures Inv()";
      # "  {";
      # "    x := new A();";
      lines (# "    a") (# " := new A();");
      # "    new;";
      # "    Repr := {this} + x.Repr" ++ inline (# " + a") (# ".Repr") ++ ";";
      # "  }";
      # "";
      # "  method MethodUnderTest()";
      # "    requires Inv()";
      # "    modifies x.Repr";
      # "  {";
      # "    a0.establishSomething();";
      # "    assert a0.Something();";
      # "    assert " ++ disjoint ++ ";";
      # "    x.changeSomething();";
      # "    assert " ++ disjoint ++ ";";
      # "    assert a0.Something();";
      # "  }";
      # "}"].

(** One test: the file written, the command run, the line of results; the file
    is removed. *)
Record test_run := TestRun { t_file : str * str; t_cmd : list str; t_row : str }.
Definition run_test (elapsed : nat -> str) (n : nat) : test_run :=
  TestRun (name_file n, emit_test n) [ # "dafny"; # "/compile:0"; name_file n]
    (dec_nat n ++ ", " ++ elapsed n ++ [nl]).

(** The runs, and the contents of the results file. *)
Definition quadratic_main (elapsed : nat -> str) : list test_run * str :=
  let runs := map (run_test elapsed) (seq 1 99) in
  (runs, "size, time" ++ [nl] ++ concat (map t_row runs)).

(** ** The snapshot *)

Section snapshot.
Context (cwd ROOT_PATH : str) (fs : gmap str str) {order : SetOrder}.
Context (exists_path : str -> bool) (version : str -> str) (now : Z).

Definition content_of (d : iref) : option str := fs !! absPath d.

Lemma copy_deps_spec deps tmp files :
  for_each (copy_dep fs) deps tmp = Ok files ->
  (forall name, name ∉ map (fun d => basename (absPath d)) deps -> dict_get files name = dict_get tmp name) /\
  (forall d, d ∈ deps -> is_Some (content_of d)) /\
  (NoDup (map (fun d => basename (absPath d)) deps) ->
   forall d, d ∈ deps -> dict_get files (basename (absPath d)) = content_of d).
Proof.
  revert tmp. induction deps as [|d deps IH]; intros tmp; cbn [for_each map].
  { intros [= <-]. split_and!; [done| |]; intros; by apply not_elem_of_nil in H || (by match goal with H : _ ∈ [] |- _ => apply not_elem_of_nil in H end). }
  rewrite bind_Ok. intros (tmp1 & H1 & H2). unfold copy_dep in H1. apply bind_Ok in H1 as (c & Hc & [= <-]).
  destruct (fs !! absPath d) as [c'|] eqn:Hd; [|done]. injection Hc as ->.
  destruct (IH _ H2) as (I1 & I2 & I3). split_and!.
  - intros name [Hn Hns]%not_elem_of_cons. rewrite I1, dict_get_set by done. by rewrite bool_decide_eq_false_2.
  - intros x [->|Hx]%elem_of_cons; [unfold content_of; by rewrite Hd|by apply I2].
  - intros [Hn Hnd]%NoDup_cons x [->|Hx]%elem_of_cons; [|by apply I3].
    rewrite I1, dict_get_set, bool_decide_eq_true_2 by done. unfold content_of. by rewrite Hd.
Qed.

(** A snapshot holds the version, and every dependency of the root under
    the last component of its path, as long as these components are distinct
    and none is the version's; two dependencies of one name but different
    contents never are both there. *)
Theorem snapshot_complete scriptdir root name files deps :
  depsFromDfySources cwd ROOT_PATH fs [root] = Ok deps ->
  capture_timeout cwd ROOT_PATH fs exists_path version now scriptdir root = Ok (name, files) ->
  dict_get files (# "dafny-version") = Some (version (dafny_default exists_path scriptdir)) /\
  (NoDup (map (fun d => basename (absPath d)) deps) ->
   # "dafny-version" ∉ map (fun d => basename (absPath d)) deps ->
   forall d, d ∈ deps -> dict_get files (basename (absPath d)) = content_of d) /\
  (forall d d', d ∈ deps -> d' ∈ deps -> basename (absPath d) = basename (absPath d') -> content_of d <> content_of d' ->
   dict_get files (basename (absPath d)) <> content_of d \/ dict_get files (basename (absPath d')) <> content_of d').
Proof.
  intros Hdeps. unfold capture_timeout. rewrite Hdeps, bind_of_Ok. destruct (exists_path capture_tmp); [done|].
  rewrite bind_Ok. intros (tmp & Htmp & [= <- <-]). apply copy_deps_spec in Htmp as (_ & _ & Hd).
  assert (Hp : set_order deps ≡ₚ deps) by apply set_order_law.
  assert (Hm : map (fun d => basename (absPath d)) (set_order deps) ≡ₚ map (fun d => basename (absPath d)) deps)
    by by apply Permutation_map.
  split_and!.
  - by rewrite dict_get_set, bool_decide_eq_true_2.
  - intros Hnd Hv d Hin. rewrite dict_get_set, bool_decide_eq_false_2.
    + apply Hd; [by rewrite Hm|by rewrite Hp].
    + intros Heq. apply Hv, list_elem_of_fmap. by exists d.
  - intros d d' _ _ Hb Hne. rewrite Hb.
    match goal with |- ?x <> _ \/ _ => destruct (decide (x = content_of d')) as [E|E]; [left|by right] end.
    intros E'. apply Hne. by rewrite <- E, <- E'.
Qed.
End snapshot.

(** A report is pushed only from a clean tree whose status report was built and
    committed: the push is the last step, and every call before it succeeded. *)
Lemma push_last status head rc done e :
  continuous_integration status head rc = (done, e) ->
  Call [ # "git"; # "push"] ∈ done ->
  contains "nothing to commit, working tree clean" status = true /\
  Forall (fun s => match s with Call cmd => cmd = [ # "git"; # "push"] \/ rc cmd = 0%Z | _ => True end) done.
Proof.
  unfold continuous_integration. destruct (contains _ _); cbn [negb].
  2: { intros [= <- <-]. intros [[=]|[]%not_elem_of_nil]%elem_of_cons. }
  intros H Hin. split; [done|]. revert H. unfold ci_steps. cbn [perform_steps].
  repeat (match goal with |- context [negb (rc ?c =? 0)%Z] => destruct (Z.eqb_spec (rc c) 0) end; cbn [negb]);
    intros [= <- <-];
    first [by repeat constructor; auto
          | exfalso; repeat (apply elem_of_cons in Hin as [Hin|Hin]; [discriminate Hin|]); by apply not_elem_of_nil in Hin].
Qed.

(** A root that includes a file of its own name in another directory: one of
    the two is not in the snapshot. *)
Definition snapshot_fs : gmap str str := list_to_map
  [ (# "/r/A.i.dfy", # "include " ++ [dquote] ++ # "lib/A.i.dfy" ++ [dquote; nl]);
    (# "/r/lib/A.i.dfy", # "module A { }") ].

Definition no_path (p : str) : bool := false.
Definition demo_version (p : str) : str := "3.0".

Lemma snapshot_complete_witness :
  exists name files, capture_timeout (order := insertion_order) "/r" "/r" snapshot_fs no_path demo_version 7 "tools" "A.i.dfy" = Ok (name, files) /\
    name = "timeout-snapshot-7.tgz" /\ dict_get files (# "dafny-version") = Some (# "3.0") /\
    (dict_get files (# "A.i.dfy") <> snapshot_fs !! (# "/r/A.i.dfy") \/
     dict_get files (# "A.i.dfy") <> snapshot_fs !! (# "/r/lib/A.i.dfy")).
Proof.
  destruct (depsFromDfySources "/r" "/r" snapshot_fs [ # "A.i.dfy"]) as [deps|e] eqn:Ed.
  2: { apply (f_equal is_Ok) in Ed. vm_compute in Ed. discriminate Ed. }
  destruct (capture_timeout (order := insertion_order) "/r" "/r" snapshot_fs no_path demo_version 7 "tools" "A.i.dfy") as [[name files]|e] eqn:E.
  2: { apply (f_equal is_Ok) in E. vm_compute in E. discriminate E. }
  destruct (snapshot_complete (order := insertion_order) "/r" "/r" snapshot_fs no_path demo_version 7 "tools" "A.i.dfy" name files deps Ed E)
    as (H1 & _ & H3).
  exists name, files. split; [reflexivity|]. split.
  { apply (f_equal (fun r => match r with Ok (n, _) => n | _ => [] end)) in E. vm_compute in E. symmetry. exact E. }
  split; [exact H1|].
  assert (Hp : map absPath deps = [ # "/r/A.i.dfy"; # "/r/lib/A.i.dfy"]).
  { apply (f_equal (fun r => match r with Ok l => map absPath l | _ => [] end)) in Ed. vm_compute in Ed. symmetry. exact Ed. }
  destruct deps as [|d [|d' [|]]]; try discriminate Hp. injection Hp as Hd Hd'.
  specialize (H3 d d' ltac:(apply list_elem_of_here) ltac:(apply list_elem_of_further, list_elem_of_here)).
  unfold content_of in H3. rewrite Hd, Hd' in H3. apply H3; [reflexivity|]. vm_compute. discriminate.
Defined.
