(* ===== verification/Leakfinder.v ===== *)
(** * Leak traces (tools/leakfinder_analyze.py)

    The script reads the stack traces of one run, keyed by hash, and prints them
    grouped by the part of the stack above the allocator.  Python's hash of a
    tuple is an argument. *)
From S2P Require Import Prelude PyStr Regex.

(** [int(s, 16)]. *)
Fixpoint hexes_val (acc : Z) (after_digit : bool) (s : str) : option Z :=
  match s with
  | [] => if after_digit then Some acc else None
  | c :: s' =>
      match hex_digit_val c with
      | Some v => hexes_val (16 * acc + v) true s'
      | None => if bool_decide (c = "_"%char) && after_digit then hexes_val acc false s' else None
      end
  end.
Definition hex_unsigned (s : str) : option Z :=
  let s := if startswith s "0x" || startswith s "0X"
           then (if startswith (drop 2 s) "_" then drop 3 s else drop 2 s) else s in
  hexes_val 0 false s.
Definition py_int16 (s : str) : res Z :=
  of_option ValueError
    match strip s with
    | c :: s' =>
        if bool_decide (c = "-"%char) then Z.opp <$> hex_unsigned s'
        else if bool_decide (c = "+"%char) then hex_unsigned s'
        else hex_unsigned (c :: s')
    | [] => None
    end.

(** ** Loading *)

Record leak_trace := LeakTrace { lt_count : Z; lt_hash : Z; lt_frames : list Z }.

(** The table, and the key of the trace that frames are added to: the local
    variable [trace], unbound at first. *)
Record capture := Capture { table : dict str leak_trace; current : option str }.

Definition trace_re : re :=
  seqs [Grp 1 (Alt (Lit "trace") (Lit "expanded")); Lit ": count ";
        Grp 2 (Star (Cls (fun c => bool_decide (c = "-"%char) || in_range 48 57 c)));
        Star Dot; Lit "hash"; Star (Chr " "); Grp 3 (Star Dot)].

Definition add_frame (pc : Z) (t : leak_trace) : leak_trace :=
  LeakTrace (lt_count t) (lt_hash t) (lt_frames t ++ [pc]).

Definition load_line (st : capture) (line : str) : res capture :=
  match search trace_re line with
  | Some m =>
      let g n := default [] (group n m) in
      if bool_decide (g 1 = # "trace") then Ok st
      else count ← py_int (g 2);
           h ← py_int16 (g 3);
           Ok (Capture (dict_set (g 3) (LeakTrace count h []) (table st)) (Some (g 3)))
  | None =>
      pc ← py_int16 (strip line);
      key ← of_option (NameError "trace") (current st);
      t ← of_option KeyError (dict_get (table st) key);
      Ok (Capture (dict_set key (add_frame pc t) (table st)) (Some key))
  end.

Definition load (contents : str) : res capture := for_each load_line (readlines contents) (Capture [] None).

(** ** Printing *)

Section study.
Context (py_hash : list Z -> Z).

(** [character]: the stack without its four innermost frames. *)
Definition character (t : leak_trace) : Z := py_hash (drop 4 (lt_frames t)).

(** Pairs are compared by character, then by the trace's hash. *)
Definition by_character (x y : Z * leak_trace) : bool :=
  (fst x <? fst y)%Z || ((fst x =? fst y)%Z && (lt_hash (snd x) <? lt_hash (snd y))%Z).

Definition byChar (c : capture) : list (Z * leak_trace) :=
  sort_by by_character (map (fun '(_, t) => (character t, t)) (table c)).

(** ["%016x"]. *)
Definition hex16 (z : Z) : str :=
  let digits := hex_N (Z.to_N (Z.abs z)) in
  if (z <? 0)%Z then "-" ++ repeat "0"%char (15 - length digits) ++ digits
  else repeat "0"%char (16 - length digits) ++ digits.

Definition mask : Z := 0xffffffffffffffff.
Definition trace_line (row : Z * leak_trace) : str :=
  hex16 (Z.land (fst row) mask) ++ " " ++ hex16 (lt_hash (snd row)) ++ " " ++ dec_Z (lt_count (snd row)).

(** A blank line where the character changes; zero counts as no character. *)
Fixpoint study_rows (lastChar : option Z) (rows : list (Z * leak_trace)) : list str :=
  match rows with
  | [] => []
  | row :: rows' =>
      let blank := match lastChar with
                   | Some c => if negb (c =? 0)%Z && negb (c =? fst row)%Z then [ # ""] else []
                   | None => []
                   end in
      blank ++ trace_line row :: study_rows (Some (fst row)) rows'
  end.

Definition study_total (rows : list (Z * leak_trace)) : Z :=
  fold_left (fun total row => total + lt_count (snd row))%Z rows 0%Z.

Definition study (c : capture) : list str :=
  study_rows None (byChar c) ++ [ # "total " ++ dec_Z (study_total (byChar c))].

(** ** What is printed *)

#[export] Instance by_character_order : WeakOrder by_character.
Proof.
  split.
  - intros [a t] [b u]. unfold by_character. cbn.
    rewrite orb_true_iff, andb_true_iff, orb_false_iff, andb_false_iff, !Z.ltb_lt, !Z.ltb_ge, Z.eqb_eq, Z.eqb_neq. lia.
  - intros [a t] [b u] [c v]. unfold by_character. cbn.
    rewrite !orb_false_iff, !andb_false_iff, !Z.ltb_ge, !Z.eqb_neq. lia.
Qed.

Lemma study_total_sum acc (rows : list (Z * leak_trace)) :
  fold_left (fun total row => total + lt_count (snd row))%Z rows acc =
  (acc + foldr (fun row n => lt_count (snd row) + n) 0 rows)%Z.
Proof. revert acc. induction rows as [|r rows IH]; intros acc; cbn; [lia|]. rewrite IH. lia. Qed.

(** Every trace of the table is printed once, sorted by character, so that the
    traces of one character are adjacent; the total is the sum of the counts,
    whatever the order. *)
Lemma study_prints_table c :
  exists rows, rows ≡ₚ map (fun '(_, t) => (character t, t)) (table c) /\
    StronglySorted (fun x y => (fst x <= fst y)%Z) rows /\
    study c = study_rows None rows ++ [ # "total " ++ dec_Z (foldr (fun '(_, t) n => lt_count t + n)%Z 0%Z (table c))].
Proof.
  exists (byChar c). unfold study, byChar.
  pose proof (sort_by_Permutation by_character (map (fun '(_, t) => (character t, t)) (table c))) as Hp.
  split; [done|]. split.
  - pose proof (sort_by_sorted by_character (map (fun '(_, t) => (character t, t)) (table c))) as Hs.
    clear Hp. induction Hs as [|x l Hs IH Hx]; [constructor|]. constructor; [done|]. eapply Forall_impl; [exact Hx|].
    intros y H. unfold by_character in H. apply orb_false_iff in H as [H _]. by apply Z.ltb_ge in H.
  - do 4 f_equal. unfold study_total. rewrite study_total_sum, Z.add_0_l.
    assert (Hperm : forall l1 l2 : list (Z * leak_trace), l1 ≡ₚ l2 ->
              foldr (fun row n => lt_count (snd row) + n)%Z 0%Z l1 = foldr (fun row n => lt_count (snd row) + n)%Z 0%Z l2)
      by (induction 1; cbn; lia).
    rewrite (Hperm _ _ Hp). clear. induction (table c) as [|[k t] l IH]; cbn; [done|]. by rewrite IH.
Qed.
End study.

Example leak_demo :
  (c ← load (unlines [ # "trace: count 3 x hash 0a"; # "expanded: count 3 x hash 0a"; # "0x10"; # "11"; # "12"; # "13"; # "14";
                       # "expanded: count -1 x hash ff"; # "10"]);
   Ok (study (fun l => Z.of_nat (length l)) c)) =
  Ok [ # "0000000000000000 00000000000000ff -1"; # "0000000000000001 000000000000000a 3"; # "total 2"].
Proof. vm_compute. reflexivity. Qed.
