(* ===== verification/ExportSet.v ===== *)
(** * Export clauses (tools/dafny-export-set.py)

    The script lists the datatypes, types, functions and predicates a Dafny file
    declares, opaque ones excepted, as a [reveals] clause. *)
From S2P Require Import Prelude PyStr Regex Paths.

Definition Ident : re := Plus (Cls (fun c => in_range 65 90 c || in_range 97 122 c || in_range 48 57 c || (code c =? 95))).

Definition re_datatype : re := seqs [Bol; Opt (Grp 1 (Lit "linear ")); Lit "datatype "; Grp 2 Ident].
Definition re_type : re := seqs [Bol; Lit "type "; Grp 1 Ident].
Definition attribute : re := seqs [Lit " {"; Plus Dot; Lit "}"].
Definition re_function : re :=
  seqs [Bol; Lit "function"; Opt (Grp 1 (Lit " method")); Opt (Grp 2 attribute); Lit " "; Grp 3 Ident].
Definition re_predicate : re :=
  seqs [Bol; Lit "predicate"; Opt (Grp 1 (Lit " method")); Opt (Grp 2 attribute); Lit " "; Grp 3 Ident].

(** The patterns in the order they are tried, with the group of the name. *)
Definition patterns : list (re * nat) := [(re_datatype, 2); (re_type, 1); (re_function, 3); (re_predicate, 3)].

Fixpoint first_match (ps : list (re * nat)) (line : str) : option str :=
  match ps with
  | [] => None
  | (r, n) :: ps' => match rematch r line with Some m => group n m | None => first_match ps' line end
  end.

(** The name a line exports. *)
Definition exported (line : str) : option str :=
  let line := strip line in
  if contains ":opaque" line then None else first_match patterns line.

Definition exports (contents : str) : list str :=
  fold_left (fun s line => match exported line with Some name => str_add s name | None => s end)
    (readlines contents) [].

Section export.
Context (cwd : str) (fs : gmap str str) {order : SetOrder}.

Definition export_text (names : list str) : str :=
  [nl] ++ "// begin generated export" ++ [nl] ++
  "  export Spec" ++ [nl] ++
  "    provides *" ++ [nl] ++
  "    reveals " ++ join ", " names ++ [nl] ++
  "  export extends Spec" ++ [nl] ++
  "// end generated export" ++ [nl] ++ "    ".

(** The script: nothing without a file that can be opened. *)
Definition export_main (args : list str) : res str :=
  match args with
  | file :: _ =>
      match py_open cwd fs file with
      | Ok contents => Ok (export_text (set_order (exports contents)))
      | Raise _ => Raise SystemExit
      end
  | [] => Raise SystemExit
  end.

(** Every name is listed once, and exactly the names of the lines that export
    one. *)
Lemma exports_spec contents :
  NoDup (exports contents) /\
  forall name, name ∈ exports contents <-> exists line, line ∈ readlines contents /\ exported line = Some name.
Proof.
  unfold exports.
  assert (Hgen : forall lines s, NoDup s ->
            let s' := fold_left (fun s line => match exported line with Some name => str_add s name | None => s end) lines s in
            NoDup s' /\ forall name, name ∈ s' <-> name ∈ s \/ exists line, line ∈ lines /\ exported line = Some name).
  { induction lines as [|line lines IH]; intros s Hs; cbn [fold_left].
    - split; [done|]. intros name. split; [by left|]. by intros [|(l & Hl%not_elem_of_nil & _)].
    - set (s1 := match exported line with Some name => str_add s name | None => s end).
      assert (H1 : NoDup s1 /\ forall name, name ∈ s1 <-> name ∈ s \/ exported line = Some name).
      { unfold s1, str_add. destruct (exported line) as [x|]; [|split; [done|naive_solver]].
        case_bool_decide as Hx; [split; [done|naive_solver]|]. split.
        - apply NoDup_app. split_and!; [done| |apply NoDup_singleton]. by intros y Hy ->%list_elem_of_singleton.
        - intros name. rewrite elem_of_app, list_elem_of_singleton. naive_solver. }
      destruct H1 as [Hnd H1]. destruct (IH s1 Hnd) as [H2 H3]. split; [done|]. intros name. rewrite H3, H1.
      setoid_rewrite elem_of_cons. naive_solver. }
  destruct (Hgen (readlines contents) [] (NoDup_nil_2)) as [H1 H2]. split; [done|].
  intros name. rewrite H2, elem_of_nil. naive_solver.
Qed.
End export.

Example export_demo :
  map exported [ # "  datatype Node = Node(x: int)"; # "linear datatype Cell = C"; # "type Key = seq<byte>";
                 # "function method {:inline} f(x: int) : int"; # "predicate method(x: int)"; # "function {:opaque} g() : int";
                 # "lemma l()"; # "protected function h()"] =
  [Some (# "Node"); Some (# "Cell"); Some (# "Key"); Some (# "f"); Some (# "method"); None; None; None].
Proof. vm_compute. reflexivity. Qed.
