(* ===== verification/DocFigures.v ===== *)
(** * Two scripts of the documentation (docs/jonh-linear-perf.py,
    docs/talks/euro-tour-2020/related-system-sizes.py)

    The first compares the run times of a benchmark for several branching
    factors, the second the sizes of verified systems.  Both have their data in
    the program; what they print and the curves and texts of their figures are
    computed from it.  numpy's mean and the logarithm are arguments. *)
From S2P Require Import Prelude PyStr PyFloat.
From Stdlib Require Import ZArith.

(** ** related-system-sizes.py *)

Record System := SystemOf { sys_name : str; sys_impl : Z; sys_proof : Z }.

Definition systems : list System :=
  [ SystemOf "seL4" (8700 + 600) (4900 + 13000 + 15000 + 110000 + 55000);
    SystemOf "veribetrfs" 6119 28366;
    SystemOf "fscq" 3000 30000;
    SystemOf "IronRSL" (833 + 2941) (39253 - 2937);
    SystemOf "IronKV" (833 + 1340) (39253 - 7535);
    SystemOf "Ironclad DiffPriv" (6971 - (81 + 232 + 140)) (33203 - (193 + 653 + 307));
    SystemOf "Ironclad Notary" (6971 - (81 + 232 + 586)) (33203 - (193 + 653 + 1613));
    SystemOf "Yggdrasil" (1500 + 1500) 5;
    SystemOf "Hyperkernel" 7419 (197 + 804 + 263) ]%Z.

(** The line printed: ["%-30s %-6s %-6s %3.1f"]. *)
Definition system_line (s : System) : res str :=
  ratio ← fdiv (fmul (float_of_Z (sys_proof s)) (float_of_Z 1)) (float_of_Z (sys_impl s));
  Ok (pad_right 30 (sys_name s) ++ " " ++ pad_right 6 (dec_Z (sys_impl s)) ++ " " ++ pad_right 6 (dec_Z (sys_proof s)) ++
      " " ++ pad_left 3 (fmt_fixed 1 ratio)).

(** The text next to a point: its place, whether it is bold, and on which side
    of the point it stands. *)
Record label_at := LabelAt { lab_x : float; lab_y : float; lab_text : str; lab_weight : str; lab_align : str }.

Definition system_label (s : System) : res label_at :=
  x ← fdiv (float_of_Z (sys_proof s)) (float_of_Z 1000);
  y ← fdiv (float_of_Z (sys_impl s)) (float_of_Z 1000);
  let ours := bool_decide (sys_name s = # "veribetrfs") in
  Ok (LabelAt x y (" " ++ sys_name s ++ " ") (if ours then # "bold" else # "roman") (if ours then # "right" else # "left")).

(** The script: the lines printed, the texts, and the points. *)
Definition sizes_main (l : list System) : res (list str * list label_at * (list float * list float)) :=
  lines ← map_res system_line l;
  labels ← map_res system_label l;
  Ok (lines, labels, (map lab_x labels, map lab_y labels)).

(** ** jonh-linear-perf.py *)

Definition thousandths (l : list Z) : list float := map (fun z => float_of_dec z (-3)) l.

(** Times by branching factor. *)
Definition no_locks : list (Z * list Z) :=
  [(64, [25753; 24784]); (32, [23900]); (16, [26027]); (8, [30649]); (4, [49400])]%Z.
Definition no_locks_borrow : list (Z * list Z) :=
  [(64, [24091]); (32, [22207; 21895]); (16, [24595; 24924]); (8, [26830]); (4, [41634; 41105])]%Z.

Section perf.
(** [np.mean] of a list, and [math.log]. *)
Context (mean : list float -> float) (log : Z -> float).

Definition mean_of (l : list Z) : float := mean (thousandths l).
(** The quotient of two numpy floats does not raise. *)
Definition npdiv (x y : float) : float := SFdiv fprec femax x y.

Definition linear : float := mean_of [39850; 39069; 39436; 38203; 37962]%Z.
Definition manual_tail_recursion : float := mean_of [25036; 25055; 24524; 24351; 24613]%Z.
Definition repr : float := mean_of [29076; 29172; 27810; 29109; 28811]%Z.
Definition first_no_locks : float := mean_of [23909; 24278; 23766]%Z.
Definition first_no_locks_borrow : float := mean_of [23016; 23535; 22770]%Z.
Definition repr_clang_no_locks : float := mean_of [23507; 23259; 24489]%Z.

Definition ratio_line (label : str) (x : float) : str := label ++ "ratio: " ++ fmt_fixed 2 x ++ "s".
Definition perf_lines : list str :=
  [ "linear " ++ fmt_fixed 1 linear ++ "s";
    "manual_tail_recursion  " ++ fmt_fixed 1 manual_tail_recursion ++ "s";
    "repr " ++ fmt_fixed 1 repr ++ "s";
    ratio_line [] (npdiv linear repr); ratio_line [] (npdiv manual_tail_recursion repr);
    ratio_line [] (npdiv manual_tail_recursion linear); [];
    ratio_line "clang " (npdiv first_no_locks repr_clang_no_locks);
    ratio_line "clang " (npdiv first_no_locks_borrow repr_clang_no_locks) ].

Definition means (d : list (Z * list Z)) : list (Z * float) := map (fun '(x, l) => (x, mean_of l)) d.

(** The two texts at a branching factor: the overhead of the run without
    borrowing, and the depth of a tree of ten million keys. *)
Definition factor_texts (plain borrow : list (Z * float)) (x : Z) : res (list (Z * float * str)) :=
  y ← of_option KeyError (dict_get plain x);
  b ← of_option KeyError (dict_get borrow x);
  depth ← fdiv (log 10000000) (log x);
  let ovh := npdiv (fsub y b) y in
  Ok [(x, y, fmt_fixed 1 (fmul ovh (float_of_Z 100)) ++ "%"); (x, fmul y (float_of_dec 8 (-1)), fmt_fixed 1 depth)].

(** The figure: the two curves, the texts and the ticks. *)
Definition perf_figure : res (list (Z * float) * list (Z * float) * list (Z * float * str) * list Z) :=
  let plain := means no_locks in
  let borrow := means no_locks_borrow in
  texts ← map_res (factor_texts plain borrow) (map fst borrow);
  Ok (plain, borrow, concat texts ++ [(64%Z, repr_clang_no_locks, # "* Repr no locks")], map fst plain).
End perf.

(** ** What they show *)

(** The table of the sizes, as printed. *)
Theorem sizes_printed :
  (fun '(lines, _, _) => lines) <$> sizes_main systems =
  Ok [ # "seL4                           9300   197900 21.3"; # "veribetrfs                     6119   28366  4.6";
       # "fscq                           3000   30000  10.0"; # "IronRSL                        3774   36316  9.6";
       # "IronKV                         2173   31718  14.6"; # "Ironclad DiffPriv              6518   32050  4.9";
       # "Ironclad Notary                6072   30744  5.1"; # "Yggdrasil                      3000   5      0.0";
       # "Hyperkernel                    7419   1264   0.2"].
Proof. vm_compute. reflexivity. Qed.

(** The figure of the branching factors is drawn whatever the means are, as long
    as no logarithm of a factor is zero: two texts per factor, at its own place. *)
Theorem perf_drawn mean log :
  Forall (fun x => exists d, fdiv (log 10000000%Z) (log x) = Ok d) (map fst no_locks) ->
  exists texts, perf_figure mean log =
      Ok (means mean no_locks, means mean no_locks_borrow,
          texts ++ [(64%Z, repr_clang_no_locks mean, # "* Repr no locks")], map fst no_locks) /\
    map (fun t => fst (fst t)) texts = [64; 64; 32; 32; 16; 16; 8; 8; 4; 4]%Z.
Proof.
  intros H. unfold no_locks in H. cbn [map fst] in H.
  rewrite !Forall_cons in H. destruct H as ((? & E1) & (? & E2) & (? & E3) & (? & E4) & (? & E5) & _).
  unfold perf_figure, no_locks, no_locks_borrow, means. cbn [map fst map_res].
  unfold factor_texts. cbn [dict_get].
  rewrite E1, E2, E3, E4, E5.
  eexists. split; [reflexivity|]. reflexivity.
Qed.
