(* ===== verification/Mkfs.v ===== *)
(** * Creating the cache file (concurrency/scache/mkfs.py)

    The script writes one block of zeros a million times to a file it empties
    first. *)
From S2P Require Import Prelude PyStr Paths.

Definition mkfs_block : str := repeat "0"%char 4096.
Definition mkfs_count : nat := N.to_nat 1000000.

(** The loop over [range(n)], from the contents of the opened file. *)
Definition mkfs_write (contents : str) (i : nat) : str := contents ++ mkfs_block.
Definition mkfs_loop (n : nat) : str := fold_left mkfs_write (seq 0 n) [].
Definition mkfs (cwd : str) (fs : gmap str str) : gmap str str :=
  <[abspath cwd ".vericache" := mkfs_loop mkfs_count]> fs.

Lemma mkfs_loop_zeros n : mkfs_loop n = repeat "0"%char (n * 4096).
Proof.
  assert (H : forall k i, fold_left mkfs_write (seq i n) (repeat "0"%char k) = repeat "0"%char (k + n * 4096)).
  { induction n as [|n IH]; intros k i; cbn [seq fold_left]; [by rewrite Nat.mul_0_l, Nat.add_0_r|].
    unfold mkfs_write at 2, mkfs_block. rewrite <- repeat_app, IH. f_equal. rewrite Nat.mul_succ_l. lia. }
  exact (H 0 0).
Qed.

(** The file holds the character zero as often as blocks of that size fit, and no
    other file changes, whatever the file held before. *)
Theorem mkfs_zeros cwd fs :
  mkfs cwd fs !! abspath cwd ".vericache" = Some (repeat "0"%char (mkfs_count * 4096)) /\
  forall path, path <> abspath cwd ".vericache" -> mkfs cwd fs !! path = fs !! path.
Proof.
  unfold mkfs. split; [|intros path Hp; by rewrite lookup_insert_ne].
  rewrite lookup_insert_eq. by rewrite mkfs_loop_zeros.
Qed.
